(* ===== verification/_CoqProject ===== *)
-Q . S2P
Prelude.v
GoStd.v
Sha256.v
Host.v
Chain.v
ModuleStore.v
Sums.v
Height.v
Capability.v
CapabilityProofs.v
CapabilityGenesis.v
Port.v
Commitment.v
LightClient.v
Merkle.v
Client.v
Localhost.v
ClientTypes.v
TmStore.v
Tendermint.v
TmStoreProofs.v
Solomachine.v
Clients.v
TmProofs.v
ConnTypes.v
ChanTypes.v
Env.v
ClientChain.v
Connection.v
Channel.v
Queries.v
ChanHandshake.v
Packet.v
MsgServer.v
CoreMsgs.v
ChanProofs.v
PacketProofs.v
Frames.v
HandshakeProofs.v
ClientProofs.v
ConnProofs.v
Protocol.v
Guarantees.v
CoreGenesis.v
Specs.v
QueryProofs.v
MsgProofs.v
TxProofs.v
Security.v
TmSpecs.v
SmSpecs.v
TransferTypes.v
FeeTypes.v
TransferAuthz.v
Transfer.v
Fee.v
FeeProofs.v
FeeInvariant.v
FeeSpecs.v
IcaTypes.v
Ica.v
AppQueries.v
TransferProofs.v
TransferSafety.v
TransferSpecs.v
TransferInvariant.v
Migrations.v
IcaProofs.v
IcaSpecs.v
Codec.v
Loopback.v
TransferLoop.v
IcaLoop.v
Witnesses.v
TransferWitnesses.v
FeeWitnesses.v
ClientLoop.v
TmWitnesses.v
IcaWitnesses.v
AuthzWitnesses.v
