(* ===== verification/Prelude.v ===== *)
(** * ibc-go: a verification library for the core of IBC

    ibc-go is the Go implementation of the Inter-Blockchain Communication protocol
    for chains built on the Cosmos SDK.  A chain keeps light clients of other
    chains (ICS 02), connections that tie a client to a counterparty (ICS 03),
    channels over connections (ICS 04) and the packets sent on them; applications
    own ports and channels through object capabilities; relayers submit messages
    with proofs of what the counterparty has stored.  This library models that
    core as executable functions on the state of a chain, function by function,
    and proves what makes it correct.

    ** The model

    - The state of a chain ([Chain]) is its key-value stores: the IBC store, the two
      stores of x/capability, the stores of the other modules, and the two pieces of
      state that live outside of stores (the map of capability pointers, the
      allocator).  Keys are the byte strings the code builds, values the bytes it
      stores.
    - A keeper method is a function [M A]: from a chain to a value, an error or a
      panic, and the chain it leaves.  Writes made before an error stay, as in the
      code; only a cached context drops them.  [uint64] values are integers of [Z]
      with their wrap-around written out ([u64]).
    - What is not in this repository is a parameter: the SDK's integer and protobuf
      encodings, the staking and upgrade keepers, the ics23 proofs of single trees,
      CometBFT's headers and the verification of their signatures, the SDK's keys.
      Light clients are a class ([LightClient]), as they are an interface in the code,
      and the three clients of the repository are an instance of it.  [IbcEnv] collects the parameters, [IbcLaws] the documented behaviour the
      theorems use (decoding inverts encoding, 64-bit integers take eight bytes, a
      client writes only to the store it is given, the localhost client does not
      write when it verifies).  ClientChain.v is an environment with the three clients,
      of which the laws are proved.  Loopback.v and ClientLoop.v instantiate all of it:
      environments in which every definition runs.

    ** The files

    - Prelude.v: machine integers, errors, outcomes.  GoStd.v: what the code uses of
      Go's standard library (strings, strconv, sort.Search).  Sha256.v: crypto/sha256.
    - Host.v: core/24-host (store paths, identifiers).  Chain.v: stores, computations,
      the tactics that invert runs; ModuleStore.v: the stores of application modules;
      Sums.v: sums over iterations of a store.  Height.v: 02-client/types/height.go.
    - Capability.v, CapabilityProofs.v, CapabilityGenesis.v: modules/capability (types,
      keeper, genesis).
      Port.v: core/05-port.  Commitment.v, Merkle.v: core/23-commitment (paths, and the
      chained proofs with what they prove of a multistore).
    - LightClient.v: core/exported/client.go.  Client.v: core/02-client (types, keeper,
      proposals, genesis, the block hook).  Localhost.v: light-clients/09-localhost, an
      instance of the interface with its laws.
    - ClientTypes.v: the data of the other two clients.  TmStore.v, Tendermint.v:
      light-clients/07-tendermint (store.go; everything else), definitions prefixed
      [Tm_] where the name is that of an interface method.  Solomachine.v:
      light-clients/06-solomachine ([Sm_]).  Clients.v: the dispatch on the type of a
      client.  TmStoreProofs.v, TmProofs.v: the order of the iteration keys, and the
      invariant of a client store.  ClientChain.v: the environment with these clients.
    - ConnTypes.v, ChanTypes.v: the types of core/03-connection and core/04-channel.
      Env.v: the bundle of parameters.  Connection.v: the connection keeper, the
      verification of counterparty state, the handshake.  Channel.v, ChanHandshake.v,
      Packet.v: the channel keeper, its handshake, its packet operations.  Queries.v: the
      gRPC queries of the three modules, definitions prefixed [Query_].  CoreGenesis.v: the
      validation of genesis (types/genesis.go of each, core/types/genesis.go, core/genesis.go).
    - MsgServer.v: core/keeper/msg_server.go, with the callbacks of applications
      (05-port/types/module.go) as a record, and ante/ante.go.  CoreMsgs.v: the messages
      of the three modules (their types/msgs.go), with their stateless checks and
      signers, and the delivery of one to its handler.
    - ChanProofs.v, PacketProofs.v, Frames.v, HandshakeProofs.v, ClientProofs.v,
      ConnProofs.v: what each operation does and what it leaves alone.
    - Protocol.v: the chain as a transition system; Guarantees.v: its invariant and
      the guarantees over runs; Specs.v: the specifications of the channel keeper;
      QueryProofs.v: what the queries answer;
      MsgProofs.v, TxProofs.v: handlers and whole transactions refine the transition
      system; Security.v: what a chain may conclude about its counterparty; TmSpecs.v,
      SmSpecs.v: what it gets from its Tendermint and solo machine clients.
    - TransferTypes.v, Transfer.v: modules/apps/transfer (denomination traces, packet
      data, keeper, callbacks), with the bank as a class; TransferProofs.v: what each
      operation does to balances, supply and recorded escrow; TransferSafety.v: two
      chains and the channel between them; TransferInvariant.v: the registered
      invariant; TransferSpecs.v: the application's callbacks are runs of the protocol,
      refunds; TransferAuthz.v: types/transfer_authorization.go; Migrations.v:
      keeper/migrations.go.
    - FeeTypes.v, Fee.v: modules/apps/29-fee (fees, keeper, the middleware as a function
      from callbacks to callbacks); FeeProofs.v, FeeInvariant.v: payments, and the
      invariant of the escrow; FeeSpecs.v: what the middleware guarantees.
    - IcaTypes.v, Ica.v: modules/apps/27-interchain-accounts (types; the controller with
      its middleware and the host with its callbacks, definitions prefixed [Controller_]
      and [Host_] where both have the method, [ica_] where they share it); IcaProofs.v:
      frames, and how a received transaction ends; IcaSpecs.v: what they guarantee.
    - AppQueries.v: the gRPC queries of the three applications.
    - Codec.v: encodings for the concrete chains.  Loopback.v: a concrete chain that talks to itself over the localhost client;
      TransferLoop.v: the same with a bank and the transfer application; ClientLoop.v: a
      chain with Tendermint and solo machine clients; IcaLoop.v: a controller and a host;
      Witnesses.v, TransferWitnesses.v, FeeWitnesses.v, TmWitnesses.v, IcaWitnesses.v,
      AuthzWitnesses.v: the theorems applied to them.

    ** What the theorems show

    - End to end (Security.v), for clients that accept only what the counterparty's
      store holds: a received packet was sent, a processed acknowledgement was
      written, a timed-out packet was not and will not be received.
    - Light clients (TmSpecs.v, SmSpecs.v): the assumption on clients holds of a
      Tendermint client whose consensus states are those of the counterparty; it has a
      consensus state at its latest height, with its metadata, whatever happens to it, and
      until an upgrade or a recovery its consensus states are ordered in time; a header
      that contradicts one freezes it, another prunes the earliest if it has expired; over
      a Tendermint client delay periods are kept (solo machines ignore them); governance
      recovers it; a solo machine's signatures are by the key it has and used once, as
      long as neither misbehaviour nor recovery rewrites it in between.
    - Over runs of any length (Guarantees.v), with any interleaving of packet
      operations, handshakes, client and connection operations and application code:
      sequences are not reused, packets are received at most once and settled at most
      once, acknowledgements are never overwritten, channels move forward only.
    - Refinement (TxProofs.v, MsgProofs.v): every core message that is delivered is
      such a run, whatever the applications do, as long as their callbacks are runs
      too (callbacks that do not write to the IBC store, or only through the
      keepers' operations); redundant relays change nothing and failed callbacks
      leave only their acknowledgement.
    - Tokens (TransferSafety.v, TransferInvariant.v, TransferSpecs.v): over a channel
      between two chains vouchers in circulation and in flight never exceed what is in
      escrow at the other end; the registered invariant of the module, that what is
      recorded as escrowed is covered, is never broken, and what is recorded is exact if
      nobody else pays into escrow accounts;
      a refund undoes its transfer; the migration that introduced the recorded escrow
      leaves the invariant intact; a grant to transfer with a bounded limit is never
      overspent.
    - Fees (FeeSpecs.v): the escrow covers every recorded fee and the emergency lock is
      never taken; relayers are paid and payers refunded; closing a channel refunds;
      the middleware passes versions and acknowledgements through, and an application
      under it is still a run of the protocol.
    - Interchain accounts (IcaSpecs.v): a host executes a transaction only for the account
      of the port and connection it came from, atomically, and only if it was sent;
      accounts are permanent and have one owner; both chains agree on the address; one
      active channel at a time; the submodules are runs of the protocol.
    - Queries and genesis (QueryProofs.v, CoreGenesis.v, CapabilityGenesis.v): a relayer is told
      exactly which packets were not received; what is stored under the prefix of
      channels are channels, and the listings are complete (the query's up to its page
      limit); identifiers generated after a
      validated genesis are new; capabilities survive an export and an import.
    - Per operation (Specs.v, ConnProofs.v, ClientProofs.v, CapabilityProofs.v): when
      it succeeds, what it writes, what a failure leaves.
    - Data (Host.v, ChanTypes.v, ConnTypes.v, Height.v): store keys are injective,
      identifiers and heights read back, commitments bind, versions negotiate.

    ** Assumptions of the transition system

    A step of Protocol.v is a successful operation (a failed message is rolled back by
    the SDK), or a client, connection or parameter operation with any outcome, or a
    change outside of the IBC store.  Packets of MsgRecvPacket have passed their
    stateless validation; the client stored under the localhost identifier is a
    localhost client; fewer than 2^64 - 1 channels are opened.  Identifiers contain no
    "/" (the validators ensure it).

    The bank and account keepers are a class with the documented behaviour of x/bank:
    a transfer moves exactly its coins or fails and changes nothing, and touches no
    other module's state; sending to a blocked address from a module fails.  The
    account of the fee module is a blocked address and receives coins only through the
    module, as the application wiring of the SDK has it.

    For interchain accounts x/auth and the message router are parameters: accounts are
    kept by address in a store of their own, addresses read back as printed, and the
    handlers of messages are any computations; where a theorem needs them to be runs of
    the protocol, or of the host, it says so (a handler that opens channels is one as
    long as the counter of channels has not run out).

    ** Limits

    - Errors are kept as code space and code; the context strings are not.  A packet
      handler recognises a redundant relay by the error ErrNoOpMsg: the code compares
      pointers, the model the registered error.
    - Events, logs, telemetry and gas are not modelled; nor is concurrency (the SDK
      runs messages one at a time).  Dropping a cached context restores the stores and
      keeps the capability map and the allocator, which are not in a store.
    - getBlockDelay uses float64; it is modelled with the binary64 operations of the
      SpecFloat library.
    - Recursion: loops over lists are structural; sort.Search and the digit and hash
      loops take fuel that is shown or seen to suffice (the length of the interval,
      the number of digits, the number of blocks).
    - That the headers a Tendermint client accepts are those of the chain it follows is
      a fact about CometBFT's validators and signatures and is not claimed here; the
      theorems take the roots of the consensus states as given.
    - Pagination is the SDK's: the queries run their callbacks in it, and the theorems
      assume that a page is a part of the entries, and without a request the first hundred.
      The listing of channels assumes that no other key of the IBC store begins like those
      of channels, as is the case for the keys the modules write.
    - BigEndianToUint64 of the SDK panics on a value of one to seven bytes; the keys read
      with it hold only values of eight bytes, and its answer on others is left open.
    - The totals of the escrow migration assume that valid coins hold a denomination once,
      as the SDK has it; for authorizations the coins' subtraction is a parameter.
    - Not modelled: events, the command lines, the SDK module interfaces, the packing of Any
      values, protobuf and gateway code that is generated, migrations other than those of
      transfer (they move data between versions of the stores that are not in the code any
      more), simulation, the testing packages. *)

From stdpp Require Import gmap strings list.
From Stdlib Require Import ZArith Lia.

#[global] Open Scope Z_scope.
#[global] Arguments String.append !_ _ /.

(** ** Machine integers *)

(** Go's [uint64] values are integers of [Z] in [0, 2^64). *)
Definition MaxUint64 : Z := 2 ^ 64 - 1.
Definition u64 (n : Z) : Z := n mod 2 ^ 64.
Definition is_u64 (n : Z) : Prop := 0 <= n < 2 ^ 64.

#[export] Instance is_u64_dec n : Decision (is_u64 n).
Proof. unfold is_u64. apply _. Defined.

Lemma u64_range n : is_u64 (u64 n).
Proof. unfold is_u64, u64. apply Z.mod_pos_bound. lia. Qed.

Lemma u64_id n : is_u64 n → u64 n = n.
Proof. intros H. apply Z.mod_small, H. Qed.

Lemma u64_succ n : is_u64 n → n ≠ MaxUint64 → u64 (n + 1) = n + 1.
Proof. unfold is_u64, MaxUint64. intros H Hne. apply u64_id. split; lia. Qed.

(** Byte slices and Go strings are both sequences of 8-bit characters. *)
Abbreviation bytes := string (only parsing).

(** ** Errors, outcomes *)

(** An error is its registered root: code space and code
    ([errorsmod.Register]).  The context strings added by [errorsmod.Wrap] are
    not kept: they do not take part in any decision of the code. *)
Record error := mkError { codespace : string; code : Z }.

#[export] Instance error_eq_dec : EqDecision error.
Proof. solve_decision. Defined.

(** What a Go call returns: a value, an error, or a panic. *)
Inductive Outcome (A : Type) : Type :=
| Ok (a : A)
| Err (e : error)
| Panic.
Arguments Ok {A} a.
Arguments Err {A} e.
Arguments Panic {A}.

Definition obind {A B} (o : Outcome A) (f : A → Outcome B) : Outcome B :=
  match o with
  | Ok a => f a
  | Err e => Err e
  | Panic => Panic
  end.

Definition is_ok {A} (o : Outcome A) : bool :=
  match o with Ok _ => true | _ => false end.

Definition of_option {A} (e : error) (o : option A) : Outcome A :=
  match o with Some a => Ok a | None => Err e end.

#[export] Instance outcome_ret : MRet Outcome := @Ok.
#[export] Instance outcome_bind : MBind Outcome := λ A B f o, obind o f.

(** A guard: continue when the condition holds, return the error otherwise. *)
Definition check (b : bool) (e : error) : Outcome () :=
  if b then Ok tt else Err e.

(** A loop that stops at the first error. *)
Fixpoint check_each {A} (f : A → Outcome ()) (l : list A) : Outcome () :=
  match l with
  | [] => Ok tt
  | a :: l' => f a ≫= λ _, check_each f l'
  end.

Lemma check_ok b e u : check b e = Ok u ↔ b = true.
Proof. destruct b, u; simpl; naive_solver. Qed.

Lemma obind_ok {A B} (o : Outcome A) (f : A → Outcome B) b :
  (o ≫= f) = Ok b ↔ ∃ a, o = Ok a ∧ f a = Ok b.
Proof. split; [destruct o; simpl; [eauto|done|done]|by intros (a & -> & ?)]. Qed.
