(* ===== verification/GoStd.v ===== *)
(** * The parts of Go's standard library the sources use

    [strings] ([HasPrefix], [Contains], [Split], [Join], [TrimSpace]),
    [strconv] ([ParseUint], [FormatUint] and the [%d] verb of [fmt]) and the
    regular-expression fragments (character classes) that 24-host, 02-client,
    03-connection and 04-channel use to validate identifiers, with the lemmas
    the identifier and path round trips rest on. *)

From stdpp Require Import gmap strings list.
From Stdlib Require Import ZArith Lia.
From Stdlib Require Import Ascii Decimal DecimalString DecimalN DecimalFacts DecimalPos.
From S2P Require Import Prelude.

(** ** Characters *)

Definition char_code (c : ascii) : Z := Z.of_N (Ascii.N_of_ascii c).

Definition in_range (lo hi : Z) (c : ascii) : bool :=
  (lo <=? char_code c) && (char_code c <=? hi).

Definition is_digit (c : ascii) : bool := in_range 48 57 c.
Definition is_lower (c : ascii) : bool := in_range 97 122 c.
Definition is_upper (c : ascii) : bool := in_range 65 90 c.
Definition is_alnum (c : ascii) : bool := is_digit c || is_lower c || is_upper c.

(** [[\w]] of Go's regexp: [[0-9A-Za-z_]]. *)
Definition is_word (c : ascii) : bool := is_alnum c || bool_decide (c = "_"%char).

(** ** Predicates on whole strings *)

Fixpoint str_forall (p : ascii → bool) (s : string) : bool :=
  match s with
  | EmptyString => true
  | String c s' => p c && str_forall p s'
  end.

Definition str_free (c : ascii) (s : string) : bool :=
  str_forall (λ d, negb (bool_decide (d = c))) s.

Definition HasPrefix (s p : string) : bool := String.prefix p s.

(** [strings.Contains(s, sub)]. *)
Fixpoint Contains (s sub : string) : bool :=
  String.prefix sub s ||
  match s with
  | EmptyString => false
  | String _ s' => Contains s' sub
  end.

(** [strings.TrimSpace(s) == ""]: the string is made of white space, that is of
    the UTF-8 encodings of the characters [unicode.IsSpace] accepts. *)
Definition ascii_space (c : ascii) : bool :=
  in_range 9 13 c || (char_code c =? 32).

Definition space2 (c d : ascii) : bool :=
  (char_code c =? 0xC2) && ((char_code d =? 0x85) || (char_code d =? 0xA0)).

Definition space3 (c d e : ascii) : bool :=
  let '(c, d, e) := (char_code c, char_code d, char_code e) in
  ((c =? 0xE1) && (d =? 0x9A) && (e =? 0x80)) ||
  ((c =? 0xE2) && (d =? 0x80) &&
     (((0x80 <=? e) && (e <=? 0x8A)) || (e =? 0xA8) || (e =? 0xA9) || (e =? 0xAF))) ||
  ((c =? 0xE2) && (d =? 0x81) && (e =? 0x9F)) ||
  ((c =? 0xE3) && (d =? 0x80) && (e =? 0x80)).

Fixpoint is_blank (s : string) : bool :=
  match s with
  | EmptyString => true
  | String c s1 =>
      if ascii_space c then is_blank s1
      else match s1 with
           | EmptyString => false
           | String d s2 =>
               if space2 c d then is_blank s2
               else match s2 with
                    | EmptyString => false
                    | String e s3 => space3 c d e && is_blank s3
                    end
           end
  end.

(** ** [strings.Split] and [strings.Join] *)

(** The separator is not empty.  [skip] counts the characters of a separator
    that was recognised and remain to be dropped. *)
Fixpoint split_go (sep : string) (skip : nat) (cur s : string) : list string :=
  match s with
  | EmptyString => [cur]
  | String c s' =>
      match skip with
      | S n => split_go sep n cur s'
      | O => if String.prefix sep s
             then cur :: split_go sep (Nat.pred (String.length sep)) "" s'
             else split_go sep O (cur +:+ String c "") s'
      end
  end.

Definition Split (s sep : string) : list string := split_go sep 0 "" s.

Fixpoint Join (l : list string) (sep : string) : string :=
  match l with
  | [] => ""
  | [a] => a
  | a :: l' => a +:+ sep +:+ Join l' sep
  end.

(** ** Decimal numbers *)

(** [strconv.FormatUint(n, 10)] and [fmt]'s [%d]. *)
Definition FormatUint (n : Z) : string :=
  NilZero.string_of_uint (N.to_uint (Z.to_N n)).

(** [strconv.ParseUint(s, 10, 64)]: decimal digits only, at least one, and the
    value fits 64 bits. *)
Definition ParseUint (s : string) : option Z :=
  match NilZero.uint_of_string s with
  | None => None
  | Some d => let n := Z.of_N (N.of_uint d) in
              if n <? 2 ^ 64 then Some n else None
  end.

(** ** Bytes, big-endian integers, hexadecimal *)

Definition byte_of (n : Z) : ascii := Ascii.ascii_of_N (Z.to_N (n mod 256)).

Fixpoint bytes_of_string (s : string) : list Z :=
  match s with
  | EmptyString => []
  | String c s' => char_code c :: bytes_of_string s'
  end.

(** The [n] low bytes of a number, most significant first. *)
Fixpoint be_bytes (n : nat) (v : Z) : list Z :=
  match n with
  | O => []
  | S m => Z.shiftr v (8 * Z.of_nat m) mod 256 :: be_bytes m v
  end.

Fixpoint string_of_bytes (l : list Z) : string :=
  match l with
  | [] => EmptyString
  | b :: l' => String (byte_of b) (string_of_bytes l')
  end.

Fixpoint be_word (l : list Z) (acc : Z) : Z :=
  match l with
  | [] => acc
  | b :: l' => be_word l' (256 * acc + b)
  end.

(** Lower-case hexadecimal, two digits per byte. *)
Definition hex_digit (n : Z) : ascii :=
  byte_of (if n <? 10 then 48 + n else 87 + n).

Fixpoint hex (s : string) : string :=
  match s with
  | EmptyString => EmptyString
  | String c s' => String (hex_digit (char_code c / 16)) (String (hex_digit (char_code c mod 16)) (hex s'))
  end.

(** [encoding/binary]'s big-endian 64-bit integers; a missing value reads as 0. *)
Definition be_put64 (n : Z) : bytes := string_of_bytes (be_bytes 8 n).
Definition be_get64 (s : bytes) : Z :=
  match s with
  | EmptyString => 0
  | _ => be_word (firstn 8 (bytes_of_string s)) 0
  end.

(** [fmt]'s [%#016p]: a 64-bit address in hexadecimal, padded to 16 digits. *)
Definition FormatPointer (addr : Z) : string := hex (be_put64 addr).

(** [hex.DecodeString]: digits of either case, an even number of them. *)
Definition hex_value (c : ascii) : option Z :=
  if is_digit c then Some (char_code c - 48)
  else if in_range 97 102 c then Some (char_code c - 87)
  else if in_range 65 70 c then Some (char_code c - 55)
  else None.

Fixpoint DecodeString (s : string) : option bytes :=
  match s with
  | EmptyString => Some EmptyString
  | String _ EmptyString => None
  | String c (String d s') =>
      match hex_value c, hex_value d, DecodeString s' with
      | Some h, Some l, Some r => Some (String (byte_of (16 * h + l)) r)
      | _, _, _ => None
      end
  end.

(** [strings.SplitN(s, sep, 2)] for a separator of one character: the text up to
    the first separator and the rest, or the whole text. *)
Fixpoint SplitN2 (sep : ascii) (s : string) : list string :=
  match s with
  | EmptyString => [EmptyString]
  | String c s' =>
      if bool_decide (c = sep) then [EmptyString; s']
      else match SplitN2 sep s' with
           | [] => []
           | a :: l => String c a :: l
           end
  end.

(** [s[n:]] for [n] at most the length of [s]. *)
Definition str_drop (n : nat) (s : string) : string := String.substring n (String.length s) s.

(** ** [sort.Search] *)

(** The loop of Go's [sort.Search]: the smallest index in [[i, j)] at which [f]
    holds, [j] if there is none, provided [f] is monotone.  The interval shrinks
    at each turn, so [j - i] turns are enough. *)
Fixpoint search_go (f : nat → bool) (fuel i j : nat) : nat :=
  match fuel with
  | O => i
  | S k => if (i <? j)%nat
           then let h := Nat.div2 (i + j) in
                if f h then search_go f k i h else search_go f k (S h) j
           else i
  end.

Definition Search (n : nat) (f : nat → bool) : nat := search_go f n 0 n.

(** * Lemmas *)

Lemma string_of_bytes_length l : String.length (string_of_bytes l) = length l.
Proof. induction l; simpl; auto. Qed.

(** *** Big-endian integers *)

Lemma char_code_range c : 0 <= char_code c < 256.
Proof.
  unfold char_code. pose proof (Ascii.N_ascii_bounded c). lia.
Qed.

Lemma char_code_byte_of n : char_code (byte_of n) = n mod 256.
Proof.
  unfold char_code, byte_of. pose proof (Z.mod_pos_bound n 256 ltac:(lia)).
  rewrite Ascii.N_ascii_embedding by lia. lia.
Qed.

Lemma bytes_of_string_of_bytes l :
  Forall (λ b, 0 <= b < 256) l → bytes_of_string (string_of_bytes l) = l.
Proof.
  induction 1 as [|b l Hb Hl IH]; simpl; [done|].
  rewrite char_code_byte_of, IH, Z.mod_small by done. done.
Qed.

Lemma be_bytes_range n v : Forall (λ b, 0 <= b < 256) (be_bytes n v).
Proof. induction n; simpl; constructor; [apply Z.mod_pos_bound; lia|done]. Qed.

Lemma be_bytes_length n v : length (be_bytes n v) = n.
Proof. induction n; simpl; auto. Qed.

Lemma be_word_bytes n v acc :
  be_word (be_bytes n v) acc = acc * 256 ^ Z.of_nat n + v mod 256 ^ Z.of_nat n.
Proof.
  revert acc. induction n as [|n IH]; intros acc.
  - simpl. rewrite Z.mod_1_r. lia.
  - cbn [be_bytes be_word]. rewrite IH, Nat2Z.inj_succ, Z.pow_succ_r by lia.
    rewrite Z.shiftr_div_pow2 by lia. rewrite Z.pow_mul_r by lia. change (2 ^ 8) with 256.
    set (w := 256 ^ Z.of_nat n). assert (0 < w) by (unfold w; lia).
    rewrite (Z.mul_comm 256 w), Z.rem_mul_r by lia. lia.
Qed.

Lemma be_put64_length n : String.length (be_put64 n) = 8%nat.
Proof. unfold be_put64. by rewrite string_of_bytes_length, be_bytes_length. Qed.

Lemma be_get64_put64 n : is_u64 n → be_get64 (be_put64 n) = n.
Proof.
  intros Hn. unfold be_get64.
  destruct (be_put64 n) eqn:E; [by pose proof (be_put64_length n) as H; rewrite E in H|].
  rewrite <- E. unfold be_put64.
  rewrite bytes_of_string_of_bytes by apply be_bytes_range.
  rewrite take_ge by (by rewrite be_bytes_length).
  rewrite be_word_bytes. simpl. by apply Z.mod_small.
Qed.

Lemma hex_digit_inj a b : 0 <= a < 16 → 0 <= b < 16 → hex_digit a = hex_digit b → a = b.
Proof.
  intros Ha Hb H. apply (f_equal char_code) in H. unfold hex_digit in H.
  rewrite !char_code_byte_of in H.
  destruct (a <? 10) eqn:Ea, (b <? 10) eqn:Eb; rewrite !Z.mod_small in H by lia; lia.
Qed.

Lemma char_code_inj c d : char_code c = char_code d → c = d.
Proof.
  unfold char_code. intros H.
  rewrite <- (Ascii.ascii_N_embedding c), <- (Ascii.ascii_N_embedding d). f_equal. lia.
Qed.

Lemma hex_inj s t : hex s = hex t → s = t.
Proof.
  revert t. induction s as [|c s IH]; intros [|d t]; simpl; try done.
  intros [= H1 H2 H3]. f_equal; [|by apply IH].
  pose proof (char_code_range c). pose proof (char_code_range d).
  apply char_code_inj.
  apply hex_digit_inj in H1; [|split; [apply Z.div_pos; lia|apply Z.div_lt_upper_bound; lia]..].
  apply hex_digit_inj in H2; [|apply Z.mod_pos_bound; lia..].
  rewrite (Z.div_mod (char_code c) 16), (Z.div_mod (char_code d) 16) by lia. congruence.
Qed.

Lemma FormatPointer_inj a b : is_u64 a → is_u64 b → FormatPointer a = FormatPointer b → a = b.
Proof.
  intros Ha Hb H%hex_inj. apply (f_equal be_get64) in H.
  by rewrite !be_get64_put64 in H.
Qed.

(** *** Binary search *)

Section search.
Context (f : nat → bool).
Hypothesis f_mono : ∀ i j, (i ≤ j)%nat → f i = true → f j = true.

Lemma search_go_spec fuel i j :
    (j - i ≤ fuel)%nat → (i ≤ j)%nat →
    let r := search_go f fuel i j in
    (i ≤ r ≤ j)%nat ∧ (∀ k, (i ≤ k < r)%nat → f k = false) ∧ ((r < j)%nat → f r = true).
Proof using f_mono.
    revert i j. induction fuel as [|fuel IH]; intros i j Hf Hij; simpl.
    { split_and!; intros; lia. }
    destruct (Nat.ltb_spec i j); [|split_and!; intros; lia].
    assert (i ≤ Nat.div2 (i + j) < j)%nat as Hh.
    { rewrite Nat.div2_div. split; [apply Nat.div_le_lower_bound; lia|].
      apply Nat.Div0.div_lt_upper_bound; lia. }
    destruct (f (Nat.div2 (i + j))) eqn:E.
    - destruct (IH i (Nat.div2 (i + j))) as (H1 & H2 & H3); [lia..|].
      split_and!; [lia|lia|done|]. intros Hr.
      destruct (decide (search_go f fuel i (Nat.div2 (i + j)) < Nat.div2 (i + j))%nat); [auto|].
      eapply f_mono; [|exact E]. lia.
    - destruct (IH (S (Nat.div2 (i + j))) j) as (H1 & H2 & H3); [lia..|].
      split_and!; [lia|lia| |done].
      intros k Hk. destruct (decide (k ≤ Nat.div2 (i + j))%nat) as [Hle|]; [|apply H2; lia].
      destruct (f k) eqn:Ek; [|done]. by rewrite (f_mono k _ Hle Ek) in E.
Qed.

Lemma Search_spec n :
    (Search n f ≤ n)%nat ∧ (∀ k, (k < Search n f)%nat → f k = false) ∧
    ((Search n f < n)%nat → f (Search n f) = true).
Proof using f_mono.
    unfold Search. destruct (search_go_spec n 0 n) as (H1 & H2 & H3); [lia..|].
    split_and!; [lia| |done]. intros k Hk. apply H2. lia.
Qed.
End search.



Lemma string_app_nil_r s : s +:+ "" = s.
Proof. induction s as [|c s IH]; simpl; congruence. Qed.

Lemma string_app_assoc a b c : (a +:+ b) +:+ c = a +:+ (b +:+ c).
Proof. induction a as [|x a IH]; simpl; congruence. Qed.

Lemma string_app_inj_l a b c : a +:+ b = a +:+ c → b = c.
Proof. induction a as [|x a IH]; simpl; intros H; [done|]. injection H. auto. Qed.

Lemma string_length_app a b :
  String.length (a +:+ b) = (String.length a + String.length b)%nat.
Proof. induction a as [|x a IH]; simpl; auto. Qed.

Lemma str_forall_app p a b :
  str_forall p (a +:+ b) = str_forall p a && str_forall p b.
Proof. induction a as [|x a IH]; simpl; [done|]. rewrite IH. by rewrite andb_assoc. Qed.

Lemma str_forall_impl p q s :
  (∀ c, p c = true → q c = true) → str_forall p s = true → str_forall q s = true.
Proof.
  intros Hpq. induction s as [|c s IH]; simpl; [done|].
  rewrite !andb_true_iff. intros [??]; auto.
Qed.

Lemma string_compare_refl s : String.compare s s = Eq.
Proof. induction s as [|c s IH]; simpl; [done|]. unfold Ascii.compare. by rewrite N.compare_refl. Qed.

Lemma prefix_app p s : String.prefix p (p +:+ s) = true.
Proof.
  induction p as [|c p IH]; [by destruct s|]. simpl.
  destruct (Ascii.ascii_dec c c); [done|congruence].
Qed.

Lemma prefix_inv p s : String.prefix p s = true → ∃ t, s = p +:+ t.
Proof.
  revert s. induction p as [|c p IH]; intros s H; [by exists s|].
  destruct s as [|d s]; simpl in H; [done|].
  destruct (Ascii.ascii_dec c d) as [->|]; [|done].
  destruct (IH s H) as [t ->]. by exists t.
Qed.

(** A separator whose first character does not occur is never found. *)
Lemma split_go_free c sep cur s :
  str_free c s = true → split_go (String c sep) 0 cur s = [cur +:+ s].
Proof.
  revert cur. induction s as [|d s IH]; intros cur Hs; simpl.
  - by rewrite string_app_nil_r.
  - unfold str_free in Hs. simpl in Hs. apply andb_true_iff in Hs as [Hd Hs].
    destruct (Ascii.ascii_dec c d) as [->|_].
    + by rewrite bool_decide_eq_true_2 in Hd.
    + rewrite IH by done. by rewrite string_app_assoc.
Qed.

Lemma split_go_app c cur a b :
  str_free c a = true →
  split_go (String c "") 0 cur (a +:+ String c b) =
  (cur +:+ a) :: split_go (String c "") 0 "" b.
Proof.
  revert cur. induction a as [|d a IH]; intros cur Ha; simpl.
  - destruct (Ascii.ascii_dec c c); [|congruence].
    by rewrite string_app_nil_r; destruct b.
  - unfold str_free in Ha. simpl in Ha. apply andb_true_iff in Ha as [Hd Ha].
    destruct (Ascii.ascii_dec c d) as [->|_].
    + by rewrite bool_decide_eq_true_2 in Hd.
    + rewrite IH by done. by rewrite string_app_assoc.
Qed.

Lemma Split_one c s : str_free c s = true → Split s (String c "") = [s].
Proof. intros H. unfold Split. by rewrite split_go_free. Qed.

Lemma Split_app c a b :
  str_free c a = true →
  Split (a +:+ String c b) (String c "") = a :: Split b (String c "").
Proof. intros H. unfold Split. by rewrite split_go_app. Qed.

(** A recognised multi-character prefix followed by text that has no other
    occurrence of the separator. *)
Lemma split_go_skip sep cur a b :
  split_go sep (String.length a) cur (a +:+ b) = split_go sep 0 cur b.
Proof. by induction a as [|c a IH]. Qed.

Lemma Split_prefix c p s :
  str_free c s = true →
  Split (String c p +:+ s) (String c p) = [""; s].
Proof.
  intros Hs. unfold Split. simpl.
  destruct (Ascii.ascii_dec c c); [|congruence].
  rewrite prefix_app. by rewrite split_go_skip, split_go_free.
Qed.

(** ** Decimal round trips *)

Lemma string_of_uint_digits u :
  str_forall is_digit (NilEmpty.string_of_uint u) = true.
Proof. by induction u. Qed.

Lemma FormatUint_digits n : str_forall is_digit (FormatUint n) = true.
Proof.
  unfold FormatUint, NilZero.string_of_uint.
  destruct (N.to_uint _) eqn:E; try apply string_of_uint_digits; done.
Qed.

Lemma FormatUint_nonempty n : FormatUint n ≠ "".
Proof. unfold FormatUint, NilZero.string_of_uint. by destruct (N.to_uint _). Qed.

Lemma ParseUint_FormatUint n : is_u64 n → ParseUint (FormatUint n) = Some n.
Proof.
  intros [Hlo Hhi]. unfold ParseUint, FormatUint.
  rewrite NilZero.usu_nil || rewrite NilZero.usu.
  2: { intros Hnil.
       pose proof (DecimalN.Unsigned.of_to (Z.to_N n)) as Hof. rewrite Hnil in Hof.
       simpl in Hof. rewrite <- Hof in Hnil. done. }
  rewrite DecimalN.Unsigned.of_to, Z2N.id by done.
  destruct (n <? 2 ^ 64) eqn:E; [done|]. apply Z.ltb_ge in E. lia.
Qed.

Lemma FormatUint_inj m n : is_u64 m → is_u64 n → FormatUint m = FormatUint n → m = n.
Proof.
  intros Hm Hn H. apply (f_equal ParseUint) in H.
  rewrite !ParseUint_FormatUint in H by done. congruence.
Qed.

Lemma ParseUint_range s n : ParseUint s = Some n → is_u64 n.
Proof.
  unfold ParseUint, is_u64. destruct (NilZero.uint_of_string s); [|done].
  destruct (_ <? _) eqn:E; [|done]. intros [= <-]. apply Z.ltb_lt in E. lia.
Qed.

(** A 64-bit number has at most twenty digits. *)
Lemma of_uint_acc_ge d p :
  Z.pos p * 10 ^ Z.of_nat (String.length (NilEmpty.string_of_uint d)) <= Z.pos (Pos.of_uint_acc d p).
Proof.
  revert p. induction d as [|d IH|d IH|d IH|d IH|d IH|d IH|d IH|d IH|d IH|d IH]; intros p;
    cbn [NilEmpty.string_of_uint String.length Pos.of_uint_acc]; [simpl; lia|..];
    match goal with |- _ <= Z.pos (Pos.of_uint_acc _ ?q) => specialize (IH q) end;
    rewrite Nat2Z.inj_succ, Z.pow_succ_r by lia;
    rewrite ?Pos2Z.inj_add, Pos2Z.inj_mul in IH; nia.
Qed.

Lemma FormatUint_length n : is_u64 n → (String.length (FormatUint n) ≤ 20)%nat.
Proof.
  intros [Hlo Hhi].
  assert (∀ d p, Z.pos (Pos.of_uint_acc d p) < 2 ^ 64 →
                 (S (String.length (NilEmpty.string_of_uint d)) ≤ 20)%nat) as Hacc.
  { intros d p Hd. pose proof (of_uint_acc_ge d p) as Hge.
    destruct (decide (String.length (NilEmpty.string_of_uint d) ≤ 19)%nat) as [|Hgt]; [lia|].
    assert (10 ^ 20 <= 10 ^ Z.of_nat (String.length (NilEmpty.string_of_uint d)))
      by (apply Z.pow_le_mono_r; lia). lia. }
  unfold FormatUint. pose proof (DecimalN.Unsigned.of_to (Z.to_N n)) as Hof.
  assert (Z.of_N (N.of_uint (N.to_uint (Z.to_N n))) < 2 ^ 64) as Hlt by (rewrite Hof; lia).
  pose proof (DecimalN.Unsigned.to_of (N.to_uint (Z.to_N n))) as Hn. rewrite Hof in Hn.
  destruct (N.to_uint (Z.to_N n)) as [|d|d|d|d|d|d|d|d|d|d]; simpl in *;
    try (by apply (Hacc d _ Hlt)); [lia|].
  unfold unorm in Hn. simpl in Hn. destruct (nzhead d) eqn:E; try discriminate Hn;
   [injection Hn as ->; simpl; lia|..].
  by apply DecimalFacts.nzhead_nonzero in E.
Qed.

Lemma digit_not c d : is_digit c = false → is_digit d = true → negb (bool_decide (d = c)) = true.
Proof.
  intros Hc Hd. rewrite negb_true_iff. apply bool_decide_eq_false_2.
  intros ->. congruence.
Qed.

Lemma FormatUint_free c n : is_digit c = false → str_free c (FormatUint n) = true.
Proof.
  intros Hc. eapply str_forall_impl; [|apply (FormatUint_digits n)].
  intros d Hd. by apply digit_not.
Qed.

(** ** Splitting at one character *)

(** A string is free of the separator, or it is a free part, the separator and
    a rest. *)
Lemma split_ind (c : ascii) (P : string → Prop) :
  (∀ s, str_free c s = true → P s) →
  (∀ a b, str_free c a = true → P b → P (a +:+ String c b)) →
  ∀ s, P s.
Proof.
  intros Hfree Hsep s.
  remember (String.length s) as n eqn:Hn. revert s Hn.
  induction (lt_wf n) as [n _ IH]. intros s ->.
  assert (str_free c s = true ∨ ∃ a b, str_free c a = true ∧ s = a +:+ String c b)
    as [Hs|(a & b & Ha & ->)].
  { clear. induction s as [|d s IH]; [by left|].
    destruct (decide (d = c)) as [->|Hd]; [by right; exists "", s|].
    assert (∀ x, str_free c (String d x) = str_free c x) as Hcons.
    { intros x. unfold str_free. simpl. by rewrite bool_decide_eq_false_2. }
    destruct IH as [IH|(a & b & Ha & ->)].
    - left. by rewrite Hcons.
    - right. exists (String d a), b. by rewrite Hcons. }
  - by apply Hfree.
  - apply Hsep; [done|]. eapply IH; [|done]. rewrite !string_length_app. simpl. lia.
Qed.

Lemma Split_nonempty c s : Split s (String c "") ≠ [].
Proof.
  induction s as [s Hs|a b Ha IH] using (split_ind c).
  - by rewrite Split_one.
  - by rewrite Split_app.
Qed.

Lemma Join_Split c s : Join (Split s (String c "")) (String c "") = s.
Proof.
  induction s as [s Hs|a b Ha IH] using (split_ind c).
  - by rewrite Split_one.
  - rewrite Split_app by done. pose proof (Split_nonempty c b) as Hne.
    destruct (Split b (String c "")) as [|x l] eqn:E; [done|]. rewrite <- IH. done.
Qed.

Lemma Split_join c s d :
  Split (s +:+ String c d) (String c "") = Split s (String c "") ++ Split d (String c "").
Proof.
  induction s as [s Hs|a b Ha IH] using (split_ind c).
  - rewrite Split_app, (Split_one c s) by done. done.
  - rewrite string_app_assoc. change (String c b +:+ String c d) with (String c (b +:+ String c d)).
    rewrite !(Split_app c a) by done. rewrite IH. done.
Qed.

Lemma Split_snoc c s d :
  str_free c d = true → Split (s +:+ String c d) (String c "") = Split s (String c "") ++ [d].
Proof. intros Hd. by rewrite Split_join, (Split_one c d). Qed.

Lemma substring_suffix a b :
  String.substring (String.length a) (String.length (a +:+ b)) (a +:+ b) = b.
Proof.
  assert (∀ n s, (String.length s ≤ n)%nat → String.substring 0 n s = s) as Hall.
  { intros n s. revert n. induction s as [|c s IH]; intros [|n] Hn; simpl in *; try done; [lia|].
    f_equal. apply IH. lia. }
  assert (∀ n, (String.length b ≤ n)%nat → String.substring (String.length a) n (a +:+ b) = b) as Hs.
  { induction a as [|c a IH]; intros n Hn; simpl; [by apply Hall|]. destruct n; by apply IH. }
  apply Hs. rewrite string_length_app. lia.
Qed.

Lemma str_drop_app a b : str_drop (String.length a) (a +:+ b) = b.
Proof. apply substring_suffix. Qed.
