(* ===== verification/Sha256.v ===== *)
(** * crypto/sha256

    The hash of Go's [crypto/sha256] ([sha256.Sum256]), which packet and
    acknowledgement commitments are built from (04-channel/types/packet.go),
    written out as FIPS 180-4 gives it so that commitments can be evaluated.
    Nothing in the development assumes that it has no collisions: statements
    about commitments exhibit the collision when two different inputs hash to
    the same digest. *)

From stdpp Require Import gmap strings list.
From Stdlib Require Import ZArith Lia Ascii.
From S2P Require Import Prelude GoStd.

(** ** The compression function *)

Definition w32 (x : Z) : Z := x mod 2 ^ 32.
Definition rotr (n x : Z) : Z :=
  Z.lor (Z.shiftr x n) (w32 (Z.shiftl x (32 - n))).
Definition bsig0 x := Z.lxor (rotr 2 x) (Z.lxor (rotr 13 x) (rotr 22 x)).
Definition bsig1 x := Z.lxor (rotr 6 x) (Z.lxor (rotr 11 x) (rotr 25 x)).
Definition ssig0 x := Z.lxor (rotr 7 x) (Z.lxor (rotr 18 x) (Z.shiftr x 3)).
Definition ssig1 x := Z.lxor (rotr 17 x) (Z.lxor (rotr 19 x) (Z.shiftr x 10)).
Definition ch x y z := Z.lxor (Z.land x y) (Z.land (Z.lxor x (2 ^ 32 - 1)) z).
Definition maj x y z := Z.lxor (Z.land x y) (Z.lxor (Z.land x z) (Z.land y z)).

(** The constants are the first 32 fractional bits of roots of the first
    primes: cube roots of 64 primes for the rounds, square roots of 8 primes for
    the initial state. They are computed here, once, when the file is checked. *)

Definition is_prime (n : Z) : bool :=
  forallb (λ d, negb (n mod Z.of_nat d =? 0)) (seq 2 (Z.to_nat n - 2)).

Definition primes : list Z := filter is_prime (map Z.of_nat (seq 2 310)).

(** The largest [r] with [r ^ e <= n], one bit at a time from bit [bits - 1]. *)
Fixpoint int_root (e n : Z) (bits : nat) (r : Z) : Z :=
  match bits with
  | O => r
  | S b =>
      let r' := r + 2 ^ Z.of_nat b in
      int_root e n b (if r' ^ e <=? n then r' else r)
  end.

Definition root_fraction (e p : Z) : Z := int_root e (p * 2 ^ (32 * e)) 40 0 mod 2 ^ 32.

Definition sha_k : list Z :=
  Eval vm_compute in map (root_fraction 3) primes.

Example sha_k_length : length sha_k = 64%nat.
Proof. reflexivity. Qed.

Record sha_state := mkSha { sa : Z; sb : Z; sc : Z; sd : Z; se : Z; sf : Z; sg : Z; sh : Z }.

Definition sha_init : sha_state :=
  Eval vm_compute in
    let r i := root_fraction 2 (nth i primes 0) in
    mkSha (r 0%nat) (r 1%nat) (r 2%nat) (r 3%nat) (r 4%nat) (r 5%nat) (r 6%nat) (r 7%nat).

Definition sha_round (k w : Z) (s : sha_state) : sha_state :=
  let t1 := sh s + bsig1 (se s) + ch (se s) (sf s) (sg s) + k + w in
  let t2 := bsig0 (sa s) + maj (sa s) (sb s) (sc s) in
  mkSha (w32 (t1 + t2)) (sa s) (sb s) (sc s) (w32 (sd s + t1)) (se s) (sf s) (sg s).

(** The window holds the words W(t) .. W(t+15) of the message schedule. *)
Fixpoint sha_rounds (ks window : list Z) (s : sha_state) : sha_state :=
  match ks with
  | [] => s
  | k :: ks' =>
      let w i := nth i window 0 in
      let next := w32 (ssig1 (w 14%nat) + w 9%nat + ssig0 (w 1%nat) + w 0%nat) in
      sha_rounds ks' (tl window ++ [next]) (sha_round k (w 0%nat) s)
  end.

Definition sha_add (x y : sha_state) : sha_state :=
  mkSha (w32 (sa x + sa y)) (w32 (sb x + sb y)) (w32 (sc x + sc y)) (w32 (sd x + sd y))
        (w32 (se x + se y)) (w32 (sf x + sf y)) (w32 (sg x + sg y)) (w32 (sh x + sh y)).

Fixpoint chunks (n : nat) (fuel : nat) (l : list Z) : list (list Z) :=
  match fuel with
  | O => []
  | S f => match l with
           | [] => []
           | _ => firstn n l :: chunks n f (skipn n l)
           end
  end.

Definition sha_block (s : sha_state) (block : list Z) : sha_state :=
  let words := map (λ l, be_word l 0) (chunks 4 16 block) in
  sha_add s (sha_rounds sha_k words s).

Definition sha_pad (l : list Z) : list Z :=
  let n := Z.of_nat (length l) in
  let zeros := Z.to_nat ((55 - n) mod 64) in
  l ++ [0x80] ++ repeat 0 zeros ++ be_bytes 8 (8 * n).

Definition sha_digest (s : sha_state) : list Z :=
  be_bytes 4 (sa s) ++ be_bytes 4 (sb s) ++ be_bytes 4 (sc s) ++ be_bytes 4 (sd s) ++
  be_bytes 4 (se s) ++ be_bytes 4 (sf s) ++ be_bytes 4 (sg s) ++ be_bytes 4 (sh s).

(** [sha256.Sum256]. *)
Definition Sum256 (data : bytes) : bytes :=
  let padded := sha_pad (bytes_of_string data) in
  string_of_bytes (sha_digest (fold_left sha_block (chunks 64 (length padded) padded) sha_init)).

Example sum256_abc :
  hex (Sum256 "abc") = "ba7816bf8f01cfea414140de5dae2223b00361a396177a9cb410ff61f20015ad".
Proof. vm_compute. reflexivity. Qed.

Example sum256_empty :
  hex (Sum256 "") = "e3b0c44298fc1c149afbf4c8996fb92427ae41e4649b934ca495991b7852b855".
Proof. vm_compute. reflexivity. Qed.

Example sum256_two_blocks :
  hex (Sum256 "abcdbcdecdefdefgefghfghighijhijkijkljklmklmnlmnomnopnopq") =
  "248d6a61d20638b8e5c026930c3e6039a33ce45964ff2167f6ecedd419db06c1".
Proof. vm_compute. reflexivity. Qed.

(** A digest has 32 bytes. *)
Lemma Sum256_length data : String.length (Sum256 data) = 32%nat.
Proof. unfold Sum256. by rewrite string_of_bytes_length. Qed.

Lemma Sum256_nonempty data : Sum256 data ≠ "".
Proof. intros H. pose proof (Sum256_length data) as Hl. by rewrite H in Hl. Qed.

(** [x] and [y] are two different inputs with one digest. *)
Definition collides (x y : bytes) : Prop := x ≠ y ∧ Sum256 x = Sum256 y.

Lemma Sum256_inj_or x y : Sum256 x = Sum256 y → x = y ∨ collides x y.
Proof. intros H. destruct (decide (x = y)) as [|Hne]; [by left|by right]. Qed.

#[global] Opaque Sum256.
