(* ===== verification/Host.v ===== *)
(** * ICS 24: identifiers, paths and store keys

    Models src/modules/core/24-host: the store paths of keys.go, the parsers of
    parse.go and the identifier validators of validate.go.  Go turns a path into
    a key with [[]byte(path)]; a byte slice and a string are the same sequence
    of bytes here, so the [...Key] functions are their [...Path] functions.

    The theorems show that the paths identify what they name: for identifiers
    without a separator (which the validators enforce) every path function is
    injective, different path families never meet, and parsing inverts
    formatting. *)

From stdpp Require Import gmap strings list.
From Stdlib Require Import ZArith Lia Ascii.
From S2P Require Import Prelude GoStd.

(** ** errors.go *)

Definition ErrInvalidID : error := mkError "host" 2.
Definition ErrInvalidPath : error := mkError "host" 3.
Definition ErrInvalidPacketHost : error := mkError "host" 4.

(** An error that is not registered: [fmt.Errorf] and the errors of the
    standard library. *)
Definition errUnregistered : error := mkError "undefined" 1.

(** ** keys.go *)

Definition KeyClientStorePrefix : string := "clients".
Definition KeyClientState : string := "clientState".
Definition KeyConsensusStatePrefix : string := "consensusStates".
Definition KeyConnectionPrefix : string := "connections".
Definition KeyChannelEndPrefix : string := "channelEnds".
Definition KeyChannelPrefix : string := "channels".
Definition KeyPortPrefix : string := "ports".
Definition KeySequencePrefix : string := "sequences".
Definition KeyChannelCapabilityPrefix : string := "capabilities".
Definition KeyNextSeqSendPrefix : string := "nextSequenceSend".
Definition KeyNextSeqRecvPrefix : string := "nextSequenceRecv".
Definition KeyNextSeqAckPrefix : string := "nextSequenceAck".
Definition KeyPacketCommitmentPrefix : string := "commitments".
Definition KeyPacketAckPrefix : string := "acks".
Definition KeyPacketReceiptPrefix : string := "receipts".

Definition FullClientPath (clientID path : string) : string :=
  KeyClientStorePrefix +:+ "/" +:+ clientID +:+ "/" +:+ path.

Definition PrefixedClientStorePath (prefix : string) : string :=
  KeyClientStorePrefix +:+ "/" +:+ prefix.

Definition FullClientStatePath (clientID : string) : string :=
  FullClientPath clientID KeyClientState.

Definition ClientStateKey : string := KeyClientState.

(** [height] is the string form of a height ([%s] of an [exported.Height]). *)
Definition ConsensusStatePath (height : string) : string :=
  KeyConsensusStatePrefix +:+ "/" +:+ height.

Definition FullConsensusStatePath (clientID height : string) : string :=
  FullClientPath clientID (ConsensusStatePath height).

Definition ClientConnectionsPath (clientID : string) : string :=
  FullClientPath clientID KeyConnectionPrefix.

Definition ConnectionPath (connectionID : string) : string :=
  KeyConnectionPrefix +:+ "/" +:+ connectionID.

Definition channelPath (portID channelID : string) : string :=
  KeyPortPrefix +:+ "/" +:+ portID +:+ "/" +:+ KeyChannelPrefix +:+ "/" +:+ channelID.

Definition sequencePath (sequence : Z) : string :=
  KeySequencePrefix +:+ "/" +:+ FormatUint sequence.

Definition ChannelPath (portID channelID : string) : string :=
  KeyChannelEndPrefix +:+ "/" +:+ channelPath portID channelID.

Definition ChannelCapabilityPath (portID channelID : string) : string :=
  KeyChannelCapabilityPrefix +:+ "/" +:+ channelPath portID channelID.

Definition NextSequenceSendPath (portID channelID : string) : string :=
  KeyNextSeqSendPrefix +:+ "/" +:+ channelPath portID channelID.

Definition NextSequenceRecvPath (portID channelID : string) : string :=
  KeyNextSeqRecvPrefix +:+ "/" +:+ channelPath portID channelID.

Definition NextSequenceAckPath (portID channelID : string) : string :=
  KeyNextSeqAckPrefix +:+ "/" +:+ channelPath portID channelID.

Definition PacketCommitmentPrefixPath (portID channelID : string) : string :=
  KeyPacketCommitmentPrefix +:+ "/" +:+ channelPath portID channelID +:+ "/" +:+ KeySequencePrefix.

Definition PacketCommitmentPath (portID channelID : string) (sequence : Z) : string :=
  PacketCommitmentPrefixPath portID channelID +:+ "/" +:+ FormatUint sequence.

Definition PacketAcknowledgementPrefixPath (portID channelID : string) : string :=
  KeyPacketAckPrefix +:+ "/" +:+ channelPath portID channelID +:+ "/" +:+ KeySequencePrefix.

Definition PacketAcknowledgementPath (portID channelID : string) (sequence : Z) : string :=
  PacketAcknowledgementPrefixPath portID channelID +:+ "/" +:+ FormatUint sequence.

Definition PacketReceiptPath (portID channelID : string) (sequence : Z) : string :=
  KeyPacketReceiptPrefix +:+ "/" +:+ channelPath portID channelID +:+ "/" +:+ sequencePath sequence.

Definition PortPath (portID : string) : string :=
  KeyPortPrefix +:+ "/" +:+ portID.

(** ** parse.go *)

Definition ParseIdentifier (identifier prefix : string) : Outcome Z :=
  check (HasPrefix identifier prefix) ErrInvalidID;;
  let splitStr := Split identifier prefix in
  check (bool_decide (length splitStr = 2%nat)) ErrInvalidID;;
  check (bool_decide (splitStr !! 0%nat = Some "")) ErrInvalidID;;
  of_option errUnregistered (splitStr !! 1%nat ≫= ParseUint).

Definition parseClientStatePath (path : string) : Outcome string :=
  match Split path "/" with
  | [s0; s1; s2] =>
      check (bool_decide (s0 = KeyClientStorePrefix)) ErrInvalidPath;;
      check (bool_decide (s2 = KeyClientState)) ErrInvalidPath;;
      check (negb (is_blank s1)) ErrInvalidPath;;
      Ok s1
  | _ => Err ErrInvalidPath
  end.

(** The [Must...] parsers panic where their counterparts return an error. *)
Definition must {A} (o : Outcome A) : Outcome A :=
  match o with Err _ => Panic | _ => o end.

Definition MustParseClientStatePath (path : string) : Outcome string :=
  must (parseClientStatePath path).

Definition ParseConnectionPath (path : string) : Outcome string :=
  match Split path "/" with
  | [_; s1] => Ok s1
  | _ => Err ErrInvalidPath
  end.

Definition ParseChannelPath (path : string) : Outcome (string * string) :=
  match Split path "/" with
  | _ :: s1 :: s2 :: s3 :: s4 :: _ =>
      check (bool_decide (s1 = KeyPortPrefix) && bool_decide (s3 = KeyChannelPrefix)) ErrInvalidPath;;
      Ok (s2, s4)
  | _ => Err ErrInvalidPath
  end.

Definition MustParseConnectionPath (path : string) : Outcome string :=
  must (ParseConnectionPath path).

Definition MustParseChannelPath (path : string) : Outcome (string * string) :=
  must (ParseChannelPath path).

(** ** validate.go *)

Definition DefaultMaxCharacterLength : Z := 64.
Definition DefaultMaxPortCharacterLength : Z := 128.

(** The class of [^[a-zA-Z0-9\.\_\+\-\#\[\]\<\>]+$]. *)
Definition valid_id_char (c : ascii) : bool :=
  is_alnum c ||
  existsb (Ascii.eqb c) ["."; "_"; "+"; "-"; "#"; "["; "]"; "<"; ">"]%char.

Definition IsValidID (id : string) : bool :=
  negb (bool_decide (id = "")) && str_forall valid_id_char id.

Definition defaultIdentifierValidator (id : string) (min max : Z) : Outcome () :=
  check (negb (is_blank id)) ErrInvalidID;;
  check (negb (Contains id "/")) ErrInvalidID;;
  let len := Z.of_nat (String.length id) in
  check (negb ((len <? min) || (max <? len))) ErrInvalidID;;
  check (IsValidID id) ErrInvalidID.

Definition ClientIdentifierValidator (id : string) : Outcome () :=
  defaultIdentifierValidator id 9 DefaultMaxCharacterLength.

Definition ConnectionIdentifierValidator (id : string) : Outcome () :=
  defaultIdentifierValidator id 10 DefaultMaxCharacterLength.

Definition ChannelIdentifierValidator (id : string) : Outcome () :=
  defaultIdentifierValidator id 8 DefaultMaxCharacterLength.

Definition PortIdentifierValidator (id : string) : Outcome () :=
  defaultIdentifierValidator id 2 DefaultMaxPortCharacterLength.

(** The loop of the validator [NewPathValidator] builds. *)
Fixpoint validate_path_elements (idValidator : string → Outcome ()) (l : list string) : Outcome () :=
  match l with
  | [] => Ok tt
  | p :: l' =>
      check (negb (bool_decide (p = ""))) ErrInvalidPath;;
      idValidator p;;
      defaultIdentifierValidator p 1 DefaultMaxCharacterLength;;
      validate_path_elements idValidator l'
  end.

Definition NewPathValidator (idValidator : string → Outcome ()) (path : string) : Outcome () :=
  let pathArr := Split path "/" in
  check (negb (bool_decide (head pathArr = Some path))) ErrInvalidPath;;
  validate_path_elements idValidator pathArr.

(** * Lemmas *)

Create HintDb keys.
#[export] Hint Unfold
  KeyClientStorePrefix KeyClientState KeyConsensusStatePrefix KeyConnectionPrefix
  KeyChannelEndPrefix KeyChannelPrefix KeyPortPrefix KeySequencePrefix
  KeyChannelCapabilityPrefix KeyNextSeqSendPrefix KeyNextSeqRecvPrefix KeyNextSeqAckPrefix
  KeyPacketCommitmentPrefix KeyPacketAckPrefix KeyPacketReceiptPrefix
  FullClientPath PrefixedClientStorePath FullClientStatePath ClientStateKey
  ConsensusStatePath FullConsensusStatePath ClientConnectionsPath ConnectionPath
  channelPath sequencePath ChannelPath ChannelCapabilityPath NextSequenceSendPath
  NextSequenceRecvPath NextSequenceAckPath PacketCommitmentPrefixPath PacketCommitmentPath
  PacketAcknowledgementPrefixPath PacketAcknowledgementPath PacketReceiptPath PortPath : keys.

(** Keys of different families differ in the literal part of their path. *)
Ltac key_ne :=
  let H := fresh in
  intros H; repeat autounfold with keys in H; simpl in H; discriminate H.

Abbreviation no_slash s := (str_free "/"%char s = true).

Lemma IsValidID_free c id : valid_id_char c = false → IsValidID id = true → str_free c id = true.
Proof.
  intros Hc. unfold IsValidID. rewrite andb_true_iff. intros [_ H].
  eapply str_forall_impl; [|exact H]. intros d Hd. rewrite negb_true_iff.
  apply bool_decide_eq_false_2. intros ->. congruence.
Qed.

(** What an accepted identifier satisfies. *)
Lemma defaultIdentifierValidator_ok id min max :
  defaultIdentifierValidator id min max = Ok tt →
  IsValidID id = true ∧ no_slash id ∧ min <= Z.of_nat (String.length id) <= max.
Proof.
  unfold defaultIdentifierValidator.
  intros (? & _ & (? & _ & (? & Hlen%check_ok & Hid%check_ok)%obind_ok)%obind_ok)%obind_ok.
  rewrite negb_true_iff, orb_false_iff, !Z.ltb_ge in Hlen.
  split_and!; [done|by apply IsValidID_free|lia|lia].
Qed.

(** Keys without "%" read the same when they are unescaped. *)
Abbreviation plain s := (str_free "%"%char s = true).

Lemma packet_paths_plain p c n :
  plain p → plain c →
  plain (PacketCommitmentPath p c n) ∧ plain (PacketAcknowledgementPath p c n) ∧
  plain (PacketReceiptPath p c n) ∧ plain (NextSequenceRecvPath p c).
Proof.
  intros Hp Hc. pose proof (FormatUint_free "%"%char n eq_refl) as Hn.
  unfold PacketCommitmentPath, PacketCommitmentPrefixPath, PacketAcknowledgementPath,
    PacketAcknowledgementPrefixPath, PacketReceiptPath, NextSequenceRecvPath, channelPath, sequencePath, str_free in *.
  by rewrite !str_forall_app, Hp, Hc, Hn.
Qed.

Lemma slash_inj a b x y :
  no_slash a → no_slash b → a +:+ "/" +:+ x = b +:+ "/" +:+ y → a = b ∧ x = y.
Proof.
  intros Ha Hb. revert b Hb.
  induction a as [|c a IH]; intros [|d b] Hb H; simpl in *; simplify_eq; try done.
  unfold str_free in Ha, Hb; simpl in Ha, Hb.
  apply andb_true_iff in Ha as [_ Ha], Hb as [_ Hb].
  destruct (IH Ha b Hb) as [-> ->]; done.
Qed.

Lemma channelPath_app_inj p c p' c' x y :
  no_slash p → no_slash p' → no_slash c → no_slash c' →
  channelPath p c +:+ "/" +:+ x = channelPath p' c' +:+ "/" +:+ y →
  p = p' ∧ c = c' ∧ x = y.
Proof.
  intros Hp Hp' Hc Hc'. unfold channelPath, KeyPortPrefix, KeyChannelPrefix.
  rewrite !string_app_assoc. simpl. intros H. simplify_eq.
  apply (slash_inj p p' ("channels/" +:+ c +:+ "/" +:+ x) ("channels/" +:+ c' +:+ "/" +:+ y)) in H
    as [-> H]; [|done..].
  simpl in H. simplify_eq. apply slash_inj in H as [-> ->]; done.
Qed.

Lemma channelPath_inj p c p' c' :
  no_slash p → no_slash p' → channelPath p c = channelPath p' c' → p = p' ∧ c = c'.
Proof.
  intros Hp Hp'. unfold channelPath, KeyPortPrefix, KeyChannelPrefix. simpl.
  intros H. simplify_eq.
  apply (slash_inj p p' ("channels/" +:+ c) ("channels/" +:+ c')) in H as [-> H]; [|done..].
  simpl in H. by simplify_eq.
Qed.

(** The part shared by the keys that hold one value per packet. *)
Lemma packet_key_inj p c n p' c' n' :
  no_slash p → no_slash p' → no_slash c → no_slash c' → is_u64 n → is_u64 n' →
  channelPath p c +:+ "/sequences/" +:+ FormatUint n =
  channelPath p' c' +:+ "/sequences/" +:+ FormatUint n' →
  p = p' ∧ c = c' ∧ n = n'.
Proof.
  intros Hp Hp' Hc Hc' Hn Hn' H.
  apply (channelPath_app_inj _ _ _ _ ("sequences/" +:+ FormatUint n)
           ("sequences/" +:+ FormatUint n')) in H as (-> & -> & H); [|done..].
  simpl in H. simplify_eq. apply FormatUint_inj in H; naive_solver.
Qed.

Lemma PacketCommitmentPath_split p c n :
  PacketCommitmentPath p c n = "commitments/" +:+ channelPath p c +:+ "/sequences/" +:+ FormatUint n.
Proof.
  unfold PacketCommitmentPath, PacketCommitmentPrefixPath. rewrite !string_app_assoc. done.
Qed.

Lemma PacketAcknowledgementPath_split p c n :
  PacketAcknowledgementPath p c n = "acks/" +:+ channelPath p c +:+ "/sequences/" +:+ FormatUint n.
Proof.
  unfold PacketAcknowledgementPath, PacketAcknowledgementPrefixPath. rewrite !string_app_assoc. done.
Qed.

Lemma PacketReceiptPath_split p c n :
  PacketReceiptPath p c n = "receipts/" +:+ channelPath p c +:+ "/sequences/" +:+ FormatUint n.
Proof. done. Qed.

Lemma packet_paths_inj p c n p' c' n' :
  no_slash p → no_slash p' → no_slash c → no_slash c' → is_u64 n → is_u64 n' →
  PacketCommitmentPath p c n = PacketCommitmentPath p' c' n' ∨
  PacketAcknowledgementPath p c n = PacketAcknowledgementPath p' c' n' ∨
  PacketReceiptPath p c n = PacketReceiptPath p' c' n' →
  p = p' ∧ c = c' ∧ n = n'.
Proof.
  rewrite !PacketCommitmentPath_split, !PacketAcknowledgementPath_split, !PacketReceiptPath_split.
  intros ?????? [H|[H|H]]; apply string_app_inj_l in H; by apply packet_key_inj in H.
Qed.

Lemma channel_paths_inj p c p' c' :
  no_slash p → no_slash p' →
  ChannelPath p c = ChannelPath p' c' ∨
  ChannelCapabilityPath p c = ChannelCapabilityPath p' c' ∨
  NextSequenceSendPath p c = NextSequenceSendPath p' c' ∨
  NextSequenceRecvPath p c = NextSequenceRecvPath p' c' ∨
  NextSequenceAckPath p c = NextSequenceAckPath p' c' →
  p = p' ∧ c = c'.
Proof.
  intros Hp Hp' [H|[H|[H|[H|H]]]];
    unfold ChannelPath, ChannelCapabilityPath, NextSequenceSendPath, NextSequenceRecvPath,
      NextSequenceAckPath in H;
    rewrite <- !string_app_assoc in H; apply string_app_inj_l in H; by apply channelPath_inj.
Qed.

(** ** Parsing inverts formatting *)

Lemma Split_slash a b : no_slash a → Split (a +:+ "/" +:+ b) "/" = a :: Split b "/".
Proof. intros H. by apply Split_app. Qed.

Lemma Split_channelPath pre p c :
  no_slash pre → no_slash p → no_slash c →
  Split (pre +:+ "/" +:+ channelPath p c) "/" = [pre; "ports"; p; "channels"; c].
Proof.
  intros Hpre Hp Hc. unfold channelPath, KeyPortPrefix, KeyChannelPrefix.
  rewrite (Split_slash pre) by done. f_equal.
  rewrite (Split_slash "ports") by done. f_equal.
  rewrite (Split_slash p) by done. f_equal.
  rewrite (Split_slash "channels") by done. f_equal.
  by apply Split_one.
Qed.

Lemma ParseChannelPath_format pre p c :
  no_slash pre → no_slash p → no_slash c →
  ParseChannelPath (pre +:+ "/" +:+ channelPath p c) = Ok (p, c).
Proof. intros ???. unfold ParseChannelPath. by rewrite Split_channelPath. Qed.

Lemma ParseIdentifier_format c pre n :
  is_digit c = false → is_u64 n →
  ParseIdentifier (String c pre +:+ FormatUint n) (String c pre) = Ok n.
Proof.
  intros Hc Hn. unfold ParseIdentifier, HasPrefix. rewrite prefix_app.
  rewrite Split_prefix by (by apply FormatUint_free). simpl.
  rewrite ParseUint_FormatUint by done. done.
Qed.

(** Store paths determine what they name: for identifiers that contain no
    separator, two packets share a commitment, acknowledgement or receipt path
    only if port, channel and sequence agree, and two channels share a channel,
    capability or sequence-counter path only if port and channel agree. *)
Theorem store_paths_injective p c n p' c' n' :
  no_slash p → no_slash p' → no_slash c → no_slash c' → is_u64 n → is_u64 n' →
  (PacketCommitmentPath p c n = PacketCommitmentPath p' c' n' ∨
   PacketAcknowledgementPath p c n = PacketAcknowledgementPath p' c' n' ∨
   PacketReceiptPath p c n = PacketReceiptPath p' c' n' → p = p' ∧ c = c' ∧ n = n') ∧
  (ChannelPath p c = ChannelPath p' c' ∨
   ChannelCapabilityPath p c = ChannelCapabilityPath p' c' ∨
   NextSequenceSendPath p c = NextSequenceSendPath p' c' ∨
   NextSequenceRecvPath p c = NextSequenceRecvPath p' c' ∨
   NextSequenceAckPath p c = NextSequenceAckPath p' c' → p = p' ∧ c = c').
Proof. intros. split; [by apply packet_paths_inj|by apply channel_paths_inj]. Qed.

Lemma store_paths_injective_witness :
  PacketCommitmentPath "transfer" "channel-0" 7 ≠ PacketCommitmentPath "transfer" "channel-1" 7.
Proof.
  intros H.
  destruct (proj1 (store_paths_injective "transfer" "channel-0" 7 "transfer" "channel-1" 7
    eq_refl eq_refl eq_refl eq_refl ltac:(unfold is_u64; lia) ltac:(unfold is_u64; lia)) (or_introl H))
    as (_ & Hc & _).
  discriminate Hc.
Defined.

(** The identifiers the validators of ports and channels accept survive the
    trip through the store: parsing the path of a channel end, or of one of its
    sequence counters, gives back the port and channel it was built from. *)
Theorem channel_path_roundtrip p c :
  PortIdentifierValidator p = Ok tt → ChannelIdentifierValidator c = Ok tt →
  ParseChannelPath (ChannelPath p c) = Ok (p, c) ∧
  ParseChannelPath (NextSequenceSendPath p c) = Ok (p, c) ∧
  ParseChannelPath (NextSequenceRecvPath p c) = Ok (p, c) ∧
  ParseChannelPath (NextSequenceAckPath p c) = Ok (p, c).
Proof.
  intros (_ & Hp & _)%defaultIdentifierValidator_ok (_ & Hc & _)%defaultIdentifierValidator_ok.
  split_and!; by apply ParseChannelPath_format.
Qed.

Lemma channel_path_roundtrip_witness :
  ParseChannelPath (ChannelPath "transfer" "channel-12") = Ok ("transfer", "channel-12").
Proof. apply (channel_path_roundtrip "transfer" "channel-12"); reflexivity. Defined.
