(* ===== verification/Chain.v ===== *)
(** * The state of a chain and the computations of its keepers

    A Cosmos SDK application keeps its state in key-value stores reached through
    [sdk.Context].  [Chain] holds the stores this program works on: the IBC
    store, the persistent and in-memory stores of x/capability, and the stores
    of the other modules; beside them, the two pieces of state that are not in
    a store and are therefore not rolled back with it: the Go map of
    capabilities and the allocator that hands out their addresses.

    A keeper method is a computation [M A]: from a chain it gives a value, an
    error or a panic, and the chain as it is left (also on an error: Go code
    that returns an error does not undo its writes, only the caller's cached
    context does). *)

From stdpp Require Import gmap strings list sorting.
From Stdlib Require Import ZArith Lia Ascii.
From S2P Require Import Prelude GoStd.

(** ** Stores *)

Abbreviation KVStore := (gmap string bytes).

(** [prefix.NewStore(store, p)]: the keys of the view are the keys of the store
    that start with [p], without it; reading [k] in the view is reading [p ++ k]
    in the store. *)
Definition prefixed (p k : string) : string := p +:+ k.

(** [sdk.KVStorePrefixIterator]: the entries whose key starts with the prefix,
    in ascending byte order of their keys. *)
Definition key_le (x y : string * bytes) : Prop := String.leb x.1 y.1 = true.
#[export] Instance key_le_dec : RelDecision key_le.
Proof. intros x y. unfold key_le. apply _. Defined.

Definition KVStorePrefixIterator (kv : KVStore) (p : string) : list (string * bytes) :=
  merge_sort key_le (filter (λ x, HasPrefix x.1 p = true) (map_to_list kv)).

(** A capability is a pointer: its address and the index it points at. *)
Record Capability := mkCapability { cap_addr : Z; cap_index : Z }.

#[export] Instance Capability_eq_dec : EqDecision Capability.
Proof. solve_decision. Defined.

Record Chain := mkChain {
  ibc : KVStore;
  capstore : KVStore;
  memstore : KVStore;
  capMap : gmap Z Capability;
  heap : Z;
  stores : gmap string KVStore
}.

Definition set_ibc (kv : KVStore) (s : Chain) : Chain :=
  mkChain kv (capstore s) (memstore s) (capMap s) (heap s) (stores s).
Definition set_capstore (kv : KVStore) (s : Chain) : Chain :=
  mkChain (ibc s) kv (memstore s) (capMap s) (heap s) (stores s).
Definition set_memstore (kv : KVStore) (s : Chain) : Chain :=
  mkChain (ibc s) (capstore s) kv (capMap s) (heap s) (stores s).
Definition set_capMap (m : gmap Z Capability) (s : Chain) : Chain :=
  mkChain (ibc s) (capstore s) (memstore s) m (heap s) (stores s).
Definition set_heap (h : Z) (s : Chain) : Chain :=
  mkChain (ibc s) (capstore s) (memstore s) (capMap s) h (stores s).

(** The execution context of a block; times are in Unix nanoseconds. *)
Record Context := mkContext {
  ChainID : string;
  BlockHeight : Z;
  BlockTime : Z;
  BlockNextValidatorsHash : bytes;
  BlockAppHash : bytes;
  BlockDataHash : bytes
}.

(** ** Computations *)

Definition M (A : Type) : Type := Chain → Outcome A * Chain.

#[export] Instance M_ret : MRet M := λ A a s, (Ok a, s).
#[export] Instance M_bind : MBind M := λ A B f m s,
  match m s with
  | (Ok a, s') => f a s'
  | (Err e, s') => (Err e, s')
  | (Panic, s') => (Panic, s')
  end.

Definition fail {A} (e : error) : M A := λ s, (Err e, s).
Definition panic {A} : M A := λ s, (Panic, s).
Definition gets {A} (f : Chain → A) : M A := λ s, (Ok (f s), s).
Definition modify (f : Chain → Chain) : M () := λ s, (Ok tt, f s).
Definition lift {A} (o : Outcome A) : M A := λ s, (o, s).
(** Read something of the chain that can fail. *)
Definition reads {A} (f : Chain → Outcome A) : M A := λ s, (f s, s).

(** [if !b { return err }] *)
Definition require (b : bool) (e : error) : M () := lift (check b e).
(** [if !found { return err }] *)
Definition orErr {A} (e : error) (o : option A) : M A := lift (of_option e o).
(** [if !found { panic }] *)
Definition orPanic {A} (o : option A) : M A :=
  lift (match o with Some a => Ok a | None => Panic end).

(** [if err != nil { panic(err) }] *)
Definition orPanics {A} (m : M A) : M A :=
  λ s, match m s with (Err _, s') => (Panic, s') | r => r end.

(** ** The IBC store *)

Definition ibc_get (k : string) : M (option bytes) := gets (λ s, ibc s !! k).
Definition ibc_has (k : string) : M bool := gets (λ s, bool_decide (is_Some (ibc s !! k))).
Definition ibc_set (k : string) (v : bytes) : M () := modify (λ s, set_ibc (<[k:=v]> (ibc s)) s).
Definition ibc_delete (k : string) : M () := modify (λ s, set_ibc (delete k (ibc s)) s).

(** The persistent and the in-memory store of x/capability. *)
Definition cap_get (k : string) : M (option bytes) := gets (λ s, capstore s !! k).
Definition cap_set (k : string) (v : bytes) : M () :=
  modify (λ s, set_capstore (<[k:=v]> (capstore s)) s).
Definition cap_delete (k : string) : M () :=
  modify (λ s, set_capstore (delete k (capstore s)) s).
Definition mem_get (k : string) : M (option bytes) := gets (λ s, memstore s !! k).
Definition mem_set (k : string) (v : bytes) : M () :=
  modify (λ s, set_memstore (<[k:=v]> (memstore s)) s).
Definition mem_delete (k : string) : M () :=
  modify (λ s, set_memstore (delete k (memstore s)) s).

(** A loop whose body is a computation. *)
Fixpoint for_each {A} (l : list A) (body : A → M ()) : M () :=
  match l with
  | [] => mret tt
  | x :: l' => body x;; for_each l' body
  end.

(** A computation on the IBC store alone, as the methods of a light client are. *)
Definition SM (A : Type) : Type := KVStore → Outcome A * KVStore.
Definition on_ibc {A} (m : SM A) : M A :=
  λ s, let '(o, kv) := m (ibc s) in (o, set_ibc kv s).

(** ** Encodings provided by the SDK *)

(** [sdk.Uint64ToBigEndian] and [sdk.BigEndianToUint64].  The latter panics on a value of
    one to seven bytes; the modules store only what the former makes, of eight bytes,
    under the keys they read with it, and the class leaves that case open. *)
Class BigEndian := {
  Uint64ToBigEndian : Z → bytes;
  BigEndianToUint64 : bytes → Z
}.

Class BigEndianLaws `{BigEndian} := {
  be_roundtrip n : is_u64 n → BigEndianToUint64 (Uint64ToBigEndian n) = n;
  be_length n : is_u64 n → String.length (Uint64ToBigEndian n) = 8%nat;
  be_range bz : is_u64 (BigEndianToUint64 bz)
}.

(** [codec.BinaryCodec] at one message type: [Marshal] and [Unmarshal]. *)
Class Proto (A : Type) := {
  Marshal : A → bytes;
  Unmarshal : bytes → option A
}.

Class ProtoLaws (A : Type) `{Proto A} := {
  unmarshal_marshal (a : A) : Unmarshal (Marshal a) = Some a;
}.

(** Message types with a field that is always written: their encoding is never
    empty ([(gogoproto.nullable) = false] on a message field). *)
Class ProtoNonEmpty (A : Type) `{Proto A} := {
  marshal_nonempty (a : A) : Marshal a ≠ "";
}.

(** [MustUnmarshal]. *)
Definition MustUnmarshal {A} `{Proto A} (bz : bytes) : Outcome A :=
  match Unmarshal bz with Some a => Ok a | None => Panic end.

(** [len(bz) == 0] for what [store.Get] returned: absent and empty are alike. *)
Definition non_empty (o : option bytes) : option bytes :=
  match o with
  | Some bz => if bool_decide (bz = "") then None else Some bz
  | None => None
  end.

(** Read and decode a value, not found when absent or empty. *)
Definition ibc_get_proto {A} `{Proto A} (k : string) : M (option A) :=
  bz ← ibc_get k;
  match non_empty bz with
  | None => mret None
  | Some bz => a ← lift (MustUnmarshal bz); mret (Some a)
  end.

(** ** Inverting runs *)

Lemma bind_ok {A B} (m : M A) (f : A → M B) s b s' :
  (m ≫= f) s = (Ok b, s') ↔ ∃ a s1, m s = (Ok a, s1) ∧ f a s1 = (Ok b, s').
Proof.
  unfold mbind, M_bind. destruct (m s) as [[a|e|] s1]; split.
  - intros H. by exists a, s1.
  - intros (a' & s1' & [= <- <-] & H). done.
  - done.
  - by intros (a' & s1' & ? & H).
  - done.
  - by intros (a' & s1' & ? & H).
Qed.

Lemma bind_err {A B} (m : M A) (f : A → M B) s e s' :
  (m ≫= f) s = (Err e, s') ↔
  m s = (Err e, s') ∨ ∃ a s1, m s = (Ok a, s1) ∧ f a s1 = (Err e, s').
Proof.
  unfold mbind, M_bind. destruct (m s) as [[a|e'|] s1]; split.
  - intros H. right. by exists a, s1.
  - intros [?|(a' & s1' & [= <- <-] & H)]; done.
  - intros [= <- <-]. by left.
  - intros [[= <- <-]|(? & ? & ? & ?)]; done.
  - done.
  - by intros [?|(? & ? & ? & ?)].
Qed.

Lemma ret_ok {A} (a b : A) s s' : (mret a : M A) s = (Ok b, s') ↔ b = a ∧ s' = s.
Proof. unfold mret, M_ret. naive_solver. Qed.

Lemma fail_ok {A} e (a : A) s s' : fail e s = (Ok a, s') ↔ False.
Proof. unfold fail. naive_solver. Qed.

Lemma panic_ok {A} (a : A) s s' : panic s = (Ok a, s') ↔ False.
Proof. unfold panic. naive_solver. Qed.

Lemma gets_ok {A} (f : Chain → A) a s s' : gets f s = (Ok a, s') ↔ a = f s ∧ s' = s.
Proof. unfold gets. naive_solver. Qed.

Lemma modify_ok f u s s' : modify f s = (Ok u, s') ↔ s' = f s.
Proof. unfold modify. destruct u. naive_solver. Qed.

Lemma lift_ok {A} (o : Outcome A) a s s' : lift o s = (Ok a, s') ↔ o = Ok a ∧ s' = s.
Proof. unfold lift. naive_solver. Qed.

Lemma reads_ok {A} (f : Chain → Outcome A) a s s' : reads f s = (Ok a, s') ↔ f s = Ok a ∧ s' = s.
Proof. unfold reads. split; [by intros [= -> <-]|by intros [-> ->]]. Qed.

Lemma require_ok b e u s s' : require b e s = (Ok u, s') ↔ b = true ∧ s' = s.
Proof. unfold require. rewrite lift_ok. by rewrite check_ok. Qed.

Lemma orErr_ok {A} e (o : option A) a s s' : orErr e o s = (Ok a, s') ↔ o = Some a ∧ s' = s.
Proof. unfold orErr. rewrite lift_ok. destruct o; simpl; naive_solver. Qed.

Lemma orPanic_ok {A} (o : option A) a s s' : orPanic o s = (Ok a, s') ↔ o = Some a ∧ s' = s.
Proof. unfold orPanic. rewrite lift_ok. destruct o; simpl; naive_solver. Qed.

(** Turn [H : m s = (Ok a, s')] into what its steps did. *)
Ltac minv_step :=
  match goal with
  | H : (_ ≫= _) _ = (Ok _, _) |- _ =>
      let a := fresh "a" in let s := fresh "s" in let H1 := fresh "H" in
      apply bind_ok in H as (a & s & H1 & H); simpl in H
  | H : mret _ _ = (Ok _, _) |- _ => apply ret_ok in H as [? ?]; simplify_eq
  | H : fail _ _ = (Ok _, _) |- _ => by apply fail_ok in H
  | H : panic _ = (Ok _, _) |- _ => by apply panic_ok in H
  | H : gets _ _ = (Ok _, _) |- _ => apply gets_ok in H as [? ?]; simplify_eq
  | H : modify _ _ = (Ok _, _) |- _ => apply modify_ok in H; simplify_eq
  | H : require _ _ _ = (Ok _, _) |- _ => apply require_ok in H as [? ?]; simplify_eq
  | H : orErr _ _ _ = (Ok _, _) |- _ => apply orErr_ok in H as [? ?]; simplify_eq
  | H : orPanic _ _ = (Ok _, _) |- _ => apply orPanic_ok in H as [? ?]; simplify_eq
  | H : lift _ _ = (Ok _, _) |- _ => apply lift_ok in H as [? ?]; simplify_eq
  | H : reads _ _ = (Ok _, _) |- _ => apply reads_ok in H as [? ?]; simplify_eq
  end.
Ltac minv := repeat minv_step.

(** ** Computations that only read *)

Definition readonly {A} (m : M A) : Prop := ∀ s, snd (m s) = s.

Lemma readonly_ok {A} (m : M A) s o s' : readonly m → m s = (o, s') → s' = s.
Proof. intros H E. specialize (H s). rewrite E in H. done. Qed.

Lemma readonly_ret {A} (a : A) : readonly (mret a).
Proof. done. Qed.
Lemma readonly_fail {A} e : readonly (@fail A e).
Proof. done. Qed.
Lemma readonly_panic {A} : readonly (@panic A).
Proof. done. Qed.
Lemma readonly_gets {A} (f : Chain → A) : readonly (gets f).
Proof. done. Qed.
Lemma readonly_lift {A} (o : Outcome A) : readonly (lift o).
Proof. done. Qed.
Lemma readonly_reads {A} (f : Chain → Outcome A) : readonly (reads f).
Proof. done. Qed.
Lemma readonly_bind {A B} (m : M A) (f : A → M B) :
  readonly m → (∀ a, readonly (f a)) → readonly (m ≫= f).
Proof.
  intros Hm Hf s. unfold mbind, M_bind. specialize (Hm s).
  destruct (m s) as [[a|e|] s1]; simpl in *; subst; [apply Hf|done|done].
Qed.

Create HintDb ro.
#[export] Hint Resolve readonly_ret readonly_fail readonly_panic readonly_gets
  readonly_lift readonly_reads readonly_bind : ro.
#[export] Hint Unfold require orErr orPanic ibc_get ibc_has cap_get mem_get : ro.

Ltac ro :=
  intros; repeat first
    [ apply readonly_bind; [|intros]
    | progress autounfold with ro
    | case_match
    | solve [eauto with ro] ].

Lemma ibc_get_proto_ro {A} `{Proto A} k : readonly (ibc_get_proto (A:=A) k).
Proof. unfold ibc_get_proto. ro. Qed.
#[export] Hint Resolve ibc_get_proto_ro : ro.

(** Reading back a value that was stored. *)
Lemma ibc_get_proto_ok {A} `{Proto A} k (o : option A) s s' :
  ibc_get_proto k s = (Ok o, s') →
  s' = s ∧ (non_empty (ibc s !! k) ≫= Unmarshal) = o.
Proof.
  unfold ibc_get_proto, ibc_get. intros H1. minv.
  destruct (non_empty _) as [bz|]; simpl in *; minv; [|done].
  unfold MustUnmarshal in *. split; [done|]. case_match; naive_solver.
Qed.

Lemma ibc_get_proto_stored {A} `{ProtoLaws A, !ProtoNonEmpty A} k (a : A) s :
  ibc s !! k = Some (Marshal a) → ibc_get_proto k s = (Ok (Some a), s).
Proof.
  intros Hk. unfold ibc_get_proto, ibc_get, mbind, M_bind, gets, lift, MustUnmarshal.
  rewrite Hk. simpl. rewrite bool_decide_eq_false_2 by apply marshal_nonempty.
  by rewrite unmarshal_marshal.
Qed.

Lemma ibc_get_proto_absent {A} `{Proto A} k s :
  ibc s !! k = None → ibc_get_proto (A:=A) k s = (Ok None, s).
Proof.
  intros Hk. unfold ibc_get_proto, ibc_get, mbind, M_bind, gets. by rewrite Hk.
Qed.

(** Running forward. *)
Lemma bind_run {A B} (m : M A) (f : A → M B) s a s1 :
  m s = (Ok a, s1) → (m ≫= f) s = f a s1.
Proof. unfold mbind, M_bind. by intros ->. Qed.

Lemma require_run b e s : b = true → require b e s = (Ok tt, s).
Proof. by intros ->. Qed.

(** A run of a sequence that starts by reading: it stopped there, or went on
    from the same chain. *)
Lemma readonly_bind_run {A B} (m : M A) (f : A → M B) s o s' :
  readonly m → (m ≫= f) s = (o, s') → s' = s ∨ ∃ a, m s = (Ok a, s) ∧ f a s = (o, s').
Proof.
  unfold mbind, M_bind. intros Hm. specialize (Hm s).
  destruct (m s) as [[a|e|] s1]; simpl in *; subst; intros H1.
  - right. by exists a.
  - left. congruence.
  - left. congruence.
Qed.

(** ** Writes that cannot fail, and failures that leave no writes *)

Definition total {A} (m : M A) : Prop := ∀ s, is_ok (fst (m s)) = true.

(** An error or a panic leaves the chain as it was. *)
Definition atomic {A} (m : M A) : Prop := ∀ s, is_ok (fst (m s)) = true ∨ snd (m s) = s.

Lemma total_ret {A} (a : A) : total (mret a).
Proof. done. Qed.
Lemma total_gets {A} (f : Chain → A) : total (gets f).
Proof. done. Qed.
Lemma total_modify f : total (modify f).
Proof. done. Qed.
Lemma total_bind {A B} (m : M A) (f : A → M B) : total m → (∀ a, total (f a)) → total (m ≫= f).
Proof.
  intros Hm Hf s. unfold mbind, M_bind. specialize (Hm s).
  destruct (m s) as [[a|e|] s1]; simpl in *; [apply Hf|done|done].
Qed.

Lemma atomic_total {A} (m : M A) : total m → atomic m.
Proof. intros H s. left. apply H. Qed.
Lemma atomic_readonly {A} (m : M A) : readonly m → atomic m.
Proof. intros H s. right. apply H. Qed.
Lemma atomic_bind {A B} (m : M A) (f : A → M B) :
  readonly m → (∀ a, atomic (f a)) → atomic (m ≫= f).
Proof.
  intros Hm Hf s. unfold mbind, M_bind. specialize (Hm s).
  destruct (m s) as [[a|e|] s1]; simpl in *; subst; [apply Hf|by right|by right].
Qed.

#[export] Hint Resolve total_ret total_gets total_modify total_bind : ro.
#[export] Hint Unfold ibc_set ibc_delete cap_set cap_delete mem_set mem_delete : ro.

Ltac tot :=
  intros; repeat first
    [ apply total_bind; [|intros]
    | progress autounfold with ro
    | case_match
    | solve [eauto with ro] ].

(** Prove atomicity: read as long as possible, then only write. *)
Ltac atomic_tac :=
  intros; repeat first
    [ apply atomic_bind; [solve [ro]|intros]
    | case_match
    | solve [apply atomic_readonly; ro]
    | solve [apply atomic_total; tot] ].

(** ** Changes confined to the client stores *)

(** The chain differs from the other only in keys of the IBC store below
    "clients/". *)
Definition only_clients (s s' : Chain) : Prop :=
  s' = set_ibc (ibc s') s ∧ ∀ k, HasPrefix k "clients/" = false → ibc s' !! k = ibc s !! k.

#[export] Instance only_clients_refl : Reflexive only_clients.
Proof. intros []. done. Qed.

#[export] Instance only_clients_trans : Transitive only_clients.
Proof.
  intros s1 s2 s3 [H1 F1] [H2 F2]. split; [by rewrite H2, H1|].
  intros k Hk. by rewrite F2, F1.
Qed.

Lemma readonly_only_clients {A} (m : M A) s : readonly m → only_clients s (snd (m s)).
Proof. intros H. by rewrite H. Qed.
