(* ===== verification/ModuleStore.v ===== *)
(** * The stores of the application modules

    Beside the IBC store every module has a key-value store of its own, which it
    reaches through its store key.  Reading and writing it, and what a computation
    that only uses one store leaves alone. *)

From stdpp Require Import gmap strings list.
From S2P Require Import Prelude GoStd Chain.

Definition mod_store (key : string) (s : Chain) : KVStore := default ∅ (stores s !! key).
Definition set_mod_store (key : string) (kv : KVStore) (s : Chain) : Chain :=
  mkChain (ibc s) (capstore s) (memstore s) (capMap s) (heap s) (<[key := kv]> (stores s)).

Definition mod_get (key k : string) : M (option bytes) := gets (λ s, mod_store key s !! k).
Definition mod_has (key k : string) : M bool := gets (λ s, bool_decide (is_Some (mod_store key s !! k))).
Definition mod_set (key k : string) (v : bytes) : M () :=
  modify (λ s, set_mod_store key (<[k := v]> (mod_store key s)) s).
Definition mod_delete (key k : string) : M () :=
  modify (λ s, set_mod_store key (delete k (mod_store key s)) s).

#[export] Hint Unfold mod_get mod_has : ro.

Lemma mod_store_set key kv s : mod_store key (set_mod_store key kv s) = kv.
Proof. unfold mod_store, set_mod_store. simpl. by rewrite lookup_insert_eq. Qed.

Lemma mod_store_set_ne key j kv s : j ≠ key → stores (set_mod_store key kv s) !! j = stores s !! j.
Proof. intros Hj. simpl. by rewrite lookup_insert_ne. Qed.

(** Two chains that differ only in the store [k]. *)
Definition only_store (k : string) (s s' : Chain) : Prop :=
  ibc s' = ibc s ∧ capstore s' = capstore s ∧ memstore s' = memstore s ∧ capMap s' = capMap s ∧
  heap s' = heap s ∧ ∀ j, j ≠ k → stores s' !! j = stores s !! j.

Lemma only_store_refl k s : only_store k s s.
Proof. done. Qed.

Lemma only_store_trans k s1 s2 s3 : only_store k s1 s2 → only_store k s2 s3 → only_store k s1 s3.
Proof.
  intros (?&?&?&?&?&H) (?&?&?&?&?&H'). repeat split; try congruence. intros j Hj. by rewrite H', H.
Qed.

Lemma only_store_mod j k s s' : only_store k s s' → j ≠ k → mod_store j s' = mod_store j s.
Proof. intros (_ & _ & _ & _ & _ & H) Hj. unfold mod_store. by rewrite H. Qed.

Lemma only_store_set key kv s : only_store key s (set_mod_store key kv s).
Proof. repeat split. intros j Hj. by apply mod_store_set_ne. Qed.
