(* ===== verification/Sums.v ===== *)
(** * Sums

    Sums of integers over lists and over the entries of a store, in which the
    amounts that modules record and hold are counted. *)

From stdpp Require Import gmap strings list sorting.
From Stdlib Require Import ZArith Lia.
From S2P Require Import Prelude GoStd Chain.

(** An amount that counts only under a condition. *)
Definition delta (b : bool) (n : Z) : Z := if b then n else 0.

(** ** Sums over lists *)

Definition sum_over {A} (f : A → Z) (l : list A) : Z := foldr (λ a n, f a + n) 0 l.

Lemma sum_over_ext {A} (f g : A → Z) l : (∀ a, a ∈ l → f a = g a) → sum_over f l = sum_over g l.
Proof.
  induction l as [|a l IH]; intros H; simpl; [done|].
  rewrite (H a), IH; [done| |set_solver]. intros b Hb. apply H. set_solver.
Qed.

Lemma sum_over_le {A} (f g : A → Z) l : (∀ a, a ∈ l → f a <= g a) → sum_over f l <= sum_over g l.
Proof.
  induction l as [|a l IH]; intros H; simpl; [lia|].
  assert (f a <= g a) by (apply H; set_solver).
  assert (sum_over f l <= sum_over g l) by (apply IH; intros b Hb; apply H; set_solver). lia.
Qed.

Lemma sum_over_plus {A} (f g : A → Z) l : sum_over (λ a, f a + g a) l = sum_over f l + sum_over g l.
Proof. induction l as [|a l IH]; simpl; lia. Qed.

Lemma sum_over_perm {A} (f : A → Z) l l' : l ≡ₚ l' → sum_over f l = sum_over f l'.
Proof. induction 1; simpl; lia. Qed.

Lemma sum_over_zero {A} (f : A → Z) l : (∀ a, a ∈ l → f a = 0) → sum_over f l = 0.
Proof. intros H. rewrite (sum_over_ext f (λ _, 0)) by done. clear H. induction l; simpl; auto. Qed.

(** A sum with one term that is not zero. *)
Lemma sum_over_one {A B} `{EqDecision B} (f : A → B) l a n :
  NoDup (f <$> l) → a ∈ l → sum_over (λ b, delta (bool_decide (f b = f a)) n) l = n.
Proof.
  induction l as [|b l IH]; simpl; [by intros _ ?%not_elem_of_nil|].
  intros [Hb Hn]%NoDup_cons [->|Ha]%elem_of_cons.
  - rewrite bool_decide_eq_true_2 by done. rewrite sum_over_zero; [simpl; lia|].
    intros c Hc. rewrite bool_decide_eq_false_2; [done|]. intros Heq. apply Hb. rewrite <- Heq.
    by apply list_elem_of_fmap_2.
  - rewrite IH by done. rewrite bool_decide_eq_false_2; [simpl; lia|]. intros Heq. apply Hb. rewrite Heq.
    by apply list_elem_of_fmap_2.
Qed.

(** The terms of a list without duplicates are among those of a longer one. *)
Lemma sum_over_incl {A} `{EqDecision A} (f : A → Z) l l' :
  (∀ a, 0 <= f a) → NoDup l → l ⊆ l' → sum_over f l <= sum_over f l'.
Proof.
  intros Hf Hl. revert l'. induction Hl as [|a l Ha Hl IH]; intros l' Hs; simpl.
  - clear Hs. induction l' as [|b l' IH]; simpl; [lia|]. specialize (Hf b). lia.
  - assert (a ∈ l') as [k Hk]%elem_of_Permutation by set_solver.
    rewrite (sum_over_perm f l' (a :: k)) by done. simpl. specialize (IH k).
    assert (l ⊆ k) as Hk'; [|specialize (IH Hk'); lia]. intros b Hb. assert (b ∈ a :: k) as Hin by (rewrite <- Hk; set_solver).
    apply elem_of_cons in Hin as [->|]; done.
Qed.

(** ** Iterators *)

Lemma KVStorePrefixIterator_elem kv p k v :
  (k, v) ∈ KVStorePrefixIterator kv p ↔ kv !! k = Some v ∧ HasPrefix k p = true.
Proof.
  unfold KVStorePrefixIterator. rewrite merge_sort_Permutation, list_elem_of_filter, elem_of_map_to_list. simpl.
  tauto.
Qed.

Lemma KVStorePrefixIterator_NoDup kv p : NoDup (KVStorePrefixIterator kv p).
Proof.
  unfold KVStorePrefixIterator. rewrite merge_sort_Permutation. apply NoDup_filter, NoDup_map_to_list.
Qed.

(** Adding and removing an entry. *)
Lemma KVStorePrefixIterator_insert kv p k v :
  kv !! k = None →
  KVStorePrefixIterator (<[k := v]> kv) p ≡ₚ
    (if HasPrefix k p then [(k, v)] else []) ++ KVStorePrefixIterator kv p.
Proof.
  intros Hk. unfold KVStorePrefixIterator. rewrite !merge_sort_Permutation, map_to_list_insert by done.
  rewrite filter_cons. simpl. by destruct (HasPrefix k p).
Qed.

Lemma KVStorePrefixIterator_delete kv p k v :
  kv !! k = Some v →
  KVStorePrefixIterator kv p ≡ₚ
    (if HasPrefix k p then [(k, v)] else []) ++ KVStorePrefixIterator (delete k kv) p.
Proof.
  intros Hk. rewrite <- (insert_delete_id kv k v) at 1 by done.
  apply KVStorePrefixIterator_insert, lookup_delete_eq.
Qed.

Lemma sum_over_app {A} (f : A → Z) l l' : sum_over f (l ++ l') = sum_over f l + sum_over f l'.
Proof. induction l as [|a l IH]; simpl; lia. Qed.

Lemma sum_over_fmap {A B} (f : B → Z) (g : A → B) l : sum_over f (g <$> l) = sum_over (λ a, f (g a)) l.
Proof. induction l as [|a l IH]; [done|]. rewrite fmap_cons. cbn [sum_over foldr]. unfold sum_over in *. lia. Qed.
