(* ===== verification/Height.v ===== *)
(** * Heights and chain revisions

    Models src/modules/core/02-client/types/height.go: the two-part height of a
    chain, its order, its string form, and the revision number encoded in a
    chain identifier. *)

From stdpp Require Import gmap strings list.
From Stdlib Require Import ZArith Lia Ascii.
From S2P Require Import Prelude GoStd Chain.

Record Height := mkHeight { RevisionNumber : Z; RevisionHeight : Z }.

#[export] Instance Height_eq_dec : EqDecision Height.
Proof. solve_decision. Defined.

Definition ErrInvalidHeightIbc : error := mkError "ibc" 9.
Definition ErrInvalidChainID : error := mkError "ibc" 11.

Definition ZeroHeight : Height := mkHeight 0 0.

Definition NewHeight (revisionNumber revisionHeight : Z) : Height :=
  mkHeight revisionNumber revisionHeight.

(** [big.Int.Cmp]. *)
Definition Cmp (a b : Z) : Z :=
  match a ?= b with Lt => -1 | Eq => 0 | Gt => 1 end.

Definition Compare (h other : Height) : Z :=
  if negb (RevisionNumber h =? RevisionNumber other)
  then Cmp (RevisionNumber h) (RevisionNumber other)
  else Cmp (RevisionHeight h) (RevisionHeight other).

Definition LT (h other : Height) : bool := Compare h other =? -1.
Definition LTE (h other : Height) : bool := Compare h other <=? 0.
Definition GT (h other : Height) : bool := Compare h other =? 1.
Definition GTE (h other : Height) : bool := 0 <=? Compare h other.
Definition EQ (h other : Height) : bool := Compare h other =? 0.

Definition Height_String (h : Height) : string :=
  FormatUint (RevisionNumber h) +:+ "-" +:+ FormatUint (RevisionHeight h).

Definition Decrement (h : Height) : Height * bool :=
  if RevisionHeight h =? 0 then (ZeroHeight, false)
  else (NewHeight (RevisionNumber h) (RevisionHeight h - 1), true).

Definition Increment (h : Height) : Height :=
  NewHeight (RevisionNumber h) (u64 (RevisionHeight h + 1)).

Definition IsZero (h : Height) : bool :=
  (RevisionNumber h =? 0) && (RevisionHeight h =? 0).

Definition ParseHeight (heightStr : string) : Outcome Height :=
  match Split heightStr "-" with
  | [s0; s1] =>
      revisionNumber ← of_option ErrInvalidHeightIbc (ParseUint s0);
      revisionHeight ← of_option ErrInvalidHeightIbc (ParseUint s1);
      Ok (NewHeight revisionNumber revisionHeight)
  | _ => Err ErrInvalidHeightIbc
  end.

Definition MustParseHeight (heightStr : string) : Outcome Height :=
  match ParseHeight heightStr with Err _ => Panic | o => o end.

(** The language of [^.*[^\n-]-{1}[1-9][0-9]*$]: a decimal number without
    leading zero after the last dash, at least one character that is neither a
    dash nor a line break right before that dash, and no line break anywhere. *)
Definition newline : ascii := Ascii.ascii_of_nat 10.

Definition is_revision (s : string) : bool :=
  match s with
  | EmptyString => false
  | String c s' => in_range 49 57 c && str_forall is_digit s'
  end.

Definition IsRevisionFormat (chainID : string) : bool :=
  str_free newline chainID &&
  match rev (Split chainID "-") with
  | d :: p :: _ => is_revision d && negb (bool_decide (p = ""))
  | _ => false
  end.

(** [int(revision)] and [strconv.Itoa]. *)
Definition to_int64 (n : Z) : Z := if n <? 2 ^ 63 then n else n - 2 ^ 64.
Definition Itoa (n : Z) : string :=
  if n <? 0 then "-" +:+ FormatUint (- n) else FormatUint n.

Definition SetRevisionNumber (chainID : string) (revision : Z) : Outcome string :=
  check (IsRevisionFormat chainID) ErrInvalidChainID;;
  let splitStr := Split chainID "-" in
  Ok (Join (removelast splitStr ++ [Itoa (to_int64 revision)]) "-").

(** Panics when the number in the chain identifier does not fit 64 bits. *)
Definition ParseChainID (chainID : string) : Outcome Z :=
  if negb (IsRevisionFormat chainID) then Ok 0
  else match ParseUint (List.last (Split chainID "-") "") with
       | Some revision => Ok revision
       | None => Panic
       end.

(** [uint64(ctx.BlockHeight())] and [uint64(ctx.BlockTime().UnixNano())]. *)
Definition ctx_height (ctx : Context) : Z := u64 (BlockHeight ctx).
Definition ctx_time (ctx : Context) : Z := u64 (BlockTime ctx).

Definition GetSelfHeight (ctx : Context) : Outcome Height :=
  revision ← ParseChainID (ChainID ctx);
  Ok (NewHeight revision (ctx_height ctx)).

(** * Lemmas *)

(** The order the code implements: revision first, then height. *)
Definition height_lt (h k : Height) : Prop :=
  RevisionNumber h < RevisionNumber k ∨
  (RevisionNumber h = RevisionNumber k ∧ RevisionHeight h < RevisionHeight k).

Lemma Cmp_cases a b : (a < b ∧ Cmp a b = -1) ∨ (a = b ∧ Cmp a b = 0) ∨ (b < a ∧ Cmp a b = 1).
Proof.
  unfold Cmp. destruct (Z.compare_spec a b); [right; left|left|right; right]; lia.
Qed.

Lemma Compare_cases h k :
  (height_lt h k ∧ Compare h k = -1) ∨ (h = k ∧ Compare h k = 0) ∨ (height_lt k h ∧ Compare h k = 1).
Proof.
  destruct h as [n m], k as [n' m']. unfold Compare, height_lt. simpl.
  destruct (Z.eqb_spec n n') as [->|Hne]; simpl.
  - destruct (Cmp_cases m m') as [[? ->]|[[-> ->]|[? ->]]]; tauto.
  - destruct (Cmp_cases n n') as [[? ->]|[[? ->]|[? ->]]]; tauto.
Qed.

Lemma Compare_refl h : Compare h h = 0.
Proof. unfold Compare, Cmp. rewrite Z.eqb_refl. simpl. by rewrite Z.compare_refl. Qed.

Ltac height_cases :=
  unfold LT, LTE, GT, GTE, EQ in *; rewrite ?Compare_refl;
  repeat match goal with
  | |- context [Compare ?h ?k] => destruct (Compare_cases h k) as [[? ->]|[[-> ->]|[? ->]]]
  end; unfold height_lt in *; simpl;
  repeat split; intros;
  repeat match goal with H : _ ∨ _ |- _ => destruct H | H : _ ∧ _ |- _ => destruct H end;
  subst; first [done|lia|tauto|left; lia|right; lia|idtac].

Lemma GTE_spec h k : GTE h k = true ↔ h = k ∨ height_lt k h.
Proof. height_cases. Qed.

Lemma LT_spec h k : LT h k = true ↔ height_lt h k.
Proof. height_cases. Qed.

Lemma IsZero_spec h : IsZero h = true ↔ h = ZeroHeight.
Proof.
  destruct h as [n m]. unfold IsZero, ZeroHeight. simpl.
  rewrite andb_true_iff, !Z.eqb_eq. naive_solver.
Qed.

Definition height_ok (h : Height) : Prop := is_u64 (RevisionNumber h) ∧ is_u64 (RevisionHeight h).

Lemma ParseHeight_String h : height_ok h → ParseHeight (Height_String h) = Ok h.
Proof.
  destruct h as [n m]. intros [Hn Hm]. unfold ParseHeight, Height_String. simpl in *.
  rewrite (Split_app "-" (FormatUint n) (FormatUint m)) by (by apply FormatUint_free).
  rewrite Split_one by (by apply FormatUint_free).
  by rewrite !ParseUint_FormatUint.
Qed.

(** The comparison methods implement one total order, the lexicographic
    order on (revision number, revision height): exactly one of LT, EQ and GT
    holds, LTE and GTE are their unions, EQ is equality, and LT is transitive. *)
Theorem height_total_order h k l :
  (LT h k = true ↔ height_lt h k) ∧ (EQ h k = true ↔ h = k) ∧ GT h k = LT k h ∧
  LTE h k = LT h k || EQ h k ∧ GTE h k = negb (LT h k) ∧
  (LT h k = true ∨ h = k ∨ LT k h = true) ∧
  (LT h k = true → LT k l = true → LT h l = true) ∧ LT h h = false.
Proof. split_and!; height_cases. Qed.

(** A height printed by String is read back by ParseHeight unchanged. *)
Theorem height_string_roundtrip n m :
  is_u64 n → is_u64 m → ParseHeight (Height_String (NewHeight n m)) = Ok (NewHeight n m).
Proof. intros ??. by apply ParseHeight_String. Qed.

Lemma height_string_roundtrip_witness :
  ParseHeight (Height_String (NewHeight 3 18446744073709551615)) =
  Ok (NewHeight 3 18446744073709551615).
Proof. apply height_string_roundtrip; unfold is_u64; lia. Defined.
