(* ===== verification/Capability.v ===== *)
(** * x/capability

    Models src/modules/capability: the owner sets of types/types.go, the store
    keys of types/keys.go, and the keeper of keeper/keeper.go with its scoped
    sub-keepers.  A scoped keeper is the name of the module it is tied to; the
    stores and the capability map it shares with the keeper are those of the
    chain. *)

From stdpp Require Import gmap strings list sorting.
From Stdlib Require Import ZArith Lia Ascii.
From S2P Require Import Prelude GoStd Chain.

(** ** types/errors.go *)

Definition ErrInvalidCapabilityName : error := mkError "capability" 2.
Definition ErrNilCapability : error := mkError "capability" 3.
Definition ErrCapabilityTaken : error := mkError "capability" 4.
Definition ErrOwnerClaimed : error := mkError "capability" 5.
Definition ErrCapabilityNotOwned : error := mkError "capability" 6.
Definition ErrCapabilityNotFound : error := mkError "capability" 7.
Definition ErrCapabilityOwnersNotFound : error := mkError "capability" 8.

(** ** types/types.go *)

Record Owner := mkOwner { Module_ : string; Name : string }.

#[export] Instance Owner_eq_dec : EqDecision Owner.
Proof. solve_decision. Defined.

Record CapabilityOwners := mkOwners { Owners : list Owner }.

Definition NewOwner (module name : string) : Owner := mkOwner module name.
Definition Owner_Key (o : Owner) : string := Module_ o +:+ "/" +:+ Name o.
Definition NewCapabilityOwners : CapabilityOwners := mkOwners [].

(** The position of the owner, found by binary search on the keys, and whether
    it is there. *)
Definition owners_ge (l : list Owner) (owner : Owner) (i : nat) : bool :=
  match l !! i with
  | Some o => String.leb (Owner_Key owner) (Owner_Key o)
  | None => true
  end.

Definition CapabilityOwners_Get (co : CapabilityOwners) (owner : Owner) : nat * bool :=
  let i := Search (length (Owners co)) (owners_ge (Owners co) owner) in
  match Owners co !! i with
  | Some o => (i, bool_decide (Owner_Key o = Owner_Key owner))
  | None => (i, false)
  end.

Definition CapabilityOwners_Set (co : CapabilityOwners) (owner : Owner) : Outcome CapabilityOwners :=
  let '(i, ok) := CapabilityOwners_Get co owner in
  if ok then Err ErrOwnerClaimed
  else Ok (mkOwners (firstn i (Owners co) ++ owner :: skipn i (Owners co))).

Definition CapabilityOwners_Remove (co : CapabilityOwners) (owner : Owner) : CapabilityOwners :=
  if bool_decide (length (Owners co) = 0%nat) then co
  else let '(i, ok) := CapabilityOwners_Get co owner in
       if ok then mkOwners (firstn i (Owners co) ++ skipn (S i) (Owners co)) else co.

(** ** types/keys.go *)

Definition KeyIndex : string := "index".
Definition KeyPrefixIndexCapability : string := "capability_index".
Definition KeyMemInitialized : string := "mem_initialized".

Definition RevCapabilityKey (module name : string) : string :=
  module +:+ "/rev/" +:+ name.
Definition FwdCapabilityKey (module : string) (cap : Capability) : string :=
  module +:+ "/fwd/" +:+ FormatPointer (cap_addr cap).

Section keeper.
Context `{BigEndian, Proto CapabilityOwners}.

Definition IndexToKey (index : Z) : bytes := Uint64ToBigEndian index.
Definition IndexFromKey (key : bytes) : Z := BigEndianToUint64 key.

(** The key of an owner set in the persistent store. *)
Definition owners_key (index : Z) : string :=
  prefixed KeyPrefixIndexCapability (IndexToKey index).

(** [store.Get(types.KeyIndex)] read as an index: a nil slice reads as 0. *)
Definition read_index (bz : option bytes) : Z :=
  match bz with Some bz => IndexFromKey bz | None => 0 end.

(** ** keeper/keeper.go: the keeper *)

(** The part of the keeper that is not in a store. *)
Record CapKeeper := mkCapKeeper { scopedModules : gset string; sealed : bool }.

Definition NewCapKeeper : CapKeeper := mkCapKeeper ∅ false.

Definition ScopeToModule (k : CapKeeper) (moduleName : string) : Outcome (string * CapKeeper) :=
  if sealed k then Panic
  else if is_blank moduleName then Panic
  else if bool_decide (moduleName ∈ scopedModules k) then Panic
  else Ok (moduleName, mkCapKeeper ({[moduleName]} ∪ scopedModules k) (sealed k)).

Definition Seal (k : CapKeeper) : Outcome CapKeeper :=
  if sealed k then Panic else Ok (mkCapKeeper (scopedModules k) true).

Definition IsSealed (k : CapKeeper) : bool := sealed k.

(** [types.NewCapability]: a new object in memory. *)
Definition alloc_capability (index : Z) : M Capability :=
  addr ← gets heap;
  modify (λ s, set_heap (addr + 1) s);;
  mret (mkCapability addr index).

Definition capMap_set (index : Z) (cap : Capability) : M () :=
  modify (λ s, set_capMap (<[index:=cap]> (capMap s)) s).
Definition capMap_delete (index : Z) : M () :=
  modify (λ s, set_capMap (delete index (capMap s)) s).

Definition InitializeCapability (index : Z) (owners : CapabilityOwners) : M () :=
  cap ← alloc_capability index;
  for_each (Owners owners) (λ owner,
    mem_set (FwdCapabilityKey (Module_ owner) cap) (Name owner);;
    mem_set (RevCapabilityKey (Module_ owner) (Name owner)) (Uint64ToBigEndian index);;
    capMap_set index cap).

Definition IsInitialized : M bool :=
  bz ← mem_get KeyMemInitialized;
  mret (bool_decide (is_Some bz)).

Definition InitMemStore : M () :=
  initialized ← IsInitialized;
  if initialized : bool then mret tt
  else
    entries ← gets (λ s, KVStorePrefixIterator (capstore s) KeyPrefixIndexCapability);
    for_each entries (λ '(key, value),
      let index := IndexFromKey
        (String.substring (String.length KeyPrefixIndexCapability) (String.length key) key) in
      capOwners ← lift (MustUnmarshal value);
      InitializeCapability index capOwners);;
    mem_set KeyMemInitialized (String (Ascii.ascii_of_nat 1) "").

Definition GetLatestIndex : M Z :=
  bz ← cap_get KeyIndex;
  mret (read_index bz).

Definition InitializeIndex (index : Z) : M () :=
  if index =? 0 then panic
  else
    latest ← GetLatestIndex;
    if 0 <? latest then panic
    else cap_set KeyIndex (IndexToKey index).

Definition SetOwners (index : Z) (owners : CapabilityOwners) : M () :=
  cap_set (owners_key index) (Marshal owners).

Definition Keeper_GetOwners (index : Z) : M (option CapabilityOwners) :=
  ownerBytes ← cap_get (owners_key index);
  match ownerBytes with
  | None => mret None
  | Some bz => owners ← lift (MustUnmarshal bz); mret (Some owners)
  end.

(** ** keeper/keeper.go: scoped keepers *)

(** [cap] is the pointer of the caller, nil when it is [None]. *)

Definition GetCapabilityName (module : string) (cap : option Capability) : M string :=
  match cap with
  | None => mret ""
  | Some cap => bz ← mem_get (FwdCapabilityKey module cap); mret (default "" bz)
  end.

Definition AuthenticateCapability (module : string) (cap : option Capability) (name : string) : M bool :=
  if is_blank name || bool_decide (cap = None) then mret false
  else n ← GetCapabilityName module cap; mret (bool_decide (n = name)).

Definition GetCapability (module name : string) : M (option Capability) :=
  if is_blank name then mret None
  else
    indexBytes ← mem_get (RevCapabilityKey module name);
    let index := read_index indexBytes in
    match non_empty indexBytes with
    | None => mret None
    | Some _ =>
        cap ← gets (λ s, capMap s !! index);
        cap ← orPanic cap;
        mret (Some cap)
    end.

Definition getOwners (cap : Capability) : M CapabilityOwners :=
  bz ← cap_get (owners_key (cap_index cap));
  match non_empty bz with
  | None => mret NewCapabilityOwners
  | Some bz => lift (MustUnmarshal bz)
  end.

Definition addOwner (module : string) (cap : Capability) (name : string) : M () :=
  capOwners ← getOwners cap;
  capOwners ← lift (CapabilityOwners_Set capOwners (NewOwner module name));
  cap_set (owners_key (cap_index cap)) (Marshal capOwners).

Definition NewCapability (module name : string) : M Capability :=
  require (negb (is_blank name)) ErrInvalidCapabilityName;;
  existing ← GetCapability module name;
  require (bool_decide (existing = None)) ErrCapabilityTaken;;
  indexBytes ← cap_get KeyIndex;
  let index := read_index indexBytes in
  cap ← alloc_capability index;
  addOwner module cap name;;
  cap_set KeyIndex (IndexToKey (u64 (index + 1)));;
  mem_set (FwdCapabilityKey module cap) name;;
  mem_set (RevCapabilityKey module name) (Uint64ToBigEndian index);;
  capMap_set index cap;;
  mret cap.

Definition ClaimCapability (module : string) (cap : option Capability) (name : string) : M () :=
  cap ← orErr ErrNilCapability cap;
  require (negb (is_blank name)) ErrInvalidCapabilityName;;
  addOwner module cap name;;
  mem_set (FwdCapabilityKey module cap) name;;
  mem_set (RevCapabilityKey module name) (Uint64ToBigEndian (cap_index cap)).

Definition ReleaseCapability (module : string) (cap : option Capability) : M () :=
  cap ← orErr ErrNilCapability cap;
  name ← GetCapabilityName module (Some cap);
  require (negb (bool_decide (name = ""))) ErrCapabilityNotOwned;;
  mem_delete (FwdCapabilityKey module cap);;
  mem_delete (RevCapabilityKey module name);;
  capOwners ← getOwners cap;
  let capOwners := CapabilityOwners_Remove capOwners (NewOwner module name) in
  if bool_decide (length (Owners capOwners) = 0%nat)
  then cap_delete (owners_key (cap_index cap));; capMap_delete (cap_index cap)
  else cap_set (owners_key (cap_index cap)) (Marshal capOwners).

Definition GetOwners (module name : string) : M (option CapabilityOwners) :=
  if is_blank name then mret None
  else
    cap ← GetCapability module name;
    match cap with
    | None => mret None
    | Some cap =>
        bz ← cap_get (owners_key (cap_index cap));
        match non_empty bz with
        | None => mret None
        | Some bz => capOwners ← lift (MustUnmarshal bz); mret (Some capOwners)
        end
    end.

Definition LookupModules (module name : string) : M (list string * Capability) :=
  require (negb (is_blank name)) ErrInvalidCapabilityName;;
  cap ← GetCapability module name;
  cap ← orErr ErrCapabilityNotFound cap;
  capOwners ← GetOwners module name;
  capOwners ← orErr ErrCapabilityOwnersNotFound capOwners;
  mret (map Module_ (Owners capOwners), cap).

End keeper.
