(* ===== verification/CapabilityProofs.v ===== *)
(** * x/capability: owner sets and the behaviour of capabilities

    The owner set of a capability is kept sorted and searched by binary search;
    it behaves as a finite set of owners.  The scoped keepers: a new capability
    authenticates for its creator under its name and for nobody else, claiming
    adds one owner, releasing removes one, and neither affects anybody else. *)

From stdpp Require Import gmap strings list sorting.
From Stdlib Require Import ZArith Lia Ascii.
From S2P Require Import Prelude GoStd Host Chain Capability.

(** ** The order of strings *)

Lemma string_compare_trans a b c :
  String.compare a b = Lt → String.compare b c = Lt → String.compare a c = Lt.
Proof.
  revert b c. induction a as [|x a IH]; intros [|y b] [|z c]; simpl; try done.
  unfold Ascii.compare.
  destruct (N.compare_spec (Ascii.N_of_ascii x) (Ascii.N_of_ascii y)) as [Hxy|Hxy|Hxy]; [| |done];
    destruct (N.compare_spec (Ascii.N_of_ascii y) (Ascii.N_of_ascii z)) as [Hyz|Hyz|Hyz]; try done;
    destruct (N.compare_spec (Ascii.N_of_ascii x) (Ascii.N_of_ascii z)) as [Hxz|Hxz|Hxz]; try lia;
    intros; by eauto.
Qed.

(** Strictly below, as keys of owners. *)
Definition key_lt (o o' : Owner) : Prop := String.compare (Owner_Key o) (Owner_Key o') = Lt.

#[export] Instance key_lt_trans : Transitive key_lt.
Proof. intros a b c. apply string_compare_trans. Qed.

Lemma key_lt_irrefl o : ¬ key_lt o o.
Proof.
  unfold key_lt. by rewrite string_compare_refl.
Qed.

Lemma leb_spec o o' :
  String.leb (Owner_Key o) (Owner_Key o') = true ↔ Owner_Key o = Owner_Key o' ∨ key_lt o o'.
Proof.
  unfold String.leb, key_lt. destruct (String.compare _ _) eqn:Hc.
  - apply String.compare_eq_iff in Hc. tauto.
  - tauto.
  - split; [done|]. intros [He|?]; [|done]. by rewrite He, string_compare_refl in Hc.
Qed.

Lemma leb_false o o' : String.leb (Owner_Key o) (Owner_Key o') = false ↔ key_lt o' o.
Proof.
  unfold String.leb, key_lt. rewrite (String.compare_antisym (Owner_Key o) (Owner_Key o')).
  destruct (String.compare (Owner_Key o') (Owner_Key o)); simpl; naive_solver.
Qed.

(** ** Owner sets *)

(** The representation: strictly sorted by key. *)
Definition owners_sorted (co : CapabilityOwners) : Prop := StronglySorted key_lt (Owners co).

Lemma sorted_lookup l i j o o' :
  StronglySorted key_lt l → l !! i = Some o → l !! j = Some o' → (i < j)%nat → key_lt o o'.
Proof.
  intros Hs. revert i j. induction Hs as [|x l Hs IH Hx]; intros i j Hi Hj Hlt; [done|].
  destruct j as [|j]; [lia|]. simpl in Hj. destruct i as [|i]; simpl in Hi; simplify_eq.
  - rewrite Forall_lookup in Hx. by eapply Hx.
  - eapply IH; eauto. lia.
Qed.

Lemma owners_ge_mono l owner i j :
  StronglySorted key_lt l → (i ≤ j)%nat → owners_ge l owner i = true → owners_ge l owner j = true.
Proof.
  unfold owners_ge. intros Hs Hij. destruct (decide (i = j)) as [->|Hne]; [done|].
  destruct (l !! j) as [o'|] eqn:Hj; [|done].
  destruct (l !! i) as [o|] eqn:Hi.
  - rewrite !leb_spec. pose proof (sorted_lookup l i j o o' Hs Hi Hj ltac:(lia)) as Hlt.
    intros [He|Hk]; right; [unfold key_lt in *; congruence|by etrans].
  - apply lookup_lt_Some in Hj. apply lookup_ge_None in Hi. lia.
Qed.

(** The position the search finds splits the set. *)
Lemma Get_split co owner i ok :
  owners_sorted co → CapabilityOwners_Get co owner = (i, ok) →
  (i ≤ length (Owners co))%nat ∧ Forall (λ o, key_lt o owner) (take i (Owners co)) ∧
  (if ok : bool then ∃ o, Owners co !! i = Some o ∧ Owner_Key o = Owner_Key owner
   else Forall (key_lt owner) (drop i (Owners co))).
Proof.
  intros Hs. unfold CapabilityOwners_Get, owners_sorted in *. set (l := Owners co) in *.
  destruct (Search_spec (owners_ge l owner) (λ i j, owners_ge_mono l owner i j Hs) (length l)) as (Hle & Hlow & Hhigh).
  set (k := Search _ _) in *. intros H.
  assert (i = k) as -> by (destruct (l !! k); congruence). split; [done|]. split.
  - rewrite Forall_lookup. intros j o Hj. rewrite lookup_take_Some in Hj. destruct Hj as [Hj Hjk].
    specialize (Hlow j Hjk). unfold owners_ge in Hlow. rewrite Hj in Hlow. by apply leb_false.
  - destruct (l !! k) as [o|] eqn:Hk; simplify_eq.
    + case_bool_decide as He; [by exists o|].
      assert (key_lt owner o) as Hlt.
      { specialize (Hhigh (lookup_lt_Some _ _ _ Hk)). unfold owners_ge in Hhigh. rewrite Hk in Hhigh.
        apply leb_spec in Hhigh as [?|?]; [congruence|done]. }
      rewrite Forall_lookup. intros j o' Hj. rewrite lookup_drop in Hj.
      destruct j as [|j]; [rewrite Nat.add_0_r in Hj; congruence|].
      etrans; [exact Hlt|]. eapply sorted_lookup; [exact Hs|exact Hk|exact Hj|lia].
    + apply lookup_ge_None in Hk. rewrite drop_ge by done. constructor.
Qed.

Lemma sorted_app l k :
  StronglySorted key_lt l → StronglySorted key_lt k → (∀ x y, x ∈ l → y ∈ k → key_lt x y) →
  StronglySorted key_lt (l ++ k).
Proof.
  induction 1 as [|x l Hl IH Hx]; intros Hk Hlk; simpl; [done|]. constructor.
  - apply IH; [done|]. set_solver.
  - rewrite Forall_forall in *. set_solver.
Qed.

Lemma sorted_take_drop l i :
  StronglySorted key_lt l → StronglySorted key_lt (take i l) ∧ StronglySorted key_lt (drop i l).
Proof.
  intros Hl. revert i. induction Hl as [|x l Hl IH Hx]; intros [|i]; simpl; split; try constructor; try done.
  - apply IH.
  - by apply Forall_take.
  - apply IH.
Qed.

Definition has_owner (co : CapabilityOwners) (owner : Owner) : Prop :=
  ∃ o, o ∈ Owners co ∧ Owner_Key o = Owner_Key owner.

Lemma key_lt_ne o o' : key_lt o o' → Owner_Key o ≠ Owner_Key o'.
Proof. unfold key_lt. intros H He. by rewrite He, string_compare_refl in H. Qed.

Lemma Get_iff co owner :
  owners_sorted co → snd (CapabilityOwners_Get co owner) = true ↔ has_owner co owner.
Proof.
  intros Hs. destruct (CapabilityOwners_Get co owner) as [i ok] eqn:Hg.
  destruct (Get_split co owner i ok Hs Hg) as (Hle & Hlow & Hhigh). simpl. destruct ok.
  - split; [|done]. intros _. destruct Hhigh as (o & Ho & He). exists o.
    split; [by eapply list_elem_of_lookup_2|done].
  - split; [done|]. intros (o & Hin & He). exfalso. rewrite Forall_forall in Hlow, Hhigh.
    rewrite <- (take_drop i (Owners co)), elem_of_app in Hin. destruct Hin as [Hin|Hin].
    + by apply (key_lt_ne o owner); [apply Hlow|].
    + by apply (key_lt_ne owner o); [apply Hhigh|].
Qed.

Lemma Set_ok co owner :
  owners_sorted co → ¬ has_owner co owner →
  ∃ co', CapabilityOwners_Set co owner = Ok co' ∧ owners_sorted co' ∧ Owners co' ≡ₚ owner :: Owners co.
Proof.
  intros Hs Hno. rewrite <- Get_iff in Hno by done. unfold CapabilityOwners_Set.
  destruct (CapabilityOwners_Get co owner) as [i ok] eqn:Hg. simpl in Hno. destruct ok; [done|].
  destruct (Get_split co owner i false Hs Hg) as (Hle & Hlow & Hhigh).
  eexists. split; [done|]. unfold owners_sorted in *. simpl.
  destruct (sorted_take_drop (Owners co) i Hs) as [Ht Hd]. rewrite Forall_forall in Hlow. split.
  - apply sorted_app; [done|by constructor|]. rewrite Forall_forall in Hhigh. intros x y Hx Hy.
    apply elem_of_cons in Hy as [->|Hy]; [by apply Hlow|]. etrans; [by apply Hlow|by apply Hhigh].
  - rewrite <- Permutation_middle. by rewrite take_drop.
Qed.

Lemma Set_taken co owner :
  owners_sorted co → has_owner co owner → CapabilityOwners_Set co owner = Err ErrOwnerClaimed.
Proof.
  intros Hs Hh. rewrite <- Get_iff in Hh by done. unfold CapabilityOwners_Set.
  destruct (CapabilityOwners_Get co owner) as [i ok]. simpl in Hh. by rewrite Hh.
Qed.

Lemma Remove_spec co owner :
  owners_sorted co →
  owners_sorted (CapabilityOwners_Remove co owner) ∧
  ∀ o, o ∈ Owners (CapabilityOwners_Remove co owner) ↔ o ∈ Owners co ∧ Owner_Key o ≠ Owner_Key owner.
Proof.
  intros Hs. unfold CapabilityOwners_Remove. case_bool_decide as Hlen.
  { split; [done|]. intros o. apply length_zero_iff_nil in Hlen. rewrite Hlen. set_solver. }
  pose proof (Get_iff co owner Hs) as Hget.
  destruct (CapabilityOwners_Get co owner) as [i ok] eqn:Hg. simpl in Hget.
  destruct (Get_split co owner i ok Hs Hg) as (Hle & Hlow & Hhigh). destruct ok.
  - destruct Hhigh as (x & Hx & He). unfold owners_sorted in *. simpl.
    pose proof (take_drop_middle _ _ _ Hx) as Heq. pose proof Hs as Hs'. rewrite <- Heq in Hs'.
    assert (∀ y, y ∈ drop (S i) (Owners co) → key_lt x y) as Hgt.
    { apply (sorted_take_drop _ i) in Hs as [_ Hd]. rewrite (drop_S _ _ _ Hx) in Hd.
      inversion_clear Hd as [|? ? _ Hall]. by rewrite Forall_forall in Hall. }
    rewrite Forall_forall in Hlow. split.
    + apply sorted_app; [apply sorted_take_drop, Hs|apply sorted_take_drop, Hs|].
      intros a b Ha Hb. specialize (Hlow a Ha). specialize (Hgt b Hb). unfold key_lt in *.
      rewrite He in Hgt. by eapply string_compare_trans.
    + intros o. rewrite elem_of_app. split.
      * intros [Ho|Ho].
        -- split; [|by apply key_lt_ne, Hlow]. rewrite <- (take_drop i (Owners co)). set_solver.
        -- split; [|rewrite <- He; intros E; by apply (key_lt_ne x o); [apply Hgt|]].
           rewrite <- (take_drop (S i) (Owners co)). set_solver.
      * intros [Ho Hne]. rewrite <- Heq, elem_of_app, elem_of_cons in Ho. destruct Ho as [?|[->|?]]; [by left|done|by right].
  - split; [done|]. intros o. split; [|tauto]. intros Ho. split; [done|]. intros He.
    assert (false = true) by (apply Hget; by exists o). done.
Qed.

(** [C39] The owner sets of capabilities.  On a sorted set, the binary search of Get
    finds an owner exactly when one with its key is there; Set refuses a taken key
    with ErrOwnerClaimed and otherwise inserts the owner and keeps the set sorted;
    Remove deletes exactly the owner with the key and keeps the set sorted. *)
Theorem owner_set_spec co owner :
  owners_sorted co →
  (snd (CapabilityOwners_Get co owner) = true ↔ has_owner co owner) ∧
  (has_owner co owner → CapabilityOwners_Set co owner = Err ErrOwnerClaimed) ∧
  (¬ has_owner co owner → ∃ co', CapabilityOwners_Set co owner = Ok co' ∧ owners_sorted co' ∧
     Owners co' ≡ₚ owner :: Owners co) ∧
  owners_sorted (CapabilityOwners_Remove co owner) ∧
  (∀ o, o ∈ Owners (CapabilityOwners_Remove co owner) ↔ o ∈ Owners co ∧ Owner_Key o ≠ Owner_Key owner).
Proof.
  intros Hs. split_and!; [by apply Get_iff|by apply Set_taken|by apply Set_ok|apply Remove_spec, Hs..].
Qed.

Lemma owner_set_spec_witness :
  CapabilityOwners_Set (mkOwners [mkOwner "ibc" "p"; mkOwner "transfer" "p"]) (mkOwner "ibc" "p")
    = Err ErrOwnerClaimed.
Proof.
  apply (owner_set_spec (mkOwners [mkOwner "ibc" "p"; mkOwner "transfer" "p"]) (mkOwner "ibc" "p")).
  - repeat constructor.
  - exists (mkOwner "ibc" "p"). split; [apply list_elem_of_here|reflexivity].
Defined.

(** ** Scoped keepers *)

Section keeper.
Context `{BigEndianLaws, ProtoLaws CapabilityOwners}.

(** Pointers are 64-bit. *)
Definition pointer (cap : Capability) : Prop := is_u64 (cap_addr cap).

Lemma Fwd_inj m cap m' cap' :
  no_slash m → no_slash m' → pointer cap → pointer cap' →
  FwdCapabilityKey m cap = FwdCapabilityKey m' cap' → m = m' ∧ cap_addr cap = cap_addr cap'.
Proof.
  unfold FwdCapabilityKey. intros Hm Hm' Hc Hc' Heq.
  apply (slash_inj m m' ("fwd/" +:+ _) ("fwd/" +:+ _) Hm Hm') in Heq as [-> Heq].
  split; [done|]. apply string_app_inj_l in Heq. by apply FormatPointer_inj.
Qed.

Lemma Fwd_Rev_ne m cap m' n : no_slash m → no_slash m' → FwdCapabilityKey m cap ≠ RevCapabilityKey m' n.
Proof.
  unfold FwdCapabilityKey, RevCapabilityKey. intros Hm Hm' Heq.
  by apply (slash_inj m m' ("fwd/" +:+ _) ("rev/" +:+ _) Hm Hm') in Heq as [_ Heq].
Qed.

(** What AuthenticateCapability answers. *)
Definition auth (m : string) (cap : Capability) (n : string) (s : Chain) : bool :=
  negb (is_blank n) && bool_decide (default "" (memstore s !! FwdCapabilityKey m cap) = n).

Lemma AuthenticateCapability_run m cap n s :
  AuthenticateCapability m (Some cap) n s = (Ok (auth m cap n s), s).
Proof.
  unfold AuthenticateCapability, auth. rewrite bool_decide_eq_false_2 by done.
  by destruct (is_blank n).
Qed.

(** No module has a name for an object that does not exist yet. *)
Definition caps_wf (s : Chain) : Prop :=
  ∀ m cap, no_slash m → pointer cap → heap s <= cap_addr cap → memstore s !! FwdCapabilityKey m cap = None.

(** The authentications of everybody but module [m] with capability [cap]. *)
Definition others_same (m : string) (cap : Capability) (s s' : Chain) : Prop :=
  ∀ m' cap' n, no_slash m' → pointer cap' → ¬ (m' = m ∧ cap_addr cap' = cap_addr cap) →
    auth m' cap' n s' = auth m' cap' n s.

Lemma is_blank_nonempty n : is_blank n = false → n ≠ "".
Proof. by intros Hb ->. Qed.

Lemma addOwner_ok m cap n s s' :
  addOwner m cap n s = (Ok tt, s') →
  memstore s' = memstore s ∧ capMap s' = capMap s ∧ heap s' = heap s.
Proof.
  unfold addOwner, getOwners, cap_get, cap_set. intros Hr. minv.
  destruct (non_empty _); minv; done.
Qed.

(** Two entries written for an owner. *)
Definition named (m : string) (cap : Capability) (n : string) (kv : KVStore) : KVStore :=
  <[RevCapabilityKey m n := Uint64ToBigEndian (cap_index cap)]> (<[FwdCapabilityKey m cap := n]> kv).

Lemma named_auth m cap n s s' :
  no_slash m → is_blank n = false → memstore s' = named m cap n (memstore s) → auth m cap n s' = true.
Proof.
  intros Hm Hn Hk. unfold auth. rewrite Hk, Hn. unfold named.
  rewrite lookup_insert_ne by (apply not_eq_sym; by apply Fwd_Rev_ne).
  rewrite lookup_insert_eq. simpl. by apply bool_decide_eq_true_2.
Qed.

Lemma named_others m cap n s s' :
  no_slash m → pointer cap → memstore s' = named m cap n (memstore s) → others_same m cap s s'.
Proof.
  intros Hm Hc Hk m' cap' n' Hm' Hc' Hne. unfold auth. rewrite Hk. unfold named.
  rewrite lookup_insert_ne by (apply not_eq_sym; by apply Fwd_Rev_ne).
  rewrite lookup_insert_ne; [done|]. intros Heq. apply Hne. by apply Fwd_inj in Heq as [-> ->].
Qed.

Lemma NewCapability_ok m n s cap s' :
  NewCapability m n s = (Ok cap, s') →
  is_blank n = false ∧ cap_addr cap = heap s ∧ is_u64 (cap_index cap) ∧
  memstore s' = named m cap n (memstore s) ∧ capMap s' !! cap_index cap = Some cap ∧ heap s' = heap s + 1.
Proof.
  unfold NewCapability, alloc_capability, capMap_set, cap_get, cap_set, mem_set. intros Hn.
  apply bind_ok in Hn as (u & s1 & [Hb ->]%require_ok & Hn). rewrite negb_true_iff in Hb.
  apply bind_ok in Hn as (ex & s1 & Hg & Hn).
  assert (s1 = s) as -> by (eapply readonly_ok; [|exact Hg]; unfold GetCapability; ro). clear Hg. minv.
  repeat match goal with u : () |- _ => destruct u end.
  match goal with Ha : addOwner _ _ _ _ = _ |- _ => apply addOwner_ok in Ha as (Hmem & Hmap & Hheap) end.
  simpl in *. split_and!; [done|done| | |by rewrite lookup_insert_eq|done].
  - unfold read_index. destruct (capstore s !! KeyIndex); [apply be_range|unfold is_u64; lia].
  - unfold named. by rewrite Hmem.
Qed.

Lemma GetCapability_named m cap n s s' :
  is_blank n = false → is_u64 (cap_index cap) → memstore s' = named m cap n (memstore s) →
  capMap s' !! cap_index cap = Some cap → GetCapability m n s' = (Ok (Some cap), s').
Proof.
  intros Hn Hi Hk Hmap. unfold GetCapability. rewrite Hn.
  unfold mbind, M_bind, mem_get, gets. rewrite Hk. unfold named. rewrite lookup_insert_eq. simpl.
  rewrite bool_decide_eq_false_2. 
  - unfold IndexFromKey. rewrite be_roundtrip by done. by rewrite Hmap.
  - intros He. pose proof (be_length (cap_index cap) Hi) as Hl. by rewrite He in Hl.
Qed.

Lemma ClaimCapability_ok m cap n s s' :
  ClaimCapability m (Some cap) n s = (Ok tt, s') →
  is_blank n = false ∧ memstore s' = named m cap n (memstore s) ∧ capMap s' = capMap s ∧ heap s' = heap s.
Proof.
  unfold ClaimCapability, mem_set. intros Hn. minv.
  repeat match goal with u : () |- _ => destruct u end.
  match goal with Ha : addOwner _ _ _ _ = _ |- _ => apply addOwner_ok in Ha as (Hmem & Hmap & Hheap) end.
  rewrite negb_true_iff in *. simpl. unfold named. rewrite Hmem. by split_and!.
Qed.

Lemma ReleaseCapability_ok m cap s s' :
  ReleaseCapability m (Some cap) s = (Ok tt, s') →
  ∃ n, memstore s !! FwdCapabilityKey m cap = Some n ∧ n ≠ "" ∧ heap s' = heap s ∧
    memstore s' = delete (RevCapabilityKey m n) (delete (FwdCapabilityKey m cap) (memstore s)).
Proof.
  unfold ReleaseCapability, GetCapabilityName, mem_get, mem_delete, getOwners, cap_get, cap_set, cap_delete, capMap_delete.
  intros Hr. apply bind_ok in Hr as (c & s1 & [[= <-] ->]%orErr_ok & Hr). minv.
  rewrite negb_true_iff, bool_decide_eq_false in *.
  destruct (memstore s !! FwdCapabilityKey m cap) as [n|] eqn:Hn; simpl in *; [|done].
  exists n. destruct (non_empty _); minv; case_bool_decide; minv; by split_and!.
Qed.

(** A new capability authenticates for the module that created it, under the
    name it was created with, and for no other module or name; it is found under
    that name, and the authentications of all other capabilities are as before. *)
Theorem new_capability_spec m n s cap s' :
  caps_wf s → is_u64 (heap s) → no_slash m → NewCapability m n s = (Ok cap, s') →
  AuthenticateCapability m (Some cap) n s' = (Ok true, s') ∧
  (∀ m' n', no_slash m' → ¬ (m' = m ∧ n' = n) →
     AuthenticateCapability m' (Some cap) n' s' = (Ok false, s')) ∧
  GetCapability m n s' = (Ok (Some cap), s') ∧
  (∀ m' cap' n', no_slash m' → pointer cap' → cap_addr cap' ≠ cap_addr cap →
     AuthenticateCapability m' (Some cap') n' s' = (Ok (auth m' cap' n' s), s')) ∧
  caps_wf s'.
Proof.
  intros Hwf Hh Hm (Hb & Ha & Hi & Hk & Hmap & Hh')%NewCapability_ok.
  assert (pointer cap) as Hp by (unfold pointer; by rewrite Ha).
  pose proof (named_others m cap n s s' Hm Hp Hk) as Ho. split_and!.
  - rewrite AuthenticateCapability_run. by rewrite (named_auth m cap n s).
  - intros m' n' Hm' Hne. rewrite AuthenticateCapability_run. f_equal. f_equal.
    destruct (decide (m' = m)) as [->|Hmm].
    + unfold auth. rewrite Hk. unfold named.
      rewrite lookup_insert_ne by (apply not_eq_sym; by apply Fwd_Rev_ne). rewrite lookup_insert_eq. simpl.
      rewrite bool_decide_eq_false_2 by (intros <-; tauto). apply andb_false_r.
    + rewrite Ho; [|done|done|tauto]. unfold auth. rewrite Hwf by (done || lia). simpl.
      destruct (is_blank n') eqn:Hb'; [done|]. simpl. apply bool_decide_eq_false_2.
      by apply not_eq_sym, is_blank_nonempty.
  - by eapply GetCapability_named.
  - intros m' cap' n' Hm' Hp' Hne. rewrite AuthenticateCapability_run. rewrite Ho; [done|done|done|tauto].
  - intros m' cap' Hm' Hp' Hle. rewrite Hh' in Hle. rewrite Hk. unfold named.
    rewrite lookup_insert_ne by (apply not_eq_sym; by apply Fwd_Rev_ne).
    rewrite lookup_insert_ne; [apply Hwf; [done|done|lia]|].
    intros Heq. apply Fwd_inj in Heq as [_ Heq]; [lia|done..].
Qed.

(** Claiming makes a module authenticate under the name it claims, releasing
    makes it authenticate under no name and needs the module to own it; neither changes an authentication of any
    other module or of any other capability. *)
Theorem claim_release_spec m cap n s s' :
  no_slash m → pointer cap →
  (ClaimCapability m (Some cap) n s = (Ok tt, s') →
   AuthenticateCapability m (Some cap) n s' = (Ok true, s') ∧ others_same m cap s s') ∧
  (ReleaseCapability m (Some cap) s = (Ok tt, s') →
   GetCapabilityName m (Some cap) s ≠ (Ok "", s) ∧
   (∀ n', AuthenticateCapability m (Some cap) n' s' = (Ok false, s')) ∧ others_same m cap s s').
Proof.
  intros Hm Hp. split.
  - intros (Hb & Hk & _ & _)%ClaimCapability_ok. split; [|by eapply named_others].
    rewrite AuthenticateCapability_run. by rewrite (named_auth m cap n s).
  - intros (n0 & Hn0 & Hne & _ & Hk)%ReleaseCapability_ok.
    assert (∀ m' cap', no_slash m' → pointer cap' →
      memstore s' !! FwdCapabilityKey m' cap' =
      delete (FwdCapabilityKey m cap) (memstore s) !! FwdCapabilityKey m' cap') as Hf.
    { intros m' cap' Hm' Hp'. rewrite Hk, lookup_delete_ne; [done|]. apply not_eq_sym. by apply Fwd_Rev_ne. }
    split_and!.
    + unfold GetCapabilityName, mem_get, gets, mbind, M_bind. rewrite Hn0. simpl. by intros [= ->].
    + intros n'. rewrite AuthenticateCapability_run. unfold auth. rewrite Hf, lookup_delete_eq by done. simpl.
      destruct (is_blank n') eqn:Hb; [done|]. simpl. do 2 f_equal. apply bool_decide_eq_false_2.
      by apply not_eq_sym, is_blank_nonempty.
    + intros m' cap' n' Hm' Hp' Hd. unfold auth. rewrite Hf by done. rewrite lookup_delete_ne; [done|].
      intros Heq. apply Hd. by apply Fwd_inj in Heq as [-> ->].
Qed.

End keeper.
