(* ===== verification/CapabilityGenesis.v ===== *)
(** * x/capability: genesis

    Models src/modules/capability/genesis.go and src/modules/capability/types/genesis.go.  The export is a
    loop over all indices that were handed out; the theorem shows that it returns, and
    that a chain that starts from an export has the owners the old chain had. *)

From stdpp Require Import gmap strings list.
From Stdlib Require Import ZArith Lia Ascii.
From S2P Require Import Prelude GoStd Host Chain Sums Capability.

Definition DefaultIndex : Z := 1.

Record GenesisOwners := mkGenesisOwners { go_Index : Z; go_IndexOwners : CapabilityOwners }.
#[local] Instance capability_owners_dec : EqDecision CapabilityOwners.
Proof. solve_decision. Defined.
#[export] Instance GenesisOwners_eq_dec : EqDecision GenesisOwners.
Proof. solve_decision. Defined.
Record CapGenesis := mkCapGenesis { cg_Index : Z; cg_Owners : list GenesisOwners }.

Definition DefaultGenesis : CapGenesis := mkCapGenesis DefaultIndex [].

Definition validate_genesis_owners (index : Z) (genOwner : GenesisOwners) : Outcome () :=
  check (negb (bool_decide (Owners (go_IndexOwners genOwner) = []))) errUnregistered;;
  check (negb ((go_Index genOwner =? 0) || (index <=? go_Index genOwner))) errUnregistered;;
  check_each (λ owner,
    check (negb (is_blank (Module_ owner))) errUnregistered;;
    check (negb (is_blank (Name owner))) errUnregistered) (Owners (go_IndexOwners genOwner)).

Definition CapGenesis_Validate (gs : CapGenesis) : Outcome () :=
  check (negb (cg_Index gs =? 0)) errUnregistered;;
  check_each (validate_genesis_owners (cg_Index gs)) (cg_Owners gs).

Section genesis.
Context `{BigEndian, Proto CapabilityOwners}.

Definition Cap_InitGenesis (genState : CapGenesis) : M () :=
  orPanics (InitializeIndex (cg_Index genState));;
  for_each (cg_Owners genState) (λ genOwner, SetOwners (go_Index genOwner) (go_IndexOwners genOwner));;
  InitMemStore.

(** The loop from [i] over the next [n] indices; the last index is below the latest one,
    so that the counter does not wrap around. *)
Fixpoint export_owners (n : nat) (i : Z) : M (list GenesisOwners) :=
  match n with
  | O => mret []
  | S n =>
      capabilityOwners ← Keeper_GetOwners i;
      owners ← export_owners n (i + 1);
      mret (match capabilityOwners with
            | Some co => if bool_decide (Owners co = []) then owners else mkGenesisOwners i co :: owners
            | None => owners
            end)
  end.

Definition Cap_ExportGenesis : M CapGenesis :=
  index ← GetLatestIndex;
  owners ← export_owners (Z.to_nat (index - 1)) 1;
  mret (mkCapGenesis index owners).
End genesis.

Section roundtrip.
Context `{BigEndianLaws, ProtoLaws CapabilityOwners}.

(** The owners stored for an index; an empty set is as good as none. *)
Definition owners_at (i : Z) (s : Chain) : option CapabilityOwners :=
  match capstore s !! owners_key i ≫= Unmarshal with
  | Some co => if bool_decide (Owners co = []) then None else Some co
  | None => None
  end.

(** What is stored for the indices below [index] decodes. *)
Definition owners_decode (index : Z) (s : Chain) : Prop :=
  ∀ i bz, 1 <= i < index → capstore s !! owners_key i = Some bz → is_Some (Unmarshal (A:=CapabilityOwners) bz).

Definition genesis_owner (s : Chain) (i : Z) : list GenesisOwners :=
  match owners_at i s with Some co => [mkGenesisOwners i co] | None => [] end.

Lemma export_owners_run n i index s :
  owners_decode index s → 1 <= i → i + Z.of_nat n <= index →
  export_owners n i s = (Ok (concat (genesis_owner s <$> seqZ i (Z.of_nat n))), s).
Proof.
  intros Hd. revert i. induction n as [|n IH]; intros i Hi Hn; [done|].
  rewrite seqZ_cons by lia. cbn [export_owners]. rewrite fmap_cons. cbn [concat].
  replace (Z.succ i) with (i + 1) by lia. replace (Z.pred (Z.of_nat (S n))) with (Z.of_nat n) by lia.
  unfold genesis_owner at 1, owners_at. destruct (capstore s !! owners_key i) as [bz|] eqn:Hbz.
  - destruct (Hd i bz) as [co Hco]; [lia|done|]. rewrite (bind_run _ _ s (Some co) s).
    + erewrite bind_run by (apply IH; lia). simpl. rewrite Hco. by case_bool_decide.
    + unfold Keeper_GetOwners. erewrite bind_run by done. rewrite Hbz. unfold MustUnmarshal. by rewrite Hco.
  - rewrite (bind_run _ _ s None s); [|unfold Keeper_GetOwners; erewrite bind_run by done; by rewrite Hbz].
    by erewrite bind_run by (apply IH; lia).
Qed.

Lemma owners_key_inj i j : is_u64 i → is_u64 j → owners_key i = owners_key j → i = j.
Proof.
  intros Hi Hj Heq. apply string_app_inj_l in Heq. unfold IndexToKey in Heq.
  rewrite <- (be_roundtrip i), <- (be_roundtrip j) by done. by rewrite Heq.
Qed.

(** Writing owner sets: what is there afterwards. *)
Lemma set_owners_run l s :
  ∃ kv, for_each l (λ o, SetOwners (go_Index o) (go_IndexOwners o)) s = (Ok tt, set_capstore kv s) ∧
    (∀ k, (∀ o, o ∈ l → k ≠ owners_key (go_Index o)) → kv !! k = capstore s !! k) ∧
    (∀ o, o ∈ l → is_u64 (go_Index o) → (∀ o', o' ∈ l → is_u64 (go_Index o') ∧ (go_Index o' = go_Index o → o' = o)) →
       kv !! owners_key (go_Index o) = Some (Marshal (go_IndexOwners o))) ∧
    (∀ k v, kv !! k = Some v → capstore s !! k = Some v ∨ ∃ co, v = Marshal (A:=CapabilityOwners) co).
Proof.
  revert s. induction l as [|o l IH]; intros s.
  { exists (capstore s). split_and!; [by destruct s|done|by intros o ?%not_elem_of_nil|by left]. }
  destruct (IH (set_capstore (<[owners_key (go_Index o) := Marshal (go_IndexOwners o)]> (capstore s)) s))
    as (kv & Hrun & Hsame & Hset & Hval). exists kv. split_and!.
  - cbn [for_each]. erewrite bind_run by done. rewrite Hrun. by destruct s.
  - intros k Hk. rewrite Hsame by (intros o' ?; apply Hk; by right). cbn [capstore set_capstore].
    rewrite lookup_insert_ne; [done|]. intros <-. by apply (Hk o); [left|].
  - intros x Hx Hu Huniq. destruct (decide (x ∈ l)) as [Hin|Hout]; [apply Hset; [done..|]; intros o' ?; apply Huniq; by right|].
    apply elem_of_cons in Hx as [->|?]; [|done]. rewrite Hsame; [apply lookup_insert_eq|].
    intros o' Ho' Heq. destruct (Huniq o') as [Hu' Ho]; [by right|]. apply owners_key_inj in Heq; [|done..].
    apply Hout. by rewrite <- Ho.
  - intros k v Hk. destruct (Hval k v Hk) as [Hk'|?]; [|by right]. cbn [capstore set_capstore] in Hk'.
    apply lookup_insert_Some in Hk' as [[_ <-]|[_ ?]]; [right; by eexists|by left].
Qed.

(** A loop whose body succeeds and keeps the persistent store. *)
Lemma for_each_caps {A} (l : list A) (body : A → M ()) s :
  (∀ a s, a ∈ l → ∃ s', body a s = (Ok tt, s') ∧ capstore s' = capstore s) →
  ∃ s', for_each l body s = (Ok tt, s') ∧ capstore s' = capstore s.
Proof.
  revert s. induction l as [|a l IH]; intros s Hb; [by exists s|].
  destruct (Hb a s) as (s1 & Hr1 & Hs1); [by left|].
  destruct (IH s1) as (s2 & Hr2 & Hs2); [intros b s' ?; apply Hb; by right|].
  exists s2. cbn [for_each]. erewrite bind_run by done. split; [done|congruence].
Qed.

Lemma InitMemStore_run s :
  (∀ k v, capstore s !! k = Some v → HasPrefix k KeyPrefixIndexCapability = true →
     is_Some (Unmarshal (A:=CapabilityOwners) v)) →
  ∃ s', InitMemStore s = (Ok tt, s') ∧ capstore s' = capstore s.
Proof.
  intros Hd. unfold InitMemStore. rewrite (bind_run _ _ s (bool_decide (is_Some (memstore s !! KeyMemInitialized))) s) by done.
  case_bool_decide; [by exists s|].
  erewrite bind_run by done. match goal with |- context [for_each ?l ?body] =>
    destruct (for_each_caps l body s) as (s1 & Hr & Hs1) end.
  - intros [k v] s1 [Hk Hp]%KVStorePrefixIterator_elem. destruct (Hd k v Hk Hp) as [co Hco].
    unfold InitializeCapability, MustUnmarshal. rewrite Hco. erewrite bind_run by done. erewrite bind_run by done.
    match goal with |- context [for_each (Owners co) ?body] =>
      destruct (for_each_caps (Owners co) body (set_heap (heap s1 + 1) s1)) as (s2 & Hr2 & Hs2); [by intros; eexists|] end.
    exists s2. split; [exact Hr2|by rewrite Hs2].
  - erewrite bind_run by exact Hr. by eexists.
Qed.

(** The exported owners: each index once, below the latest. *)
Lemma exported_elem s index o :
  o ∈ concat (genesis_owner s <$> seqZ 1 (index - 1)) ↔
  1 <= go_Index o < index ∧ owners_at (go_Index o) s = Some (go_IndexOwners o).
Proof.
  rewrite list_elem_of_In, in_concat. split.
  - intros (l & Hl & Ho). apply list_elem_of_In, list_elem_of_fmap in Hl as (i & -> & Hi%elem_of_seqZ).
    unfold genesis_owner in Ho. destruct (owners_at i s) as [co|] eqn:Hco; [|done]. destruct Ho as [<-|[]]. simpl. split; [lia|done].
  - intros [Hi Ho]. exists (genesis_owner s (go_Index o)). split.
    + apply list_elem_of_In, list_elem_of_fmap. exists (go_Index o). split; [done|]. apply elem_of_seqZ. lia.
    + unfold genesis_owner. rewrite Ho. left. by destruct o.
Qed.

(** [C38] Genesis of x/capability goes round.  If what is stored for the indices that were
    handed out decodes, exporting returns, changes nothing and lists every index with
    owners; and starting a chain with an empty store from the export returns too, and
    leaves the same index and, for every index, the same owners. *)
Theorem capability_genesis_roundtrip s s0 index :
  GetLatestIndex s = (Ok index, s) → is_u64 index → index ≠ 0 → owners_decode index s → capstore s0 = ∅ →
  ∃ gs s1, Cap_ExportGenesis s = (Ok gs, s) ∧ Cap_InitGenesis gs s0 = (Ok tt, s1) ∧
    GetLatestIndex s1 = (Ok index, s1) ∧ ∀ i, 1 <= i < index → owners_at i s1 = owners_at i s.
Proof.
  intros Hidx Hu Hn0 Hd Hempty. set (l := concat (genesis_owner s <$> seqZ 1 (index - 1))).
  exists (mkCapGenesis index l). destruct (set_owners_run l (set_capstore {[KeyIndex := IndexToKey index]} s0))
    as (kv & Hrun & Hsame & Hset & Hval). cbn [capstore set_capstore] in *.
  assert (∀ o, o ∈ l → is_u64 (go_Index o) ∧ ∀ o', o' ∈ l → is_u64 (go_Index o') ∧ (go_Index o' = go_Index o → o' = o)) as Huniq.
  { intros o [Ho Hoo]%exported_elem. unfold is_u64 in *. split; [lia|]. intros o' [Ho' Hoo']%exported_elem.
    split; [lia|]. intros Heq. rewrite Heq, Hoo in Hoo'. destruct o, o'. simpl in *. congruence. }
  destruct (InitMemStore_run (set_capstore kv s0)) as (s1 & Hmem & Hs1).
  { intros k v Hk Hp. destruct (Hval k v Hk) as [Hk'|[co ->]]; [|rewrite unmarshal_marshal; by eexists].
    apply lookup_singleton_Some in Hk' as [<- _]. done. }
  exists s1. split_and!.
  - unfold Cap_ExportGenesis. erewrite bind_run by exact Hidx.
    erewrite bind_run by (apply (export_owners_run _ _ index); [done|lia|unfold is_u64 in *; lia]).
    unfold l. rewrite Z2Nat.id by (unfold is_u64 in *; lia). done.
  - unfold Cap_InitGenesis. cbn [cg_Index cg_Owners].
    rewrite (bind_run _ _ s0 tt (set_capstore {[KeyIndex := IndexToKey index]} s0)).
    + erewrite bind_run by exact Hrun. by destruct s0.
    + unfold orPanics, InitializeIndex. rewrite (proj2 (Z.eqb_neq _ _)) by done. unfold GetLatestIndex.
      erewrite bind_run by (erewrite bind_run by done; done). unfold cap_set, modify.
      rewrite Hempty, lookup_empty. cbn [read_index Z.ltb Z.compare]. by rewrite Hempty.
  - unfold GetLatestIndex. erewrite bind_run by done. rewrite Hs1. cbn [capstore set_capstore]. rewrite Hsame.
    + rewrite lookup_singleton_eq. simpl. unfold IndexFromKey, IndexToKey. by rewrite be_roundtrip.
    + by intros o _.
  - intros i Hi. unfold owners_at at 1. rewrite Hs1. cbn [capstore set_capstore].
    destruct (owners_at i s) as [co|] eqn:Hco.
    + change i with (go_Index (mkGenesisOwners i co)) at 1. rewrite (Hset (mkGenesisOwners i co)).
      * simpl. rewrite unmarshal_marshal. unfold owners_at in Hco. destruct (_ ≫= _) as [co'|]; [|done].
        case_bool_decide; [done|]. injection Hco as <-. by rewrite bool_decide_eq_false_2.
      * by apply exported_elem.
      * unfold is_u64 in *. simpl. lia.
      * intros o' Ho'. by apply (Huniq (mkGenesisOwners i co)); [apply exported_elem|].
    + rewrite Hsame; [by rewrite lookup_singleton_ne|]. intros o Ho Heq.
      destruct (Huniq o Ho) as [Huo _]. apply exported_elem in Ho as [_ Hoo].
      apply owners_key_inj in Heq; [|unfold is_u64 in *; lia|done]. congruence.
Qed.
End roundtrip.
