(* ===== verification/Port.v ===== *)
(** * ICS 05: ports

    Models src/modules/core/05-port: the port keeper of keeper/keeper.go, the
    owner selection of types/utils.go and the router of types/router.go.  The
    IBC module's scoped capability keeper has the module name "ibc". *)

From stdpp Require Import gmap strings list.
From Stdlib Require Import ZArith Lia Ascii.
From S2P Require Import Prelude GoStd Host Chain Capability.

Definition ErrPortExists : error := mkError "port" 2.
Definition ErrPortNotFound : error := mkError "port" 3.
Definition ErrInvalidPort : error := mkError "port" 4.
Definition ErrInvalidRoute : error := mkError "port" 5.

(** The name of the module the IBC keepers' scoped keeper is tied to. *)
Definition ibcModule : string := "ibc".

(** ** types/utils.go *)

Definition GetModuleOwner (modules : list string) : Outcome string :=
  match modules with
  | [m0; m1] => Ok (if bool_decide (m0 = "ibc") then m1 else m0)
  | _ => Panic
  end.

(** ** types/router.go *)

Section router.
Context {IBCModule : Type}.

Record Router := mkRouter { routes : gmap string IBCModule; router_sealed : bool }.

Definition NewRouter : Router := mkRouter ∅ false.

Definition Router_Seal (rtr : Router) : Outcome Router :=
  if router_sealed rtr then Panic else Ok (mkRouter (routes rtr) true).

Definition Router_Sealed (rtr : Router) : bool := router_sealed rtr.

Definition HasRoute (rtr : Router) (module : string) : bool :=
  bool_decide (is_Some (routes rtr !! module)).

(** [sdk.IsAlphaNumeric]: letters and digits only, at least one. *)
Definition IsAlphaNumeric (s : string) : bool :=
  negb (bool_decide (s = "")) && str_forall is_alnum s.

Definition AddRoute (rtr : Router) (module : string) (cbs : IBCModule) : Outcome Router :=
  if router_sealed rtr then Panic
  else if negb (IsAlphaNumeric module) then Panic
  else if HasRoute rtr module then Panic
  else Ok (mkRouter (<[module:=cbs]> (routes rtr)) (router_sealed rtr)).

Definition GetRoute (rtr : Router) (module : string) : option IBCModule :=
  if negb (HasRoute rtr module) then None else routes rtr !! module.
End router.
Arguments Router : clear implicits.

(** ** keeper/keeper.go *)

Section keeper.
Context `{BigEndian, Proto CapabilityOwners}.

Definition IsBound (portID : string) : M bool :=
  cap ← GetCapability ibcModule (PortPath portID);
  mret (bool_decide (is_Some cap)).

Definition BindPort (portID : string) : M Capability :=
  orPanics (lift (PortIdentifierValidator portID));;
  bound ← IsBound portID;
  (if bound : bool then panic else mret tt);;
  orPanics (NewCapability ibcModule (PortPath portID)).

Definition Port_Authenticate (key : option Capability) (portID : string) : M bool :=
  orPanics (lift (PortIdentifierValidator portID));;
  AuthenticateCapability ibcModule key (PortPath portID).

Definition LookupModuleByPort (portID : string) : M (string * Capability) :=
  '(modules, capability) ← LookupModules ibcModule (PortPath portID);
  owner ← lift (GetModuleOwner modules);
  mret (owner, capability).
End keeper.
