(* ===== verification/Commitment.v ===== *)
(** * ICS 23: commitment paths

    Models the path types of src/modules/core/23-commitment/types/merkle.go
    that the keepers build: roots, prefixes and key paths.  The Merkle proofs
    themselves are checked by the ics23 library. *)

From stdpp Require Import gmap strings list.
From Stdlib Require Import ZArith Lia Ascii.
From S2P Require Import Prelude GoStd.

Definition ErrInvalidProof : error := mkError "commitment" 2.
Definition ErrInvalidPrefix : error := mkError "commitment" 3.
Definition ErrInvalidMerkleProof : error := mkError "commitment" 4.

Record MerkleRoot := mkMerkleRoot { Hash : bytes }.
Definition NewMerkleRoot (hash : bytes) : MerkleRoot := mkMerkleRoot hash.
Definition MerkleRoot_Empty (mr : MerkleRoot) : bool := bool_decide (Hash mr = "").

Record MerklePrefix := mkMerklePrefix { KeyPrefix : bytes }.
Definition NewMerklePrefix (keyPrefix : bytes) : MerklePrefix := mkMerklePrefix keyPrefix.
Definition MerklePrefix_Empty (mp : MerklePrefix) : bool := bool_decide (KeyPrefix mp = "").

Record MerklePath := mkMerklePath { KeyPath : list string }.
Definition NewMerklePath (keyPath : list string) : MerklePath := mkMerklePath keyPath.
Definition MerklePath_Empty (mp : MerklePath) : bool := bool_decide (length (KeyPath mp) = 0%nat).

#[export] Instance MerklePrefix_eq_dec : EqDecision MerklePrefix.
Proof. solve_decision. Defined.
#[export] Instance MerkleRoot_eq_dec : EqDecision MerkleRoot.
Proof. solve_decision. Defined.

(** A nil prefix does not occur: the callers pass the prefix of a counterparty. *)
Definition ApplyPrefix (prefix : MerklePrefix) (path : MerklePath) : Outcome MerklePath :=
  check (negb (MerklePrefix_Empty prefix)) ErrInvalidPrefix;;
  Ok (NewMerklePath (KeyPrefix prefix :: KeyPath path)).
