(* ===== verification/LightClient.v ===== *)
(** * The interface of a light client

    Models src/modules/core/exported/client.go: the client state a chain keeps
    for a counterparty, as the operations the keepers call on it.  The
    interface is a class, as in the code: the keepers are written, and their
    theorems proved, against it; the 09-localhost client is an instance.

    A light client works on a view of the IBC store.  The view is named by the
    prefix of its keys: ["clients/{id}/"] for the store of one client, [""]
    when the caller hands out the whole IBC store. *)

From stdpp Require Import gmap strings list.
From Stdlib Require Import ZArith Lia Ascii.
From S2P Require Import Prelude GoStd Host Chain Height Commitment.

(** ** core/errors/errors.go *)

Definition ErrUnauthorized : error := mkError "ibc" 2.
Definition ErrInvalidAddress : error := mkError "ibc" 5.
Definition ErrInvalidType : error := mkError "ibc" 12.
Definition ErrUnpackAny : error := mkError "ibc" 14.
Definition ErrNotFound : error := mkError "ibc" 16.

(** ** exported/client.go *)

Inductive ClientStatus := Active | Frozen | Expired | Unknown | Unauthorized.

#[export] Instance ClientStatus_eq_dec : EqDecision ClientStatus.
Proof. solve_decision. Defined.

Definition Solomachine : string := "06-solomachine".
Definition Tendermint : string := "07-tendermint".
Definition Localhost : string := "09-localhost".
Definition LocalhostClientID : string := Localhost.

Abbreviation Store := string (only parsing).

(** [clienttypes.GenesisMetadata]. *)
Record GenesisMetadata := mkMetadata { md_Key : bytes; md_Value : bytes }.

(** ** What the client keeper knows of the Tendermint client

    [ProofSpec] and the checks on it belong to the ics23 library. *)

Class Ics23 := {
  ProofSpec : Type;
  ProofSpec_eq_dec :: EqDecision ProofSpec;
  IavlSpec : ProofSpec;
  TendermintSpec : ProofSpec
}.

(** [commitmenttypes.GetSDKSpecs]. *)
Definition GetSDKSpecs `{Ics23} : list (option ProofSpec) := [Some IavlSpec; Some TendermintSpec].

Record Fraction := mkFraction { Numerator : Z; Denominator : Z }.

(** A nil slice and an empty one have the same encoding: both are []. *)
Record TmClientState `{Ics23} := mkTmClientState {
  tm_ChainId : string;
  tm_TrustLevel : Fraction;
  tm_TrustingPeriod : Z;
  tm_UnbondingPeriod : Z;
  tm_MaxClockDrift : Z;
  tm_FrozenHeight : Height;
  tm_LatestHeight : Height;
  tm_ProofSpecs : list (option ProofSpec);
  tm_UpgradePath : list string;
  tm_AllowUpdateAfterExpiry : bool;
  tm_AllowUpdateAfterMisbehaviour : bool
}.

Arguments mkTmClientState {_} _ _ _ _ _ _ _ _ _ _ _.

Record TmConsensusState := mkTmConsensusState {
  tm_Timestamp : Z;
  tm_Root : MerkleRoot;
  tm_NextValidatorsHash : bytes
}.

#[export] Instance Fraction_eq_dec : EqDecision Fraction.
Proof. solve_decision. Defined.
#[export] Instance TmClientState_eq_dec `{Ics23} : EqDecision TmClientState.
Proof. solve_decision. Defined.
#[export] Instance TmConsensusState_eq_dec : EqDecision TmConsensusState.
Proof. solve_decision. Defined.

(** ** The interface

    The pure methods read the store they are given; the others may write it.
    [mk_localhost], [mk_tm_consensus] and [as_tendermint] are the conversions
    between the interface and the concrete types the keepers name.  A nil
    consensus state or client message is [None]. *)
Class LightClient `{Ics23} := {
  ClientState : Type;
  ConsensusState : Type;
  ClientMessage : Type;

  ClientType : ClientState → string;
  GetLatestHeight : ClientState → Height;
  Status : Context → KVStore → Store → ClientState → Outcome ClientStatus;
  ExportMetadata : KVStore → Store → ClientState → list GenesisMetadata;
  ZeroCustomFields : ClientState → Outcome ClientState;
  GetTimestampAtHeight : Context → KVStore → Store → ClientState → Height → Outcome Z;

  Initialize : Context → Store → ClientState → option ConsensusState → SM ();
  VerifyMembership : Context → Store → ClientState → Height → Z → Z →
    bytes → MerklePath → bytes → SM ();
  VerifyNonMembership : Context → Store → ClientState → Height → Z → Z →
    bytes → MerklePath → SM ();
  VerifyClientMessage : Context → Store → ClientState → option ClientMessage → SM ();
  CheckForMisbehaviour : Context → Store → ClientState → option ClientMessage → SM bool;
  UpdateStateOnMisbehaviour : Context → Store → ClientState → option ClientMessage → SM ();
  UpdateState : Context → Store → ClientState → option ClientMessage → SM (list Height);
  CheckSubstituteAndUpdateState : Context → Store → Store → ClientState → ClientState → SM ();
  VerifyUpgradeAndUpdateState : Context → Store → ClientState → ClientState → ConsensusState →
    bytes → bytes → SM ();

  mk_localhost : Height → ClientState;
  mk_tm_consensus : TmConsensusState → ConsensusState;
  as_tendermint : ClientState → option TmClientState
}.

(** The stateless checks of the interfaces of exported/client.go. *)
Class ClientChecks `{LightClient} := {
  ClientState_Validate : ClientState → Outcome ();
  ConsensusState_ClientType : ConsensusState → string;
  ConsensusState_ValidateBasic : ConsensusState → Outcome ();
  ClientMessage_ValidateBasic : ClientMessage → Outcome ()
}.

(** The keys of the client stores. *)
Definition client_key (k : string) : bool := HasPrefix k "clients/".

(** [kv'] is [kv] but for keys that start with [p]. *)
Definition frame_outside (p : string) (kv kv' : KVStore) : Prop :=
  ∀ k, HasPrefix k p = false → kv' !! k = kv !! k.

(** What the keepers rely on: a client writes only through the store it was
    given, and the localhost client, the one that is given the whole store to
    verify against, does not write when it verifies. *)
Class LightClientLaws `{LightClient} := {
  verify_membership_frame ctx st cs h dt db proof path v kv :
    frame_outside st kv (snd (VerifyMembership ctx st cs h dt db proof path v kv));
  verify_non_membership_frame ctx st cs h dt db proof path kv :
    frame_outside st kv (snd (VerifyNonMembership ctx st cs h dt db proof path kv));
  localhost_membership_pure ctx st cs h dt db proof path v kv :
    ClientType cs = Localhost →
    snd (VerifyMembership ctx st cs h dt db proof path v kv) = kv;
  localhost_non_membership_pure ctx st cs h dt db proof path kv :
    ClientType cs = Localhost →
    snd (VerifyNonMembership ctx st cs h dt db proof path kv) = kv;
  initialize_frame ctx st cs cons kv : frame_outside st kv (snd (Initialize ctx st cs cons kv));
  misbehaviour_frame ctx st cs msg kv :
    frame_outside st kv (snd (UpdateStateOnMisbehaviour ctx st cs msg kv));
  update_frame ctx st cs msg kv : frame_outside st kv (snd (UpdateState ctx st cs msg kv));
  verify_message_frame ctx st cs msg kv :
    frame_outside st kv (snd (VerifyClientMessage ctx st cs msg kv));
  check_misbehaviour_frame ctx st cs msg kv :
    frame_outside st kv (snd (CheckForMisbehaviour ctx st cs msg kv));
  upgrade_frame ctx st cs cs' cons p1 p2 kv :
    frame_outside st kv (snd (VerifyUpgradeAndUpdateState ctx st cs cs' cons p1 p2 kv));
  substitute_frame ctx st st' cs cs' kv :
    frame_outside st kv (snd (CheckSubstituteAndUpdateState ctx st st' cs cs' kv))
}.

#[export] Instance frame_outside_refl p : Reflexive (frame_outside p).
Proof. by intros kv k _. Qed.

#[export] Instance frame_outside_trans p : Transitive (frame_outside p).
Proof. intros a b c H1 H2 k Hk. rewrite H2, H1; done. Qed.

Lemma frame_outside_insert p k v kv :
  HasPrefix k p = true → frame_outside p kv (<[k:=v]> kv).
Proof. intros Hk j Hj. apply lookup_insert_ne. intros ->. congruence. Qed.
