(* ===== verification/Merkle.v ===== *)
(** * ICS 23: Merkle proofs

    Models the rest of src/modules/core/23-commitment/types/merkle.go: the chained
    proofs by which a key in a store of a multistore is shown to be present or
    absent under the root of a block.  A single proof is checked by the ics23
    library, which is a parameter; [url.PathEscape] and [url.PathUnescape], by which
    keys travel, are modelled.

    A chained proof goes from the lowest tree to the highest while its keys go from
    the highest to the lowest; [chained] is the relation it establishes, and the
    theorem of this file shows the loops compute it. *)

From stdpp Require Import gmap strings list.
From Stdlib Require Import ZArith Lia Ascii.
From S2P Require Import Prelude GoStd Host Chain Height Commitment LightClient.

(** ** net/url *)

Definition percent : ascii := "%"%char.

(** The characters [url.PathEscape] keeps: the unreserved ones and those a path
    segment may contain. *)
Definition path_safe (c : ascii) : bool :=
  is_digit c || in_range 97 122 c || in_range 65 90 c ||
  existsb (λ d, bool_decide (c = d)) ["-"; "_"; "."; "~"; "$"; "&"; "+"; ":"; "="; "@"]%char.

Definition upper_hex_digit (n : Z) : ascii := byte_of (if n <? 10 then 48 + n else 55 + n).

Fixpoint PathEscape (s : string) : string :=
  match s with
  | EmptyString => EmptyString
  | String c s' =>
      if path_safe c then String c (PathEscape s')
      else String percent (String (upper_hex_digit (char_code c / 16))
             (String (upper_hex_digit (char_code c mod 16)) (PathEscape s')))
  end.

Fixpoint PathUnescape (s : string) : option string :=
  match s with
  | EmptyString => Some EmptyString
  | String c s' =>
      if bool_decide (c = percent) then
        match s' with
        | String a (String b s2) =>
            match hex_value a, hex_value b with
            | Some x, Some y => String (byte_of (16 * x + y)) <$> PathUnescape s2
            | _, _ => None
            end
        | _ => None
        end
      else String c <$> PathUnescape s'
  end.

(** ** Paths *)

Definition MerklePath_String (mp : MerklePath) : string :=
  fold_left (λ pathStr k, pathStr +:+ "/" +:+ PathEscape k) (KeyPath mp) "".

Definition MerklePath_Pretty (mp : MerklePath) : Outcome string :=
  match PathUnescape (MerklePath_String mp) with Some path => Ok path | None => Panic end.

Definition GetKey (mp : MerklePath) (i : Z) : Outcome bytes :=
  if Z.of_nat (length (KeyPath mp)) <=? i then Err errUnregistered
  else of_option errUnregistered (KeyPath mp !! Z.to_nat i ≫= PathUnescape).

(** ** Proofs *)

(** The proof of one tree, as the ics23 library has it: what it is a proof of, the
    root it computes, and the two checks. *)
Inductive ProofKind := ExistProof | NonexistProof | OtherProof.

Class Ics23Proofs `{Ics23} := {
  CommitmentProof : Type;
  proof_kind : CommitmentProof → ProofKind;
  Calculate : CommitmentProof → option bytes;
  ics23_VerifyMembership : ProofSpec → bytes → CommitmentProof → bytes → bytes → bool;
  ics23_VerifyNonMembership : ProofSpec → bytes → CommitmentProof → bytes → bool
}.

Section proofs.
Context `{Ics23Proofs}.

Record MerkleProof := mkMerkleProof { Proofs : list CommitmentProof }.

Definition MerkleProof_Empty (proof : MerkleProof) : bool :=
  bool_decide (length (Proofs proof) = 0%nat).

Definition MerkleProof_ValidateBasic (proof : MerkleProof) : Outcome () :=
  check (negb (MerkleProof_Empty proof)) ErrInvalidProof.

Definition validateVerificationArgs (proof : MerkleProof) (specs : list (option ProofSpec))
    (root : MerkleRoot) : Outcome () :=
  check (negb (MerkleProof_Empty proof)) ErrInvalidMerkleProof;;
  check (negb (MerkleRoot_Empty root)) ErrInvalidMerkleProof;;
  check (bool_decide (length specs = length (Proofs proof))) ErrInvalidMerkleProof;;
  check (forallb (λ spec, bool_decide (is_Some spec)) specs) ErrInvalidProof.

(** [specs[i]], handed to the library: out of range or nil, a panic. *)
Definition spec_at (specs : list (option ProofSpec)) (i : nat) : Outcome ProofSpec :=
  match specs !! i with Some (Some spec) => Ok spec | _ => Panic end.

(** The key for the proof at index [i], counted from the other end; the error names
    the key it could not read, and panics when there is none. *)
Definition key_for (keys : MerklePath) (i : nat) : Outcome bytes :=
  let n := length (KeyPath keys) in
  match GetKey keys (u64 (Z.of_nat n - 1 - Z.of_nat i)) with
  | Ok key => Ok key
  | _ => if bool_decide (i < n)%nat then Err ErrInvalidProof else Panic
  end.

(** The loop over the proofs from index [i] on; the value it returns is [subroot]. *)
Fixpoint chain_proofs (specs : list (option ProofSpec)) (keys : MerklePath)
    (proofs : list CommitmentProof) (i : nat) (value : bytes) : Outcome bytes :=
  match proofs with
  | [] => Ok value
  | proof :: rest =>
      match proof_kind proof with
      | ExistProof =>
          subroot ← of_option ErrInvalidProof (Calculate proof);
          key ← key_for keys i;
          spec ← spec_at specs i;
          check (ics23_VerifyMembership spec subroot proof key value) ErrInvalidProof;;
          chain_proofs specs keys rest (S i) subroot
      | NonexistProof => Err ErrInvalidProof
      | OtherProof => Err ErrInvalidProof
      end
  end.

Definition verifyChainedMembershipProof (root : bytes) (specs : list (option ProofSpec))
    (proofs : list CommitmentProof) (keys : MerklePath) (value : bytes) (index : nat) : Outcome () :=
  subroot ← chain_proofs specs keys (drop index proofs) index value;
  check (bool_decide (root = subroot)) ErrInvalidProof.

Definition MerkleProof_VerifyMembership (proof : MerkleProof) (specs : list (option ProofSpec))
    (root : MerkleRoot) (mpath : MerklePath) (value : bytes) : Outcome () :=
  validateVerificationArgs proof specs root;;
  check (bool_decide (length (KeyPath mpath) = length specs)) ErrInvalidProof;;
  check (negb (bool_decide (value = ""))) ErrInvalidProof;;
  verifyChainedMembershipProof (Hash root) specs (Proofs proof) mpath value 0.

Definition MerkleProof_VerifyNonMembership (proof : MerkleProof) (specs : list (option ProofSpec))
    (root : MerkleRoot) (mpath : MerklePath) : Outcome () :=
  validateVerificationArgs proof specs root;;
  check (bool_decide (length (KeyPath mpath) = length specs)) ErrInvalidProof;;
  match Proofs proof with
  | [] => Panic
  | proof0 :: _ =>
      match proof_kind proof0 with
      | NonexistProof =>
          subroot ← of_option ErrInvalidProof (Calculate proof0);
          key ← key_for mpath 0;
          spec ← spec_at specs 0;
          check (ics23_VerifyNonMembership spec subroot proof0 key) ErrInvalidProof;;
          verifyChainedMembershipProof (Hash root) specs (Proofs proof) mpath subroot 1
      | ExistProof => Err ErrInvalidProof
      | OtherProof => Err ErrInvalidProof
      end
  end.

Definition BatchVerifyMembership (proof : MerkleProof) (specs : list (option ProofSpec))
    (root : MerkleRoot) (path : MerklePath) (items : gmap string bytes) : Outcome () :=
  Err ErrInvalidProof.
Definition BatchVerifyNonMembership (proof : MerkleProof) (specs : list (option ProofSpec))
    (root : MerkleRoot) (path : MerklePath) (items : list bytes) : Outcome () :=
  Err ErrInvalidProof.

End proofs.

(** * Lemmas *)

(** ** Keys *)

Lemma unescape_escaped c :
  hex_value (upper_hex_digit (char_code c / 16)) = Some (char_code c / 16) ∧
  hex_value (upper_hex_digit (char_code c mod 16)) = Some (char_code c mod 16) ∧
  byte_of (16 * (char_code c / 16) + char_code c mod 16) = c ∧
  (path_safe c = true → bool_decide (c = percent) = false).
Proof. destruct c as [[] [] [] [] [] [] [] []]; vm_compute; auto. Qed.

Lemma PathUnescape_escaped k s : PathUnescape (PathEscape k +:+ s) = (λ r, k +:+ r) <$> PathUnescape s.
Proof.
  induction k as [|c k IH]; [simpl; by destruct (PathUnescape s)|].
  destruct (unescape_escaped c) as (H1 & H2 & H3 & H4). cbn [PathEscape].
  destruct (path_safe c).
  - cbn [String.app PathUnescape]. rewrite H4, IH by done. by destruct (PathUnescape s).
  - cbn [String.app PathUnescape]. rewrite bool_decide_eq_true_2 by done.
    rewrite H1, H2, H3. unfold app in IH. rewrite IH. by destruct (PathUnescape s).
Qed.

Lemma PathUnescape_free s : str_free percent s = true → PathUnescape s = Some s.
Proof.
  induction s as [|c s IH]; [done|]. cbn. intros [Hc Hs]%andb_true_iff.
  destruct (bool_decide (c = percent)); [done|]. unfold str_free in IH. by rewrite IH.
Qed.

Lemma MerklePath_String_right mp :
  MerklePath_String mp = fold_right (λ k s, "/" +:+ PathEscape k +:+ s) "" (KeyPath mp).
Proof.
  unfold MerklePath_String.
  assert (∀ l a, fold_left (λ s k, s +:+ "/" +:+ PathEscape k) l a =
    a +:+ fold_right (λ k s, "/" +:+ PathEscape k +:+ s) "" l) as Hf; [|apply (Hf _ "")].
  induction l as [|k l IH]; intros a; cbn [fold_left fold_right].
  - by rewrite string_app_nil_r.
  - by rewrite IH, !string_app_assoc.
Qed.

(** The readable form of a path is its keys, whatever characters they have; building
    it does not panic. *)
Lemma MerklePath_Pretty_ok mp :
  MerklePath_Pretty mp = Ok (fold_right (λ k s, "/" +:+ k +:+ s) "" (KeyPath mp)).
Proof.
  unfold MerklePath_Pretty. rewrite MerklePath_String_right.
  assert (PathUnescape (fold_right (λ k s, "/" +:+ PathEscape k +:+ s) "" (KeyPath mp)) =
    Some (fold_right (λ k s, "/" +:+ k +:+ s) "" (KeyPath mp))) as ->; [|done].
  induction (KeyPath mp) as [|k l IH]; [done|]. cbn [fold_right].
  change (PathUnescape ("/" +:+ ?s)) with (String "/" <$> PathUnescape s).
  by rewrite PathUnescape_escaped, IH.
Qed.

(** ** What a chain of proofs establishes *)

Section chain.
Context `{Ics23Proofs}.

(** One tree after the other: the root of each is the value of the next. *)
Inductive chained : list (ProofSpec * CommitmentProof * bytes) → bytes → bytes → Prop :=
| chained_root root : chained [] root root
| chained_tree spec proof key value subroot rest root :
    proof_kind proof = ExistProof → Calculate proof = Some subroot →
    ics23_VerifyMembership spec subroot proof key value = true →
    chained rest subroot root → chained ((spec, proof, key) :: rest) value root.

Lemma chained_cons spec proof key rest value root :
  chained ((spec, proof, key) :: rest) value root ↔
  ∃ subroot, proof_kind proof = ExistProof ∧ Calculate proof = Some subroot ∧
    ics23_VerifyMembership spec subroot proof key value = true ∧ chained rest subroot root.
Proof.
  split; [intros Hc; inversion Hc; subst; eauto|]. intros (r & ? & ? & ? & ?). by econstructor.
Qed.

Lemma chained_nil value root : chained [] value root ↔ value = root.
Proof. split; [by inversion 1|intros ->; constructor]. Qed.

Lemma specs_present (specs : list (option ProofSpec)) :
  forallb (λ spec, bool_decide (is_Some spec)) specs = true ↔ ∃ ss, specs = Some <$> ss.
Proof.
  split; [|by intros [ss ->]; induction ss].
  induction specs as [|[s|] specs IH]; simpl; [by exists []| |done].
  intros [ss ->]%IH. by exists (s :: ss).
Qed.

Lemma spec_at_ok ss i spec : spec_at (Some <$> ss) i = Ok spec ↔ ss !! i = Some spec.
Proof. unfold spec_at. rewrite list_lookup_fmap. destruct (ss !! i); simpl; naive_solver. Qed.

Lemma GetKey_ok mp i key :
  GetKey mp i = Ok key ↔ i < Z.of_nat (length (KeyPath mp)) ∧ KeyPath mp !! Z.to_nat i ≫= PathUnescape = Some key.
Proof.
  unfold GetKey. destruct (Z.leb_spec (Z.of_nat (length (KeyPath mp))) i).
  - split; [done|lia].
  - destruct (_ ≫= _); simpl; naive_solver.
Qed.

Lemma key_for_ok mp i key :
  Z.of_nat (length (KeyPath mp)) < 2 ^ 64 → (i < length (KeyPath mp))%nat →
  key_for mp i = Ok key ↔ reverse (KeyPath mp) !! i ≫= PathUnescape = Some key.
Proof.
  intros Hl Hi. unfold key_for. rewrite u64_id by (unfold is_u64; lia).
  rewrite reverse_lookup by done.
  replace (Z.of_nat (length (KeyPath mp)) - 1 - Z.of_nat i) with (Z.of_nat (length (KeyPath mp) - S i)) by lia.
  destruct (GetKey mp _) as [k|e|] eqn:Hk; rewrite ?bool_decide_eq_true_2 by done.
  - apply GetKey_ok in Hk as [_ Hk]. rewrite Nat2Z.id in Hk. rewrite Hk. naive_solver.
  - split; [done|]. intros Hs. assert (GetKey mp (Z.of_nat (length (KeyPath mp) - S i)) = Ok key) by
      (apply GetKey_ok; rewrite Nat2Z.id; split; [lia|done]). congruence.
  - split; [done|]. intros Hs. assert (GetKey mp (Z.of_nat (length (KeyPath mp) - S i)) = Ok key) by
      (apply GetKey_ok; rewrite Nat2Z.id; split; [lia|done]). congruence.
Qed.

(** The loop, started in the middle. *)
Lemma chain_proofs_ok ss mp proofs i value subroot :
  length (KeyPath mp) = length ss → (i + length proofs = length ss)%nat → Z.of_nat (length ss) < 2 ^ 64 →
  chain_proofs (Some <$> ss) mp proofs i value = Ok subroot ↔
  ∃ ks, mapM PathUnescape (drop i (reverse (KeyPath mp))) = Some ks ∧
    chained (zip (zip (drop i ss) proofs) ks) value subroot.
Proof.
  intros Hk. revert i value. induction proofs as [|p proofs IH]; intros i value Hi Hl.
  - simpl in *. rewrite !drop_ge by (rewrite ?length_reverse; lia). simpl. split.
    + intros [= ->]. exists []. by rewrite chained_nil.
    + by intros (ks & [= <-] & ->%chained_nil).
  - simpl in Hi. destruct (lookup_lt_is_Some_2 ss i) as [spec Hs]; [lia|].
    destruct (lookup_lt_is_Some_2 (reverse (KeyPath mp)) i) as [k Hkey]; [rewrite length_reverse; lia|].
    rewrite (drop_S ss spec i Hs), (drop_S _ k i Hkey). cbn [chain_proofs zip_with].
    transitivity (proof_kind p = ExistProof ∧ ∃ r key, Calculate p = Some r ∧ PathUnescape k = Some key ∧
      ics23_VerifyMembership spec r p key value = true ∧ chain_proofs (Some <$> ss) mp proofs (S i) r = Ok subroot).
    + destruct (proof_kind p); [|naive_solver|naive_solver].
      rewrite obind_ok. setoid_rewrite obind_ok. setoid_rewrite obind_ok. setoid_rewrite obind_ok.
      setoid_rewrite check_ok. setoid_rewrite key_for_ok; [|lia|lia]. setoid_rewrite spec_at_ok.
      rewrite Hs, Hkey. simpl. destruct (Calculate p); simpl; naive_solver.
    + split.
      * intros (Hp & r & key & Hr & Hu & Hv & (ks & Hm & Hc)%IH); [|lia|lia].
        exists (key :: ks). simpl. rewrite Hu. simpl. rewrite Hm. split; [done|]. rewrite chained_cons. eauto.
      * intros (ks & Hm & Hc). simpl in Hm. destruct (PathUnescape k) as [key|]; [|done]. simpl in Hm.
        destruct (mapM PathUnescape _) as [ks'|] eqn:Hm'; [|done]. injection Hm as <-.
        apply chained_cons in Hc as (r & ? & ? & ? & ?). split; [done|]. exists r, key. split_and!; try done.
        apply IH; [lia|lia|]. by exists ks'.
Qed.

Lemma validateVerificationArgs_ok proof specs root :
  validateVerificationArgs proof specs root = Ok tt ↔
  Proofs proof ≠ [] ∧ Hash root ≠ "" ∧ ∃ ss, specs = Some <$> ss ∧ length ss = length (Proofs proof).
Proof.
  unfold validateVerificationArgs, MerkleProof_Empty, MerkleRoot_Empty. split.
  - intros ([] & H1%check_ok & ([] & H2%check_ok & ([] & H3%check_ok & H4%check_ok)%obind_ok)%obind_ok)%obind_ok.
    apply specs_present in H4 as [ss ->]. rewrite negb_true_iff, bool_decide_eq_false in H1, H2.
    rewrite length_fmap, bool_decide_eq_true in H3.
    split_and!; [intros Hn; apply H1; by rewrite Hn|done|by exists ss].
  - intros (Hp & Hr & ss & -> & Hl). rewrite length_fmap.
    rewrite (bool_decide_eq_false_2 (length (Proofs proof) = 0%nat)) by (by destruct (Proofs proof)).
    rewrite (bool_decide_eq_false_2 (Hash root = "")) by done. rewrite bool_decide_eq_true_2 by done. simpl.
    by rewrite (proj2 (specs_present _)) by eauto.
Qed.

Lemma membership_ok proof specs root mpath value :
  Z.of_nat (length specs) < 2 ^ 64 →
  MerkleProof_VerifyMembership proof specs root mpath value = Ok tt →
  ∃ ss ks, specs = Some <$> ss ∧ length ss = length (Proofs proof) ∧ value ≠ "" ∧
    mapM PathUnescape (reverse (KeyPath mpath)) = Some ks ∧
    chained (zip (zip ss (Proofs proof)) ks) value (Hash root).
Proof.
  intros Hz Hv. unfold MerkleProof_VerifyMembership, verifyChainedMembershipProof in Hv.
  apply obind_ok in Hv as ([] & (Hp & Hr & ss & -> & Hl)%validateVerificationArgs_ok & Hv).
  apply obind_ok in Hv as ([] & Hn%check_ok%bool_decide_eq_true & Hv).
  apply obind_ok in Hv as ([] & Hval%check_ok & Hv). rewrite negb_true_iff, bool_decide_eq_false in Hval.
  apply obind_ok in Hv as (sub & Hc & He%check_ok%bool_decide_eq_true). subst sub.
  rewrite length_fmap in *. rewrite drop_0 in Hc.
  apply chain_proofs_ok in Hc as (ks & Hm & Hc); [|done|done|done]. rewrite !drop_0 in *. by exists ss, ks.
Qed.

Lemma non_membership_ok proof specs root mpath :
  Z.of_nat (length specs) < 2 ^ 64 →
  MerkleProof_VerifyNonMembership proof specs root mpath = Ok tt →
  ∃ spec ss proof0 ps key ks subroot, specs = Some <$> spec :: ss ∧ Proofs proof = proof0 :: ps ∧
    length ss = length ps ∧ mapM PathUnescape (reverse (KeyPath mpath)) = Some (key :: ks) ∧
    proof_kind proof0 = NonexistProof ∧ Calculate proof0 = Some subroot ∧
    ics23_VerifyNonMembership spec subroot proof0 key = true ∧
    chained (zip (zip ss ps) ks) subroot (Hash root).
Proof.
  intros Hz Hv. unfold MerkleProof_VerifyNonMembership, verifyChainedMembershipProof in Hv.
  apply obind_ok in Hv as ([] & (Hp & Hr & ss & -> & Hl)%validateVerificationArgs_ok & Hv).
  apply obind_ok in Hv as ([] & Hn%check_ok%bool_decide_eq_true & Hv). rewrite length_fmap in *.
  destruct (Proofs proof) as [|p0 ps]; [done|]. destruct ss as [|spec ss]; [done|]. cbn [length] in Hl, Hn, Hz.
  destruct (proof_kind p0) eqn:Hk; [done| |done].
  apply obind_ok in Hv as (sub & Hsub & Hv). apply obind_ok in Hv as (key & Hkey & Hv).
  apply obind_ok in Hv as (spec' & Hspec%spec_at_ok & Hv). simpl in Hspec. injection Hspec as <-.
  apply obind_ok in Hv as ([] & Hnon%check_ok & Hv).
  apply obind_ok in Hv as (r & Hc & He%check_ok%bool_decide_eq_true). subst r.
  apply key_for_ok in Hkey; [|lia|lia].
  destruct (reverse (KeyPath mpath)) as [|k0 krest] eqn:Hrev; [done|]. simpl in Hkey.
  apply (chain_proofs_ok (spec :: ss)) in Hc as (ks & Hm & Hc); [|done|by symmetry|done].
  rewrite Hrev in Hm. cbn [drop] in *. rewrite !drop_0 in *.
  exists spec, ss, p0, ps, key, ks, sub. split_and!; try done; [lia| |by destruct (Calculate p0); simplify_eq/=].
  simpl. rewrite Hkey. simpl. by rewrite Hm.
Qed.

(** ** Trees and stores *)

(** The root of a tree over a store: what the library verifies against it is true of
    the store. *)
Record commits (spec : ProofSpec) (root : bytes) (kv : KVStore) : Prop := {
  commits_present proof key value :
    ics23_VerifyMembership spec root proof key value = true → kv !! key = Some value;
  commits_absent proof key :
    ics23_VerifyNonMembership spec root proof key = true → kv !! key = None
}.

(** The root of a multistore: a tree over the roots of its stores. *)
Definition multistore_root (low high : ProofSpec) (root : bytes) (store : string → KVStore) : Prop :=
  ∃ roots, commits high root roots ∧ ∀ name r, roots !! name = Some r → commits low r (store name).

Lemma two_keys pre key ks :
  mapM PathUnescape (reverse (KeyPath (NewMerklePath [pre; key]))) = Some ks →
  ∃ k name, PathUnescape key = Some k ∧ PathUnescape pre = Some name ∧ ks = [k; name].
Proof.
  change (reverse _) with [key; pre]. cbn.
  destruct (PathUnescape key) as [k|]; [|done]. destruct (PathUnescape pre) as [name|]; [|done].
  cbn. intros [= <-]. by exists k, name.
Qed.

(** A chained proof over two trees tells the truth about the multistore. *)
Lemma multistore_sound low high root store proof pre key value :
  multistore_root low high (Hash root) store →
  (MerkleProof_VerifyMembership proof [Some low; Some high] root (NewMerklePath [pre; key]) value = Ok tt →
   ∃ name k, PathUnescape pre = Some name ∧ PathUnescape key = Some k ∧ store name !! k = Some value) ∧
  (MerkleProof_VerifyNonMembership proof [Some low; Some high] root (NewMerklePath [pre; key]) = Ok tt →
   ∃ name k, PathUnescape pre = Some name ∧ PathUnescape key = Some k ∧ store name !! k = None).
Proof.
  intros (roots & Hhigh & Hlow). split.
  - intros (ss & ks & Hss & Hl & Hv & (k & name & Hk & Hn & ->)%two_keys & Hc)%membership_ok; [|done].
    destruct ss as [|s0 [|s1 [|]]]; simplify_eq/=.
    destruct (Proofs proof) as [|p0 [|p1 [|]]]; simplify_eq/=.
    apply chained_cons in Hc as (r0 & _ & _ & Hv0 & Hc).
    apply chained_cons in Hc as (r1 & _ & _ & Hv1 & ->%chained_nil).
    exists name, k. split_and!; [done|done|].
    eapply commits_present; [|exact Hv0]. apply Hlow. by eapply commits_present.
  - intros (s0 & ss & p0 & ps & k & ks & r0 & Hss & Hp & Hl & Hm & _ & _ & Hn & Hc)%non_membership_ok; [|done].
    apply two_keys in Hm as (k' & name & Hk & Hname & ?). simplify_eq.
    destruct ss as [|s1 [|]]; simplify_eq/=. destruct ps as [|p1 [|]]; simplify_eq/=.
    apply chained_cons in Hc as (r1 & _ & _ & Hv1 & ->%chained_nil).
    exists name, k'. split_and!; [done|done|].
    eapply commits_absent; [|exact Hn]. apply Hlow. by eapply commits_present.
Qed.

End chain.
