(* ===== verification/Client.v ===== *)
(** * ICS 02: clients

    Models src/modules/core/02-client: the identifiers of types/keys.go, the
    parameters of types/params.go, the client types of types/client.go, and the
    keeper (keeper/keeper.go, client.go, proposal.go) with the begin-blocker of
    abci.go and the genesis import and export of genesis.go.  The staking and
    upgrade keepers are parameters. *)

From stdpp Require Import gmap strings list sorting.
From Stdlib Require Import ZArith Lia Ascii.
From S2P Require Import Prelude GoStd Host Chain Height Commitment LightClient.

(** ** types/errors.go *)

Definition ErrInvalidClient : error := mkError "client" 3.
Definition ErrClientNotFound : error := mkError "client" 4.
Definition ErrClientFrozen : error := mkError "client" 5.
Definition ErrConsensusStateNotFound : error := mkError "client" 7.
Definition ErrInvalidConsensus : error := mkError "client" 8.
Definition ErrInvalidClientType : error := mkError "client" 10.
Definition ErrInvalidHeader : error := mkError "client" 12.
Definition ErrInvalidMisbehaviour : error := mkError "client" 13.
Definition ErrUpdateClientFailed : error := mkError "client" 23.
Definition ErrInvalidUpdateClientProposal : error := mkError "client" 24.
Definition ErrInvalidUpgradeClient : error := mkError "client" 25.
Definition ErrInvalidHeight : error := mkError "client" 26.
Definition ErrInvalidSubstitute : error := mkError "client" 27.
Definition ErrClientNotActive : error := mkError "client" 29.
Definition ErrFailedMembershipVerification : error := mkError "client" 30.
Definition ErrFailedNonMembershipVerification : error := mkError "client" 31.

(** ** types/keys.go *)

Definition KeyNextClientSequence : string := "nextClientSequence".
Definition ClientParamsKey : string := "clientParams".

Definition FormatClientIdentifier (clientType : string) (sequence : Z) : string :=
  clientType +:+ "-" +:+ FormatUint sequence.

(** The language of [^\w+([\w-]+\w)?-[0-9]{1,20}$]: after the last dash one to
    twenty digits; before it word characters and dashes, the first and the last
    of them a word character. *)
Definition word_or_dash (c : ascii) : bool := is_word c || bool_decide (c = "-"%char).

Definition IsClientIDFormat (clientID : string) : bool :=
  match rev (Split clientID "-") with
  | d :: ((last_seg :: _) as before) =>
      let n := Z.of_nat (String.length d) in
      str_forall is_digit d && (1 <=? n) && (n <=? 20) &&
      forallb (str_forall is_word) before &&
      negb (bool_decide (last_seg = "")) && negb (bool_decide (List.last before "" = ""))
  | _ => false
  end.

Definition ParseClientIdentifier (clientID : string) : Outcome (string * Z) :=
  if bool_decide (clientID = LocalhostClientID) then Ok (clientID, 0)
  else
    check (IsClientIDFormat clientID) ErrInvalidID;;
    let splitStr := Split clientID "-" in
    let clientType := Join (removelast splitStr) "-" in
    check (negb (is_blank clientType)) ErrInvalidID;;
    sequence ← of_option errUnregistered (ParseUint (List.last splitStr ""));
    Ok (clientType, sequence).

Definition IsValidClientID (clientID : string) : bool :=
  is_ok (ParseClientIdentifier clientID).

(** ** types/client.go *)

Definition ValidateClientType (clientType : string) : Outcome () :=
  check (negb (is_blank clientType)) ErrInvalidClientType;;
  let smallestPossibleClientID := FormatClientIdentifier clientType 0 in
  let largestPossibleClientID := FormatClientIdentifier clientType MaxUint64 in
  check (IsValidClientID smallestPossibleClientID) ErrInvalidClientType;;
  ClientIdentifierValidator smallestPossibleClientID;;
  ClientIdentifierValidator largestPossibleClientID.

(** ** types/params.go *)

Record ClientParams := mkClientParams { AllowedClients : list string }.

Definition DefaultAllowedClients : list string := [Solomachine; Tendermint; Localhost].
Definition NewClientParams (allowedClients : list string) : ClientParams :=
  mkClientParams allowedClients.
Definition DefaultClientParams : ClientParams := NewClientParams DefaultAllowedClients.

Fixpoint validateClients (clients : list string) : Outcome () :=
  match clients with
  | [] => Ok tt
  | clientType :: l => check (negb (is_blank clientType)) errUnregistered;; validateClients l
  end.
Definition ClientParams_Validate (p : ClientParams) : Outcome () := validateClients (AllowedClients p).

Definition IsAllowedClient (p : ClientParams) (clientType : string) : bool :=
  existsb (λ allowedClient, bool_decide (allowedClient = clientType)) (AllowedClients p).

(** ** The keepers this one calls *)

(** The header of a historical info kept by x/staking. *)
Record HistoricalHeader := mkHistoricalHeader {
  hist_Time : Z; hist_AppHash : bytes; hist_NextValidatorsHash : bytes }.

Class StakingKeeper := {
  GetHistoricalInfo : Context → Chain → Z → option HistoricalHeader;
  UnbondingTime : Context → Chain → Z
}.

(** [upgradetypes.Plan]: its height, and what x/upgrade keeps beside it. *)
Record Plan := mkPlan { Plan_Height : Z; Plan_Name : string; Plan_Info : string }.

Class UpgradeKeeper := {
  GetUpgradePlan : Context → Chain → option Plan;
  GetUpgradedClient : Context → Chain → Z → option bytes;
  SetUpgradedConsensusState : Context → Z → bytes → M ();
  ScheduleUpgrade : Context → Plan → M ();
  SetUpgradedClient : Context → Z → bytes → M ()
}.

(** x/upgrade keeps its own store. *)
Class UpgradeKeeperLaws `{UpgradeKeeper} := {
  upgraded_consensus_frame ctx h bz s : ibc (snd (SetUpgradedConsensusState ctx h bz s)) = ibc s;
  schedule_frame ctx plan s : ibc (snd (ScheduleUpgrade ctx plan s)) = ibc s;
  upgraded_client_frame ctx h bz s : ibc (snd (SetUpgradedClient ctx h bz s)) = ibc s
}.

(** [upgradetypes.StoreKey] and [upgradetypes.KeyUpgradedIBCState], and
    [light.ValidateTrustLevel] of the consensus engine. *)
Class UpgradePaths := { upgrade_StoreKey : string; KeyUpgradedIBCState : string }.
Class TrustLevels := { ValidateTrustLevel : Fraction → bool }.

(** ** keeper/keeper.go *)

Section keeper.
Context `{BigEndian} {I23 : Ics23} {LC : LightClient}.
Context `{!Proto ClientState, !Proto ConsensusState, !Proto ClientParams}.

(** The prefix store of one client. *)
Definition ClientStore (clientID : string) : Store :=
  KeyClientStorePrefix +:+ "/" +:+ clientID +:+ "/".

Definition GetClientState (clientID : string) : M (option ClientState) :=
  ibc_get_proto (prefixed (ClientStore clientID) ClientStateKey).

Definition SetClientState (clientID : string) (clientState : ClientState) : M () :=
  ibc_set (prefixed (ClientStore clientID) ClientStateKey) (Marshal clientState).

Definition consensus_key (clientID : string) (height : Height) : string :=
  prefixed (ClientStore clientID) (ConsensusStatePath (Height_String height)).

Definition GetClientConsensusState (clientID : string) (height : Height) : M (option ConsensusState) :=
  ibc_get_proto (consensus_key clientID height).

Definition SetClientConsensusState (clientID : string) (height : Height)
    (consensusState : ConsensusState) : M () :=
  ibc_set (consensus_key clientID height) (Marshal consensusState).

Definition HasClientConsensusState (clientID : string) (height : Height) : M bool :=
  ibc_has (consensus_key clientID height).

Definition GetLatestClientConsensusState (clientID : string) : M (option ConsensusState) :=
  clientState ← GetClientState clientID;
  match clientState with
  | None => mret None
  | Some clientState => GetClientConsensusState clientID (GetLatestHeight clientState)
  end.

Definition GetNextClientSequence : M Z :=
  bz ← ibc_get KeyNextClientSequence;
  bz ← orPanic (non_empty bz);
  mret (BigEndianToUint64 bz).

Definition SetNextClientSequence (sequence : Z) : M () :=
  ibc_set KeyNextClientSequence (Uint64ToBigEndian sequence).

Definition GenerateClientIdentifier (clientType : string) : M string :=
  nextClientSeq ← GetNextClientSequence;
  let clientID := FormatClientIdentifier clientType nextClientSeq in
  SetNextClientSequence (u64 (nextClientSeq + 1));;
  mret clientID.

(** Unset parameters panic, empty ones do not. *)
Definition GetClientParams : M ClientParams :=
  bz ← ibc_get ClientParamsKey;
  bz ← orPanic bz;
  lift (MustUnmarshal bz).

Definition SetClientParams (params : ClientParams) : M () :=
  ibc_set ClientParamsKey (Marshal params).

Definition GetClientStatus (ctx : Context) (clientState : ClientState) (clientID : string) :
    M ClientStatus :=
  params ← GetClientParams;
  if negb (IsAllowedClient params (ClientType clientState)) then mret Unauthorized
  else reads (λ s, Status ctx (ibc s) (ClientStore clientID) clientState).

Definition CreateLocalhostClient (ctx : Context) : M () :=
  on_ibc (Initialize ctx (ClientStore LocalhostClientID) (mk_localhost ZeroHeight) None).

Definition UpdateLocalhostClient (ctx : Context) (clientState : ClientState) : M (list Height) :=
  on_ibc (UpdateState ctx (ClientStore LocalhostClientID) clientState None).

(** The loop of an iterator: [cb] updates what the closure captured and says
    whether to stop. *)
Fixpoint iterate {X} (l : list (string * bytes)) (body : string → bytes → X → M (X * bool))
    (acc : X) : M X :=
  match l with
  | [] => mret acc
  | (k, v) :: l' =>
      '(acc, stop) ← body k v acc;
      if stop : bool then mret acc else iterate l' body acc
  end.

Definition IterateConsensusStates {X} (cb : string → Height → ConsensusState → X → X * bool)
    (acc : X) : M X :=
  entries ← gets (λ s, KVStorePrefixIterator (ibc s) KeyClientStorePrefix);
  iterate entries (λ key value acc,
    match Split key "/" with
    | [_; clientID; kind; h] =>
        if bool_decide (kind = KeyConsensusStatePrefix) then
          height ← lift (MustParseHeight h);
          consensusState ← lift (MustUnmarshal value);
          mret (cb clientID height consensusState acc)
        else mret (acc, false)
    | _ => mret (acc, false)
    end) acc.

Definition IterateClientStates {X} (prefix : string) (cb : string → ClientState → X → X * bool)
    (acc : X) : M X :=
  entries ← gets (λ s, KVStorePrefixIterator (ibc s) (PrefixedClientStorePath prefix));
  iterate entries (λ path value acc,
    if negb (Contains path KeyClientState) then mret (acc, false)
    else
      clientID ← lift (MustParseClientStatePath path);
      clientState ← lift (MustUnmarshal value);
      mret (cb clientID clientState acc)) acc.

Definition GetAllClients : M (list ClientState) :=
  IterateClientStates "" (λ _ state states, (states ++ [state], false)) [].

(** [IdentifiedClientStates.Sort] and [ClientsConsensusStates.Sort]: by the
    identifier. *)
Definition id_le {A} (x y : string * A) : Prop := String.leb x.1 y.1 = true.
#[export] Instance id_le_dec {A} : RelDecision (@id_le A).
Proof. intros x y. unfold id_le. apply _. Defined.
Definition sort_by_id {A} (l : list (string * A)) : list (string * A) := merge_sort id_le l.

Definition GetAllGenesisClients : M (list (string * ClientState)) :=
  genClients ← IterateClientStates "" (λ clientID cs l, (l ++ [(clientID, cs)], false)) [];
  mret (sort_by_id genClients).

(** Append to the group of the identifier, or start a group at the end. *)
Fixpoint group_append {A} (clientID : string) (a : A) (l : list (string * list A)) :
    list (string * list A) :=
  match l with
  | [] => [(clientID, [a])]
  | (i, g) :: l' =>
      if bool_decide (i = clientID) then (i, g ++ [a]) :: l' else (i, g) :: group_append clientID a l'
  end.

Definition GetAllConsensusStates : M (list (string * list (Height * ConsensusState))) :=
  l ← IterateConsensusStates (λ clientID h cs l, (group_append clientID (h, cs) l, false)) [];
  mret (sort_by_id l).

Definition GetAllClientMetadata (genClients : list (string * ClientState)) :
    M (list (string * list GenesisMetadata)) :=
  gets (λ s, omap (λ '(clientID, cs),
    match ExportMetadata (ibc s) (ClientStore clientID) cs with
    | [] => None
    | gms => Some (clientID, gms)
    end) genClients).

Definition SetAllClientMetadata (genMetadata : list (string * list GenesisMetadata)) : M () :=
  for_each genMetadata (λ '(clientID, mds),
    for_each mds (λ md, ibc_set (prefixed (ClientStore clientID) (md_Key md)) (md_Value md))).

(** *** Self client and self consensus state *)

Definition GetSelfConsensusState `{StakingKeeper} (ctx : Context) (height : Height) :
    M ConsensusState :=
  revision ← lift (ParseChainID (ChainID ctx));
  require (revision =? RevisionNumber height) ErrInvalidHeight;;
  histInfo ← gets (λ s, GetHistoricalInfo ctx s (to_int64 (RevisionHeight height)));
  histInfo ← orErr ErrNotFound histInfo;
  mret (mk_tm_consensus (mkTmConsensusState (hist_Time histInfo)
    (NewMerkleRoot (hist_AppHash histInfo)) (hist_NextValidatorsHash histInfo))).

Definition ValidateSelfClient `{StakingKeeper, UpgradePaths, TrustLevels} (ctx : Context)
    (clientState : ClientState) : M () :=
  tmClient ← orErr ErrInvalidClient (as_tendermint clientState);
  require (IsZero (tm_FrozenHeight tmClient)) ErrClientFrozen;;
  require (bool_decide (ChainID ctx = tm_ChainId tmClient)) ErrInvalidClient;;
  revision ← lift (ParseChainID (ChainID ctx));
  require (RevisionNumber (tm_LatestHeight tmClient) =? revision) ErrInvalidClient;;
  let selfHeight := NewHeight revision (ctx_height ctx) in
  require (negb (GTE (tm_LatestHeight tmClient) selfHeight)) ErrInvalidClient;;
  require (bool_decide (GetSDKSpecs = tm_ProofSpecs tmClient)) ErrInvalidClient;;
  require (ValidateTrustLevel (tm_TrustLevel tmClient)) ErrInvalidClient;;
  expectedUbdPeriod ← gets (UnbondingTime ctx);
  require (expectedUbdPeriod =? tm_UnbondingPeriod tmClient) ErrInvalidClient;;
  require (negb (tm_UnbondingPeriod tmClient <? tm_TrustingPeriod tmClient)) ErrInvalidClient;;
  require (bool_decide (tm_UpgradePath tmClient = []) ||
           bool_decide ([upgrade_StoreKey; KeyUpgradedIBCState] = tm_UpgradePath tmClient))
    ErrInvalidClient.

(** ** keeper/client.go *)

Definition CreateClient (ctx : Context) (clientState : ClientState)
    (consensusState : option ConsensusState) : M string :=
  require (negb (bool_decide (ClientType clientState = Localhost))) ErrInvalidClientType;;
  params ← GetClientParams;
  require (IsAllowedClient params (ClientType clientState)) ErrInvalidClientType;;
  clientID ← GenerateClientIdentifier (ClientType clientState);
  on_ibc (Initialize ctx (ClientStore clientID) clientState consensusState);;
  status ← GetClientStatus ctx clientState clientID;
  require (bool_decide (status = Active)) ErrClientNotActive;;
  mret clientID.

Definition UpdateClient (ctx : Context) (clientID : string) (clientMsg : option ClientMessage) : M () :=
  clientState ← GetClientState clientID;
  clientState ← orErr ErrClientNotFound clientState;
  let clientStore := ClientStore clientID in
  status ← GetClientStatus ctx clientState clientID;
  require (bool_decide (status = Active)) ErrClientNotActive;;
  on_ibc (VerifyClientMessage ctx clientStore clientState clientMsg);;
  foundMisbehaviour ← on_ibc (CheckForMisbehaviour ctx clientStore clientState clientMsg);
  if foundMisbehaviour : bool then
    on_ibc (UpdateStateOnMisbehaviour ctx clientStore clientState clientMsg)
  else
    on_ibc (UpdateState ctx clientStore clientState clientMsg);; mret tt.

Definition UpgradeClient (ctx : Context) (clientID : string) (upgradedClient : ClientState)
    (upgradedConsState : ConsensusState) (proofUpgradeClient proofUpgradeConsState : bytes) : M () :=
  clientState ← GetClientState clientID;
  clientState ← orErr ErrClientNotFound clientState;
  let clientStore := ClientStore clientID in
  status ← GetClientStatus ctx clientState clientID;
  require (bool_decide (status = Active)) ErrClientNotActive;;
  on_ibc (VerifyUpgradeAndUpdateState ctx clientStore clientState upgradedClient upgradedConsState
    proofUpgradeClient proofUpgradeConsState).

(** ** keeper/proposal.go *)

Definition ClientUpdateProposal (ctx : Context) (SubjectClientId SubstituteClientId : string) : M () :=
  subjectClientState ← GetClientState SubjectClientId;
  subjectClientState ← orErr ErrClientNotFound subjectClientState;
  let subjectClientStore := ClientStore SubjectClientId in
  status ← GetClientStatus ctx subjectClientState SubjectClientId;
  require (negb (bool_decide (status = Active))) ErrInvalidUpdateClientProposal;;
  substituteClientState ← GetClientState SubstituteClientId;
  substituteClientState ← orErr ErrClientNotFound substituteClientState;
  require (negb (GTE (GetLatestHeight subjectClientState) (GetLatestHeight substituteClientState)))
    ErrInvalidHeight;;
  let substituteClientStore := ClientStore SubstituteClientId in
  status ← GetClientStatus ctx substituteClientState SubstituteClientId;
  require (bool_decide (status = Active)) ErrClientNotActive;;
  on_ibc (CheckSubstituteAndUpdateState ctx subjectClientStore substituteClientStore
    subjectClientState substituteClientState).

(** [UpgradedClientState] is what the Any of the proposal unpacks to. *)
Definition HandleUpgradeProposal `{UpgradeKeeper} (ctx : Context) (plan : Plan)
    (UpgradedClientState : option ClientState) : M () :=
  clientState ← orErr ErrUnpackAny UpgradedClientState;
  zeroed ← lift (ZeroCustomFields clientState);
  let bz := Marshal zeroed in
  ScheduleUpgrade ctx plan;;
  SetUpgradedClient ctx (Plan_Height plan) bz.

(** ** abci.go *)

(** [_ = f(...)]: the error is dropped, what was written stays. *)
Definition ignore_error (m : M ()) : M () :=
  λ s, match m s with (Err _, s') => (Ok tt, s') | r => r end.

Definition Client_BeginBlocker `{UpgradeKeeper} (ctx : Context) : M () :=
  plan ← gets (GetUpgradePlan ctx);
  (match plan with
   | None => mret tt
   | Some plan =>
       upgraded ← gets (λ s, GetUpgradedClient ctx s (Plan_Height plan));
       if bool_decide (is_Some upgraded) && (BlockHeight ctx =? Plan_Height plan - 1) then
         let upgradedConsState := mk_tm_consensus
           (mkTmConsensusState (BlockTime ctx) (NewMerkleRoot "") (BlockNextValidatorsHash ctx)) in
         ignore_error (SetUpgradedConsensusState ctx (Plan_Height plan) (Marshal upgradedConsState))
       else mret tt
   end);;
  clientState ← GetClientState Localhost;
  match clientState with
  | None => mret tt
  | Some clientState =>
      status ← GetClientStatus ctx clientState Localhost;
      if bool_decide (status = Active) then UpdateLocalhostClient ctx clientState;; mret tt
      else mret tt
  end.

(** ** genesis.go *)

(** Client and consensus states are those their Any values unpack to. *)
Record ClientGenesis := mkClientGenesis {
  gs_Clients : list (string * option ClientState);
  gs_ClientsConsensus : list (string * list (Height * option ConsensusState));
  gs_ClientsMetadata : list (string * list GenesisMetadata);
  gs_Params : ClientParams;
  gs_NextClientSequence : Z
}.

Definition Client_InitGenesis (ctx : Context) (gs : ClientGenesis) : M () :=
  orPanics (lift (ClientParams_Validate (gs_Params gs)));;
  SetClientParams (gs_Params gs);;
  SetAllClientMetadata (gs_ClientsMetadata gs);;
  for_each (gs_Clients gs) (λ '(clientID, cs),
    cs ← orPanic cs;
    (if IsAllowedClient (gs_Params gs) (ClientType cs) then mret tt : M () else panic);;
    SetClientState clientID cs);;
  for_each (gs_ClientsConsensus gs) (λ '(clientID, consStates),
    for_each consStates (λ '(height, consensusState),
      consensusState ← orPanic consensusState;
      SetClientConsensusState clientID height consensusState));;
  SetNextClientSequence (gs_NextClientSequence gs);;
  orPanics (CreateLocalhostClient ctx).

Definition Client_ExportGenesis : M ClientGenesis :=
  genClients ← GetAllGenesisClients;
  clientsMetadata ← GetAllClientMetadata genClients;
  consensus ← GetAllConsensusStates;
  params ← GetClientParams;
  next ← GetNextClientSequence;
  mret (mkClientGenesis (map (prod_map id Some) genClients)
    (map (prod_map id (map (prod_map id Some))) consensus) clientsMetadata params next).

End keeper.

(** * Lemmas *)

Lemma FormatUint_not_dash n : str_free "-"%char (FormatUint n) = true.
Proof. by apply FormatUint_free. Qed.

Lemma FormatClientIdentifier_not_localhost ct n :
  FormatClientIdentifier ct n ≠ LocalhostClientID.
Proof.
  intros H. apply (f_equal (λ s, Split s "-")) in H.
  unfold FormatClientIdentifier in H. simpl in H.
  rewrite Split_snoc in H by apply FormatUint_not_dash.
  change (Split LocalhostClientID "-") with (["09"] ++ ["localhost"]) in H.
  apply app_inj_tail in H as [_ H]. pose proof (FormatUint_digits n) as Hd. by rewrite H in Hd.
Qed.

(** The format does not depend on the number. *)
Lemma IsClientIDFormat_any ct m n :
  is_u64 n → IsClientIDFormat (FormatClientIdentifier ct m) = true →
  IsClientIDFormat (FormatClientIdentifier ct n) = true.
Proof.
  intros Hn. unfold IsClientIDFormat, FormatClientIdentifier. simpl.
  rewrite !Split_snoc by apply FormatUint_not_dash. rewrite !rev_app_distr. simpl.
  destruct (rev (Split ct "-")) as [|l before]; [done|].
  rewrite !andb_true_iff, !Z.leb_le. intros ((((_ & ?) & ?) & ?) & ?).
  pose proof (FormatUint_length n Hn). pose proof (FormatUint_nonempty n).
  split_and!; [apply FormatUint_digits| |lia|done..].
  destruct (FormatUint n); [done|]. simpl. lia.
Qed.

Lemma last_snoc {A} (l : list A) x d : List.last (l ++ [x]) d = x.
Proof. apply List.last_last. Qed.

Lemma ParseClientIdentifier_format ct n :
  ValidateClientType ct = Ok tt → is_u64 n →
  ParseClientIdentifier (FormatClientIdentifier ct n) = Ok (ct, n).
Proof.
  unfold ValidateClientType.
  intros (? & Hblank%check_ok & (? & Hvalid%check_ok & _)%obind_ok)%obind_ok Hn.
  unfold IsValidClientID, ParseClientIdentifier in *.
  rewrite bool_decide_eq_false_2 in Hvalid |- * by apply FormatClientIdentifier_not_localhost.
  destruct (IsClientIDFormat (FormatClientIdentifier ct 0)) eqn:Hfmt; [|done].
  rewrite (IsClientIDFormat_any _ 0) by done. simpl.
  unfold FormatClientIdentifier. simpl. rewrite Split_snoc by apply FormatUint_not_dash.
  rewrite removelast_last, Join_Split, Hblank, last_snoc, ParseUint_FormatUint by done. done.
Qed.
