(* ===== verification/Localhost.v ===== *)
(** * The 09-localhost light client

    Models src/modules/light-clients/09-localhost/client_state.go: a client of
    the chain itself, which verifies by reading the IBC store it is given.  It
    is an instance of the light-client interface and satisfies its laws. *)

From stdpp Require Import gmap strings list.
From Stdlib Require Import ZArith Lia Ascii.
From S2P Require Import Prelude GoStd Host Chain Height Commitment LightClient Client.

Record LocalhostClientState := mkLocalhost { LatestHeight : Height }.

#[export] Instance LocalhostClientState_eq_dec : EqDecision LocalhostClientState.
Proof. solve_decision. Defined.

(** The placeholder proof. *)
Definition SentinelProof : bytes := String (Ascii.ascii_of_nat 1) "".

Section localhost.
Context `{Proto LocalhostClientState}.

Definition NewClientState (height : Height) : LocalhostClientState := mkLocalhost height.
Definition Localhost_ClientType (cs : LocalhostClientState) : string := Localhost.
Definition Localhost_GetLatestHeight (cs : LocalhostClientState) : Height := LatestHeight cs.
Definition Localhost_Status (ctx : Context) (kv : KVStore) (st : Store) (cs : LocalhostClientState) :
    Outcome ClientStatus := Ok Active.

Definition Localhost_Validate (cs : LocalhostClientState) : Outcome () :=
  check (negb (RevisionHeight (LatestHeight cs) =? 0)) ErrInvalidHeightIbc.

Definition Localhost_ZeroCustomFields (cs : LocalhostClientState) : Outcome LocalhostClientState := Ok cs.

(** Return a value or an error without writing. *)
Definition sm_lift {A} (o : Outcome A) : SM A := λ kv, (o, kv).

Definition Localhost_Initialize {Cons} (ctx : Context) (clientStore : Store) (cs : LocalhostClientState)
    (consState : option Cons) : SM () := λ kv,
  match consState with
  | Some _ => (Err ErrInvalidConsensus, kv)
  | None =>
      match GetSelfHeight ctx with
      | Ok height => (Ok tt, <[prefixed clientStore ClientStateKey := Marshal (mkLocalhost height)]> kv)
      | Err e => (Err e, kv)
      | Panic => (Panic, kv)
      end
  end.

Definition Localhost_GetTimestampAtHeight (ctx : Context) (kv : KVStore) (st : Store)
    (cs : LocalhostClientState) (h : Height) : Outcome Z := Ok (ctx_time ctx).

(** The proof is the placeholder and the path has two parts; its second part is
    the key in the store. *)
Definition localhost_key (proof : bytes) (path : MerklePath) : Outcome string :=
  check (bool_decide (proof = SentinelProof)) ErrInvalidProof;;
  match KeyPath path with
  | [_; key] => Ok key
  | _ => Err ErrInvalidPath
  end.

Definition Localhost_VerifyMembership (ctx : Context) (store : Store) (cs : LocalhostClientState)
    (h : Height) (dt db : Z) (proof : bytes) (path : MerklePath) (value : bytes) : SM () := λ kv,
  sm_lift (key ← localhost_key proof path;
           bz ← of_option ErrFailedMembershipVerification (kv !! prefixed store key);
           check (bool_decide (bz = value)) ErrFailedMembershipVerification) kv.

Definition Localhost_VerifyNonMembership (ctx : Context) (store : Store) (cs : LocalhostClientState)
    (h : Height) (dt db : Z) (proof : bytes) (path : MerklePath) : SM () := λ kv,
  sm_lift (key ← localhost_key proof path;
           check (bool_decide (kv !! prefixed store key = None)) ErrFailedNonMembershipVerification) kv.

Definition Localhost_VerifyClientMessage {Msg} (ctx : Context) (st : Store) (cs : LocalhostClientState)
    (msg : option Msg) : SM () := sm_lift (Err ErrUpdateClientFailed).

Definition Localhost_CheckForMisbehaviour {Msg} (ctx : Context) (st : Store) (cs : LocalhostClientState)
    (msg : option Msg) : SM bool := sm_lift (Ok false).

Definition Localhost_UpdateStateOnMisbehaviour {Msg} (ctx : Context) (st : Store)
    (cs : LocalhostClientState) (msg : option Msg) : SM () := sm_lift (Ok tt).

Definition Localhost_UpdateState {Msg} (ctx : Context) (clientStore : Store) (cs : LocalhostClientState)
    (msg : option Msg) : SM (list Height) := λ kv,
  match GetSelfHeight ctx with
  | Ok height =>
      (Ok [height], <[prefixed clientStore ClientStateKey := Marshal (mkLocalhost height)]> kv)
  | Err e => (Err e, kv)
  | Panic => (Panic, kv)
  end.

Definition Localhost_ExportMetadata (kv : KVStore) (st : Store) (cs : LocalhostClientState) :
    list GenesisMetadata := [].

Definition Localhost_CheckSubstituteAndUpdateState {Client} (ctx : Context) (subject substitute : Store)
    (cs : LocalhostClientState) (substituteClient : Client) : SM () := sm_lift (Err ErrUpdateClientFailed).

Definition Localhost_VerifyUpgradeAndUpdateState {Client Cons} (ctx : Context) (st : Store)
    (cs : LocalhostClientState) (newClient : Client) (newConsState : Cons) (p1 p2 : bytes) : SM () :=
  sm_lift (Err ErrInvalidUpgradeClient).

(** A chain whose only clients are localhost clients.  Its consensus states are
    those the client keeper computes for the chain itself. *)
Definition localhost_client `{Ics23} : LightClient := {|
  ClientState := LocalhostClientState;
  ConsensusState := TmConsensusState;
  ClientMessage := Empty_set;
  ClientType := Localhost_ClientType;
  GetLatestHeight := Localhost_GetLatestHeight;
  Status := Localhost_Status;
  ExportMetadata := Localhost_ExportMetadata;
  ZeroCustomFields := Localhost_ZeroCustomFields;
  GetTimestampAtHeight := Localhost_GetTimestampAtHeight;
  Initialize := Localhost_Initialize;
  VerifyMembership := Localhost_VerifyMembership;
  VerifyNonMembership := Localhost_VerifyNonMembership;
  VerifyClientMessage := Localhost_VerifyClientMessage;
  CheckForMisbehaviour := Localhost_CheckForMisbehaviour;
  UpdateStateOnMisbehaviour := Localhost_UpdateStateOnMisbehaviour;
  UpdateState := Localhost_UpdateState;
  CheckSubstituteAndUpdateState := Localhost_CheckSubstituteAndUpdateState;
  VerifyUpgradeAndUpdateState := Localhost_VerifyUpgradeAndUpdateState;
  mk_localhost := mkLocalhost;
  mk_tm_consensus := id;
  as_tendermint := λ _, None
|}.

Lemma prefixed_has_prefix p k : HasPrefix (prefixed p k) p = true.
Proof. apply prefix_app. Qed.

Lemma localhost_update_frame {Msg} ctx st cs (msg : option Msg) kv :
  frame_outside st kv (snd (Localhost_UpdateState ctx st cs msg kv)).
Proof.
  unfold Localhost_UpdateState. destruct (GetSelfHeight ctx); simpl; [|done|done].
  apply frame_outside_insert, prefixed_has_prefix.
Qed.

Lemma localhost_initialize_frame {Cons} ctx st cs (cons : option Cons) kv :
  frame_outside st kv (snd (Localhost_Initialize ctx st cs cons kv)).
Proof.
  unfold Localhost_Initialize. destruct cons; [done|].
  destruct (GetSelfHeight ctx); simpl; [|done|done].
  apply frame_outside_insert, prefixed_has_prefix.
Qed.

Lemma localhost_laws `{Ics23} : @LightClientLaws _ localhost_client.
Proof.
  split; intros; simpl; try done.
  - apply localhost_initialize_frame.
  - apply localhost_update_frame.
Qed.

(** What the localhost client accepts is what is in the store. *)
Lemma localhost_membership_iff ctx st cs h dt db proof path v kv :
  fst (Localhost_VerifyMembership ctx st cs h dt db proof path v kv) = Ok tt ↔
  proof = SentinelProof ∧ ∃ pre key, KeyPath path = [pre; key] ∧ kv !! prefixed st key = Some v.
Proof.
  unfold Localhost_VerifyMembership, localhost_key, sm_lift. cbn [fst].
  destruct (decide (proof = SentinelProof)) as [->|Hp].
  - rewrite bool_decide_eq_true_2 by done. simpl.
    destruct (KeyPath path) as [|pre [|key [|]]]; simpl; try naive_solver.
    destruct (kv !! prefixed st key) as [bz|] eqn:Hk; simpl; [|naive_solver].
    rewrite check_ok, bool_decide_eq_true. naive_solver.
  - rewrite bool_decide_eq_false_2 by done. simpl. naive_solver.
Qed.

Lemma localhost_non_membership_iff ctx st cs h dt db proof path kv :
  fst (Localhost_VerifyNonMembership ctx st cs h dt db proof path kv) = Ok tt ↔
  proof = SentinelProof ∧ ∃ pre key, KeyPath path = [pre; key] ∧ kv !! prefixed st key = None.
Proof.
  unfold Localhost_VerifyNonMembership, localhost_key, sm_lift. cbn [fst].
  destruct (decide (proof = SentinelProof)) as [->|Hp].
  - rewrite bool_decide_eq_true_2 by done. simpl.
    destruct (KeyPath path) as [|pre [|key [|]]]; simpl; try naive_solver.
    rewrite check_ok, bool_decide_eq_true. naive_solver.
  - rewrite bool_decide_eq_false_2 by done. simpl. naive_solver.
Qed.

(** The localhost client accepts a membership proof exactly when the
    proof is the placeholder, the path has a prefix and a key, and the store
    holds the value at the key; a non-membership proof exactly when the store
    holds nothing at the key.  Neither writes. *)
Theorem localhost_verification_sound ctx st cs h dt db proof path v kv :
  (fst (Localhost_VerifyMembership ctx st cs h dt db proof path v kv) = Ok tt ↔
   proof = SentinelProof ∧ ∃ pre key, KeyPath path = [pre; key] ∧ kv !! prefixed st key = Some v) ∧
  (fst (Localhost_VerifyNonMembership ctx st cs h dt db proof path kv) = Ok tt ↔
   proof = SentinelProof ∧ ∃ pre key, KeyPath path = [pre; key] ∧ kv !! prefixed st key = None) ∧
  snd (Localhost_VerifyMembership ctx st cs h dt db proof path v kv) = kv ∧
  snd (Localhost_VerifyNonMembership ctx st cs h dt db proof path kv) = kv.
Proof.
  split_and!; [apply localhost_membership_iff|apply localhost_non_membership_iff|done|done].
Qed.

End localhost.
