(* ===== verification/ClientTypes.v ===== *)
(** * The data of the light clients

    The states and messages of the two light clients that follow another machine:
    07-tendermint (src/proto/ibc/lightclients/tendermint) and 06-solomachine
    (src/proto/ibc/lightclients/solomachine), with the libraries their types come
    from as parameters, and the interface values ([Any...]) that hold a state or a
    message of some client type. *)

From stdpp Require Import gmap strings list.
From Stdlib Require Import ZArith Lia Ascii.
From S2P Require Import Prelude GoStd Host Chain Height Commitment LightClient Client Localhost.

(** ** CometBFT

    The protobuf types of the consensus engine with the fields this program reads, the
    engine's own types they convert to, and the functions called on those.  A
    conversion fails with [None], a check with [false]; the errors are the engine's
    and have no code. *)
Class CometTypes := {
  ProtoHeader : Type;
  ph_ChainID : ProtoHeader → string;
  ph_Height : ProtoHeader → Z;
  ph_Time : ProtoHeader → Z;
  ph_AppHash : ProtoHeader → bytes;
  ph_ValidatorsHash : ProtoHeader → bytes;
  ph_NextValidatorsHash : ProtoHeader → bytes;
  ProtoBlockID : Type;
  ProtoCommit : Type;
  pc_BlockID : ProtoCommit → ProtoBlockID;
  ProtoValidatorSet : Type;
  TmValidatorSet : Type;
  TmCommit : Type;
  Commit_Height : TmCommit → Z;
  TmBlockID : Type;
  BlockID_Hash : TmBlockID → bytes;
  TmSignedHeader : Type
}.

(** [tmproto.SignedHeader]: pointers to a header and a commit. *)
Record ProtoSignedHeader `{CometTypes} := mkProtoSignedHeader {
  sh_Header : option ProtoHeader;
  sh_Commit : option ProtoCommit
}.

(** The header built from a trusted consensus state: the fields of [tmtypes.Header]
    that are set. *)
Record TrustedHeader := mkTrustedHeader {
  th_ChainID : string;
  th_Height : Z;
  th_Time : Z;
  th_NextValidatorsHash : bytes
}.

Class CometBFT `{CometTypes} := {
  ValidatorSetFromProto : option ProtoValidatorSet → option TmValidatorSet;
  ValidatorSet_Hash : TmValidatorSet → bytes;
  CommitFromProto : option ProtoCommit → option TmCommit;
  BlockIDFromProto : ProtoBlockID → option TmBlockID;
  SignedHeaderFromProto : option ProtoSignedHeader → option TmSignedHeader;
  SignedHeader_ValidateBasic : TmSignedHeader → string → bool;
  VerifyCommitLight : TmValidatorSet → string → TmBlockID → Z → TmCommit → bool;
  VerifyCommitLightTrusting : TmValidatorSet → string → TmCommit → Fraction → bool;
  light_Verify : TrustedHeader → TmValidatorSet → TmSignedHeader → TmValidatorSet →
    Z → Z → Z → Fraction → bool;
  ValidateHash : bytes → bool;
  MaxChainIDLen : Z
}.

(** ** 07-tendermint *)

Record TmHeader `{CometTypes} := mkTmHeader {
  h_SignedHeader : option ProtoSignedHeader;
  h_ValidatorSet : option ProtoValidatorSet;
  h_TrustedHeight : Height;
  h_TrustedValidators : option ProtoValidatorSet
}.

Record TmMisbehaviour `{CometTypes} := mkTmMisbehaviour {
  mb_ClientId : string;
  mb_Header1 : option TmHeader;
  mb_Header2 : option TmHeader
}.

(** ** 06-solomachine

    Keys and signatures are the SDK's.  A key travels in an [Any] that holds its
    encoding and, once unpacked, the key. *)
Class SoloKeys := {
  PubKey : Type;
  PubKey_eq_dec :: EqDecision PubKey;
  PubKey_Bytes : PubKey → bytes;
  MultiSignatureData : Type
}.

Record AnyPubKey `{SoloKeys} := mkAnyPubKey { any_Value : bytes; any_Cached : option PubKey }.

#[export] Instance AnyPubKey_eq_dec `{SoloKeys} : EqDecision AnyPubKey.
Proof. solve_decision. Defined.

Record SmConsensusState `{SoloKeys} := mkSmConsensusState {
  sm_PublicKey : option AnyPubKey;
  sm_Diversifier : string;
  sm_Timestamp : Z
}.

#[export] Instance SmConsensusState_eq_dec `{SoloKeys} : EqDecision SmConsensusState.
Proof. solve_decision. Defined.

Record SmClientState `{SoloKeys} := mkSmClientState {
  sm_Sequence : Z;
  sm_IsFrozen : bool;
  sm_ConsensusState : option SmConsensusState
}.

Record SmHeader `{SoloKeys} := mkSmHeader {
  smh_Timestamp : Z;
  smh_Signature : bytes;
  smh_NewPublicKey : option AnyPubKey;
  smh_NewDiversifier : string
}.

Record SignatureAndData := mkSignatureAndData {
  sd_Signature : bytes;
  sd_Path : bytes;
  sd_Data : bytes;
  sd_Timestamp : Z
}.

Record SmMisbehaviour := mkSmMisbehaviour {
  smm_Sequence : Z;
  smm_SignatureOne : option SignatureAndData;
  smm_SignatureTwo : option SignatureAndData
}.

Record TimestampedSignatureData := mkTimestampedSignatureData {
  tsd_SignatureData : bytes;
  tsd_Timestamp : Z
}.

Record SignBytes := mkSignBytes {
  sb_Sequence : Z;
  sb_Timestamp : Z;
  sb_Diversifier : string;
  sb_Path : bytes;
  sb_Data : bytes
}.

Record HeaderData `{SoloKeys} := mkHeaderData {
  hd_NewPubKey : option AnyPubKey;
  hd_NewDiversifier : string
}.

Arguments mkProtoSignedHeader {_} _ _.
Arguments mkTmHeader {_} _ _ _ _.
Arguments mkTmMisbehaviour {_} _ _ _.
Arguments mkAnyPubKey {_} _ _.
Arguments mkSmConsensusState {_} _ _ _.
Arguments mkSmClientState {_} _ _ _.
Arguments mkSmHeader {_} _ _ _ _.
Arguments mkHeaderData {_} _ _.

(** ** Interface values *)

Section any.
Context {I23 : Ics23} {CT : CometTypes} {SK : SoloKeys}.

Inductive AnyClientState :=
| AnyTendermint (cs : TmClientState)
| AnySolomachine (cs : SmClientState)
| AnyLocalhost (cs : LocalhostClientState).

Inductive AnyConsensusState :=
| AnyTmConsensus (consState : TmConsensusState)
| AnySmConsensus (consState : SmConsensusState).

Inductive AnyClientMessage :=
| AnyTmHeader (header : TmHeader)
| AnyTmMisbehaviour (misbehaviour : TmMisbehaviour)
| AnySmHeader (header : SmHeader)
| AnySmMisbehaviour (misbehaviour : SmMisbehaviour).

End any.

(** ** Computations on a client store

    [SM] is the monad of the methods of a light client: they read and write the
    store they are given and nothing else. *)

#[export] Instance SM_ret : MRet SM := λ A a kv, (Ok a, kv).
#[export] Instance SM_bind : MBind SM := λ A B f m kv,
  match m kv with
  | (Ok a, kv') => f a kv'
  | (Err e, kv') => (Err e, kv')
  | (Panic, kv') => (Panic, kv')
  end.

(** Read the store, with an outcome. *)
Definition sm_reads {A} (f : KVStore → Outcome A) : SM A := λ kv, (f kv, kv).
Definition sm_require (b : bool) (e : error) : SM () := sm_lift (check b e).
Definition sm_set (st : Store) (k : string) (v : bytes) : SM () := λ kv, (Ok tt, <[prefixed st k := v]> kv).
Definition sm_delete (st : Store) (k : string) : SM () := λ kv, (Ok tt, delete (prefixed st k) kv).

(** A nil pointer that is followed. *)
Definition deref {A} (o : option A) : Outcome A := match o with Some a => Ok a | None => Panic end.

(** *** Lemmas *)

Lemma sm_bind_ok {A B} (m : SM A) (f : A → SM B) kv b kv' :
  (m ≫= f) kv = (Ok b, kv') ↔ ∃ a kv1, m kv = (Ok a, kv1) ∧ f a kv1 = (Ok b, kv').
Proof.
  unfold mbind, SM_bind. destruct (m kv) as [[a|e|] kv1]; split; try done.
  - intros H. by exists a, kv1.
  - by intros (? & ? & [= <- <-] & H).
  - by intros (? & ? & ? & H).
  - by intros (? & ? & ? & H).
Qed.

Lemma sm_bind_run {A B} (m : SM A) (f : A → SM B) kv a kv1 :
  m kv = (Ok a, kv1) → (m ≫= f) kv = f a kv1.
Proof. unfold mbind, SM_bind. by intros ->. Qed.

Lemma sm_lift_ok {A} (o : Outcome A) a kv kv' : sm_lift o kv = (Ok a, kv') ↔ o = Ok a ∧ kv' = kv.
Proof. unfold sm_lift. split; [by intros [= -> <-]|by intros [-> ->]]. Qed.

Lemma sm_reads_ok {A} (f : KVStore → Outcome A) a kv kv' :
  sm_reads f kv = (Ok a, kv') ↔ f kv = Ok a ∧ kv' = kv.
Proof. unfold sm_reads. split; [by intros [= -> <-]|by intros [-> ->]]. Qed.

Lemma sm_require_ok b e u kv kv' : sm_require b e kv = (Ok u, kv') ↔ b = true ∧ kv' = kv.
Proof. unfold sm_require. rewrite sm_lift_ok. by rewrite check_ok. Qed.

(** A method writes only under its prefix. *)
Definition framed {A} (st : Store) (m : SM A) : Prop := ∀ kv, frame_outside st kv (snd (m kv)).

Lemma framed_bind {A B} st (m : SM A) (f : A → SM B) :
  framed st m → (∀ a, framed st (f a)) → framed st (m ≫= f).
Proof.
  intros Hm Hf kv. unfold mbind, SM_bind. specialize (Hm kv).
  destruct (m kv) as [[a|e|] kv1]; simpl in *; [|done|done]. etrans; [exact Hm|apply Hf].
Qed.

Lemma framed_ret {A} st (a : A) : framed st (mret a : SM A).
Proof. done. Qed.
Lemma framed_lift {A} st (o : Outcome A) : framed st (sm_lift o).
Proof. done. Qed.
Lemma framed_reads {A} st (f : KVStore → Outcome A) : framed st (sm_reads f).
Proof. done. Qed.
Lemma framed_require st b e : framed st (sm_require b e).
Proof. done. Qed.
Lemma framed_set st k v : framed st (sm_set st k v).
Proof. intros kv. apply frame_outside_insert, prefixed_has_prefix. Qed.
Lemma framed_delete st k : framed st (sm_delete st k).
Proof.
  intros kv j Hj. apply lookup_delete_ne. intros <-. rewrite prefixed_has_prefix in Hj. done.
Qed.

Create HintDb framed.
#[export] Hint Resolve framed_ret framed_lift framed_reads framed_require framed_set framed_delete : framed.

Ltac framed :=
  intros; repeat first
    [ apply framed_bind; [|intros]
    | solve [eauto with framed]
    | case_match ].
