(* ===== verification/TmStore.v ===== *)
(** * 07-tendermint: the store of a client

    Models src/modules/light-clients/07-tendermint/store.go: where a Tendermint client
    keeps its state, its consensus states, and for each of them when it was
    processed and a key that sorts by height.  The store is a view of the IBC store,
    named by its prefix. *)

From stdpp Require Import gmap strings list sorting.
From Stdlib Require Import ZArith Lia Ascii.
From S2P Require Import Prelude GoStd Host Chain Height Commitment LightClient Client Localhost ClientTypes.

Definition KeyIterateConsensusStatePrefix : string := "iterateConsensusStates".
Definition KeyProcessedTime : string := "/processedTime".
Definition KeyProcessedHeight : string := "/processedHeight".

(** [KVStorePrefixIterator(store, p)] on a view: its keys are relative to the view. *)
Definition view_iterator (kv : KVStore) (st : Store) (p : string) : list (string * bytes) :=
  (λ x, (str_drop (String.length st) x.1, x.2)) <$> KVStorePrefixIterator kv (prefixed st p).

(** A loop over entries with a callback that updates what it captured and may stop
    the loop. *)
Fixpoint iterate_until {X} (l : list (string * bytes)) (cb : string → bytes → X → X * bool) (acc : X) : X :=
  match l with
  | [] => acc
  | (key, val) :: l' =>
      let '(acc, stop) := cb key val acc in
      if stop : bool then acc else iterate_until l' cb acc
  end.

Section store.
Context `{BigEndian} {I23 : Ics23} {CT : CometTypes} {SK : SoloKeys}.
Context `{!Proto AnyClientState, !Proto AnyConsensusState}.

Definition ConsensusStateKey (height : Height) : string := ConsensusStatePath (Height_String height).

Definition setClientState (st : Store) (clientState : TmClientState) : SM () :=
  sm_set st ClientStateKey (Marshal (AnyTendermint clientState)).

Definition setConsensusState (st : Store) (consensusState : TmConsensusState) (height : Height) : SM () :=
  sm_set st (ConsensusStateKey height) (Marshal (AnyTmConsensus consensusState)).

(** Bytes that do not decode, or to a consensus state of another type, panic. *)
Definition Tm_GetConsensusState (kv : KVStore) (st : Store) (height : Height) :
    Outcome (option TmConsensusState) :=
  match non_empty (kv !! prefixed st (ConsensusStateKey height)) with
  | None => Ok None
  | Some bz =>
      match Unmarshal bz with
      | Some (AnyTmConsensus consensusState) => Ok (Some consensusState)
      | _ => Panic
      end
  end.

Definition deleteConsensusState (st : Store) (height : Height) : SM () :=
  sm_delete st (ConsensusStateKey height).

(** The keys of the times and heights of processing. *)
Definition is_processed_key (key : string) : bool :=
  match Split key "/" with
  | [_; _; s2] => bool_decide (s2 = "processedTime") || bool_decide (s2 = "processedHeight")
  | _ => false
  end.

Definition IterateConsensusMetadata {X} (kv : KVStore) (st : Store) (cb : string → bytes → X → X * bool)
    (acc : X) : X :=
  let acc := iterate_until (filter (λ x, is_processed_key x.1 = true)
                              (view_iterator kv st KeyConsensusStatePrefix)) cb acc in
  iterate_until (view_iterator kv st KeyIterateConsensusStatePrefix) cb acc.

Definition ProcessedTimeKey (height : Height) : string := ConsensusStateKey height +:+ KeyProcessedTime.

Definition SetProcessedTime (st : Store) (height : Height) (timeNs : Z) : SM () :=
  sm_set st (ProcessedTimeKey height) (Uint64ToBigEndian timeNs).

Definition GetProcessedTime (kv : KVStore) (st : Store) (height : Height) : option Z :=
  BigEndianToUint64 <$> non_empty (kv !! prefixed st (ProcessedTimeKey height)).

Definition deleteProcessedTime (st : Store) (height : Height) : SM () :=
  sm_delete st (ProcessedTimeKey height).

Definition ProcessedHeightKey (height : Height) : string := ConsensusStateKey height +:+ KeyProcessedHeight.

Definition SetProcessedHeight (st : Store) (consHeight processedHeight : Height) : SM () :=
  sm_set st (ProcessedHeightKey consHeight) (Height_String processedHeight).

Definition GetProcessedHeight (kv : KVStore) (st : Store) (height : Height) : option Height :=
  match non_empty (kv !! prefixed st (ProcessedHeightKey height)) with
  | None => None
  | Some bz => match ParseHeight bz with Ok processedHeight => Some processedHeight | _ => None end
  end.

Definition deleteProcessedHeight (st : Store) (height : Height) : SM () :=
  sm_delete st (ProcessedHeightKey height).

Definition bigEndianHeightBytes (height : Height) : bytes :=
  be_put64 (RevisionNumber height) +:+ be_put64 (RevisionHeight height).

Definition IterationKey (height : Height) : string :=
  KeyIterateConsensusStatePrefix +:+ bigEndianHeightBytes height.

Definition SetIterationKey (st : Store) (height : Height) : SM () :=
  sm_set st (IterationKey height) (ConsensusStateKey height).

Definition GetIterationKey (kv : KVStore) (st : Store) (height : Height) : option bytes :=
  kv !! prefixed st (IterationKey height).

Definition deleteIterationKey (st : Store) (height : Height) : SM () :=
  sm_delete st (IterationKey height).

(** Slicing and reading a key that is too short panics. *)
Definition GetHeightFromIterationKey (iterKey : string) : Outcome Height :=
  let bigEndianBytes := str_drop (String.length KeyIterateConsensusStatePrefix) iterKey in
  if bool_decide (String.length bigEndianBytes < 16)%nat then Panic
  else Ok (NewHeight (be_get64 bigEndianBytes) (be_get64 (str_drop 8 bigEndianBytes))).

(** The loop of [IterateConsensusStateAscending] over the iteration keys. *)
Fixpoint iterate_heights {X} (l : list (string * bytes)) (cb : Height → X → Outcome (X * bool)) (acc : X) :
    Outcome X :=
  match l with
  | [] => Ok acc
  | (iterKey, _) :: l' =>
      height ← GetHeightFromIterationKey iterKey;
      '(acc, stop) ← cb height acc;
      if stop : bool then Ok acc else iterate_heights l' cb acc
  end.

Definition IterateConsensusStateAscending {X} (kv : KVStore) (st : Store)
    (cb : Height → X → Outcome (X * bool)) (acc : X) : Outcome X :=
  iterate_heights (view_iterator kv st KeyIterateConsensusStatePrefix) cb acc.

(** Not found when the bytes do not decode or are of another type. *)
Definition getTmConsensusState (kv : KVStore) (st : Store) (key : string) : option TmConsensusState :=
  match non_empty (kv !! prefixed st key) with
  | None => None
  | Some bz => match Unmarshal bz with Some (AnyTmConsensus consensusState) => Some consensusState | _ => None end
  end.

(** [iterateStore.Iterator(start, nil)] and [iterateStore.ReverseIterator(nil, end)]
    on the store of iteration keys. *)
Definition iterate_store (st : Store) : Store := prefixed st KeyIterateConsensusStatePrefix.
Definition iterator_from (kv : KVStore) (st : Store) (start : bytes) : list (string * bytes) :=
  filter (λ x, String.leb start x.1 = true) (view_iterator kv (iterate_store st) "").
Definition reverse_iterator_to (kv : KVStore) (st : Store) (end_ : bytes) : list (string * bytes) :=
  reverse (filter (λ x, String.ltb x.1 end_ = true) (view_iterator kv (iterate_store st) "")).

Definition GetNextConsensusState (kv : KVStore) (st : Store) (height : Height) : option TmConsensusState :=
  match iterator_from kv st (bigEndianHeightBytes height) with
  | [] => None
  | (_, value) :: rest =>
      if bool_decide (value = ConsensusStateKey height) then
        match rest with
        | [] => None
        | (_, csKey) :: _ => getTmConsensusState kv st csKey
        end
      else getTmConsensusState kv st value
  end.

Definition GetPreviousConsensusState (kv : KVStore) (st : Store) (height : Height) : option TmConsensusState :=
  match reverse_iterator_to kv st (bigEndianHeightBytes height) with
  | [] => None
  | (_, csKey) :: _ => getTmConsensusState kv st csKey
  end.

Definition setConsensusMetadataWithValues (st : Store) (height processedHeight : Height)
    (processedTime : Z) : SM () :=
  SetProcessedTime st height processedTime;;
  SetProcessedHeight st height processedHeight;;
  SetIterationKey st height.

Definition setConsensusMetadata (ctx : Context) (st : Store) (height : Height) : SM () :=
  selfHeight ← sm_lift (GetSelfHeight ctx);
  setConsensusMetadataWithValues st height selfHeight (ctx_time ctx).

Definition deleteConsensusMetadata (st : Store) (height : Height) : SM () :=
  deleteProcessedTime st height;;
  deleteProcessedHeight st height;;
  deleteIterationKey st height.

(** [IsExpired] of client_state.go: the trusting period since the last update has
    passed. *)
Definition IsExpired (cs : TmClientState) (latestTimestamp now : Z) : bool :=
  let expirationTime := latestTimestamp + tm_TrustingPeriod cs in
  negb (now <? expirationTime).

Fixpoint delete_heights (st : Store) (heights : list Height) : SM () :=
  match heights with
  | [] => mret tt
  | height :: rest =>
      deleteConsensusState st height;;
      deleteConsensusMetadata st height;;
      delete_heights st rest
  end.

Definition PruneAllExpiredConsensusStates (ctx : Context) (st : Store) (clientState : TmClientState) : SM Z :=
  heights ← sm_reads (λ kv, IterateConsensusStateAscending kv st (λ height heights,
    consState ← Tm_GetConsensusState kv st height;
    match consState with
    | None => Ok (heights, true)
    | Some consState =>
        Ok (if IsExpired clientState (tm_Timestamp consState) (BlockTime ctx)
            then heights ++ [height] else heights, false)
    end) []);
  delete_heights st heights;;
  mret (Z.of_nat (length heights)).

End store.
