(* ===== verification/Tendermint.v ===== *)
(** * The 07-tendermint light client

    Models src/modules/light-clients/07-tendermint: the client and consensus states
    (client_state.go, consensus_state.go, fraction.go), headers and misbehaviour
    (header.go, misbehaviour.go), their verification and the update of the client
    (update.go, misbehaviour_handle.go), upgrades (upgrade.go), recovery
    (proposal_handle.go) and the export of metadata (genesis.go).  The verification
    of signatures is CometBFT's and is a parameter.

    Times are in Unix nanoseconds, durations in nanoseconds. *)

From stdpp Require Import gmap strings list sorting.
From Stdlib Require Import ZArith Lia Ascii.
From S2P Require Import Prelude GoStd Host Chain Height Commitment LightClient Merkle Client Localhost ClientTypes TmStore.

(** ** errors.go *)

Definition Tm_ModuleName : string := "07-tendermint".
Definition Tm_ErrInvalidChainID : error := mkError Tm_ModuleName 2.
Definition Tm_ErrInvalidTrustingPeriod : error := mkError Tm_ModuleName 3.
Definition Tm_ErrInvalidUnbondingPeriod : error := mkError Tm_ModuleName 4.
Definition Tm_ErrInvalidHeaderHeight : error := mkError Tm_ModuleName 5.
Definition Tm_ErrInvalidHeader : error := mkError Tm_ModuleName 6.
Definition Tm_ErrInvalidMaxClockDrift : error := mkError Tm_ModuleName 7.
Definition Tm_ErrProcessedTimeNotFound : error := mkError Tm_ModuleName 8.
Definition Tm_ErrProcessedHeightNotFound : error := mkError Tm_ModuleName 9.
Definition Tm_ErrDelayPeriodNotPassed : error := mkError Tm_ModuleName 10.
Definition Tm_ErrTrustingPeriodExpired : error := mkError Tm_ModuleName 11.
Definition Tm_ErrInvalidProofSpecs : error := mkError Tm_ModuleName 13.
Definition Tm_ErrInvalidValidatorSet : error := mkError Tm_ModuleName 14.

(** [upgradetypes.KeyUpgradedClient] and [upgradetypes.KeyUpgradedConsState]. *)
Class UpgradeKeys := { KeyUpgradedClient : string; KeyUpgradedConsState : string }.

(** [t.Sub(u)]: the difference, at the ends of its range when it does not fit. *)
Definition time_Sub (t u : Z) : Z := Z.max (- 2 ^ 63) (Z.min (2 ^ 63 - 1) (t - u)).

Section tendermint.
Context `{BigEndian} {I23 : Ics23} {IP : Ics23Proofs} {TL : TrustLevels} {UK : UpgradeKeys}.
Context {CT : CometTypes} {CB : CometBFT} {SK : SoloKeys}.
Context `{!Proto AnyClientState, !Proto AnyConsensusState, !Proto MerkleProof}.

(** ** fraction.go *)

Definition NewFractionFromTm (f : Fraction) : Fraction := mkFraction (Numerator f) (Denominator f).
Definition ToTendermint (f : Fraction) : Fraction := mkFraction (Numerator f) (Denominator f).

(** ** consensus_state.go *)

Definition SentinelRoot : bytes := "sentinel_root".

Definition NewConsensusState (timestamp : Z) (root : MerkleRoot) (nextValsHash : bytes) : TmConsensusState :=
  mkTmConsensusState timestamp root nextValsHash.

Definition Tm_GetTimestamp (cs : TmConsensusState) : Z := u64 (tm_Timestamp cs).

(** [Timestamp.Unix()] is in seconds, rounded down. *)
Definition TmConsensusState_ValidateBasic (cs : TmConsensusState) : Outcome () :=
  check (negb (MerkleRoot_Empty (tm_Root cs))) ErrInvalidConsensus;;
  check (ValidateHash (tm_NextValidatorsHash cs)) errUnregistered;;
  check (0 <? tm_Timestamp cs / 1000000000) ErrInvalidConsensus.

(** ** header.go *)

(** [h.Header], through the embedded pointer. *)
Definition Header_Header (h : TmHeader) : Outcome ProtoHeader :=
  signedHeader ← deref (h_SignedHeader h);
  deref (sh_Header signedHeader).

Definition Header_Commit (h : TmHeader) : Outcome (option ProtoCommit) :=
  signedHeader ← deref (h_SignedHeader h);
  Ok (sh_Commit signedHeader).

Definition Header_GetHeight (h : TmHeader) : Outcome Height :=
  header ← Header_Header h;
  revision ← ParseChainID (ph_ChainID header);
  Ok (NewHeight revision (u64 (ph_Height header))).

Definition Header_GetTime (h : TmHeader) : Outcome Z :=
  header ← Header_Header h;
  Ok (ph_Time header).

Definition Header_ConsensusState (h : TmHeader) : Outcome TmConsensusState :=
  header ← Header_Header h;
  Ok (mkTmConsensusState (ph_Time header) (NewMerkleRoot (ph_AppHash header)) (ph_NextValidatorsHash header)).

Definition TmHeader_ValidateBasic (h : TmHeader) : Outcome () :=
  signedHeader ← of_option ErrInvalidHeader (h_SignedHeader h);
  header ← of_option ErrInvalidHeader (sh_Header signedHeader);
  tmSignedHeader ← of_option errUnregistered (SignedHeaderFromProto (h_SignedHeader h));
  check (SignedHeader_ValidateBasic tmSignedHeader (ph_ChainID header)) errUnregistered;;
  height ← Header_GetHeight h;
  check (negb (GTE (h_TrustedHeight h) height)) Tm_ErrInvalidHeaderHeight;;
  check (bool_decide (is_Some (h_ValidatorSet h))) ErrInvalidHeader;;
  tmValset ← of_option errUnregistered (ValidatorSetFromProto (h_ValidatorSet h));
  check (bool_decide (ph_ValidatorsHash header = ValidatorSet_Hash tmValset)) ErrInvalidHeader.

(** ** misbehaviour.go *)

Definition FrozenHeight : Height := NewHeight 0 1.

Definition NewMisbehaviour (clientID : string) (header1 header2 : option TmHeader) : TmMisbehaviour :=
  mkTmMisbehaviour clientID header1 header2.

Definition Misbehaviour_GetTime (misbehaviour : TmMisbehaviour) : Outcome Z :=
  header1 ← deref (mb_Header1 misbehaviour);
  header2 ← deref (mb_Header2 misbehaviour);
  t1 ← Header_GetTime header1;
  t2 ← Header_GetTime header2;
  Ok (if t2 <? t1 then t1 else t2).

Definition validCommit (chainID : string) (blockID : TmBlockID) (commit : option ProtoCommit)
    (valSet : option ProtoValidatorSet) : Outcome () :=
  tmCommit ← of_option errUnregistered (CommitFromProto commit);
  tmValset ← of_option errUnregistered (ValidatorSetFromProto valSet);
  check (VerifyCommitLight tmValset chainID blockID (Commit_Height tmCommit) tmCommit) ErrInvalidMisbehaviour.

(** An error of any kind is reported as invalid misbehaviour. *)
Definition as_error (e : error) (o : Outcome ()) : Outcome () :=
  match o with Err _ => Err e | o => o end.

(** [&header.SignedHeader.Commit.BlockID]. *)
Definition Header_BlockID (h : TmHeader) : Outcome ProtoBlockID :=
  commit ← Header_Commit h;
  commit ← deref commit;
  Ok (pc_BlockID commit).

Definition TmMisbehaviour_ValidateBasic (misbehaviour : TmMisbehaviour) : Outcome () :=
  header1 ← of_option Tm_ErrInvalidHeader (mb_Header1 misbehaviour);
  header2 ← of_option Tm_ErrInvalidHeader (mb_Header2 misbehaviour);
  check (negb (RevisionHeight (h_TrustedHeight header1) =? 0)) Tm_ErrInvalidHeaderHeight;;
  check (negb (RevisionHeight (h_TrustedHeight header2) =? 0)) Tm_ErrInvalidHeaderHeight;;
  check (bool_decide (is_Some (h_TrustedValidators header1))) Tm_ErrInvalidValidatorSet;;
  check (bool_decide (is_Some (h_TrustedValidators header2))) Tm_ErrInvalidValidatorSet;;
  hd1 ← Header_Header header1;
  hd2 ← Header_Header header2;
  check (bool_decide (ph_ChainID hd1 = ph_ChainID hd2)) ErrInvalidMisbehaviour;;
  ClientIdentifierValidator (mb_ClientId misbehaviour);;
  as_error ErrInvalidMisbehaviour (TmHeader_ValidateBasic header1);;
  as_error ErrInvalidMisbehaviour (TmHeader_ValidateBasic header2);;
  height1 ← Header_GetHeight header1;
  height2 ← Header_GetHeight header2;
  check (negb (LT height1 height2)) ErrInvalidMisbehaviour;;
  id1 ← Header_BlockID header1;
  blockID1 ← of_option errUnregistered (BlockIDFromProto id1);
  id2 ← Header_BlockID header2;
  blockID2 ← of_option errUnregistered (BlockIDFromProto id2);
  commit1 ← Header_Commit header1;
  validCommit (ph_ChainID hd1) blockID1 commit1 (h_ValidatorSet header1);;
  commit2 ← Header_Commit header2;
  validCommit (ph_ChainID hd2) blockID2 commit2 (h_ValidatorSet header2).

(** ** client_state.go *)

Definition Tm_NewClientState (chainID : string) (trustLevel : Fraction)
    (trustingPeriod ubdPeriod maxClockDrift : Z) (latestHeight : Height) (specs : list (option ProofSpec))
    (upgradePath : list string) : TmClientState :=
  mkTmClientState chainID trustLevel trustingPeriod ubdPeriod maxClockDrift ZeroHeight latestHeight specs
    upgradePath false false.

Definition Tm_GetTimestampAtHeight (ctx : Context) (kv : KVStore) (st : Store) (cs : TmClientState)
    (height : Height) : Outcome Z :=
  consState ← Tm_GetConsensusState kv st height;
  consState ← of_option ErrConsensusStateNotFound consState;
  Ok (Tm_GetTimestamp consState).

Definition Tm_Status (ctx : Context) (kv : KVStore) (st : Store) (cs : TmClientState) : Outcome ClientStatus :=
  if negb (IsZero (tm_FrozenHeight cs)) then Ok Frozen
  else
    consState ← Tm_GetConsensusState kv st (tm_LatestHeight cs);
    match consState with
    | None => Ok Expired
    | Some consState =>
        Ok (if IsExpired cs (tm_Timestamp consState) (BlockTime ctx) then Expired else Active)
    end.

Definition Tm_Validate (cs : TmClientState) : Outcome () :=
  check (negb (is_blank (tm_ChainId cs))) Tm_ErrInvalidChainID;;
  check (negb (MaxChainIDLen <? Z.of_nat (String.length (tm_ChainId cs)))) Tm_ErrInvalidChainID;;
  check (ValidateTrustLevel (ToTendermint (tm_TrustLevel cs))) errUnregistered;;
  check (0 <? tm_TrustingPeriod cs) Tm_ErrInvalidTrustingPeriod;;
  check (0 <? tm_UnbondingPeriod cs) Tm_ErrInvalidUnbondingPeriod;;
  check (0 <? tm_MaxClockDrift cs) Tm_ErrInvalidMaxClockDrift;;
  revision ← ParseChainID (tm_ChainId cs);
  check (RevisionNumber (tm_LatestHeight cs) =? revision) Tm_ErrInvalidHeaderHeight;;
  check (negb (RevisionHeight (tm_LatestHeight cs) =? 0)) Tm_ErrInvalidHeaderHeight;;
  check (tm_TrustingPeriod cs <? tm_UnbondingPeriod cs) Tm_ErrInvalidTrustingPeriod;;
  check (negb (bool_decide (tm_ProofSpecs cs = []))) Tm_ErrInvalidProofSpecs;;
  check (forallb (λ spec, bool_decide (is_Some spec)) (tm_ProofSpecs cs)) Tm_ErrInvalidProofSpecs;;
  check (forallb (λ k, negb (is_blank k)) (tm_UpgradePath cs)) ErrInvalidClient.

Definition Tm_ZeroCustomFields (cs : TmClientState) : TmClientState :=
  mkTmClientState (tm_ChainId cs) (mkFraction 0 0) 0 (tm_UnbondingPeriod cs) 0 ZeroHeight (tm_LatestHeight cs)
    (tm_ProofSpecs cs) (tm_UpgradePath cs) false false.

Definition Tm_Initialize (ctx : Context) (st : Store) (cs : TmClientState)
    (consState : option AnyConsensusState) : SM () :=
  match consState with
  | Some (AnyTmConsensus consensusState) =>
      setClientState st cs;;
      setConsensusState st consensusState (tm_LatestHeight cs);;
      setConsensusMetadata ctx st (tm_LatestHeight cs)
  | _ => sm_lift (Err ErrInvalidConsensus)
  end.

Definition verifyDelayPeriodPassed (ctx : Context) (kv : KVStore) (st : Store) (proofHeight : Height)
    (delayTimePeriod delayBlockPeriod : Z) : Outcome () :=
  (if negb (delayTimePeriod =? 0) then
     processedTime ← of_option Tm_ErrProcessedTimeNotFound (GetProcessedTime kv st proofHeight);
     let currentTimestamp := ctx_time ctx in
     let validTime := u64 (processedTime + delayTimePeriod) in
     check (negb (currentTimestamp <? validTime)) Tm_ErrDelayPeriodNotPassed
   else Ok tt);;
  (if negb (delayBlockPeriod =? 0) then
     processedHeight ← of_option Tm_ErrProcessedHeightNotFound (GetProcessedHeight kv st proofHeight);
     currentHeight ← GetSelfHeight ctx;
     let validHeight := NewHeight (RevisionNumber processedHeight)
                          (u64 (RevisionHeight processedHeight + delayBlockPeriod)) in
     check (negb (LT currentHeight validHeight)) Tm_ErrDelayPeriodNotPassed
   else Ok tt).

(** What both verifications do before they use the proof: the consensus state of the
    proof height and the decoded proof. *)
Definition verification_args (ctx : Context) (kv : KVStore) (st : Store) (cs : TmClientState)
    (height : Height) (delayTimePeriod delayBlockPeriod : Z) (proof : bytes) :
    Outcome (MerkleProof * TmConsensusState) :=
  check (negb (LT (tm_LatestHeight cs) height)) ErrInvalidHeightIbc;;
  verifyDelayPeriodPassed ctx kv st height delayTimePeriod delayBlockPeriod;;
  merkleProof ← of_option ErrInvalidProof (Unmarshal proof);
  consensusState ← Tm_GetConsensusState kv st height;
  consensusState ← of_option ErrConsensusStateNotFound consensusState;
  Ok (merkleProof, consensusState).

Definition Tm_VerifyMembership (ctx : Context) (st : Store) (cs : TmClientState) (height : Height)
    (delayTimePeriod delayBlockPeriod : Z) (proof : bytes) (path : MerklePath) (value : bytes) : SM () :=
  sm_reads (λ kv,
    '(merkleProof, consensusState) ←
      verification_args ctx kv st cs height delayTimePeriod delayBlockPeriod proof;
    MerkleProof_VerifyMembership merkleProof (tm_ProofSpecs cs) (tm_Root consensusState) path value).

Definition Tm_VerifyNonMembership (ctx : Context) (st : Store) (cs : TmClientState) (height : Height)
    (delayTimePeriod delayBlockPeriod : Z) (proof : bytes) (path : MerklePath) : SM () :=
  sm_reads (λ kv,
    '(merkleProof, consensusState) ←
      verification_args ctx kv st cs height delayTimePeriod delayBlockPeriod proof;
    MerkleProof_VerifyNonMembership merkleProof (tm_ProofSpecs cs) (tm_Root consensusState) path).

(** ** update.go *)

Definition checkTrustedHeader (header : TmHeader) (consState : TmConsensusState) : Outcome () :=
  tmTrustedValidators ← of_option errUnregistered (ValidatorSetFromProto (h_TrustedValidators header));
  let tvalHash := ValidatorSet_Hash tmTrustedValidators in
  check (bool_decide (tm_NextValidatorsHash consState = tvalHash)) Tm_ErrInvalidValidatorSet.

Definition verifyHeader (ctx : Context) (kv : KVStore) (st : Store) (cs : TmClientState)
    (header : TmHeader) : Outcome () :=
  let currentTimestamp := BlockTime ctx in
  consState ← Tm_GetConsensusState kv st (h_TrustedHeight header);
  consState ← of_option ErrConsensusStateNotFound consState;
  checkTrustedHeader header consState;;
  height ← Header_GetHeight header;
  check (RevisionNumber height =? RevisionNumber (h_TrustedHeight header)) Tm_ErrInvalidHeaderHeight;;
  tmTrustedValidators ← of_option errUnregistered (ValidatorSetFromProto (h_TrustedValidators header));
  tmSignedHeader ← of_option errUnregistered (SignedHeaderFromProto (h_SignedHeader header));
  tmValidatorSet ← of_option errUnregistered (ValidatorSetFromProto (h_ValidatorSet header));
  check (negb (LTE height (h_TrustedHeight header))) ErrInvalidHeader;;
  let trustedHeader := mkTrustedHeader (tm_ChainId cs) (to_int64 (RevisionHeight (h_TrustedHeight header)))
                         (tm_Timestamp consState) (tm_NextValidatorsHash consState) in
  check (light_Verify trustedHeader tmTrustedValidators tmSignedHeader tmValidatorSet (tm_TrustingPeriod cs)
           currentTimestamp (tm_MaxClockDrift cs) (ToTendermint (tm_TrustLevel cs))) errUnregistered.

(** ** misbehaviour_handle.go *)

Definition checkMisbehaviourHeader (clientState : TmClientState) (consState : TmConsensusState)
    (header : TmHeader) (currentTimestamp : Z) : Outcome () :=
  tmTrustedValset ← of_option errUnregistered (ValidatorSetFromProto (h_TrustedValidators header));
  commit ← Header_Commit header;
  tmCommit ← of_option errUnregistered (CommitFromProto commit);
  checkTrustedHeader header consState;;
  check (time_Sub currentTimestamp (tm_Timestamp consState) <? tm_TrustingPeriod clientState)
    Tm_ErrTrustingPeriodExpired;;
  chainID ← (if IsRevisionFormat (tm_ChainId clientState) then
               height ← Header_GetHeight header;
               match SetRevisionNumber (tm_ChainId clientState) (RevisionNumber height) with
               | Ok chainID => Ok chainID
               | _ => Ok ""
               end
             else Ok (tm_ChainId clientState));
  check (VerifyCommitLightTrusting tmTrustedValset chainID tmCommit (ToTendermint (tm_TrustLevel clientState)))
    ErrInvalidMisbehaviour.

Definition verifyMisbehaviour (ctx : Context) (kv : KVStore) (st : Store) (cs : TmClientState)
    (misbehaviour : TmMisbehaviour) : Outcome () :=
  header1 ← deref (mb_Header1 misbehaviour);
  tmConsensusState1 ← Tm_GetConsensusState kv st (h_TrustedHeight header1);
  tmConsensusState1 ← of_option ErrConsensusStateNotFound tmConsensusState1;
  header2 ← deref (mb_Header2 misbehaviour);
  tmConsensusState2 ← Tm_GetConsensusState kv st (h_TrustedHeight header2);
  tmConsensusState2 ← of_option ErrConsensusStateNotFound tmConsensusState2;
  checkMisbehaviourHeader cs tmConsensusState1 header1 (BlockTime ctx);;
  checkMisbehaviourHeader cs tmConsensusState2 header2 (BlockTime ctx).

Definition Tm_VerifyClientMessage (ctx : Context) (st : Store) (cs : TmClientState)
    (clientMsg : option AnyClientMessage) : SM () :=
  sm_reads (λ kv,
    match clientMsg with
    | Some (AnyTmHeader msg) => verifyHeader ctx kv st cs msg
    | Some (AnyTmMisbehaviour msg) => verifyMisbehaviour ctx kv st cs msg
    | _ => Err ErrInvalidClientType
    end).

(** A conflicting header: another one is stored at its height, or its time is not
    between those of its neighbours. *)
Definition header_misbehaviour (kv : KVStore) (st : Store) (tmHeader : TmHeader) : Outcome bool :=
  consState ← Header_ConsensusState tmHeader;
  height ← Header_GetHeight tmHeader;
  existing ← Tm_GetConsensusState kv st height;
  match existing with
  | Some existingConsState => Ok (negb (bool_decide (existingConsState = consState)))
  | None =>
      let prevCons := GetPreviousConsensusState kv st height in
      let nextCons := GetNextConsensusState kv st height in
      Ok (match prevCons with
          | Some prevCons => negb (tm_Timestamp prevCons <? tm_Timestamp consState)
          | None => false
          end ||
          match nextCons with
          | Some nextCons => negb (tm_Timestamp consState <? tm_Timestamp nextCons)
          | None => false
          end)
  end.

(** Two headers: a fork when they are at one height, a violation of the monotonicity
    of time otherwise. *)
Definition submitted_misbehaviour (msg : TmMisbehaviour) : Outcome bool :=
  header1 ← deref (mb_Header1 msg);
  height1 ← Header_GetHeight header1;
  header2 ← deref (mb_Header2 msg);
  height2 ← Header_GetHeight header2;
  if EQ height1 height2 then
    id1 ← Header_BlockID header1;
    match BlockIDFromProto id1 with
    | None => Ok false
    | Some blockID1 =>
        id2 ← Header_BlockID header2;
        match BlockIDFromProto id2 with
        | None => Ok false
        | Some blockID2 => Ok (negb (bool_decide (BlockID_Hash blockID1 = BlockID_Hash blockID2)))
        end
    end
  else
    t1 ← Header_GetTime header1;
    t2 ← Header_GetTime header2;
    Ok (negb (t2 <? t1)).

Definition Tm_CheckForMisbehaviour (ctx : Context) (st : Store) (cs : TmClientState)
    (msg : option AnyClientMessage) : SM bool :=
  sm_reads (λ kv,
    match msg with
    | Some (AnyTmHeader msg) => header_misbehaviour kv st msg
    | Some (AnyTmMisbehaviour msg) => submitted_misbehaviour msg
    | _ => Ok false
    end).

(** ** update.go, continued *)

(** The earliest consensus state, when it is expired. *)
Definition prune_height (ctx : Context) (kv : KVStore) (st : Store) (cs : TmClientState) :
    Outcome (option Height) :=
  IterateConsensusStateAscending kv st (λ height pruneHeight,
    consState ← Tm_GetConsensusState kv st height;
    consState ← deref consState;
    Ok (if IsExpired cs (tm_Timestamp consState) (BlockTime ctx) then Some height else pruneHeight, true)) None.

Definition pruneOldestConsensusState (ctx : Context) (st : Store) (cs : TmClientState) : SM () :=
  pruneHeight ← sm_reads (λ kv, prune_height ctx kv st cs);
  match pruneHeight with
  | Some pruneHeight =>
      deleteConsensusState st pruneHeight;;
      deleteConsensusMetadata st pruneHeight
  | None => mret tt
  end.

Definition set_LatestHeight (h : Height) (cs : TmClientState) : TmClientState :=
  mkTmClientState (tm_ChainId cs) (tm_TrustLevel cs) (tm_TrustingPeriod cs) (tm_UnbondingPeriod cs)
    (tm_MaxClockDrift cs) (tm_FrozenHeight cs) h (tm_ProofSpecs cs) (tm_UpgradePath cs)
    (tm_AllowUpdateAfterExpiry cs) (tm_AllowUpdateAfterMisbehaviour cs).

Definition set_FrozenHeight (h : Height) (cs : TmClientState) : TmClientState :=
  mkTmClientState (tm_ChainId cs) (tm_TrustLevel cs) (tm_TrustingPeriod cs) (tm_UnbondingPeriod cs)
    (tm_MaxClockDrift cs) h (tm_LatestHeight cs) (tm_ProofSpecs cs) (tm_UpgradePath cs)
    (tm_AllowUpdateAfterExpiry cs) (tm_AllowUpdateAfterMisbehaviour cs).

Definition Tm_UpdateState (ctx : Context) (st : Store) (cs : TmClientState)
    (clientMsg : option AnyClientMessage) : SM (list Height) :=
  match clientMsg with
  | Some (AnyTmHeader header) =>
      pruneOldestConsensusState ctx st cs;;
      height ← sm_lift (Header_GetHeight header);
      found ← sm_reads (λ kv, Tm_GetConsensusState kv st height);
      match found with
      | Some _ => mret [height]
      | None =>
          let cs := if GT height (tm_LatestHeight cs) then set_LatestHeight height cs else cs in
          consensusState ← sm_lift (Header_ConsensusState header);
          setClientState st cs;;
          setConsensusState st consensusState height;;
          setConsensusMetadata ctx st height;;
          mret [height]
      end
  | _ => sm_lift Panic
  end.

Definition Tm_UpdateStateOnMisbehaviour (ctx : Context) (st : Store) (cs : TmClientState)
    (msg : option AnyClientMessage) : SM () :=
  setClientState st (set_FrozenHeight FrozenHeight cs).

(** ** upgrade.go *)

(** Both paths: the last key of the upgrade path is extended by the last height of
    the old chain and the name of what is stored there.  An empty path panics. *)
Definition construct_upgrade_path (name : string) (upgradePath : list string) (lastHeight : Height) :
    Outcome MerklePath :=
  match rev upgradePath with
  | [] => Panic
  | lastKey :: before =>
      let appendedKey := lastKey +:+ "/" +:+ FormatUint (RevisionHeight lastHeight) +:+ "/" +:+ name in
      Ok (NewMerklePath (rev before ++ [appendedKey]))
  end.
Definition constructUpgradeClientMerklePath : list string → Height → Outcome MerklePath :=
  construct_upgrade_path KeyUpgradedClient.
Definition constructUpgradeConsStateMerklePath : list string → Height → Outcome MerklePath :=
  construct_upgrade_path KeyUpgradedConsState.

(** Interface methods on the client handed in. *)
Definition Any_GetLatestHeight (cs : AnyClientState) : Height :=
  match cs with
  | AnyTendermint cs => tm_LatestHeight cs
  | AnySolomachine cs => NewHeight 0 (sm_Sequence cs)
  | AnyLocalhost cs => Localhost_GetLatestHeight cs
  end.

Definition Tm_VerifyUpgradeAndUpdateState (ctx : Context) (st : Store) (cs : TmClientState)
    (upgradedClient : AnyClientState) (upgradedConsState : AnyConsensusState)
    (proofUpgradeClient proofUpgradeConsState : bytes) : SM () :=
  sm_require (negb (bool_decide (tm_UpgradePath cs = []))) ErrInvalidUpgradeClient;;
  let lastHeight := tm_LatestHeight cs in
  sm_require (GT (Any_GetLatestHeight upgradedClient) lastHeight) ErrInvalidHeightIbc;;
  tmUpgradeClient ← sm_lift (match upgradedClient with AnyTendermint c => Ok c | _ => Err ErrInvalidClientType end);
  tmUpgradeConsState ← sm_lift (match upgradedConsState with AnyTmConsensus c => Ok c | _ => Err ErrInvalidConsensus end);
  merkleProofClient ← sm_lift (of_option ErrInvalidProof (Unmarshal proofUpgradeClient));
  merkleProofConsState ← sm_lift (of_option ErrInvalidProof (Unmarshal proofUpgradeConsState));
  consState ← sm_reads (λ kv, Tm_GetConsensusState kv st lastHeight);
  consState ← sm_lift (of_option ErrConsensusStateNotFound consState);
  let bz := Marshal (AnyTendermint (Tm_ZeroCustomFields tmUpgradeClient)) in
  upgradeClientPath ← sm_lift (constructUpgradeClientMerklePath (tm_UpgradePath cs) lastHeight);
  sm_lift (MerkleProof_VerifyMembership merkleProofClient (tm_ProofSpecs cs) (tm_Root consState)
             upgradeClientPath bz);;
  let bz := Marshal upgradedConsState in
  upgradeConsStatePath ← sm_lift (constructUpgradeConsStateMerklePath (tm_UpgradePath cs) lastHeight);
  sm_lift (MerkleProof_VerifyMembership merkleProofConsState (tm_ProofSpecs cs) (tm_Root consState)
             upgradeConsStatePath bz);;
  let newClientState := Tm_NewClientState (tm_ChainId tmUpgradeClient) (tm_TrustLevel cs)
    (tm_TrustingPeriod cs) (tm_UnbondingPeriod tmUpgradeClient) (tm_MaxClockDrift cs)
    (tm_LatestHeight tmUpgradeClient) (tm_ProofSpecs tmUpgradeClient) (tm_UpgradePath tmUpgradeClient) in
  sm_lift (Tm_Validate newClientState);;
  let newConsState := NewConsensusState (tm_Timestamp tmUpgradeConsState) (NewMerkleRoot SentinelRoot)
    (tm_NextValidatorsHash tmUpgradeConsState) in
  setClientState st newClientState;;
  setConsensusState st newConsState (tm_LatestHeight newClientState);;
  setConsensusMetadata ctx st (tm_LatestHeight tmUpgradeClient).

(** ** proposal_handle.go *)

Definition zero_matching (cs : TmClientState) : TmClientState :=
  mkTmClientState "" (tm_TrustLevel cs) 0 (tm_UnbondingPeriod cs) (tm_MaxClockDrift cs) ZeroHeight ZeroHeight
    (tm_ProofSpecs cs) (tm_UpgradePath cs) true true.

Definition IsMatchingClientState (subject substitute : TmClientState) : bool :=
  bool_decide (zero_matching subject = zero_matching substitute).

Definition Tm_CheckSubstituteAndUpdateState (ctx : Context) (subjectClientStore substituteClientStore : Store)
    (cs : TmClientState) (substituteClient : AnyClientState) : SM () :=
  substituteClientState ← sm_lift (match substituteClient with
                                   | AnyTendermint c => Ok c
                                   | _ => Err ErrInvalidClient
                                   end);
  sm_require (IsMatchingClientState cs substituteClientState) ErrInvalidSubstitute;;
  status ← sm_reads (λ kv, Tm_Status ctx kv subjectClientStore cs);
  let cs := if bool_decide (status = Frozen) then set_FrozenHeight ZeroHeight cs else cs in
  let height := tm_LatestHeight substituteClientState in
  consensusState ← sm_reads (λ kv, Tm_GetConsensusState kv substituteClientStore height);
  consensusState ← sm_lift (of_option ErrConsensusStateNotFound consensusState);
  setConsensusState subjectClientStore consensusState height;;
  processedHeight ← sm_reads (λ kv,
    of_option ErrUpdateClientFailed (GetProcessedHeight kv substituteClientStore height));
  processedTime ← sm_reads (λ kv,
    of_option ErrUpdateClientFailed (GetProcessedTime kv substituteClientStore height));
  setConsensusMetadataWithValues subjectClientStore height processedHeight processedTime;;
  let cs := mkTmClientState (tm_ChainId substituteClientState) (tm_TrustLevel cs)
    (tm_TrustingPeriod substituteClientState) (tm_UnbondingPeriod cs) (tm_MaxClockDrift cs)
    (tm_FrozenHeight cs) (tm_LatestHeight substituteClientState) (tm_ProofSpecs cs) (tm_UpgradePath cs)
    (tm_AllowUpdateAfterExpiry cs) (tm_AllowUpdateAfterMisbehaviour cs) in
  setClientState subjectClientStore cs.

(** ** genesis.go *)

Definition Tm_ExportMetadata (kv : KVStore) (st : Store) (cs : TmClientState) : list GenesisMetadata :=
  IterateConsensusMetadata kv st (λ key val gm, (gm ++ [mkMetadata key val], false)) [].

End tendermint.
