(* ===== verification/TmStoreProofs.v ===== *)
(** * 07-tendermint: the store of a client, proofs

    The keys under which consensus states are iterated sort by height and read back
    as it; so, in a store the client wrote, the neighbours the client finds are the
    ones with the next lower and the next higher height. *)

From stdpp Require Import gmap strings list sorting.
From Stdlib Require Import ZArith Lia Ascii.
From S2P Require Import Prelude GoStd Host Chain Sums Height Commitment LightClient Client Localhost ClientTypes TmStore.

(** ** Big-endian numbers sort as numbers *)

Lemma ascii_compare_byte_of a b :
  0 <= a < 256 → 0 <= b < 256 → Ascii.compare (byte_of a) (byte_of b) = (a ?= b).
Proof.
  intros Ha Hb. unfold Ascii.compare, byte_of. rewrite !Z.mod_small by done.
  rewrite !Ascii.N_ascii_embedding by lia. by rewrite <- Z2N.inj_compare by lia.
Qed.

Lemma be_bytes_compare n v w :
  String.compare (string_of_bytes (be_bytes n v)) (string_of_bytes (be_bytes n w)) =
  (v mod 256 ^ Z.of_nat n ?= w mod 256 ^ Z.of_nat n).
Proof.
  induction n as [|n IH]; [by rewrite !Z.mod_1_r|].
  cbn [be_bytes string_of_bytes String.compare].
  rewrite ascii_compare_byte_of by (apply Z.mod_pos_bound; lia). rewrite IH.
  assert (∀ u, u mod 256 ^ Z.of_nat (S n) =
    Z.shiftr u (8 * Z.of_nat n) mod 256 * 256 ^ Z.of_nat n + u mod 256 ^ Z.of_nat n) as Hs.
  { intros u. rewrite Z.shiftr_div_pow2 by lia. rewrite Z.pow_mul_r by lia. change (2 ^ 8) with 256.
    rewrite Nat2Z.inj_succ, Z.pow_succ_r by lia. rewrite (Z.mul_comm 256), Z.rem_mul_r by lia. lia. }
  rewrite !Hs. set (p := 256 ^ Z.of_nat n) in *. assert (0 < p) by (unfold p; lia).
  pose proof (Z.mod_pos_bound v p ltac:(lia)). pose proof (Z.mod_pos_bound w p ltac:(lia)).
  set (a := Z.shiftr v _ mod 256). set (b := Z.shiftr w _ mod 256).
  destruct (Z.compare_spec a b) as [->|Hlt|Hgt].
  - destruct (Z.compare_spec (v mod p) (w mod p)); symmetry;
      [apply Z.compare_eq_iff|apply Z.compare_lt_iff|apply Z.compare_gt_iff]; lia.
  - symmetry. apply Z.compare_lt_iff. nia.
  - symmetry. apply Z.compare_gt_iff. nia.
Qed.

Lemma be_put64_compare n m :
  is_u64 n → is_u64 m → String.compare (be_put64 n) (be_put64 m) = (n ?= m).
Proof.
  intros Hn Hm. unfold be_put64. rewrite be_bytes_compare. unfold is_u64 in *.
  rewrite !Z.mod_small by (simpl; lia). done.
Qed.

Lemma string_compare_app a b c d :
  String.length a = String.length c →
  String.compare (a +:+ b) (c +:+ d) = match String.compare a c with Eq => String.compare b d | o => o end.
Proof.
  revert c. induction a as [|x a IH]; intros [|y c] Hl; try done.
  simpl in *. destruct (Ascii.compare x y); [|done|done]. apply IH. lia.
Qed.

Lemma bigEndianHeightBytes_compare h k :
  height_ok h → height_ok k →
  String.compare (bigEndianHeightBytes h) (bigEndianHeightBytes k) =
  match RevisionNumber h ?= RevisionNumber k with Eq => RevisionHeight h ?= RevisionHeight k | o => o end.
Proof.
  intros [] []. unfold bigEndianHeightBytes. rewrite string_compare_app by (by rewrite !be_put64_length).
  by rewrite !be_put64_compare.
Qed.

Lemma bytes_ltb h k :
  height_ok h → height_ok k →
  String.ltb (bigEndianHeightBytes h) (bigEndianHeightBytes k) = true ↔ height_lt h k.
Proof.
  intros Hh Hk. unfold String.ltb, height_lt. rewrite bigEndianHeightBytes_compare by done.
  destruct (Z.compare_spec (RevisionNumber h) (RevisionNumber k)) as [->| |];
    [destruct (Z.compare_spec (RevisionHeight h) (RevisionHeight k))| |]; split; try done; lia.
Qed.

Lemma bytes_leb h k :
  height_ok h → height_ok k →
  String.leb (bigEndianHeightBytes h) (bigEndianHeightBytes k) = true ↔ ¬ height_lt k h.
Proof.
  intros Hh Hk. unfold String.leb, height_lt. rewrite bigEndianHeightBytes_compare by done.
  destruct (Z.compare_spec (RevisionNumber h) (RevisionNumber k)) as [->| |];
    [destruct (Z.compare_spec (RevisionHeight h) (RevisionHeight k))| |]; split; try done; lia.
Qed.

Lemma be_get64_app n s : is_u64 n → be_get64 (be_put64 n +:+ s) = n.
Proof.
  intros Hn. rewrite <- (be_get64_put64 n Hn) at 2. unfold be_get64.
  assert (be_put64 n ≠ "") as Hne by (intros E; pose proof (be_put64_length n) as H; by rewrite E in H).
  assert (take 8 (bytes_of_string (be_put64 n +:+ s)) = take 8 (bytes_of_string (be_put64 n))) as E by done.
  destruct (be_put64 n) as [|c b]; [done|]. by rewrite <- E.
Qed.

(** The height is read back from its key. *)
Lemma GetHeightFromIterationKey_IterationKey h :
  height_ok h → GetHeightFromIterationKey (IterationKey h) = Ok h.
Proof.
  destruct h as [n m]. intros [Hn Hm]. unfold GetHeightFromIterationKey, IterationKey, bigEndianHeightBytes.
  rewrite str_drop_app. rewrite bool_decide_eq_false_2 by (rewrite string_length_app, !be_put64_length; lia).
  simpl RevisionNumber. simpl RevisionHeight.
  assert (str_drop 8 (be_put64 n +:+ be_put64 m) = be_put64 m) as ->
    by (rewrite <- (be_put64_length n); apply str_drop_app).
  by rewrite be_get64_app, be_get64_put64 by done.
Qed.

Lemma bigEndianHeightBytes_inj h k :
  height_ok h → height_ok k → bigEndianHeightBytes h = bigEndianHeightBytes k → h = k.
Proof.
  intros Hh%GetHeightFromIterationKey_IterationKey Hk%GetHeightFromIterationKey_IterationKey E.
  unfold IterationKey in *. rewrite E in Hh. congruence.
Qed.

(** ** The keys of a client store *)

Inductive TmKey :=
| KClient
| KCons (h : Height)
| KTime (h : Height)
| KHeight (h : Height)
| KIter (k : bytes).

#[export] Instance TmKey_eq_dec : EqDecision TmKey.
Proof. solve_decision. Defined.

Definition key_of (a : TmKey) : string :=
  match a with
  | KClient => ClientStateKey
  | KCons h => ConsensusStateKey h
  | KTime h => ProcessedTimeKey h
  | KHeight h => ProcessedHeightKey h
  | KIter k => KeyIterateConsensusStatePrefix +:+ k
  end.

Definition key_height_ok (a : TmKey) : Prop :=
  match a with KCons h | KTime h | KHeight h => height_ok h | _ => True end.

Definition tkey (st : Store) (a : TmKey) : string := prefixed st (key_of a).

Lemma Height_String_free h : str_free "/"%char (Height_String h) = true.
Proof.
  pose proof (FormatUint_free "/"%char (RevisionNumber h) eq_refl) as Hn.
  pose proof (FormatUint_free "/"%char (RevisionHeight h) eq_refl) as Hm.
  unfold Height_String, str_free in *. rewrite !str_forall_app, Hn, Hm. done.
Qed.

Lemma Height_String_inj h k : height_ok h → height_ok k → Height_String h = Height_String k → h = k.
Proof.
  intros Hh%ParseHeight_String Hk%ParseHeight_String E. rewrite E in Hh. congruence.
Qed.

(** The parts of a key of a consensus state. *)
Definition key_parts (a : TmKey) : list string :=
  match a with
  | KCons h => [KeyConsensusStatePrefix; Height_String h]
  | KTime h => [KeyConsensusStatePrefix; Height_String h; "processedTime"]
  | KHeight h => [KeyConsensusStatePrefix; Height_String h; "processedHeight"]
  | _ => []
  end.

Lemma key_of_split a :
  match a with KClient | KIter _ => True | _ => Split (key_of a) "/" = key_parts a end.
Proof.
  destruct a as [|h|h|h|k]; try done; simpl; unfold ProcessedTimeKey, ProcessedHeightKey, ConsensusStateKey, ConsensusStatePath;
    rewrite ?string_app_assoc.
  - etrans; [by apply (Split_app "/" KeyConsensusStatePrefix (Height_String h))|].
    by rewrite Split_one by apply Height_String_free.
  - etrans; [by apply (Split_app "/" KeyConsensusStatePrefix (Height_String h +:+ KeyProcessedTime))|]. f_equal.
    by apply (Split_app "/" (Height_String h) "processedTime"), Height_String_free.
  - etrans; [by apply (Split_app "/" KeyConsensusStatePrefix (Height_String h +:+ KeyProcessedHeight))|]. f_equal.
    by apply (Split_app "/" (Height_String h) "processedHeight"), Height_String_free.
Qed.

Lemma key_of_inj a b : key_height_ok a → key_height_ok b → key_of a = key_of b → a = b.
Proof.
  intros Ha Hb E. pose proof (key_of_split a) as Sa. pose proof (key_of_split b) as Sb. rewrite E in Sa.
  destruct a as [|h|h|h|k], b as [|h'|h'|h'|k']; try done; try (by cbv in E).
  all: try (rewrite Sa in Sb; unfold key_parts in Sb; simplify_eq; f_equal; by apply Height_String_inj).
  f_equal. unfold key_of in E. by simplify_eq.
Qed.

Lemma tkey_inj st a b : key_height_ok a → key_height_ok b → tkey st a = tkey st b → a = b.
Proof. intros ?? E. apply key_of_inj; [done|done|]. unfold tkey, prefixed in E. by simplify_eq. Qed.

Lemma lookup_tkey_insert st a b v (kv : KVStore) :
  key_height_ok a → key_height_ok b →
  <[tkey st a := v]> kv !! tkey st b = if decide (a = b) then Some v else kv !! tkey st b.
Proof.
  intros Ha Hb. destruct (decide (a = b)) as [->|Hne]; [apply lookup_insert_eq|].
  apply lookup_insert_ne. intros E%tkey_inj; done.
Qed.

Lemma lookup_tkey_delete st a b (kv : KVStore) :
  key_height_ok a → key_height_ok b →
  delete (tkey st a) kv !! tkey st b = if decide (a = b) then None else kv !! tkey st b.
Proof.
  intros Ha Hb. destruct (decide (a = b)) as [->|Hne]; [apply lookup_delete_eq|].
  apply lookup_delete_ne. intros E%tkey_inj; done.
Qed.

(** ** Iteration in the order of heights *)

(** [prefix.NewStore] gives keys without the prefix. *)
Lemma HasPrefix_split p s : HasPrefix s p = true → ∃ k, s = p +:+ k.
Proof.
  revert s. induction p as [|c p IH]; intros s; [by exists s|].
  destruct s as [|d s]; [done|]. unfold HasPrefix. simpl. destruct (ascii_dec c d) as [->|]; [|done].
  intros [k ->]%IH. by exists k.
Qed.

Lemma key_le_prefixed p a b v w : key_le (p +:+ a, v) (p +:+ b, w) ↔ String.leb a b = true.
Proof.
  unfold key_le, String.leb. simpl. rewrite string_compare_app by done.
  by rewrite string_compare_refl.
Qed.

#[export] Instance key_le_total : Total key_le.
Proof. intros [a v] [b w]. apply String.leb_total. Qed.

Lemma string_leb_trans a b c : String.leb a b = true → String.leb b c = true → String.leb a c = true.
Proof.
  revert b c. induction a as [|x a IH]; intros [|y b] [|z c]; try done.
  specialize (IH b c). unfold String.leb, Ascii.compare in *. cbn [String.compare]. unfold Ascii.compare.
  destruct (N.compare_spec (N_of_ascii x) (N_of_ascii y)) as [E1|E1|E1]; [|intros _|done].
  - rewrite E1. destruct (N.compare_spec (N_of_ascii y) (N_of_ascii z)); [apply IH|done|done].
  - destruct (N.compare_spec (N_of_ascii y) (N_of_ascii z)) as [E2|E2|E2]; [|intros _|done].
    + rewrite <- E2. by apply N.compare_lt_iff in E1 as ->.
    + assert (N_of_ascii x < N_of_ascii z)%N as ->%N.compare_lt_iff by lia. done.
Qed.

#[export] Instance key_le_trans : Transitive key_le.
Proof. intros [a u] [b v] [c w]. apply string_leb_trans. Qed.

Lemma KVStorePrefixIterator_sorted kv p : StronglySorted key_le (KVStorePrefixIterator kv p).
Proof. apply (StronglySorted_merge_sort key_le). Qed.

Lemma height_lt_irrefl h : ¬ height_lt h h.
Proof. unfold height_lt. lia. Qed.
Lemma height_lt_trans h k l : height_lt h k → height_lt k l → height_lt h l.
Proof. unfold height_lt. lia. Qed.
Lemma height_lt_cases h k : height_lt h k ∨ h = k ∨ height_lt k h.
Proof. destruct h as [n m], k as [n' m']. unfold height_lt. simpl. assert (n = n' ∧ m = m' ∨ (n ≠ n' ∨ m ≠ m')) as [[-> ->]|] by lia; [auto|lia]. Qed.

Section wf.
Context `{BigEndian} {I23 : Ics23} {CT : CometTypes} {SK : SoloKeys}.
Context {PCS : Proto AnyClientState} {PCons : Proto AnyConsensusState}.

Definition cons_at (kv : KVStore) (st : Store) (h : Height) : option TmConsensusState :=
  getTmConsensusState kv st (ConsensusStateKey h).

(** A store as the client writes it: every iteration key stands for a consensus state
    and every consensus state has its iteration key. *)
Record tm_wf (kv : KVStore) (st : Store) : Prop := {
  wf_iter k v : kv !! tkey st (KIter k) = Some v →
    ∃ h, height_ok h ∧ k = bigEndianHeightBytes h ∧ v = ConsensusStateKey h ∧ is_Some (cons_at kv st h);
  wf_cons h : height_ok h → is_Some (kv !! tkey st (KCons h)) →
    is_Some (cons_at kv st h) ∧ kv !! tkey st (KIter (bigEndianHeightBytes h)) = Some (ConsensusStateKey h)
}.

Lemma cons_at_stored kv st h : is_Some (cons_at kv st h) → is_Some (kv !! tkey st (KCons h)).
Proof.
  unfold cons_at, getTmConsensusState, tkey. simpl.
  destruct (kv !! prefixed st (ConsensusStateKey h)); [by eauto|by intros []].
Qed.

(** In such a store reading a consensus state does not panic. *)
Lemma wf_GetConsensusState kv st h :
  tm_wf kv st → height_ok h → Tm_GetConsensusState kv st h = Ok (cons_at kv st h).
Proof.
  intros Hwf Hh. pose proof (wf_cons kv st Hwf h Hh) as Hc. unfold tkey, key_of in Hc.
  unfold Tm_GetConsensusState, cons_at, getTmConsensusState in *.
  destruct (kv !! prefixed st (ConsensusStateKey h)) as [bz|]; [|done].
  destruct Hc as [[c Hc] _]; [by eauto|]. destruct (non_empty _) as [bz'|]; [|done].
  by destruct (Unmarshal bz') as [[]|].
Qed.

Definition iter_entry (st : Store) (h : Height) : string * bytes :=
  (tkey st (KIter (bigEndianHeightBytes h)), ConsensusStateKey h).

Lemma tkey_iter st k : tkey st (KIter k) = prefixed st KeyIterateConsensusStatePrefix +:+ k.
Proof. unfold tkey, prefixed. simpl. by rewrite string_app_assoc. Qed.

Lemma key_le_iter st h k :
  height_ok h → height_ok k → key_le (iter_entry st h) (iter_entry st k) ↔ ¬ height_lt k h.
Proof. intros ??. unfold iter_entry. rewrite !tkey_iter, key_le_prefixed. by apply bytes_leb. Qed.

Lemma iter_entry_sorted st hs :
  Forall height_ok hs → StronglySorted key_le (iter_entry st <$> hs) → NoDup (iter_entry st <$> hs) →
  StronglySorted height_lt hs.
Proof.
  induction hs as [|h hs IH]; [constructor|].
  intros [Hh Hhs]%Forall_cons. rewrite fmap_cons.
  intros [Hs Hle]%StronglySorted_inv [Hn Hd]%NoDup_cons. constructor; [by apply IH|].
  apply Forall_forall. intros k Hk.
  rewrite Forall_fmap, Forall_forall in Hle. rewrite Forall_forall in Hhs.
  specialize (Hle k Hk). simpl in Hle. apply key_le_iter in Hle; [|done|by apply Hhs].
  destruct (height_lt_cases h k) as [?|[->|?]]; [done| |done].
  destruct Hn. by apply list_elem_of_fmap_2.
Qed.

(** The iteration visits the heights of the stored consensus states in order. *)
Lemma iteration_heights kv st :
  tm_wf kv st →
  ∃ hs, KVStorePrefixIterator kv (prefixed st KeyIterateConsensusStatePrefix) = iter_entry st <$> hs ∧
    Forall height_ok hs ∧ StronglySorted height_lt hs ∧
    ∀ h, height_ok h → (h ∈ hs ↔ is_Some (cons_at kv st h)).
Proof.
  intros Hwf. set (l := KVStorePrefixIterator kv _).
  assert (∀ x, x ∈ l → ∃ h, height_ok h ∧ is_Some (cons_at kv st h) ∧ x = iter_entry st h) as Hl.
  { intros [key v] [Hk [k ->]%HasPrefix_split]%KVStorePrefixIterator_elem.
    rewrite <- tkey_iter in Hk. destruct (wf_iter kv st Hwf k v Hk) as (h & Hh & -> & -> & Hc).
    exists h. split_and!; [done|done|]. unfold iter_entry. by rewrite tkey_iter. }
  assert (∃ hs, l = iter_entry st <$> hs ∧ Forall (λ h, height_ok h ∧ is_Some (cons_at kv st h)) hs)
    as (hs & Hhs & Hok).
  { clearbody l. induction l as [|x l IH]; [by exists []|].
    destruct (Hl x) as (h & ? & ? & ->); [by left|].
    destruct IH as (hs & -> & ?); [by intros y Hy; apply Hl; right|]. exists (h :: hs). split; [done|by constructor]. }
  assert (Forall height_ok hs) as Hok1 by (eapply Forall_impl; [exact Hok|naive_solver]).
  exists hs. split_and!; [done|done| |].
  - apply (iter_entry_sorted st); [done| |]; rewrite <- Hhs.
    + apply KVStorePrefixIterator_sorted.
    + apply KVStorePrefixIterator_NoDup.
  - intros h Hh. split.
    + rewrite Forall_forall in Hok. intros Hin. by apply Hok.
    + intros Hc. destruct (wf_cons kv st Hwf h Hh (cons_at_stored _ _ _ Hc)) as [_ Hi].
      assert (iter_entry st h ∈ l) as Hin.
      { apply KVStorePrefixIterator_elem. split; [done|]. rewrite tkey_iter. apply prefix_app. }
      rewrite Hhs in Hin. apply list_elem_of_fmap in Hin as (k & Hk & Hin).
      assert (h = k) as ->; [|done]. unfold iter_entry in Hk. injection Hk as Hk _.
      rewrite Forall_forall in Hok1. specialize (Hok1 k Hin).
      apply tkey_inj in Hk; [|done|done]. apply bigEndianHeightBytes_inj; [done|done|congruence].
Qed.

(** ** Neighbours *)

Lemma filter_fmap {A B} (f : A → B) (P : B → Prop) `{∀ x, Decision (P x)} (l : list A) :
  filter P (f <$> l) = f <$> filter (λ a, P (f a)) l.
Proof. induction l as [|a l IH]; [done|]. rewrite fmap_cons, !filter_cons. case_decide; [|done]. by rewrite IH. Qed.

Lemma filter_sorted {A} (R : relation A) (P : A → Prop) `{∀ x, Decision (P x)} (l : list A) :
  StronglySorted R l → StronglySorted R (filter P l).
Proof.
  induction 1 as [|a l Hs IH Ha]; [constructor|]. rewrite filter_cons. case_decide; [|done].
  constructor; [done|]. rewrite Forall_forall in *. intros b [_ Hb]%list_elem_of_filter. by apply Ha.
Qed.

Lemma view_iterate_store kv st hs :
  KVStorePrefixIterator kv (prefixed st KeyIterateConsensusStatePrefix) = iter_entry st <$> hs →
  view_iterator kv (iterate_store st) "" = (λ h, (bigEndianHeightBytes h, ConsensusStateKey h)) <$> hs.
Proof.
  intros Hl. unfold view_iterator, iterate_store. unfold prefixed at 2. rewrite string_app_nil_r, Hl.
  rewrite <- list_fmap_compose. apply list_fmap_ext. intros _ h _. simpl. rewrite tkey_iter.
  by rewrite str_drop_app.
Qed.

(** The consensus state found at the height before is the closest one below. *)
Lemma GetPreviousConsensusState_spec kv st h :
  tm_wf kv st → height_ok h →
  match GetPreviousConsensusState kv st h with
  | None => ∀ k, height_ok k → is_Some (cons_at kv st k) → ¬ height_lt k h
  | Some c => ∃ p, height_ok p ∧ cons_at kv st p = Some c ∧ height_lt p h ∧
      ∀ k, height_ok k → is_Some (cons_at kv st k) → height_lt k h → k = p ∨ height_lt k p
  end.
Proof.
  intros Hwf Hh. destruct (iteration_heights kv st Hwf) as (hs & Hl & Hok & Hs & Hin).
  unfold GetPreviousConsensusState, reverse_iterator_to. rewrite (view_iterate_store kv st hs Hl), filter_fmap. simpl.
  set (P := λ k, String.ltb (bigEndianHeightBytes k) (bigEndianHeightBytes h) = true).
  assert (∀ k, k ∈ filter P hs ↔ k ∈ hs ∧ height_lt k h) as HP.
  { intros k. rewrite list_elem_of_filter. unfold P. rewrite Forall_forall in Hok.
    split; intros [H1 H2]; (split; [|]); try done; apply bytes_ltb; auto. }
  pose proof (filter_sorted height_lt P hs Hs) as Hs'.
  assert (∀ k, height_ok k → is_Some (cons_at kv st k) → height_lt k h → k ∈ filter P hs) as Hall
    by (intros k ? ?%Hin ?; [by apply HP|done]).
  destruct (filter P hs) as [|p l _] eqn:Hf using rev_ind.
  - simpl. intros k ?? Hlt. by apply not_elem_of_nil with k, Hall.
  - rewrite fmap_app, fmap_cons, fmap_nil, reverse_snoc. cbn [fmap list_fmap].
    destruct (proj1 (HP p)) as [Hp Hlt]; [set_solver|].
    rewrite Forall_forall in Hok. pose proof (Hok p Hp) as Hokp. pose proof (proj1 (Hin p Hokp) Hp) as [c Hc].
    change (getTmConsensusState kv st (ConsensusStateKey p)) with (cons_at kv st p). rewrite Hc.
    exists p. split_and!; try done. intros k Hk Hck Hkh. specialize (Hall k Hk Hck Hkh).
    apply elem_of_app in Hall as [Hk'|?%list_elem_of_singleton]; [right|by left].
    eapply StronglySorted_app_1_elem_of; [exact Hs'|done|set_solver].
Qed.

(** The consensus state found at the height after is the closest one above. *)
Lemma GetNextConsensusState_spec kv st h :
  tm_wf kv st → height_ok h →
  match GetNextConsensusState kv st h with
  | None => ∀ k, height_ok k → is_Some (cons_at kv st k) → ¬ height_lt h k
  | Some c => ∃ n, height_ok n ∧ cons_at kv st n = Some c ∧ height_lt h n ∧
      ∀ k, height_ok k → is_Some (cons_at kv st k) → height_lt h k → k = n ∨ height_lt n k
  end.
Proof.
  intros Hwf Hh. destruct (iteration_heights kv st Hwf) as (hs & Hl & Hok & Hs & Hin).
  unfold GetNextConsensusState, iterator_from. rewrite (view_iterate_store kv st hs Hl), filter_fmap. simpl.
  set (P := λ k, String.leb (bigEndianHeightBytes h) (bigEndianHeightBytes k) = true).
  rewrite Forall_forall in Hok.
  assert (∀ k, k ∈ filter P hs ↔ k ∈ hs ∧ ¬ height_lt k h) as HP.
  { intros k. rewrite list_elem_of_filter. unfold P.
    split; intros [H1 H2]; (split; [|]); try done; apply bytes_leb; auto. }
  pose proof (filter_sorted height_lt P hs Hs) as Hs'.
  assert (∀ k, height_ok k → is_Some (cons_at kv st k) → height_lt h k → k ∈ filter P hs) as Hall.
  { intros k ? ?%Hin ?; [|done]. apply HP. split; [done|]. intros ?. by eapply height_lt_irrefl, height_lt_trans. }
  (* the head of a suffix that has everything above *)
  assert (∀ l n, StronglySorted height_lt (n :: l) → n ∈ filter P hs → height_lt h n →
    (∀ k, height_ok k → is_Some (cons_at kv st k) → height_lt h k → k ∈ n :: l) →
    match cons_at kv st n with
    | None => False
    | Some c => ∃ n, height_ok n ∧ cons_at kv st n = Some c ∧ height_lt h n ∧
        ∀ k, height_ok k → is_Some (cons_at kv st k) → height_lt h k → k = n ∨ height_lt n k
    end) as Hhead.
  { intros l n [Hsl Hn]%StronglySorted_inv [Hn' _]%HP Hlt Hk. pose proof (proj1 (Hin n (Hok n Hn')) Hn') as [c Hc].
    rewrite Hc. exists n. split_and!; try done; [by apply Hok|]. intros k H1 H2 H3. rewrite Forall_forall in Hn.
    destruct (proj1 (elem_of_cons _ _ _) (Hk k H1 H2 H3)); [by left|right; by apply Hn]. }
  destruct (filter P hs) as [|n l] eqn:Hf.
  - simpl. intros k ?? Hlt. by apply not_elem_of_nil with k, Hall.
  - cbn [fmap list_fmap]. destruct (proj1 (HP n)) as [Hn Hnlt]; [set_solver|].
    case_bool_decide as Hv.
    + assert (n = h) as ->.
      { unfold ConsensusStateKey, ConsensusStatePath in Hv. simplify_eq. apply Height_String_inj; auto. }
      destruct l as [|n l]; cbn [fmap list_fmap].
      * intros k ?? Hlt. assert (k = h) as -> by (apply list_elem_of_singleton; auto). by eapply height_lt_irrefl.
      * pose proof (StronglySorted_inv Hs') as [Hsl Hnl]. apply Forall_cons in Hnl as [Hnl _].
        specialize (Hhead l n Hsl ltac:(set_solver) Hnl). fold (cons_at kv st n).
        assert (∀ k, height_ok k → is_Some (cons_at kv st k) → height_lt h k → k ∈ n :: l) as Hk.
        { intros k H1 H2 H3. specialize (Hall k H1 H2 H3).
          apply elem_of_cons in Hall as [->|]; [by destruct (height_lt_irrefl h)|done]. }
        specialize (Hhead Hk). by destruct (cons_at kv st n).
    + fold (cons_at kv st n). assert (height_lt h n) as Hlt.
      { destruct (height_lt_cases n h) as [?|[->|?]]; done. }
      specialize (Hhead l n Hs' ltac:(set_solver) Hlt Hall). by destruct (cons_at kv st n).
Qed.

End wf.
