(* ===== verification/Solomachine.v ===== *)
(** * The 06-solomachine light client

    Models src/modules/light-clients/06-solomachine: a client of a machine that is
    known by its public key.  A proof is a signature by the key over the path and
    the value at the client's current sequence; every signature that is accepted
    moves the sequence.  Keys and signatures are the SDK's and are parameters. *)

From stdpp Require Import gmap strings list.
From Stdlib Require Import ZArith Lia Ascii.
From S2P Require Import Prelude GoStd Host Chain Height Commitment LightClient Merkle Client Localhost ClientTypes.

(** ** errors.go *)

Definition Sm_ModuleName : string := "06-solomachine".
Definition Sm_ErrInvalidHeader : error := mkError Sm_ModuleName 2.
Definition Sm_ErrInvalidSignatureAndData : error := mkError Sm_ModuleName 4.
Definition Sm_ErrSignatureVerificationFailed : error := mkError Sm_ModuleName 5.
Definition Sm_ErrInvalidProof : error := mkError Sm_ModuleName 6.

(** [signing.SignatureData]: a single signature or those of a multisignature. *)
Inductive SignatureData `{SoloKeys} :=
| SingleSignatureData (Signature : bytes)
| MultiSignature (data : MultiSignatureData).

(** The SDK's keys and signatures.  [VerifyMultisignature] is given the bytes that its
    callback returns for every sign mode; [SignatureDataFromProto] panics on a
    descriptor without data. *)
Class SoloCrypto `{SoloKeys} := {
  is_multisig : PubKey → bool;
  PubKey_VerifySignature : PubKey → bytes → bytes → bool;
  PubKey_VerifyMultisignature : PubKey → bytes → MultiSignatureData → bool;
  SignatureDescriptorData : Type;
  Unmarshal_SignatureDescriptorData : bytes → option SignatureDescriptorData;
  SignatureDataFromProto : SignatureDescriptorData → Outcome SignatureData
}.

Section solomachine.
Context {I23 : Ics23} {CT : CometTypes} {SK : SoloKeys} {SC : SoloCrypto}.
Context `{!Proto AnyClientState}.
Context `{!Proto TimestampedSignatureData, !Proto SignBytes, !Proto HeaderData, !Proto MerklePath}.

(** ** codec.go, proof.go *)

Definition UnmarshalSignatureData (data : bytes) : Outcome SignatureData :=
  protoSigData ← of_option errUnregistered (Unmarshal_SignatureDescriptorData data);
  SignatureDataFromProto protoSigData.

Definition VerifySignature (pubKey : PubKey) (signBytes : bytes) (sigData : SignatureData) : Outcome () :=
  if is_multisig pubKey then
    match sigData with
    | MultiSignature data => check (PubKey_VerifyMultisignature pubKey signBytes data) errUnregistered
    | _ => Err Sm_ErrSignatureVerificationFailed
    end
  else
    match sigData with
    | SingleSignatureData signature =>
        check (PubKey_VerifySignature pubKey signBytes signature) Sm_ErrSignatureVerificationFailed
    | _ => Err Sm_ErrSignatureVerificationFailed
    end.

(** ** consensus_state.go, header.go, misbehaviour.go *)

(** The key in an [Any]: an error when it is nil or was not unpacked. *)
Definition any_pubkey (e : error) (any : option AnyPubKey) : Outcome PubKey :=
  any ← of_option e any;
  of_option e (any_Cached any).

Definition Sm_GetPubKey (cs : SmConsensusState) : Outcome PubKey :=
  any_pubkey ErrInvalidConsensus (sm_PublicKey cs).

Definition SmConsensusState_ValidateBasic (cs : SmConsensusState) : Outcome () :=
  check (negb (sm_Timestamp cs =? 0)) ErrInvalidConsensus;;
  check (bool_decide (sm_Diversifier cs = "") || negb (is_blank (sm_Diversifier cs))) ErrInvalidConsensus;;
  match Sm_GetPubKey cs with
  | Ok publicKey => check (negb (bool_decide (PubKey_Bytes publicKey = ""))) ErrInvalidConsensus
  | Err _ => Err ErrInvalidConsensus
  | Panic => Panic
  end.

Definition SentinelHeaderPath : string := "solomachine:header".

Definition SmHeader_GetPubKey (h : SmHeader) : Outcome PubKey :=
  any_pubkey Sm_ErrInvalidHeader (smh_NewPublicKey h).

Definition SmHeader_ValidateBasic (h : SmHeader) : Outcome () :=
  check (negb (smh_Timestamp h =? 0)) ErrInvalidHeader;;
  check (bool_decide (smh_NewDiversifier h = "") || negb (is_blank (smh_NewDiversifier h))) ErrInvalidHeader;;
  check (negb (bool_decide (smh_Signature h = ""))) ErrInvalidHeader;;
  match SmHeader_GetPubKey h with
  | Ok newPublicKey => check (negb (bool_decide (PubKey_Bytes newPublicKey = ""))) ErrInvalidHeader
  | Err _ => Err ErrInvalidHeader
  | Panic => Panic
  end.

Definition SignatureAndData_ValidateBasic (sd : SignatureAndData) : Outcome () :=
  check (negb (bool_decide (sd_Signature sd = ""))) Sm_ErrInvalidSignatureAndData;;
  check (negb (bool_decide (sd_Data sd = ""))) Sm_ErrInvalidSignatureAndData;;
  check (negb (bool_decide (sd_Path sd = ""))) Sm_ErrInvalidSignatureAndData;;
  check (negb (sd_Timestamp sd =? 0)) Sm_ErrInvalidSignatureAndData.

Definition SmMisbehaviour_ValidateBasic (misbehaviour : SmMisbehaviour) : Outcome () :=
  check (negb (smm_Sequence misbehaviour =? 0)) ErrInvalidMisbehaviour;;
  one ← deref (smm_SignatureOne misbehaviour);
  SignatureAndData_ValidateBasic one;;
  two ← deref (smm_SignatureTwo misbehaviour);
  SignatureAndData_ValidateBasic two;;
  check (negb (bool_decide (sd_Signature one = sd_Signature two))) ErrInvalidMisbehaviour;;
  check (negb (bool_decide (sd_Path one = sd_Path two) && bool_decide (sd_Data one = sd_Data two)))
    ErrInvalidMisbehaviour.

(** ** client_state.go *)

Definition Sm_NewClientState (latestSequence : Z) (consensusState : option SmConsensusState) : SmClientState :=
  mkSmClientState latestSequence false consensusState.

Definition Sm_GetLatestHeight (cs : SmClientState) : Height := NewHeight 0 (sm_Sequence cs).

Definition Sm_GetTimestampAtHeight (ctx : Context) (kv : KVStore) (st : Store) (cs : SmClientState)
    (height : Height) : Outcome Z :=
  consensusState ← deref (sm_ConsensusState cs);
  Ok (sm_Timestamp consensusState).

Definition Sm_Status (ctx : Context) (kv : KVStore) (st : Store) (cs : SmClientState) : Outcome ClientStatus :=
  Ok (if sm_IsFrozen cs then Frozen else Active).

Definition Sm_Validate (cs : SmClientState) : Outcome () :=
  check (negb (sm_Sequence cs =? 0)) ErrInvalidClient;;
  consensusState ← of_option ErrInvalidConsensus (sm_ConsensusState cs);
  SmConsensusState_ValidateBasic consensusState.

Definition Sm_ZeroCustomFields (cs : SmClientState) : Outcome SmClientState := Panic.

Definition Sm_setClientState (st : Store) (clientState : SmClientState) : SM () :=
  sm_set st ClientStateKey (Marshal (AnySolomachine clientState)).

(** A nil consensus state and a nil pointer to one are different values of the
    interface, so a client without a consensus state is never equal. *)
Definition Sm_Initialize (ctx : Context) (st : Store) (cs : SmClientState)
    (consState : option AnyConsensusState) : SM () :=
  match consState, sm_ConsensusState cs with
  | Some (AnySmConsensus consState), Some own =>
      sm_require (bool_decide (own = consState)) ErrInvalidConsensus;;
      Sm_setClientState st cs
  | _, _ => sm_lift (Err ErrInvalidConsensus)
  end.

Definition Sm_ExportMetadata (kv : KVStore) (st : Store) (cs : SmClientState) : list GenesisMetadata := [].

Definition Sm_VerifyUpgradeAndUpdateState (ctx : Context) (st : Store) (cs : SmClientState)
    (upgradedClient : AnyClientState) (upgradedConsState : AnyConsensusState) (p1 p2 : bytes) : SM () :=
  sm_lift (Err ErrInvalidUpgradeClient).

(** The key, the signature, its timestamp and the sequence it must be for.  A nil and
    an empty proof are not told apart here: the second fails on its empty signature. *)
Definition produceVerificationArgs (cs : SmClientState) (proof : bytes) :
    Outcome (PubKey * SignatureData * Z * Z) :=
  check (negb (bool_decide (proof = ""))) Sm_ErrInvalidProof;;
  timestampedSigData ← of_option errUnregistered (Unmarshal proof);
  let timestamp := tsd_Timestamp timestampedSigData in
  check (negb (bool_decide (tsd_SignatureData timestampedSigData = ""))) Sm_ErrInvalidProof;;
  sigData ← UnmarshalSignatureData (tsd_SignatureData timestampedSigData);
  consensusState ← deref (sm_ConsensusState cs);
  check (negb (timestamp <? sm_Timestamp consensusState)) Sm_ErrInvalidProof;;
  let sequence := RevisionHeight (Sm_GetLatestHeight cs) in
  publicKey ← Sm_GetPubKey consensusState;
  Ok (publicKey, sigData, timestamp, sequence).

(** The client after a signature was accepted. *)
Definition advance (cs : SmClientState) (consensusState : SmConsensusState) (timestamp : Z) : SmClientState :=
  mkSmClientState (u64 (sm_Sequence cs + 1)) (sm_IsFrozen cs)
    (Some (mkSmConsensusState (sm_PublicKey consensusState) (sm_Diversifier consensusState) timestamp)).

(** The shared end of both verifications: the signature over path and data, and the
    move of the sequence. *)
Definition verify_signed (st : Store) (cs : SmClientState) (proof : bytes) (check_path : Outcome ())
    (path : MerklePath) (data : bytes) : SM () :=
  '(publicKey, sigData, timestamp, sequence) ← sm_lift (produceVerificationArgs cs proof);
  sm_lift check_path;;
  consensusState ← sm_lift (deref (sm_ConsensusState cs));
  let signBytes := mkSignBytes sequence timestamp (sm_Diversifier consensusState) (MerklePath_String path) data in
  let signBz := Marshal signBytes in
  sm_lift (VerifySignature publicKey signBz sigData);;
  Sm_setClientState st (advance cs consensusState timestamp).

Definition Sm_VerifyMembership (ctx : Context) (st : Store) (cs : SmClientState) (height : Height)
    (delayTimePeriod delayBlockPeriod : Z) (proof : bytes) (path : MerklePath) (value : bytes) : SM () :=
  verify_signed st cs proof (check (negb (MerklePath_Empty path)) ErrInvalidProof) path value.

Definition Sm_VerifyNonMembership (ctx : Context) (st : Store) (cs : SmClientState) (height : Height)
    (delayTimePeriod delayBlockPeriod : Z) (proof : bytes) (path : MerklePath) : SM () :=
  verify_signed st cs proof (Ok tt) path "".

(** ** update.go *)

Definition Sm_verifyHeader (cs : SmClientState) (header : SmHeader) : Outcome () :=
  consensusState ← deref (sm_ConsensusState cs);
  check (negb (smh_Timestamp header <? sm_Timestamp consensusState)) ErrInvalidHeader;;
  let headerData := mkHeaderData (smh_NewPublicKey header) (smh_NewDiversifier header) in
  let dataBz := Marshal headerData in
  let signBytes := mkSignBytes (sm_Sequence cs) (smh_Timestamp header) (sm_Diversifier consensusState)
                     SentinelHeaderPath dataBz in
  let data := Marshal signBytes in
  sigData ← UnmarshalSignatureData (smh_Signature header);
  publicKey ← Sm_GetPubKey consensusState;
  match VerifySignature publicKey data sigData with Err _ => Err Sm_ErrInvalidHeader | o => o end.

(** ** misbehaviour_handle.go *)

Definition verifySignatureAndData (cs : SmClientState) (misbehaviour : SmMisbehaviour)
    (sigAndData : option SignatureAndData) : Outcome () :=
  sigAndData ← deref sigAndData;
  _ ← of_option errUnregistered (Unmarshal (A:=MerklePath) (sd_Path sigAndData));
  consensusState ← deref (sm_ConsensusState cs);
  let signBytes := mkSignBytes (smm_Sequence misbehaviour) (sd_Timestamp sigAndData)
                     (sm_Diversifier consensusState) (sd_Path sigAndData) (sd_Data sigAndData) in
  let data := Marshal signBytes in
  sigData ← UnmarshalSignatureData (sd_Signature sigAndData);
  publicKey ← Sm_GetPubKey consensusState;
  VerifySignature publicKey data sigData.

Definition Sm_verifyMisbehaviour (cs : SmClientState) (misbehaviour : SmMisbehaviour) : Outcome () :=
  verifySignatureAndData cs misbehaviour (smm_SignatureOne misbehaviour);;
  verifySignatureAndData cs misbehaviour (smm_SignatureTwo misbehaviour).

Definition Sm_VerifyClientMessage (ctx : Context) (st : Store) (cs : SmClientState)
    (clientMsg : option AnyClientMessage) : SM () :=
  sm_lift match clientMsg with
          | Some (AnySmHeader msg) => Sm_verifyHeader cs msg
          | Some (AnySmMisbehaviour msg) => Sm_verifyMisbehaviour cs msg
          | _ => Err ErrInvalidClientType
          end.

Definition Sm_CheckForMisbehaviour (ctx : Context) (st : Store) (cs : SmClientState)
    (clientMsg : option AnyClientMessage) : SM bool :=
  sm_lift (Ok match clientMsg with Some (AnySmMisbehaviour _) => true | _ => false end).

(** ** update.go, continued *)

Definition Sm_UpdateState (ctx : Context) (st : Store) (cs : SmClientState)
    (clientMsg : option AnyClientMessage) : SM (list Height) :=
  match clientMsg with
  | Some (AnySmHeader smHeader) =>
      let consensusState := mkSmConsensusState (smh_NewPublicKey smHeader) (smh_NewDiversifier smHeader)
                              (smh_Timestamp smHeader) in
      let cs := mkSmClientState (u64 (sm_Sequence cs + 1)) (sm_IsFrozen cs) (Some consensusState) in
      Sm_setClientState st cs;;
      mret [NewHeight 0 (sm_Sequence cs)]
  | _ => sm_lift Panic
  end.

Definition Sm_UpdateStateOnMisbehaviour (ctx : Context) (st : Store) (cs : SmClientState)
    (msg : option AnyClientMessage) : SM () :=
  Sm_setClientState st (mkSmClientState (sm_Sequence cs) true (sm_ConsensusState cs)).

(** ** proposal_handle.go *)

Definition Sm_CheckSubstituteAndUpdateState (ctx : Context) (subjectClientStore substituteClientStore : Store)
    (cs : SmClientState) (substituteClient : AnyClientState) : SM () :=
  substituteClientState ← sm_lift (match substituteClient with
                                   | AnySolomachine c => Ok c
                                   | _ => Err ErrInvalidClientType
                                   end);
  subjectPublicKey ← sm_lift (consensusState ← deref (sm_ConsensusState cs); Sm_GetPubKey consensusState);
  substitutePublicKey ← sm_lift (consensusState ← deref (sm_ConsensusState substituteClientState);
                                 Sm_GetPubKey consensusState);
  sm_require (negb (bool_decide (subjectPublicKey = substitutePublicKey))) ErrInvalidHeader;;
  Sm_setClientState subjectClientStore
    (mkSmClientState (sm_Sequence substituteClientState) false (sm_ConsensusState substituteClientState)).

End solomachine.
