(* ===== verification/Clients.v ===== *)
(** * The light clients of a chain

    The interfaces of src/modules/core/exported/client.go at the three client types of
    this repository: each method is the one of the dynamic type.  This is an
    instance of [LightClient], of which the laws the keepers rely on are proved, so
    every theorem on the keepers holds of a chain with Tendermint, solo-machine and
    localhost clients. *)

From stdpp Require Import gmap strings list.
From Stdlib Require Import ZArith Lia Ascii.
From S2P Require Import Prelude GoStd Host Chain Height Commitment LightClient Merkle Client Localhost ClientTypes TmStore Tendermint Solomachine.

(** What the clients are built on. *)
Class ClientEnv := {
  ce_be :: BigEndian;
  ce_ics23 :: Ics23;
  ce_proofs :: Ics23Proofs;
  ce_trust :: TrustLevels;
  ce_upgrade :: UpgradeKeys;
  ce_comet_types :: CometTypes;
  ce_comet :: CometBFT;
  ce_keys :: SoloKeys;
  ce_crypto :: SoloCrypto;
  ce_cs :: Proto AnyClientState;
  ce_cons :: Proto AnyConsensusState;
  ce_proof :: Proto MerkleProof;
  ce_sigdata :: Proto TimestampedSignatureData;
  ce_signbytes :: Proto SignBytes;
  ce_headerdata :: Proto HeaderData;
  ce_path :: Proto MerklePath
}.

Section clients.
Context {CE : ClientEnv}.

(** The localhost client stores its state as an interface value too. *)
Definition localhost_proto : Proto LocalhostClientState := {|
  Marshal cs := Marshal (AnyLocalhost cs);
  Unmarshal bz := match Unmarshal bz with Some (AnyLocalhost cs) => Some cs | _ => None end |}.
#[local] Existing Instance localhost_proto.

Definition Any_ClientType (cs : AnyClientState) : string :=
  match cs with AnyTendermint _ => Tendermint | AnySolomachine _ => Solomachine | AnyLocalhost _ => Localhost end.

Definition Any_Status (ctx : Context) (kv : KVStore) (st : Store) (cs : AnyClientState) : Outcome ClientStatus :=
  match cs with
  | AnyTendermint cs => Tm_Status ctx kv st cs
  | AnySolomachine cs => Sm_Status ctx kv st cs
  | AnyLocalhost cs => Localhost_Status ctx kv st cs
  end.

Definition Any_ExportMetadata (kv : KVStore) (st : Store) (cs : AnyClientState) : list GenesisMetadata :=
  match cs with
  | AnyTendermint cs => Tm_ExportMetadata kv st cs
  | AnySolomachine cs => Sm_ExportMetadata kv st cs
  | AnyLocalhost cs => Localhost_ExportMetadata kv st cs
  end.

Definition Any_ZeroCustomFields (cs : AnyClientState) : Outcome AnyClientState :=
  match cs with
  | AnyTendermint cs => Ok (AnyTendermint (Tm_ZeroCustomFields cs))
  | AnySolomachine cs => cs ← Sm_ZeroCustomFields cs; Ok (AnySolomachine cs)
  | AnyLocalhost cs => cs ← Localhost_ZeroCustomFields cs; Ok (AnyLocalhost cs)
  end.

Definition Any_GetTimestampAtHeight (ctx : Context) (kv : KVStore) (st : Store) (cs : AnyClientState)
    (h : Height) : Outcome Z :=
  match cs with
  | AnyTendermint cs => Tm_GetTimestampAtHeight ctx kv st cs h
  | AnySolomachine cs => Sm_GetTimestampAtHeight ctx kv st cs h
  | AnyLocalhost cs => Localhost_GetTimestampAtHeight ctx kv st cs h
  end.

Definition Any_Initialize (ctx : Context) (st : Store) (cs : AnyClientState)
    (consState : option AnyConsensusState) : SM () :=
  match cs with
  | AnyTendermint cs => Tm_Initialize ctx st cs consState
  | AnySolomachine cs => Sm_Initialize ctx st cs consState
  | AnyLocalhost cs => Localhost_Initialize ctx st cs consState
  end.

Definition Any_VerifyMembership (ctx : Context) (st : Store) (cs : AnyClientState) (h : Height) (dt db : Z)
    (proof : bytes) (path : MerklePath) (value : bytes) : SM () :=
  match cs with
  | AnyTendermint cs => Tm_VerifyMembership ctx st cs h dt db proof path value
  | AnySolomachine cs => Sm_VerifyMembership ctx st cs h dt db proof path value
  | AnyLocalhost cs => Localhost_VerifyMembership ctx st cs h dt db proof path value
  end.

Definition Any_VerifyNonMembership (ctx : Context) (st : Store) (cs : AnyClientState) (h : Height) (dt db : Z)
    (proof : bytes) (path : MerklePath) : SM () :=
  match cs with
  | AnyTendermint cs => Tm_VerifyNonMembership ctx st cs h dt db proof path
  | AnySolomachine cs => Sm_VerifyNonMembership ctx st cs h dt db proof path
  | AnyLocalhost cs => Localhost_VerifyNonMembership ctx st cs h dt db proof path
  end.

Definition Any_VerifyClientMessage (ctx : Context) (st : Store) (cs : AnyClientState)
    (msg : option AnyClientMessage) : SM () :=
  match cs with
  | AnyTendermint cs => Tm_VerifyClientMessage ctx st cs msg
  | AnySolomachine cs => Sm_VerifyClientMessage ctx st cs msg
  | AnyLocalhost cs => Localhost_VerifyClientMessage ctx st cs msg
  end.

Definition Any_CheckForMisbehaviour (ctx : Context) (st : Store) (cs : AnyClientState)
    (msg : option AnyClientMessage) : SM bool :=
  match cs with
  | AnyTendermint cs => Tm_CheckForMisbehaviour ctx st cs msg
  | AnySolomachine cs => Sm_CheckForMisbehaviour ctx st cs msg
  | AnyLocalhost cs => Localhost_CheckForMisbehaviour ctx st cs msg
  end.

Definition Any_UpdateStateOnMisbehaviour (ctx : Context) (st : Store) (cs : AnyClientState)
    (msg : option AnyClientMessage) : SM () :=
  match cs with
  | AnyTendermint cs => Tm_UpdateStateOnMisbehaviour ctx st cs msg
  | AnySolomachine cs => Sm_UpdateStateOnMisbehaviour ctx st cs msg
  | AnyLocalhost cs => Localhost_UpdateStateOnMisbehaviour ctx st cs msg
  end.

Definition Any_UpdateState (ctx : Context) (st : Store) (cs : AnyClientState)
    (msg : option AnyClientMessage) : SM (list Height) :=
  match cs with
  | AnyTendermint cs => Tm_UpdateState ctx st cs msg
  | AnySolomachine cs => Sm_UpdateState ctx st cs msg
  | AnyLocalhost cs => Localhost_UpdateState ctx st cs msg
  end.

Definition Any_CheckSubstituteAndUpdateState (ctx : Context) (subject substitute : Store)
    (cs substituteClient : AnyClientState) : SM () :=
  match cs with
  | AnyTendermint cs => Tm_CheckSubstituteAndUpdateState ctx subject substitute cs substituteClient
  | AnySolomachine cs => Sm_CheckSubstituteAndUpdateState ctx subject substitute cs substituteClient
  | AnyLocalhost cs => Localhost_CheckSubstituteAndUpdateState ctx subject substitute cs substituteClient
  end.

Definition Any_VerifyUpgradeAndUpdateState (ctx : Context) (st : Store) (cs newClient : AnyClientState)
    (newConsState : AnyConsensusState) (p1 p2 : bytes) : SM () :=
  match cs with
  | AnyTendermint cs => Tm_VerifyUpgradeAndUpdateState ctx st cs newClient newConsState p1 p2
  | AnySolomachine cs => Sm_VerifyUpgradeAndUpdateState ctx st cs newClient newConsState p1 p2
  | AnyLocalhost cs => Localhost_VerifyUpgradeAndUpdateState ctx st cs newClient newConsState p1 p2
  end.

(** The stateless checks. *)
Definition Any_Validate (cs : AnyClientState) : Outcome () :=
  match cs with
  | AnyTendermint cs => Tm_Validate cs
  | AnySolomachine cs => Sm_Validate cs
  | AnyLocalhost cs => Localhost_Validate cs
  end.

Definition AnyConsensus_ClientType (c : AnyConsensusState) : string :=
  match c with AnyTmConsensus _ => Tendermint | AnySmConsensus _ => Solomachine end.

Definition AnyConsensus_ValidateBasic (c : AnyConsensusState) : Outcome () :=
  match c with
  | AnyTmConsensus c => TmConsensusState_ValidateBasic c
  | AnySmConsensus c => SmConsensusState_ValidateBasic c
  end.

Definition AnyMessage_ValidateBasic (msg : AnyClientMessage) : Outcome () :=
  match msg with
  | AnyTmHeader h => TmHeader_ValidateBasic h
  | AnyTmMisbehaviour m => TmMisbehaviour_ValidateBasic m
  | AnySmHeader h => SmHeader_ValidateBasic h
  | AnySmMisbehaviour m => SmMisbehaviour_ValidateBasic m
  end.

#[export] Instance any_client : LightClient := {|
  ClientState := AnyClientState;
  ConsensusState := AnyConsensusState;
  ClientMessage := AnyClientMessage;
  ClientType := Any_ClientType;
  GetLatestHeight := Any_GetLatestHeight;
  Status := Any_Status;
  ExportMetadata := Any_ExportMetadata;
  ZeroCustomFields := Any_ZeroCustomFields;
  GetTimestampAtHeight := Any_GetTimestampAtHeight;
  Initialize := Any_Initialize;
  VerifyMembership := Any_VerifyMembership;
  VerifyNonMembership := Any_VerifyNonMembership;
  VerifyClientMessage := Any_VerifyClientMessage;
  CheckForMisbehaviour := Any_CheckForMisbehaviour;
  UpdateStateOnMisbehaviour := Any_UpdateStateOnMisbehaviour;
  UpdateState := Any_UpdateState;
  CheckSubstituteAndUpdateState := Any_CheckSubstituteAndUpdateState;
  VerifyUpgradeAndUpdateState := Any_VerifyUpgradeAndUpdateState;
  mk_localhost h := AnyLocalhost (mkLocalhost h);
  mk_tm_consensus := AnyTmConsensus;
  as_tendermint cs := match cs with AnyTendermint cs => Some cs | _ => None end
|}.

#[export] Instance any_checks : ClientChecks := {|
  ClientState_Validate := Any_Validate;
  ConsensusState_ClientType := AnyConsensus_ClientType;
  ConsensusState_ValidateBasic := AnyConsensus_ValidateBasic;
  ClientMessage_ValidateBasic := AnyMessage_ValidateBasic
|}.

(** ** The laws *)

#[local] Hint Unfold setClientState setConsensusState deleteConsensusState SetProcessedTime SetProcessedHeight
  SetIterationKey deleteProcessedTime deleteProcessedHeight deleteIterationKey Sm_setClientState : framed.

Lemma setConsensusMetadataWithValues_framed st h ph t : framed st (setConsensusMetadataWithValues st h ph t).
Proof. unfold setConsensusMetadataWithValues; autounfold with framed; framed. Qed.
Lemma setConsensusMetadata_framed ctx st h : framed st (setConsensusMetadata ctx st h).
Proof. unfold setConsensusMetadata. apply framed_bind; [framed|intros; apply setConsensusMetadataWithValues_framed]. Qed.
Lemma deleteConsensusMetadata_framed st h : framed st (deleteConsensusMetadata st h).
Proof. unfold deleteConsensusMetadata; autounfold with framed; framed. Qed.
#[local] Hint Resolve setConsensusMetadataWithValues_framed setConsensusMetadata_framed
  deleteConsensusMetadata_framed : framed.

Lemma pruneOldestConsensusState_framed ctx st cs : framed st (pruneOldestConsensusState ctx st cs).
Proof. unfold pruneOldestConsensusState; autounfold with framed; framed. Qed.
#[local] Hint Resolve pruneOldestConsensusState_framed : framed.

Lemma localhost_framed {Msg} ctx st cs (msg : option Msg) : framed st (Localhost_UpdateState ctx st cs msg).
Proof. intros kv. apply localhost_update_frame. Qed.

#[local] Hint Resolve localhost_framed : framed.

Ltac framed_methods := autounfold with framed; framed.

Lemma verify_signed_framed st cs proof o path data : framed st (verify_signed st cs proof o path data).
Proof. unfold verify_signed; framed_methods. Qed.

Lemma Any_VerifyMembership_framed ctx st cs h dt db proof path v :
  framed st (Any_VerifyMembership ctx st cs h dt db proof path v).
Proof. destruct cs; [done|apply verify_signed_framed|done]. Qed.

Lemma Any_VerifyNonMembership_framed ctx st cs h dt db proof path :
  framed st (Any_VerifyNonMembership ctx st cs h dt db proof path).
Proof. destruct cs; [done|apply verify_signed_framed|done]. Qed.

Lemma Any_Initialize_framed ctx st cs cons : framed st (Any_Initialize ctx st cs cons).
Proof.
  destruct cs; simpl; [unfold Tm_Initialize; framed_methods|unfold Sm_Initialize; framed_methods|].
  intros kv. apply localhost_initialize_frame.
Qed.

Lemma Any_UpdateState_framed ctx st cs msg : framed st (Any_UpdateState ctx st cs msg).
Proof.
  destruct cs; simpl; [unfold Tm_UpdateState; framed_methods|unfold Sm_UpdateState; framed_methods|].
  apply localhost_framed.
Qed.

Lemma Any_UpdateStateOnMisbehaviour_framed ctx st cs msg : framed st (Any_UpdateStateOnMisbehaviour ctx st cs msg).
Proof.
  destruct cs; simpl; [unfold Tm_UpdateStateOnMisbehaviour|unfold Sm_UpdateStateOnMisbehaviour|done]; framed_methods.
Qed.

Lemma Any_VerifyUpgrade_framed ctx st cs cs' cons p1 p2 :
  framed st (Any_VerifyUpgradeAndUpdateState ctx st cs cs' cons p1 p2).
Proof. destruct cs; simpl; [unfold Tm_VerifyUpgradeAndUpdateState; framed_methods|done|done]. Qed.

Lemma Any_CheckSubstitute_framed ctx st st' cs cs' :
  framed st (Any_CheckSubstituteAndUpdateState ctx st st' cs cs').
Proof.
  destruct cs; simpl; [unfold Tm_CheckSubstituteAndUpdateState|unfold Sm_CheckSubstituteAndUpdateState|done];
    framed_methods.
Qed.

#[export] Instance any_client_laws : LightClientLaws.
Proof.
  split; intros; cbn.
  - apply Any_VerifyMembership_framed.
  - apply Any_VerifyNonMembership_framed.
  - by destruct cs.
  - by destruct cs.
  - apply Any_Initialize_framed.
  - apply Any_UpdateStateOnMisbehaviour_framed.
  - apply Any_UpdateState_framed.
  - by destruct cs.
  - by destruct cs.
  - apply Any_VerifyUpgrade_framed.
  - apply Any_CheckSubstitute_framed.
Qed.

End clients.
