(* ===== verification/TmProofs.v ===== *)
(** * The 07-tendermint light client, proofs

    What the operations of a Tendermint client do to its store, and the invariant of a
    client: it has a consensus state at its latest height and none above, every
    consensus state has its metadata, and, as long as it is only created and updated,
    the times of consensus states increase with their heights. *)

From stdpp Require Import gmap strings list sorting.
From Stdlib Require Import ZArith Lia Ascii.
From S2P Require Import Prelude GoStd Host Chain Height Commitment LightClient Merkle Client Localhost ClientTypes TmStore Tendermint TmStoreProofs Solomachine Clients.

(** Decoding inverts encoding; an interface value is never encoded as nothing (it has
    a type). *)
Class ClientEnvLaws `{ClientEnv} := {
  cel_be :: BigEndianLaws;
  cel_cs :: ProtoLaws AnyClientState;
  cel_cs_ne :: ProtoNonEmpty AnyClientState;
  cel_cons :: ProtoLaws AnyConsensusState;
  cel_cons_ne :: ProtoNonEmpty AnyConsensusState
}.

Section tendermint.
Context {CE : ClientEnv} {CL : ClientEnvLaws}.

(** ** Writing and deleting a consensus state *)

Definition with_consensus (st : Store) (cs : TmClientState) (c : TmConsensusState) (h ph : Height) (pt : Z)
    (kv : KVStore) : KVStore :=
  <[tkey st (KIter (bigEndianHeightBytes h)) := ConsensusStateKey h]>
  (<[tkey st (KHeight h) := Height_String ph]>
  (<[tkey st (KTime h) := Uint64ToBigEndian pt]>
  (<[tkey st (KCons h) := Marshal (AnyTmConsensus c)]>
  (<[tkey st KClient := Marshal (AnyTendermint cs)]> kv)))).

Definition without_consensus (st : Store) (h : Height) (kv : KVStore) : KVStore :=
  delete (tkey st (KIter (bigEndianHeightBytes h)))
  (delete (tkey st (KHeight h)) (delete (tkey st (KTime h)) (delete (tkey st (KCons h)) kv))).

Lemma write_consensus_ok ctx st cs c h u kv kv' :
  (setClientState st cs;; setConsensusState st c h;; setConsensusMetadata ctx st h) kv = (Ok u, kv') ↔
  ∃ self, GetSelfHeight ctx = Ok self ∧ kv' = with_consensus st cs c h self (ctx_time ctx) kv.
Proof.
  unfold setConsensusMetadata, setConsensusMetadataWithValues. destruct u.
  unfold mbind, SM_bind, setClientState, setConsensusState, SetProcessedTime, SetProcessedHeight, SetIterationKey,
    sm_set, sm_lift.
  destruct (GetSelfHeight ctx) as [self|e|]; split; try done; try (by intros (? & ? & ?)).
  - intros [= <-]. by exists self.
  - by intros (? & [= <-] & ->).
Qed.

Lemma delete_consensus_run st h kv :
  (deleteConsensusState st h;; deleteConsensusMetadata st h) kv = (Ok tt, without_consensus st h kv).
Proof. done. Qed.

(** Lookups by key. *)
Ltac tm_lookup :=
  unfold with_consensus, without_consensus;
  repeat (first [rewrite lookup_tkey_insert by done | rewrite lookup_tkey_delete by done];
          repeat (case_decide; [try congruence|]); try done).

Lemma cons_at_lookup kv kv' st h :
  kv' !! tkey st (KCons h) = kv !! tkey st (KCons h) → cons_at kv' st h = cons_at kv st h.
Proof. unfold cons_at, getTmConsensusState, tkey. simpl. by intros ->. Qed.

Lemma cons_at_marshal kv st h c :
  kv !! tkey st (KCons h) = Some (Marshal (AnyTmConsensus c)) → cons_at kv st h = Some c.
Proof.
  unfold cons_at, getTmConsensusState, tkey. simpl. intros ->. simpl.
  rewrite bool_decide_eq_false_2 by apply marshal_nonempty. by rewrite unmarshal_marshal.
Qed.

Lemma cons_at_with st cs c h ph pt kv k :
  height_ok h → height_ok k →
  cons_at (with_consensus st cs c h ph pt kv) st k = if decide (k = h) then Some c else cons_at kv st k.
Proof.
  intros Hh Hk. destruct (decide (k = h)) as [->|Hne].
  - apply cons_at_marshal. tm_lookup.
  - apply cons_at_lookup. tm_lookup.
Qed.

Lemma cons_at_without st h kv k :
  height_ok h → height_ok k →
  cons_at (without_consensus st h kv) st k = if decide (k = h) then None else cons_at kv st k.
Proof.
  intros Hh Hk. destruct (decide (k = h)) as [->|Hne].
  - unfold cons_at, getTmConsensusState. change (prefixed st (ConsensusStateKey h)) with (tkey st (KCons h)).
    assert (without_consensus st h kv !! tkey st (KCons h) = None) as -> by tm_lookup. done.
  - apply cons_at_lookup. tm_lookup.
Qed.

Lemma wf_with st cs c h ph pt kv :
  tm_wf kv st → height_ok h → tm_wf (with_consensus st cs c h ph pt kv) st.
Proof.
  intros Hwf Hh. split.
  - intros k v Hk. destruct (decide (k = bigEndianHeightBytes h)) as [->|Hne].
    + exists h. rewrite cons_at_with by done. rewrite decide_True by done. split_and!; try done.
      assert (with_consensus st cs c h ph pt kv !! tkey st (KIter (bigEndianHeightBytes h)) =
        Some (ConsensusStateKey h)) by tm_lookup. congruence.
    + assert (kv !! tkey st (KIter k) = Some v) as Hk' by (rewrite <- Hk; symmetry; tm_lookup).
      destruct (wf_iter kv st Hwf k v Hk') as (h' & ? & -> & -> & Hc). exists h'. split_and!; try done.
      rewrite cons_at_with by done. case_decide; eauto.
  - intros k Hk Hs. rewrite cons_at_with by done. destruct (decide (k = h)) as [->|Hne].
    + split; [eauto|tm_lookup].
    + assert (is_Some (kv !! tkey st (KCons k))) as Hs'.
      { destruct Hs as [v Hs]. exists v. rewrite <- Hs. symmetry. tm_lookup. }
      destruct (wf_cons kv st Hwf k Hk Hs') as [Hc Hi]. split; [done|]. rewrite <- Hi. tm_lookup.
      exfalso. apply Hne. symmetry. apply bigEndianHeightBytes_inj; congruence.
Qed.

Lemma wf_without st h kv : tm_wf kv st → height_ok h → tm_wf (without_consensus st h kv) st.
Proof.
  intros Hwf Hh. split.
  - intros k v Hk. assert (k ≠ bigEndianHeightBytes h) as Hne.
    { intros ->. assert (without_consensus st h kv !! tkey st (KIter (bigEndianHeightBytes h)) = None) by tm_lookup.
      congruence. }
    assert (kv !! tkey st (KIter k) = Some v) as Hk' by (rewrite <- Hk; symmetry; tm_lookup).
    destruct (wf_iter kv st Hwf k v Hk') as (h' & ? & -> & -> & Hc). exists h'. split_and!; try done.
    rewrite cons_at_without by done. case_decide; [congruence|done].
  - intros k Hk Hs. rewrite cons_at_without by done.
    assert (k ≠ h) as Hne.
    { intros ->. assert (without_consensus st h kv !! tkey st (KCons h) = None) as Hn by tm_lookup.
      rewrite Hn in Hs. by destruct Hs. }
    rewrite decide_False by done.
    assert (is_Some (kv !! tkey st (KCons k))) as Hs'.
    { destruct Hs as [v Hs]. exists v. rewrite <- Hs. symmetry. tm_lookup. }
    destruct (wf_cons kv st Hwf k Hk Hs') as [Hc Hi]. split; [done|]. rewrite <- Hi. tm_lookup.
    exfalso. apply Hne. symmetry. apply bigEndianHeightBytes_inj; congruence.
Qed.

(** ** The invariant *)

(** What processing left beside a consensus state. *)
Definition has_metadata (kv : KVStore) (st : Store) (h : Height) : Prop :=
  is_Some (GetProcessedTime kv st h) ∧ is_Some (GetProcessedHeight kv st h).

(** The order of the times is kept by creation and updates only: an upgrade or a
    recovery brings in a consensus state that is not compared with the others.  So it
    is part of the invariant under a condition [P]. *)
Record tm_inv_if (P : Prop) (kv : KVStore) (st : Store) (cs : TmClientState) : Prop := {
  inv_client : kv !! tkey st KClient = Some (Marshal (AnyTendermint cs));
  inv_wf : tm_wf kv st;
  inv_ok : height_ok (tm_LatestHeight cs);
  inv_latest : is_Some (cons_at kv st (tm_LatestHeight cs));
  inv_max h : height_ok h → is_Some (cons_at kv st h) → ¬ height_lt (tm_LatestHeight cs) h;
  inv_times h k c d : P → height_ok h → height_ok k → cons_at kv st h = Some c → cons_at kv st k = Some d →
    height_lt h k → tm_Timestamp c < tm_Timestamp d;
  inv_meta h : height_ok h → is_Some (cons_at kv st h) → has_metadata kv st h
}.
#[global] Arguments inv_client {_}.
#[global] Arguments inv_wf {_}.
#[global] Arguments inv_ok {_}.
#[global] Arguments inv_latest {_}.
#[global] Arguments inv_max {_}.
#[global] Arguments inv_times {_}.
#[global] Arguments inv_meta {_}.

Context {P : Prop}.

Lemma metadata_lookup kv kv' st h :
  kv' !! tkey st (KTime h) = kv !! tkey st (KTime h) →
  kv' !! tkey st (KHeight h) = kv !! tkey st (KHeight h) →
  has_metadata kv st h → has_metadata kv' st h.
Proof. unfold has_metadata, GetProcessedTime, GetProcessedHeight, tkey. simpl. by intros -> ->. Qed.

Lemma GetProcessedTime_with st cs c h ph pt kv :
  height_ok h → is_u64 pt → GetProcessedTime (with_consensus st cs c h ph pt kv) st h = Some pt.
Proof.
  intros Hh Hp. unfold GetProcessedTime. change (prefixed st (ProcessedTimeKey h)) with (tkey st (KTime h)).
  assert (with_consensus st cs c h ph pt kv !! tkey st (KTime h) = Some (Uint64ToBigEndian pt)) as -> by tm_lookup.
  simpl. rewrite bool_decide_eq_false_2; [simpl; by rewrite be_roundtrip|].
  intros E. pose proof (be_length pt Hp) as Hl. by rewrite E in Hl.
Qed.

Lemma GetProcessedHeight_with st cs c h ph pt kv :
  height_ok h → height_ok ph → GetProcessedHeight (with_consensus st cs c h ph pt kv) st h = Some ph.
Proof.
  intros Hh Hp. unfold GetProcessedHeight. change (prefixed st (ProcessedHeightKey h)) with (tkey st (KHeight h)).
  assert (with_consensus st cs c h ph pt kv !! tkey st (KHeight h) = Some (Height_String ph)) as -> by tm_lookup.
  simpl. rewrite bool_decide_eq_false_2; [by rewrite ParseHeight_String|].
  intros E. pose proof (ParseHeight_String ph Hp) as Hs. by rewrite E in Hs.
Qed.

Lemma ParseChainID_range s n : ParseChainID s = Ok n → is_u64 n.
Proof.
  unfold ParseChainID. case_match; [intros [= <-]; unfold is_u64; lia|].
  case_match eqn:E; [|done]. intros [= <-]. by eapply ParseUint_range.
Qed.

Lemma GetSelfHeight_ok ctx h : GetSelfHeight ctx = Ok h → height_ok h.
Proof.
  intros (n & Hn & [= <-])%obind_ok. split; [by eapply ParseChainID_range|apply u64_range].
Qed.

Lemma Header_GetHeight_ok hd h : Header_GetHeight hd = Ok h → height_ok h.
Proof.
  intros (p & _ & (n & Hn & [= <-])%obind_ok)%obind_ok. split; [by eapply ParseChainID_range|apply u64_range].
Qed.

Lemma of_option_ok {A} e (o : option A) x : of_option e o = Ok x → o = Some x.
Proof. destruct o; [by intros [= ->]|done]. Qed.

Lemma ParseHeight_range s h : ParseHeight s = Ok h → height_ok h.
Proof.
  unfold ParseHeight. destruct (Split _ _) as [|a [|b [|]]]; try done.
  intros (n & Hn%of_option_ok%ParseUint_range & (m & Hm%of_option_ok%ParseUint_range & [= <-])%obind_ok)%obind_ok. done.
Qed.

Lemma GetProcessedHeight_range kv st h ph : GetProcessedHeight kv st h = Some ph → height_ok ph.
Proof.
  unfold GetProcessedHeight. destruct (non_empty _) as [bz|]; [|done].
  destruct (ParseHeight bz) as [k| |] eqn:E; [|done|done]. intros [= <-]. by eapply ParseHeight_range.
Qed.

Lemma GetProcessedTime_range kv st h pt : GetProcessedTime kv st h = Some pt → is_u64 pt.
Proof. unfold GetProcessedTime. destruct (non_empty _) as [bz|]; [|done]. intros [= <-]. apply be_range. Qed.

Lemma metadata_with st cs c h ph pt kv k :
  height_ok h → height_ok ph → is_u64 pt → height_ok k → (k ≠ h → has_metadata kv st k) →
  has_metadata (with_consensus st cs c h ph pt kv) st k.
Proof.
  intros Hh Hp Hpt Hk Hm. destruct (decide (k = h)) as [->|Hne].
  - unfold has_metadata. rewrite GetProcessedTime_with, GetProcessedHeight_with by done. eauto.
  - apply (metadata_lookup kv); [tm_lookup|tm_lookup|by apply Hm].
Qed.

(** A new client. *)
Lemma initialize_inv ctx st cs c kv kv' :
  (∀ a, kv !! tkey st a = None) → height_ok (tm_LatestHeight cs) →
  Tm_Initialize ctx st cs (Some (AnyTmConsensus c)) kv = (Ok tt, kv') → tm_inv_if P kv' st cs.
Proof.
  intros Hnew Hok (self & Hself & ->)%write_consensus_ok.
  assert (∀ h, cons_at kv st h = None) as Hc.
  { intros h. destruct (cons_at kv st h) eqn:E; [|done].
    destruct (cons_at_stored kv st h) as [v Hv]; [by rewrite E|]. by rewrite Hnew in Hv. }
  assert (tm_wf kv st) as Hwf.
  { split; [intros k v Hk; by rewrite Hnew in Hk|]. intros h _ [v Hv]. by rewrite Hnew in Hv. }
  apply GetSelfHeight_ok in Hself as Hs. split.
  - tm_lookup.
  - by apply wf_with.
  - done.
  - rewrite cons_at_with, decide_True by done. eauto.
  - intros h Hh. rewrite cons_at_with by done. case_decide as E; [|rewrite Hc; by intros []].
    subst. intros _. apply height_lt_irrefl.
  - intros h k a b _ Hh Hk. rewrite !cons_at_with by done.
    repeat case_decide; subst; rewrite ?Hc; try done. intros _ _ []%height_lt_irrefl.
  - intros h Hh. rewrite cons_at_with by done. case_decide; [|rewrite Hc; by intros []]. intros _.
    apply metadata_with; [done|done|apply u64_range|done|done].
Qed.

(** ** Pruning *)

(** The consensus state [c] at height [h] is the earliest. *)
Record earliest (kv : KVStore) (st : Store) (h : Height) (c : TmConsensusState) : Prop := {
  ea_ok : height_ok h;
  ea_here : cons_at kv st h = Some c;
  ea_first k : height_ok k → is_Some (cons_at kv st k) → ¬ height_lt k h
}.

Lemma earliest_unique kv st h k c d : earliest kv st h c → earliest kv st k d → h = k ∧ c = d.
Proof.
  intros [Hh Hc Hl] [Hk Hd Hl']. destruct (height_lt_cases h k) as [Hlt|[->|Hlt]].
  - by destruct (Hl' h Hh ltac:(eauto)).
  - split; [done|congruence].
  - by destruct (Hl k Hk ltac:(eauto)).
Qed.

Lemma prune_height_spec ctx kv st cs :
  tm_wf kv st →
  ∃ o, prune_height ctx kv st cs = Ok o ∧
    match o with
    | None => ∀ h c, earliest kv st h c → IsExpired cs (tm_Timestamp c) (BlockTime ctx) = false
    | Some h => ∃ c, earliest kv st h c ∧ IsExpired cs (tm_Timestamp c) (BlockTime ctx) = true
    end.
Proof.
  intros Hwf. destruct (iteration_heights kv st Hwf) as (hs & Hl & Hok & Hs & Hin).
  unfold prune_height, IterateConsensusStateAscending, view_iterator. rewrite Hl, <- list_fmap_compose.
  destruct hs as [|h hs].
  { exists None. split; [done|]. intros h c [Hh Hc _]. by destruct (not_elem_of_nil h (proj2 (Hin h Hh) ltac:(eauto))). }
  rewrite fmap_cons. simpl.
  apply Forall_cons in Hok as [Hh Hok]. pose proof (proj1 (Hin h Hh) ltac:(set_solver)) as [c Hc].
  assert (str_drop (String.length st) (tkey st (KIter (bigEndianHeightBytes h))) = IterationKey h) as ->
    by apply str_drop_app.
  rewrite GetHeightFromIterationKey_IterationKey by done. simpl.
  rewrite wf_GetConsensusState, Hc by done. simpl. eexists. split; [reflexivity|].
  assert (earliest kv st h c) as Hfirst.
  { split; [done|done|]. intros k Hk Hck%Hin; [|done].
    apply StronglySorted_inv in Hs as [_ Hs]. rewrite Forall_forall in Hs. intros Hlt.
    apply elem_of_cons in Hck as [->|Hk']; [by eapply height_lt_irrefl|].
    by eapply height_lt_irrefl, height_lt_trans, Hs. }
  destruct (IsExpired cs (tm_Timestamp c) (BlockTime ctx)) eqn:He; [by exists c|].
  intros k d Hk. by destruct (earliest_unique _ _ _ _ _ _ Hfirst Hk) as [<- <-].
Qed.

(** The store after pruning: the earliest consensus state is gone exactly when it was
    expired, and nothing else has changed. *)
Definition pruned (ctx : Context) (st : Store) (cs : TmClientState) (kv kv1 : KVStore) : Prop :=
  kv1 = kv ∧ (∀ h c, earliest kv st h c → IsExpired cs (tm_Timestamp c) (BlockTime ctx) = false) ∨
  ∃ h c, earliest kv st h c ∧ IsExpired cs (tm_Timestamp c) (BlockTime ctx) = true ∧
    kv1 = without_consensus st h kv.

Lemma pruneOldestConsensusState_run ctx st cs kv :
  tm_wf kv st → ∃ kv1, pruneOldestConsensusState ctx st cs kv = (Ok tt, kv1) ∧ pruned ctx st cs kv kv1.
Proof.
  intros Hwf. destruct (prune_height_spec ctx kv st cs Hwf) as (o & Ho & Hs).
  unfold pruneOldestConsensusState. unfold mbind at 1, SM_bind at 1, sm_reads at 1. rewrite Ho.
  destruct o as [h|]; [|by exists kv; split; [|left]].
  destruct Hs as (c & Hf & He). rewrite delete_consensus_run. eexists. split; [done|].
  right. by exists h, c.
Qed.

Lemma pruned_wf ctx st cs kv kv1 : pruned ctx st cs kv kv1 → tm_wf kv st → tm_wf kv1 st.
Proof. intros [[-> _]|(h & c & [Hh _ _] & _ & ->)]; [done|]. intros. by apply wf_without. Qed.

Lemma pruned_cons_at ctx st cs kv kv1 h c :
  pruned ctx st cs kv kv1 → height_ok h → cons_at kv1 st h = Some c → cons_at kv st h = Some c.
Proof.
  intros [[-> _]|(k & d & [Hk _ _] & _ & ->)] Hh; [done|]. rewrite cons_at_without by done. by case_decide.
Qed.

(** What an active client prunes is not its latest consensus state. *)
Lemma active_latest ctx st cs kv c :
  tm_inv_if P kv st cs → Tm_Status ctx kv st cs = Ok Active → cons_at kv st (tm_LatestHeight cs) = Some c →
  IsExpired cs (tm_Timestamp c) (BlockTime ctx) = false.
Proof.
  intros HI Hs Hc. unfold Tm_Status in Hs. case_match; [done|].
  rewrite wf_GetConsensusState in Hs by apply HI. rewrite Hc in Hs. simpl in Hs.
  by destruct (IsExpired _ _ _).
Qed.

Lemma pruned_inv ctx st cs kv kv1 :
  tm_inv_if P kv st cs → Tm_Status ctx kv st cs = Ok Active → pruned ctx st cs kv kv1 → tm_inv_if P kv1 st cs.
Proof.
  intros HI Ha Hp. pose proof (pruned_wf _ _ _ _ _ Hp (inv_wf _ _ _ HI)) as Hwf.
  pose proof (λ h c, pruned_cons_at ctx st cs kv kv1 h c Hp) as Hsub.
  destruct Hp as [[-> _]|(h & c & [Hh Hc Hl] & He & ->)]; [done|].
  pose proof (inv_ok _ _ _ HI) as Hok. destruct (inv_latest _ _ _ HI) as [cl Hcl].
  assert (tm_LatestHeight cs ≠ h) as Hne.
  { intros E. rewrite E in *. pose proof (active_latest ctx st cs kv c HI Ha) as Hf. rewrite E in Hf.
    specialize (Hf Hc). congruence. }
  split; [|done|done| | | |].
  - tm_lookup. apply (inv_client _ _ _ HI).
  - rewrite cons_at_without, decide_False, Hcl by done. eauto.
  - intros k Hk [d Hd]. apply (inv_max _ _ _ HI); [done|]. rewrite (Hsub k d); eauto.
  - intros k l a b HP Hk Hl' Hka Hlb. by apply (inv_times _ _ _ HI k l a b); auto.
  - intros k Hk [d Hd]. pose proof (Hsub k d Hk Hd) as Hd'.
    assert (k ≠ h) by (intros ->; rewrite cons_at_without, decide_True in Hd by done; done).
    apply (metadata_lookup kv); [tm_lookup|tm_lookup|]. apply (inv_meta _ _ _ HI); eauto.
Qed.

(** ** Updating *)

(** A header that is no evidence of misbehaviour fits between its neighbours. *)
Lemma no_misbehaviour_times st cs kv hd h :
  tm_inv_if P kv st cs → Header_GetHeight hd = Ok h → header_misbehaviour kv st hd = Ok false →
  ∃ c, Header_ConsensusState hd = Ok c ∧ (∀ c', cons_at kv st h = Some c' → c' = c) ∧
    (P → ∀ k d, height_ok k → cons_at kv st k = Some d →
      (height_lt k h → tm_Timestamp d < tm_Timestamp c) ∧ (height_lt h k → tm_Timestamp c < tm_Timestamp d)).
Proof.
  intros HI Hh Hm. pose proof (Header_GetHeight_ok _ _ Hh) as Hok. pose proof (inv_wf _ _ _ HI) as Hwf.
  unfold header_misbehaviour in Hm. apply obind_ok in Hm as (c & Hc & Hm). rewrite Hh in Hm. simpl in Hm.
  rewrite wf_GetConsensusState in Hm by done. simpl in Hm. exists c. split; [done|].
  destruct (cons_at kv st h) as [c0|] eqn:E.
  - injection Hm as Hm. rewrite negb_false_iff, bool_decide_eq_true in Hm. subst c0.
    split; [naive_solver|]. intros HP k d Hk Hd. split; intros Hlt.
    + by apply (inv_times _ _ _ HI k h d c).
    + by apply (inv_times _ _ _ HI h k c d).
  - injection Hm as [Hprev Hnext]%orb_false_iff. split; [done|]. intros HP k d Hk Hd.
    pose proof (GetPreviousConsensusState_spec kv st h Hwf Hok) as Hp.
    pose proof (GetNextConsensusState_spec kv st h Hwf Hok) as Hn.
    split; intros Hlt.
    + destruct (GetPreviousConsensusState kv st h) as [cp|]; [|by destruct (Hp k Hk ltac:(eauto))].
      destruct Hp as (p & Hpo & Hcp & _ & Hall). rewrite negb_false_iff, Z.ltb_lt in Hprev.
      destruct (Hall k Hk ltac:(eauto) Hlt) as [->|Hkp]; [congruence|].
      pose proof (inv_times _ _ _ HI k p d cp HP Hk Hpo Hd Hcp Hkp). lia.
    + destruct (GetNextConsensusState kv st h) as [cn|]; [|by destruct (Hn k Hk ltac:(eauto))].
      destruct Hn as (n & Hno & Hcn & _ & Hall). rewrite negb_false_iff, Z.ltb_lt in Hnext.
      destruct (Hall k Hk ltac:(eauto) Hlt) as [->|Hkn]; [congruence|].
      pose proof (inv_times _ _ _ HI n k cn d HP Hno Hk Hcn Hd Hkn). lia.
Qed.

(** The client state after an update to a height. *)
Definition at_height (h : Height) (cs : TmClientState) : TmClientState :=
  if GT h (tm_LatestHeight cs) then set_LatestHeight h cs else cs.

Lemma GT_spec h k : GT h k = true ↔ height_lt k h.
Proof. pose proof (height_total_order h k h) as (_ & _ & -> & _). apply LT_spec. Qed.

Lemma at_height_latest h cs :
  (tm_LatestHeight (at_height h cs) = h ∧ height_lt (tm_LatestHeight cs) h) ∨
  (at_height h cs = cs ∧ ¬ height_lt (tm_LatestHeight cs) h).
Proof.
  unfold at_height. pose proof (GT_spec h (tm_LatestHeight cs)) as HG.
  destruct (GT h (tm_LatestHeight cs)); [left; naive_solver|right; naive_solver].
Qed.

Lemma UpdateState_run ctx st cs hd kv hs kv' :
  tm_wf kv st → Tm_UpdateState ctx st cs (Some (AnyTmHeader hd)) kv = (Ok hs, kv') →
  ∃ h c kv1, Header_GetHeight hd = Ok h ∧ Header_ConsensusState hd = Ok c ∧ hs = [h] ∧ pruned ctx st cs kv kv1 ∧
    ((is_Some (cons_at kv1 st h) ∧ kv' = kv1) ∨
     (cons_at kv1 st h = None ∧ ∃ self, GetSelfHeight ctx = Ok self ∧
        kv' = with_consensus st (at_height h cs) c h self (ctx_time ctx) kv1)).
Proof.
  intros Hwf. destruct (pruneOldestConsensusState_run ctx st cs kv Hwf) as (kv1 & Hrun & Hp).
  unfold Tm_UpdateState. intros ([] & k1 & Hr & H)%sm_bind_ok. rewrite Hrun in Hr. injection Hr as <-.
  apply sm_bind_ok in H as (h & k1 & [Hh ->]%sm_lift_ok & H).
  assert (∃ c, Header_ConsensusState hd = Ok c) as [c Hc].
  { pose proof Hh as (p & Hp' & _)%obind_ok. unfold Header_ConsensusState. rewrite Hp'. by eexists. }
  apply sm_bind_ok in H as (o & k1 & [Ho ->]%sm_reads_ok & H).
  rewrite wf_GetConsensusState in Ho by (eauto using pruned_wf, Header_GetHeight_ok). injection Ho as <-.
  exists h, c, kv1. split; [done|]. split; [done|].
  destruct (cons_at kv1 st h) as [c0|].
  - injection H as <- <-. split_and!; [done|done|]. left. eauto.
  - rewrite Hc in H. apply sm_bind_ok in H as (c' & k1 & [[= <-] ->]%sm_lift_ok & H).
    apply sm_bind_ok in H as ([] & k1 & H1 & H). apply sm_bind_ok in H as ([] & k2 & H2 & H).
    apply sm_bind_ok in H as ([] & k3 & H3 & H). injection H as <- <-. split_and!; [done|done|]. right.
    split; [done|]. apply (write_consensus_ok ctx st (at_height h cs) c h tt).
    erewrite sm_bind_run by exact H1. by erewrite sm_bind_run by exact H2.
Qed.

(** Adding a consensus state, for a client that follows it to its height.  For the
    order of the times to be kept, it has to fit between its neighbours. *)
Lemma with_consensus_inv st cs cs' c h ph pt kv :
  tm_inv_if P kv st cs → height_ok h → height_ok ph → is_u64 pt →
  tm_LatestHeight cs' = tm_LatestHeight (at_height h cs) →
  (P → ∀ k d, height_ok k → cons_at kv st k = Some d →
    (height_lt k h → tm_Timestamp d < tm_Timestamp c) ∧ (height_lt h k → tm_Timestamp c < tm_Timestamp d)) →
  tm_inv_if P (with_consensus st cs' c h ph pt kv) st cs'.
Proof.
  intros HI Hh Hph Hpt Hcs' Ht. pose proof (inv_ok _ _ _ HI) as Hok. destruct (inv_latest _ _ _ HI) as [cl Hcl].
  assert (tm_LatestHeight cs' = h ∧ height_lt (tm_LatestHeight cs) h ∨
    tm_LatestHeight cs' = tm_LatestHeight cs ∧ ¬ height_lt (tm_LatestHeight cs) h) as Hlast.
  { rewrite Hcs'. destruct (at_height_latest h cs) as [?|[-> ?]]; auto. }
  split.
  - tm_lookup.
  - apply wf_with; [apply HI|done].
  - by destruct Hlast as [[-> _]|[-> _]].
  - destruct Hlast as [[-> _]|[-> _]]; rewrite cons_at_with by done; case_decide; rewrite ?Hcl; eauto. congruence.
  - intros k Hk. rewrite cons_at_with by done. case_decide as E.
    + subst k. intros _. destruct Hlast as [[-> _]|[-> ?]]; [apply height_lt_irrefl|done].
    + intros Hs Hlt. apply (inv_max _ _ _ HI k Hk Hs).
      destruct Hlast as [[E' ?]|[E' _]]; [rewrite E' in Hlt; by eapply height_lt_trans|by rewrite E' in Hlt].
  - intros k l a b HP Hk Hl. rewrite !cons_at_with by done. repeat case_decide; subst.
    + by intros _ _ []%height_lt_irrefl.
    + intros [= <-] Hb Hlt. by apply (Ht HP l b).
    + intros Ha' [= <-] Hlt. by apply (Ht HP k a).
    + by apply (inv_times _ _ _ HI).
  - intros k Hk. rewrite cons_at_with by done. intros Hs.
    apply metadata_with; [done|done|done|done|]. intros Hne. rewrite decide_False in Hs by done.
    by apply (inv_meta _ _ _ HI).
Qed.

(** An update of an active client with a header that is no misbehaviour. *)
Lemma UpdateState_inv ctx st cs hd kv hs kv' :
  tm_inv_if P kv st cs → Tm_Status ctx kv st cs = Ok Active → header_misbehaviour kv st hd = Ok false →
  Tm_UpdateState ctx st cs (Some (AnyTmHeader hd)) kv = (Ok hs, kv') →
  ∃ cs', tm_inv_if P kv' st cs' ∧ (cs' = cs ∨ ∃ h, cs' = set_LatestHeight h cs ∧ height_lt (tm_LatestHeight cs) h).
Proof.
  intros HI Ha Hm (h & c & kv1 & Hh & Hc & -> & Hp & H)%UpdateState_run; [|apply HI].
  pose proof (pruned_inv ctx st cs kv kv1 HI Ha Hp) as HI1. destruct H as [[_ ->]|(Hnone & self & Hself & ->)]; [eauto|].
  destruct (no_misbehaviour_times st cs kv hd h HI Hh Hm) as (c' & Hc' & _ & Ht).
  assert (c' = c) as -> by congruence.
  assert (P → ∀ k d, height_ok k → cons_at kv1 st k = Some d →
    (height_lt k h → tm_Timestamp d < tm_Timestamp c) ∧ (height_lt h k → tm_Timestamp c < tm_Timestamp d)) as Ht1.
  { intros HP k d Hk Hd. apply Ht; [done|done|]. by eapply pruned_cons_at. }
  pose proof (Header_GetHeight_ok _ _ Hh) as Hok. exists (at_height h cs). split.
  - by apply (with_consensus_inv _ cs); [| |eapply GetSelfHeight_ok|apply u64_range| |].
  - destruct (at_height_latest h cs) as [[E Hlt]|[-> _]]; [right|by left].
    exists h. split; [|done]. unfold at_height. by rewrite (proj2 (GT_spec _ _) Hlt).
Qed.

(** ** Recovery, on the store of the client *)

Lemma client_after_consensus st cs c h ph pt kv :
  height_ok h →
  <[tkey st KClient := Marshal (AnyTendermint cs)]>
    (<[tkey st (KIter (bigEndianHeightBytes h)) := ConsensusStateKey h]>
    (<[tkey st (KHeight h) := Height_String ph]>
    (<[tkey st (KTime h) := Uint64ToBigEndian pt]>
    (<[tkey st (KCons h) := Marshal (AnyTmConsensus c)]> kv)))) = with_consensus st cs c h ph pt kv.
Proof.
  intros Hh. unfold with_consensus.
  by rewrite !(insert_insert_ne _ (tkey st KClient)) by (intros E'%tkey_inj; done).
Qed.

(** The client the subject becomes. *)
Definition recovered (cs sub : TmClientState) : TmClientState :=
  mkTmClientState (tm_ChainId sub) (tm_TrustLevel cs) (tm_TrustingPeriod sub) (tm_UnbondingPeriod cs)
    (tm_MaxClockDrift cs) (if IsZero (tm_FrozenHeight cs) then tm_FrozenHeight cs else ZeroHeight)
    (tm_LatestHeight sub) (tm_ProofSpecs cs) (tm_UpgradePath cs)
    (tm_AllowUpdateAfterExpiry cs) (tm_AllowUpdateAfterMisbehaviour cs).

Lemma status_frozen ctx kv st cs status :
  Tm_Status ctx kv st cs = Ok status → bool_decide (status = Frozen) = negb (IsZero (tm_FrozenHeight cs)).
Proof.
  unfold Tm_Status. destruct (IsZero _); simpl; [|by intros [= <-]].
  intros ([c|] & _ & [= <-])%obind_ok; [|done]. by destruct (IsExpired _ _ _).
Qed.

Lemma substitute_run ctx st st' cs sub kv kv' :
  height_ok (tm_LatestHeight sub) →
  Tm_CheckSubstituteAndUpdateState ctx st st' cs (AnyTendermint sub) kv = (Ok tt, kv') →
  ∃ c ph pt, IsMatchingClientState cs sub = true ∧ Tm_GetConsensusState kv st' (tm_LatestHeight sub) = Ok (Some c) ∧
    height_ok ph ∧ is_u64 pt ∧ kv' = with_consensus st (recovered cs sub) c (tm_LatestHeight sub) ph pt kv.
Proof.
  intros Hok. unfold Tm_CheckSubstituteAndUpdateState. cbn [sm_lift].
  intros (sub' & k1 & [[= <-] ->]%sm_lift_ok & H)%sm_bind_ok.
  apply sm_bind_ok in H as ([] & k1 & [Hm ->]%sm_require_ok & H).
  apply sm_bind_ok in H as (status & k1 & [Hst%status_frozen ->]%sm_reads_ok & H).
  apply sm_bind_ok in H as (o & k1 & [Ho ->]%sm_reads_ok & H).
  apply sm_bind_ok in H as (c & k1 & [Hc ->]%sm_lift_ok & H). destruct o as [c'|]; [|done]. injection Hc as ->.
  apply sm_bind_ok in H as ([] & k1 & Hk1 & H). injection Hk1 as <-.
  apply sm_bind_ok in H as (ph & k1 & [Hph%of_option_ok ->]%sm_reads_ok & H).
  apply sm_bind_ok in H as (pt & k1 & [Hpt%of_option_ok ->]%sm_reads_ok & H).
  apply sm_bind_ok in H as ([] & k1 & Hk1 & H). injection Hk1 as <-. injection H as <-.
  exists c, ph, pt. split_and!; [done|done|by eapply GetProcessedHeight_range|by eapply GetProcessedTime_range|].
  rewrite <- client_after_consensus by done.
  rewrite Hst. unfold recovered. by destruct (IsZero (tm_FrozenHeight cs)).
Qed.

Lemma recovered_status ctx i cs sub c ph pt kv :
  height_ok (tm_LatestHeight sub) → Tm_GetConsensusState kv (ClientStore i) (tm_LatestHeight sub) = Ok (Some c) →
  ∀ st kv', Tm_Status ctx kv (ClientStore i) sub = Ok Active →
  kv' = with_consensus st (recovered cs sub) c (tm_LatestHeight sub) ph pt kv →
  Tm_Status ctx kv' st (recovered cs sub) = Ok Active.
Proof.
  intros Hok Hc st kv' Ha ->. unfold Tm_Status in *.
  destruct (IsZero (tm_FrozenHeight sub)) eqn:Hz; [|done]. simpl in Ha. rewrite Hc in Ha. injection Ha as Ha.
  destruct (IsExpired sub (tm_Timestamp c) (BlockTime ctx)) eqn:He; [done|].
  assert (IsZero (tm_FrozenHeight (recovered cs sub)) = true) as ->
    by (unfold recovered; simpl; by destruct (IsZero (tm_FrozenHeight cs)) eqn:?).
  simpl. unfold Tm_GetConsensusState. change (prefixed st (ConsensusStateKey ?h)) with (tkey st (KCons h)).
  assert (with_consensus st (recovered cs sub) c (tm_LatestHeight sub) ph pt kv !! tkey st (KCons (tm_LatestHeight sub)) =
    Some (Marshal (AnyTmConsensus c))) as -> by tm_lookup.
  simpl. rewrite bool_decide_eq_false_2 by apply marshal_nonempty. simpl. rewrite unmarshal_marshal. simpl.
  unfold IsExpired in *. simpl. by rewrite He.
Qed.

Lemma with_consensus_client st cs c h ph pt kv :
  height_ok h → with_consensus st cs c h ph pt kv !! tkey st KClient = Some (Marshal (AnyTendermint cs)).
Proof. intros Hh. tm_lookup. Qed.

(** ** Upgrades, on the store of the client *)

Lemma upgrade_run ctx st cs new cons p1 p2 kv kv' :
  Tm_VerifyUpgradeAndUpdateState ctx st cs new cons p1 p2 kv = (Ok tt, kv') →
  height_lt (tm_LatestHeight cs) (Any_GetLatestHeight new) ∧
  ∃ cs' c self, tm_LatestHeight cs' = Any_GetLatestHeight new ∧ GetSelfHeight ctx = Ok self ∧
    kv' = with_consensus st cs' c (Any_GetLatestHeight new) self (ctx_time ctx) kv.
Proof.
  unfold Tm_VerifyUpgradeAndUpdateState. intros H. cbv zeta in H.
  apply sm_bind_ok in H as ([] & k1 & [_ ->]%sm_require_ok & H).
  apply sm_bind_ok in H as ([] & k1 & [Hgt%GT_spec ->]%sm_require_ok & H). split; [done|].
  apply sm_bind_ok in H as (up & k1 & [Hup ->]%sm_lift_ok & H). destruct new as [new| |]; try done. injection Hup as ->.
  do 3 (apply sm_bind_ok in H as (? & k1 & [_ ->]%sm_lift_ok & H)).
  apply sm_bind_ok in H as (? & k1 & [_ ->]%sm_reads_ok & H).
  do 6 (apply sm_bind_ok in H as (? & k1 & [_ ->]%sm_lift_ok & H)).
  apply write_consensus_ok in H as (self & Hself & ->). eexists _, _, self.
  by split; [|split; [exact Hself|reflexivity]].
Qed.

End tendermint.

Abbreviation tm_inv := (tm_inv_if True).
