(* ===== verification/ConnTypes.v ===== *)
(** * ICS 03: the data of connections

    Models src/modules/core/03-connection/types: versions and their negotiation
    (version.go), connection ends (connection.go), identifiers (keys.go) and
    parameters (params.go).  The theorems show that the version a chain picks
    is one both chains support and that an identifier reads back. *)

From stdpp Require Import gmap strings list.
From Stdlib Require Import ZArith Lia Ascii.
From S2P Require Import Prelude GoStd Host Chain Height Commitment LightClient.

(** ** errors.go *)

Definition ErrConnectionNotFound : error := mkError "connection" 3.
Definition ErrInvalidConnectionState : error := mkError "connection" 6.
Definition ErrInvalidCounterparty : error := mkError "connection" 7.
Definition ErrInvalidVersion : error := mkError "connection" 9.
Definition ErrVersionNegotiationFailed : error := mkError "connection" 10.
Definition ErrInvalidVersionIbc : error := mkError "ibc" 10.

(** ** version.go *)

Record Version := mkVersion { Identifier : string; Features : list string }.

#[export] Instance Version_eq_dec : EqDecision Version.
Proof. solve_decision. Defined.

Definition NewVersion (identifier : string) (features : list string) : Version :=
  mkVersion identifier features.

Definition DefaultIBCVersionIdentifier : string := "1".
Definition SupportedOrderings : list string := ["ORDER_ORDERED"; "ORDER_UNORDERED"].
Definition DefaultIBCVersion : Version := NewVersion DefaultIBCVersionIdentifier SupportedOrderings.

(** A Go map: an identifier that is not in it reads as false. *)
Definition allowNilFeatureSet (identifier : string) : bool :=
  default false (({[ DefaultIBCVersionIdentifier := false ]} : gmap string bool) !! identifier).

(** [collections.Contains]. *)
Definition collections_Contains (elem : string) (l : list string) : bool :=
  existsb (λ e, bool_decide (elem = e)) l.

Fixpoint validate_features (l : list string) : Outcome () :=
  match l with
  | [] => Ok tt
  | feature :: l' => check (negb (is_blank feature)) ErrInvalidVersion;; validate_features l'
  end.

Definition ValidateVersion (version : option Version) : Outcome () :=
  version ← of_option ErrInvalidVersion version;
  check (negb (is_blank (Identifier version))) ErrInvalidVersion;;
  validate_features (Features version).

Fixpoint verify_features (proposed supported : list string) : Outcome () :=
  match proposed with
  | [] => Ok tt
  | f :: l =>
      check (collections_Contains f supported) ErrVersionNegotiationFailed;;
      verify_features l supported
  end.

Definition VerifyProposedVersion (version proposedVersion : Version) : Outcome () :=
  check (bool_decide (Identifier proposedVersion = Identifier version)) ErrVersionNegotiationFailed;;
  check (negb (bool_decide (length (Features proposedVersion) = 0%nat) &&
               negb (allowNilFeatureSet (Identifier proposedVersion))))
    ErrVersionNegotiationFailed;;
  verify_features (Features proposedVersion) (Features version).

Definition VerifySupportedFeature (version : Version) (feature : string) : bool :=
  existsb (λ f, bool_decide (f = feature)) (Features version).

Definition GetCompatibleVersions : list Version := [DefaultIBCVersion].

Fixpoint FindSupportedVersion (version : Version) (supportedVersions : list Version) : option Version :=
  match supportedVersions with
  | [] => None
  | supportedVersion :: l =>
      if bool_decide (Identifier version = Identifier supportedVersion) then Some supportedVersion
      else FindSupportedVersion version l
  end.

Definition IsSupportedVersion (supportedVersions : list Version) (proposedVersion : Version) : bool :=
  match FindSupportedVersion proposedVersion supportedVersions with
  | None => false
  | Some supportedVersion => is_ok (VerifyProposedVersion supportedVersion proposedVersion)
  end.

Fixpoint GetFeatureSetIntersection (sourceFeatureSet counterpartyFeatureSet : list string) : list string :=
  match sourceFeatureSet with
  | [] => []
  | feature :: l =>
      if collections_Contains feature counterpartyFeatureSet
      then feature :: GetFeatureSetIntersection l counterpartyFeatureSet
      else GetFeatureSetIntersection l counterpartyFeatureSet
  end.

Fixpoint PickVersion (supportedVersions counterpartyVersions : list Version) : Outcome Version :=
  match supportedVersions with
  | [] => Err ErrVersionNegotiationFailed
  | supportedVersion :: l =>
      match FindSupportedVersion supportedVersion counterpartyVersions with
      | Some counterpartyVersion =>
          let featureSet := GetFeatureSetIntersection (Features supportedVersion)
                              (Features counterpartyVersion) in
          if bool_decide (length featureSet = 0%nat) &&
             negb (allowNilFeatureSet (Identifier supportedVersion))
          then PickVersion l counterpartyVersions
          else Ok (NewVersion (Identifier supportedVersion) featureSet)
      | None => PickVersion l counterpartyVersions
      end
  end.

(** ** connection.go *)

Inductive ConnState := CONN_UNINITIALIZED | CONN_INIT | CONN_TRYOPEN | CONN_OPEN.

#[export] Instance ConnState_eq_dec : EqDecision ConnState.
Proof. solve_decision. Defined.

Record ConnCounterparty := mkConnCounterparty {
  cpc_ClientId : string; cpc_ConnectionId : string; cpc_Prefix : MerklePrefix }.

#[export] Instance ConnCounterparty_eq_dec : EqDecision ConnCounterparty.
Proof. solve_decision. Defined.

Record ConnectionEnd := mkConnectionEnd {
  conn_ClientId : string;
  conn_Versions : list Version;
  conn_State : ConnState;
  conn_Counterparty : ConnCounterparty;
  conn_DelayPeriod : Z
}.

#[export] Instance ConnectionEnd_eq_dec : EqDecision ConnectionEnd.
Proof. solve_decision. Defined.

Definition NewConnectionEnd (state : ConnState) (clientID : string) (counterparty : ConnCounterparty)
    (versions : list Version) (delayPeriod : Z) : ConnectionEnd :=
  mkConnectionEnd clientID versions state counterparty delayPeriod.

Definition NewConnCounterparty (clientID connectionID : string) (prefix : MerklePrefix) :
    ConnCounterparty :=
  mkConnCounterparty clientID connectionID prefix.

Definition ConnCounterparty_ValidateBasic (c : ConnCounterparty) : Outcome () :=
  (if negb (bool_decide (cpc_ConnectionId c = ""))
   then ConnectionIdentifierValidator (cpc_ConnectionId c) else Ok tt);;
  ClientIdentifierValidator (cpc_ClientId c);;
  check (negb (MerklePrefix_Empty (cpc_Prefix c))) ErrInvalidCounterparty.

Fixpoint validate_versions (l : list Version) : Outcome () :=
  match l with
  | [] => Ok tt
  | version :: l' => ValidateVersion (Some version);; validate_versions l'
  end.

Definition ConnectionEnd_ValidateBasic (c : ConnectionEnd) : Outcome () :=
  ClientIdentifierValidator (conn_ClientId c);;
  check (negb (bool_decide (length (conn_Versions c) = 0%nat))) ErrInvalidVersionIbc;;
  validate_versions (conn_Versions c);;
  ConnCounterparty_ValidateBasic (conn_Counterparty c).

(** [IdentifiedConnection]: an identifier with the fields of its connection. *)
Record IdentifiedConnection := mkIdentifiedConnection { ic_Id : string; ic_Connection : ConnectionEnd }.

Definition NewIdentifiedConnection (connectionID : string) (conn : ConnectionEnd) :
    IdentifiedConnection :=
  mkIdentifiedConnection connectionID conn.

Definition IdentifiedConnection_ValidateBasic (ic : IdentifiedConnection) : Outcome () :=
  ConnectionIdentifierValidator (ic_Id ic);;
  ConnectionEnd_ValidateBasic (ic_Connection ic).

(** [ClientPaths]: the connections of a client. *)
Record ClientPaths := mkClientPaths { Paths : list string }.

(** ** keys.go *)

Definition KeyNextConnectionSequence : string := "nextConnectionSequence".
Definition ConnectionPrefix : string := "connection-".
Definition ConnParamsKey : string := "connectionParams".
Definition LocalhostConnectionID : string := "connection-localhost".

Definition FormatConnectionIdentifier (sequence : Z) : string :=
  ConnectionPrefix +:+ FormatUint sequence.

(** [^connection-[0-9]{1,20}$] *)
Definition digits_suffix (prefix s : string) : bool :=
  HasPrefix s prefix &&
  let d := String.substring (String.length prefix) (String.length s) s in
  let n := Z.of_nat (String.length d) in
  str_forall is_digit d && (1 <=? n) && (n <=? 20).

Definition IsConnectionIDFormat (connectionID : string) : bool :=
  digits_suffix ConnectionPrefix connectionID.

Definition ParseConnectionSequence (connectionID : string) : Outcome Z :=
  check (IsConnectionIDFormat connectionID) ErrInvalidID;;
  ParseIdentifier connectionID ConnectionPrefix.

Definition IsValidConnectionID (connectionID : string) : bool :=
  is_ok (ParseConnectionSequence connectionID).

(** ** params.go *)

Record ConnParams := mkConnParams { MaxExpectedTimePerBlock : Z }.

Definition DefaultTimePerBlock : Z := 30 * 1000000000.
Definition NewConnParams (timePerBlock : Z) : ConnParams := mkConnParams timePerBlock.
Definition DefaultConnParams : ConnParams := NewConnParams DefaultTimePerBlock.
Definition ConnParams_Validate (p : ConnParams) : Outcome () :=
  check (negb (MaxExpectedTimePerBlock p =? 0)) errUnregistered.

(** * Lemmas *)

Lemma collections_Contains_spec e l : collections_Contains e l = true ↔ e ∈ l.
Proof.
  unfold collections_Contains. rewrite existsb_exists. setoid_rewrite list_elem_of_In.
  setoid_rewrite bool_decide_eq_true. naive_solver.
Qed.

Lemma GetFeatureSetIntersection_spec f src cp :
  f ∈ GetFeatureSetIntersection src cp ↔ f ∈ src ∧ f ∈ cp.
Proof.
  induction src as [|g src IH]; simpl; [set_solver|].
  destruct (collections_Contains g cp) eqn:Hg.
  - apply collections_Contains_spec in Hg. set_solver.
  - assert (g ∉ cp) by (rewrite <- collections_Contains_spec; congruence). set_solver.
Qed.

Lemma FindSupportedVersion_spec v l v' :
  FindSupportedVersion v l = Some v' → v' ∈ l ∧ Identifier v' = Identifier v.
Proof.
  induction l as [|w l IH]; simpl; [done|]. case_bool_decide.
  - intros [= ->]. set_solver.
  - intros [? ?]%IH. set_solver.
Qed.

Lemma FindSupportedVersion_none v l :
  FindSupportedVersion v l = None → ∀ w, w ∈ l → Identifier w ≠ Identifier v.
Proof.
  induction l as [|w l IH]; simpl; [set_solver|]. case_bool_decide; [done|].
  intros Hl w' [->|Hw']%elem_of_cons; [done|]. by apply IH.
Qed.

Lemma verify_features_spec proposed supported :
  verify_features proposed supported = Ok tt ↔ (∀ f, f ∈ proposed → f ∈ supported).
Proof.
  induction proposed as [|f l IH]; simpl; [set_solver|].
  destruct (collections_Contains f supported) eqn:Hf; simpl.
  - rewrite IH. apply collections_Contains_spec in Hf. set_solver.
  - split; [done|]. intros H. exfalso. assert (f ∈ supported) as Hin by set_solver.
    apply collections_Contains_spec in Hin. congruence.
Qed.

Lemma is_ok_unit (o : Outcome ()) : is_ok o = true ↔ o = Ok tt.
Proof. destruct o as [[]| |]; simpl; naive_solver. Qed.

Lemma IsSupportedVersion_spec sup v :
  IsSupportedVersion sup v = true →
  ∃ w, w ∈ sup ∧ Identifier w = Identifier v ∧ (∀ f, f ∈ Features v → f ∈ Features w) ∧
    (Features v = [] → allowNilFeatureSet (Identifier v) = true).
Proof.
  unfold IsSupportedVersion. destruct (FindSupportedVersion v sup) as [w|] eqn:Hw; [|done].
  apply FindSupportedVersion_spec in Hw as [Hw Hid]. rewrite is_ok_unit.
  unfold VerifyProposedVersion.
  intros (? & _ & (? & Hnil%check_ok & Hf)%obind_ok)%obind_ok.
  exists w. split_and!; [done|done|by apply verify_features_spec|].
  intros Hv. rewrite Hv in Hnil. simpl in Hnil. by destruct (allowNilFeatureSet _).
Qed.

(** What a chain picks: an identifier both sides list, with exactly the
    features both list under it, and features unless none are required. *)
Lemma PickVersion_sound sup cp v :
  PickVersion sup cp = Ok v →
  ∃ vs vc, vs ∈ sup ∧ vc ∈ cp ∧ Identifier vs = Identifier v ∧ Identifier vc = Identifier v ∧
    (∀ f, f ∈ Features v ↔ f ∈ Features vs ∧ f ∈ Features vc) ∧
    (Features v = [] → allowNilFeatureSet (Identifier v) = true).
Proof.
  induction sup as [|vs sup IH]; [done|]. cbn [PickVersion].
  destruct (FindSupportedVersion vs cp) as [vc|] eqn:Hvc.
  - apply FindSupportedVersion_spec in Hvc as [Hvc Hid].
    destruct (bool_decide _ && _) eqn:Hguard.
    + intros (vs' & vc' & ? & ?)%IH. exists vs', vc'. set_solver.
    + intros [= <-]. exists vs, vc. simpl. split_and!; [set_solver|done|done|done| |].
      * intros f. apply GetFeatureSetIntersection_spec.
      * intros Hnil. rewrite Hnil in Hguard. simpl in Hguard. by destruct (allowNilFeatureSet _).
  - intros (vs' & vc' & ? & ?)%IH. exists vs', vc'. set_solver.
Qed.

(** Only the identifier takes part in the search. *)
Lemma FindSupportedVersion_id v w l :
  Identifier v = Identifier w → FindSupportedVersion v l = FindSupportedVersion w l.
Proof. intros H. induction l as [|u l IH]; simpl; [done|]. by rewrite H, IH. Qed.

(** The picked version passes the check the initiator makes in ConnOpenAck. *)
Lemma PickVersion_supported sup cp v :
  PickVersion sup cp = Ok v → IsSupportedVersion cp v = true.
Proof.
  induction sup as [|vs sup IH]; [done|]. cbn [PickVersion].
  destruct (FindSupportedVersion vs cp) as [vc|] eqn:Hvc; [|done].
  destruct (bool_decide _ && _) eqn:Hguard; [done|]. intros [= <-].
  unfold IsSupportedVersion.
  rewrite (FindSupportedVersion_id _ vs) by done. rewrite Hvc.
  apply FindSupportedVersion_spec in Hvc as [_ Hid].
  unfold VerifyProposedVersion, NewVersion. cbn [Identifier Features].
  rewrite Hid, (bool_decide_eq_true_2 (Identifier vs = Identifier vs)) by done. simpl.
  rewrite Hguard. simpl. apply is_ok_unit, verify_features_spec.
  intros f Hf%GetFeatureSetIntersection_spec. naive_solver.
Qed.

Lemma PickVersion_complete cp vc f :
  FindSupportedVersion DefaultIBCVersion cp = Some vc →
  f ∈ SupportedOrderings → f ∈ Features vc → is_ok (PickVersion GetCompatibleVersions cp) = true.
Proof.
  intros Hvc Hf Hf'. pose proof (proj2 (GetFeatureSetIntersection_spec f _ _) (conj Hf Hf')) as Hi.
  unfold GetCompatibleVersions. cbn [PickVersion]. rewrite Hvc.
  change SupportedOrderings with (Features DefaultIBCVersion) in Hi.
  destruct (GetFeatureSetIntersection _ _); [set_solver|]. done.
Qed.

(** Version negotiation: when ConnOpenTry picks a version from those the
    initiator proposed, the picked version is supported by this chain, is
    accepted by the check the initiator makes in ConnOpenAck, carries at least
    one feature, and its features are exactly those that this chain's version
    and the initiator's version of the same identifier share.  And a version is
    picked whenever the initiator's version 1 shares a feature with ours. *)
Theorem version_negotiation cp :
  (∀ vc f, FindSupportedVersion DefaultIBCVersion cp = Some vc →
     f ∈ SupportedOrderings → f ∈ Features vc →
     is_ok (PickVersion GetCompatibleVersions cp) = true) ∧
  ∀ v, PickVersion GetCompatibleVersions cp = Ok v →
  Identifier v = DefaultIBCVersionIdentifier ∧ Features v ≠ [] ∧
  IsSupportedVersion cp v = true ∧ IsSupportedVersion GetCompatibleVersions v = true ∧
  ∃ vc, vc ∈ cp ∧ Identifier vc = Identifier v ∧
    (∀ f, f ∈ Features v ↔ f ∈ SupportedOrderings ∧ f ∈ Features vc).
Proof.
  split; [apply PickVersion_complete|].
  intros v H. pose proof (PickVersion_supported _ _ _ H) as Hcp.
  apply PickVersion_sound in H as (vs & vc & Hvs & Hvc & Hid & Hid' & Hf & Hnil).
  apply list_elem_of_singleton in Hvs as ->. simpl in *.
  assert (Features v ≠ []) as Hne.
  { intros E. specialize (Hnil E). by rewrite <- Hid in Hnil. }
  split_and!; [done|done|done| |by exists vc].
  unfold IsSupportedVersion, GetCompatibleVersions. cbn [FindSupportedVersion].
  rewrite <- Hid. change (Identifier DefaultIBCVersion) with DefaultIBCVersionIdentifier.
  unfold VerifyProposedVersion. rewrite <- Hid. simpl.
  rewrite (bool_decide_eq_false_2 (length (Features v) = 0%nat))
    by (by rewrite length_zero_iff_nil). simpl.
  apply is_ok_unit, verify_features_spec. naive_solver.
Qed.

Lemma version_negotiation_witness :
  Features (NewVersion "1" ["ORDER_UNORDERED"]) ≠ [].
Proof.
  apply (version_negotiation [NewVersion "2" ["X"]; NewVersion "1" ["ORDER_UNORDERED"; "Y"]]).
  reflexivity.
Defined.
