(* ===== verification/ChanTypes.v ===== *)
(** * ICS 04: the data of channels and packets

    Models src/modules/core/04-channel/types: channel ends (channel.go), packets
    and their commitments (packet.go), acknowledgements (acknowledgement.go) and
    identifiers (keys.go).  The theorems show that a packet commitment binds the
    timeout and the data of the packet, up to a hash collision the two packets
    exhibit, and that identifiers read back. *)

From stdpp Require Import gmap strings list.
From Stdlib Require Import ZArith Lia Ascii.
From S2P Require Import Prelude GoStd Sha256 Host Chain Height Client ConnTypes.

(** ** errors.go *)

Definition ErrChannelExists : error := mkError "channel" 2.
Definition ErrChannelNotFound : error := mkError "channel" 3.
Definition ErrInvalidChannelState : error := mkError "channel" 5.
Definition ErrInvalidChannelOrdering : error := mkError "channel" 6.
Definition ErrInvalidChannelCapability : error := mkError "channel" 8.
Definition ErrChannelCapabilityNotFound : error := mkError "channel" 9.
Definition ErrSequenceSendNotFound : error := mkError "channel" 10.
Definition ErrSequenceReceiveNotFound : error := mkError "channel" 11.
Definition ErrSequenceAckNotFound : error := mkError "channel" 12.
Definition ErrInvalidPacket : error := mkError "channel" 13.
Definition ErrPacketTimeout : error := mkError "channel" 14.
Definition ErrTooManyConnectionHops : error := mkError "channel" 15.
Definition ErrInvalidAcknowledgement : error := mkError "channel" 16.
Definition ErrAcknowledgementExists : error := mkError "channel" 17.
Definition ErrPacketReceived : error := mkError "channel" 19.
Definition ErrPacketSequenceOutOfOrder : error := mkError "channel" 21.
Definition ErrNoOpMsg : error := mkError "channel" 23.
Definition ErrPacketNotSent : error := mkError "channel" 25.
Definition ErrInvalidTimeout : error := mkError "channel" 26.

(** ** channel.go *)

Inductive State := UNINITIALIZED | INIT | TRYOPEN | OPEN | CLOSED.
Inductive Order := NONE | UNORDERED | ORDERED.

#[export] Instance State_eq_dec : EqDecision State.
Proof. solve_decision. Defined.
#[export] Instance Order_eq_dec : EqDecision Order.
Proof. solve_decision. Defined.

(** The names in the [Order] enum of the wire format. *)
Definition Order_String (o : Order) : string :=
  match o with
  | NONE => "ORDER_NONE_UNSPECIFIED"
  | UNORDERED => "ORDER_UNORDERED"
  | ORDERED => "ORDER_ORDERED"
  end.

Record Counterparty := mkCounterparty { cp_PortId : string; cp_ChannelId : string }.

#[export] Instance Counterparty_eq_dec : EqDecision Counterparty.
Proof. solve_decision. Defined.

Record Channel := mkChannel {
  ch_State : State;
  ch_Ordering : Order;
  ch_Counterparty : Counterparty;
  ch_ConnectionHops : list string;
  ch_Version : string
}.

#[export] Instance Channel_eq_dec : EqDecision Channel.
Proof. solve_decision. Defined.

Definition NewChannel (state : State) (ordering : Order) (counterparty : Counterparty)
    (hops : list string) (version : string) : Channel :=
  mkChannel state ordering counterparty hops version.

Definition NewCounterparty (portID channelID : string) : Counterparty :=
  mkCounterparty portID channelID.

(** Assignments to fields of a channel. *)
Definition with_state (st : State) (ch : Channel) : Channel :=
  mkChannel st (ch_Ordering ch) (ch_Counterparty ch) (ch_ConnectionHops ch) (ch_Version ch).
Definition with_version (v : string) (ch : Channel) : Channel :=
  mkChannel (ch_State ch) (ch_Ordering ch) (ch_Counterparty ch) (ch_ConnectionHops ch) v.
Definition with_cp_channel (c : string) (ch : Channel) : Channel :=
  mkChannel (ch_State ch) (ch_Ordering ch) (mkCounterparty (cp_PortId (ch_Counterparty ch)) c)
    (ch_ConnectionHops ch) (ch_Version ch).

Definition Counterparty_ValidateBasic (c : Counterparty) : Outcome () :=
  PortIdentifierValidator (cp_PortId c);;
  if negb (bool_decide (cp_ChannelId c = "")) then ChannelIdentifierValidator (cp_ChannelId c)
  else Ok tt.

Definition Channel_ValidateBasic (ch : Channel) : Outcome () :=
  check (negb (bool_decide (ch_State ch = UNINITIALIZED))) ErrInvalidChannelState;;
  check (bool_decide (ch_Ordering ch = ORDERED) || bool_decide (ch_Ordering ch = UNORDERED))
    ErrInvalidChannelOrdering;;
  match ch_ConnectionHops ch with
  | [hop] => ConnectionIdentifierValidator hop;; Counterparty_ValidateBasic (ch_Counterparty ch)
  | _ => Err ErrTooManyConnectionHops
  end.

(** [IdentifiedChannel]: a channel with the identifiers it is stored under. *)
Record IdentifiedChannel := mkIdentifiedChannel {
  ich_PortId : string; ich_ChannelId : string; ich_Channel : Channel }.

Definition NewIdentifiedChannel (portID channelID : string) (ch : Channel) : IdentifiedChannel :=
  mkIdentifiedChannel portID channelID ch.

Definition IdentifiedChannel_ValidateBasic (ic : IdentifiedChannel) : Outcome () :=
  ChannelIdentifierValidator (ich_ChannelId ic);;
  PortIdentifierValidator (ich_PortId ic);;
  Channel_ValidateBasic (ich_Channel ic).

(** ** packet.go *)

Record Packet := mkPacket {
  Sequence : Z;
  SourcePort : string;
  SourceChannel : string;
  DestinationPort : string;
  DestinationChannel : string;
  Data : bytes;
  TimeoutHeight : Height;
  TimeoutTimestamp : Z
}.

#[export] Instance Packet_eq_dec : EqDecision Packet.
Proof. solve_decision. Defined.

Definition NewPacket (data : bytes) (sequence : Z) (sourcePort sourceChannel : string)
    (destinationPort destinationChannel : string) (timeoutHeight : Height) (timeoutTimestamp : Z) :
    Packet :=
  mkPacket sequence sourcePort sourceChannel destinationPort destinationChannel data timeoutHeight
    timeoutTimestamp.

(** The preimage of a commitment and the commitment. *)
Definition commit_preimage `{BigEndian} (packet : Packet) : bytes :=
  let timeoutHeight := TimeoutHeight packet in
  Uint64ToBigEndian (TimeoutTimestamp packet) +:+
  Uint64ToBigEndian (RevisionNumber timeoutHeight) +:+
  Uint64ToBigEndian (RevisionHeight timeoutHeight) +:+
  Sum256 (Data packet).

Definition CommitPacket `{BigEndian} (packet : Packet) : bytes := Sum256 (commit_preimage packet).

Definition CommitAcknowledgement (data : bytes) : bytes := Sum256 data.

Definition Packet_ValidateBasic (p : Packet) : Outcome () :=
  PortIdentifierValidator (SourcePort p);;
  PortIdentifierValidator (DestinationPort p);;
  ChannelIdentifierValidator (SourceChannel p);;
  ChannelIdentifierValidator (DestinationChannel p);;
  check (negb (Sequence p =? 0)) ErrInvalidPacket;;
  check (negb (IsZero (TimeoutHeight p) && (TimeoutTimestamp p =? 0))) ErrInvalidPacket;;
  check (negb (bool_decide (Data p = ""))) ErrInvalidPacket.

Record PacketId := mkPacketId { pid_PortId : string; pid_ChannelId : string; pid_Sequence : Z }.

Definition NewPacketID (portID channelID : string) (seq : Z) : PacketId :=
  mkPacketId portID channelID seq.

Definition PacketId_Validate (p : PacketId) : Outcome () :=
  PortIdentifierValidator (pid_PortId p);;
  ChannelIdentifierValidator (pid_ChannelId p);;
  check (negb (pid_Sequence p =? 0)) ErrInvalidPacket.

(** ** acknowledgement.go *)

(** The oneof [Response]; absent when it is [None]. *)
Inductive Response := Result_ (result : bytes) | Error_ (error : string).
Record Acknowledgement := mkAck { ack_Response : option Response }.

Definition ackErrorString : string := "error handling packet: see events for details".

Definition NewResultAcknowledgement (result : bytes) : Acknowledgement := mkAck (Some (Result_ result)).

(** [errorsmod.ABCIInfo] gives the code of a registered error and 1 for others. *)
Definition NewErrorAcknowledgement (err : error) : Acknowledgement :=
  mkAck (Some (Error_ ("ABCI code: " +:+ FormatUint (code err) +:+ ": " +:+ ackErrorString))).

Definition Acknowledgement_ValidateBasic (ack : Acknowledgement) : Outcome () :=
  match ack_Response ack with
  | Some (Result_ result) => check (negb (bool_decide (result = ""))) ErrInvalidAcknowledgement
  | Some (Error_ e) => check (negb (is_blank e)) ErrInvalidAcknowledgement
  | None => Err ErrInvalidAcknowledgement
  end.

Definition Acknowledgement_Success (ack : Acknowledgement) : bool :=
  match ack_Response ack with Some (Result_ _) => true | _ => false end.

(** ** keys.go *)

Definition KeyNextChannelSequence : string := "nextChannelSequence".
Definition ChannelPrefix : string := "channel-".

Definition FormatChannelIdentifier (sequence : Z) : string := ChannelPrefix +:+ FormatUint sequence.

(** [^channel-[0-9]{1,20}$] *)
Definition IsChannelIDFormat (channelID : string) : bool := digits_suffix ChannelPrefix channelID.

Definition ParseChannelSequence (channelID : string) : Outcome Z :=
  check (IsChannelIDFormat channelID) ErrInvalidID;;
  ParseIdentifier channelID ChannelPrefix.

Definition IsValidChannelID (channelID : string) : bool := is_ok (ParseChannelSequence channelID).

Definition FilteredPortPrefix (portPrefix : string) : string :=
  KeyChannelEndPrefix +:+ "/" +:+ KeyPortPrefix +:+ "/" +:+ portPrefix.

(** * Lemmas *)

Lemma string_app_inj_length a b c d :
  String.length a = String.length b → a +:+ c = b +:+ d → a = b ∧ c = d.
Proof.
  revert b. induction a as [|x a IH]; intros [|y b] Hlen H; simpl in *; try done.
  injection H as -> H. injection Hlen as Hlen. destruct (IH b Hlen H) as [-> ->]. done.
Qed.

(** The packet fields a commitment is about. *)
Definition commit_fields (p : Packet) : Z * Height * bytes :=
  (TimeoutTimestamp p, TimeoutHeight p, Data p).

Definition timeouts_u64 (p : Packet) : Prop := is_u64 (TimeoutTimestamp p) ∧ height_ok (TimeoutHeight p).

Section commit.
Context `{BigEndianLaws}.

Lemma be_inj m n : is_u64 m → is_u64 n → Uint64ToBigEndian m = Uint64ToBigEndian n → m = n.
Proof. intros Hm Hn E. rewrite <- (be_roundtrip m), <- (be_roundtrip n) by done. by rewrite E. Qed.

Lemma be_app_inj m n x y :
  is_u64 m → is_u64 n → Uint64ToBigEndian m +:+ x = Uint64ToBigEndian n +:+ y → m = n ∧ x = y.
Proof.
  intros Hm Hn E. apply string_app_inj_length in E as [E ->].
  - split; [by apply be_inj|done].
  - by rewrite !be_length.
Qed.

Lemma be_nonempty n : is_u64 n → Uint64ToBigEndian n ≠ "".
Proof. intros Hn E. pose proof (be_length n Hn) as Hl. by rewrite E in Hl. Qed.

Lemma commit_preimage_inj p q :
  timeouts_u64 p → timeouts_u64 q → commit_preimage p = commit_preimage q →
  TimeoutTimestamp p = TimeoutTimestamp q ∧ TimeoutHeight p = TimeoutHeight q ∧
  Sum256 (Data p) = Sum256 (Data q).
Proof.
  intros (? & ? & ?) (? & ? & ?). unfold commit_preimage. intros E.
  apply be_app_inj in E as [? E]; [|done..].
  apply be_app_inj in E as [? E]; [|done..].
  apply be_app_inj in E as [? E]; [|done..].
  destruct (TimeoutHeight p), (TimeoutHeight q); simpl in *; subst; done.
Qed.

Lemma commit_binding p q :
  timeouts_u64 p → timeouts_u64 q → CommitPacket p = CommitPacket q →
  commit_fields p = commit_fields q ∨
  collides (Data p) (Data q) ∨ collides (commit_preimage p) (commit_preimage q).
Proof.
  intros Hp Hq E. apply Sum256_inj_or in E as [E|E]; [|by right; right].
  apply commit_preimage_inj in E as (Ht & Hh & Hd); [|done..].
  apply Sum256_inj_or in Hd as [Hd|Hd]; [left|by right; left].
  unfold commit_fields. congruence.
Qed.

(** A packet commitment binds the packet's timeout and data: two packets
    with the same commitment agree on timeout timestamp, timeout height and
    data, unless the two packets themselves exhibit a SHA-256 collision, either
    between their data or between the preimages of their commitments. *)
Theorem packet_commitment_binding p q :
  timeouts_u64 p → timeouts_u64 q → CommitPacket p = CommitPacket q →
  commit_fields p = commit_fields q ∨
  collides (Data p) (Data q) ∨ collides (commit_preimage p) (commit_preimage q).
Proof.
  apply commit_binding.
Qed.

Lemma CommitPacket_nonempty p : CommitPacket p ≠ "".
Proof. apply Sum256_nonempty. Qed.

End commit.

(** ** Identifiers *)

Lemma digits_suffix_format pre n :
  is_u64 n → digits_suffix pre (pre +:+ FormatUint n) = true.
Proof.
  intros Hn. pose proof (FormatUint_length n Hn). unfold digits_suffix, HasPrefix. rewrite prefix_app, substring_suffix. simpl.
  rewrite FormatUint_digits. simpl. rewrite andb_true_iff, !Z.leb_le.
  pose proof (FormatUint_nonempty n). destruct (FormatUint n); [done|]. simpl in *. lia.
Qed.

Lemma ParseChannelSequence_format n :
  is_u64 n → ParseChannelSequence (FormatChannelIdentifier n) = Ok n.
Proof.
  intros Hn. unfold ParseChannelSequence, IsChannelIDFormat, FormatChannelIdentifier.
  rewrite digits_suffix_format by done. by apply ParseIdentifier_format.
Qed.

Lemma ParseConnectionSequence_format n :
  is_u64 n → ParseConnectionSequence (FormatConnectionIdentifier n) = Ok n.
Proof.
  intros Hn. unfold ParseConnectionSequence, IsConnectionIDFormat, FormatConnectionIdentifier.
  rewrite digits_suffix_format by done. by apply ParseIdentifier_format.
Qed.

Lemma FormatChannelIdentifier_inj m n :
  is_u64 m → is_u64 n → FormatChannelIdentifier m = FormatChannelIdentifier n → m = n.
Proof. intros ?? H%string_app_inj_l. by apply FormatUint_inj in H. Qed.

Lemma FormatConnectionIdentifier_inj m n :
  is_u64 m → is_u64 n → FormatConnectionIdentifier m = FormatConnectionIdentifier n → m = n.
Proof. intros ?? H%string_app_inj_l. by apply FormatUint_inj in H. Qed.

(** Identifiers generated by the chain are read back: parsing
    "channel-{n}", "connection-{n}" and "{type}-{n}" gives n, for every 64-bit n
    and every client type ValidateClientType accepts. *)
Theorem identifier_roundtrip clientType n :
  ValidateClientType clientType = Ok tt → is_u64 n →
  ParseChannelSequence (FormatChannelIdentifier n) = Ok n ∧
  ParseConnectionSequence (FormatConnectionIdentifier n) = Ok n ∧
  ParseClientIdentifier (FormatClientIdentifier clientType n) = Ok (clientType, n).
Proof.
  intros Hct Hn. split_and!.
  - by apply ParseChannelSequence_format.
  - by apply ParseConnectionSequence_format.
  - by apply ParseClientIdentifier_format.
Qed.

Lemma identifier_roundtrip_witness :
  ParseClientIdentifier (FormatClientIdentifier "07-tendermint" 42) = Ok ("07-tendermint", 42).
Proof. apply (identifier_roundtrip "07-tendermint" 42); [reflexivity|unfold is_u64; lia]. Defined.
