(* ===== verification/Env.v ===== *)
(** * What the keepers are built on

    The IBC keepers are constructed over a codec, a light client for every
    client type, and keepers of other modules.  [IbcEnv] collects them: it is
    the argument of every keeper method of the connection and channel modules.
    [IbcLaws] collects the documented behaviour the theorems rely on: decoding
    inverts encoding, 64-bit integers encode to eight bytes and back, and light
    clients write only to the store they are given. *)

From stdpp Require Import gmap strings list.
From Stdlib Require Import ZArith Lia Ascii.
From S2P Require Import Prelude GoStd Host Chain Height Capability Commitment LightClient Client ConnTypes ChanTypes.

Class IbcEnv := {
  env_be :: BigEndian;
  env_ics23 :: Ics23;
  env_lc :: LightClient;
  env_staking :: StakingKeeper;
  env_upgrade :: UpgradeKeeper;
  env_paths :: UpgradePaths;
  env_trust :: TrustLevels;
  env_owners :: Proto CapabilityOwners;
  env_cs :: Proto ClientState;
  env_cons :: Proto ConsensusState;
  env_cparams :: Proto ClientParams;
  env_conn :: Proto ConnectionEnd;
  env_connpaths :: Proto ClientPaths;
  env_connparams :: Proto ConnParams;
  env_chan :: Proto Channel;
  (** The name of the store key of the keepers. *)
  env_storeKey : string;
  (** [uint64(f)] of a float outside the range of [uint64], which the language
      leaves to the implementation. *)
  env_uint64_of_float : Z → Z
}.

Class IbcLaws `{IbcEnv} := {
  law_be :: BigEndianLaws;
  law_lc :: LightClientLaws;
  law_upgrade :: UpgradeKeeperLaws;
  law_owners :: ProtoLaws CapabilityOwners;
  law_cs :: ProtoLaws ClientState;
  law_cs_ne :: ProtoNonEmpty ClientState;
  law_cparams :: ProtoLaws ClientParams;
  law_conn :: ProtoLaws ConnectionEnd;
  law_conn_ne :: ProtoNonEmpty ConnectionEnd;
  law_connpaths :: ProtoLaws ClientPaths;
  law_connparams :: ProtoLaws ConnParams;
  law_chan :: ProtoLaws Channel;
  law_chan_ne :: ProtoNonEmpty Channel
}.
