(* ===== verification/ClientChain.v ===== *)
(** * A chain with the three light clients

    The environment of the keepers with the clients of Clients.v in the place of the
    light-client interface: what remains a parameter is what is not in this
    repository.  The laws of the keepers' environment hold of it. *)

From stdpp Require Import gmap strings list.
From Stdlib Require Import ZArith Lia Ascii.
From S2P Require Import Prelude GoStd Host Chain Height Capability Commitment LightClient Merkle Client Localhost ClientTypes TmStore Tendermint TmStoreProofs Solomachine Clients TmProofs ConnTypes ChanTypes Env.

Class HostEnv `{ClientEnv} := {
  he_staking :: StakingKeeper;
  he_upgrade :: UpgradeKeeper;
  he_paths :: UpgradePaths;
  he_owners :: Proto CapabilityOwners;
  he_cparams :: Proto ClientParams;
  he_conn :: Proto ConnectionEnd;
  he_connpaths :: Proto ClientPaths;
  he_connparams :: Proto ConnParams;
  he_chan :: Proto Channel;
  he_storeKey : string;
  he_uint64_of_float : Z → Z
}.

Class HostLaws `{HostEnv} := {
  hl_upgrade :: UpgradeKeeperLaws;
  hl_owners :: ProtoLaws CapabilityOwners;
  hl_cparams :: ProtoLaws ClientParams;
  hl_conn :: ProtoLaws ConnectionEnd;
  hl_conn_ne :: ProtoNonEmpty ConnectionEnd;
  hl_connpaths :: ProtoLaws ClientPaths;
  hl_connparams :: ProtoLaws ConnParams;
  hl_chan :: ProtoLaws Channel;
  hl_chan_ne :: ProtoNonEmpty Channel
}.

#[export] Instance any_env `{HE : HostEnv} : IbcEnv := {|
  env_be := ce_be;
  env_ics23 := ce_ics23;
  env_lc := any_client;
  env_staking := he_staking;
  env_upgrade := he_upgrade;
  env_paths := he_paths;
  env_trust := ce_trust;
  env_owners := he_owners;
  env_cs := ce_cs;
  env_cons := ce_cons;
  env_cparams := he_cparams;
  env_conn := he_conn;
  env_connpaths := he_connpaths;
  env_connparams := he_connparams;
  env_chan := he_chan;
  env_storeKey := he_storeKey;
  env_uint64_of_float := he_uint64_of_float
|}.

#[export] Instance any_laws `{HE : HostEnv, !ClientEnvLaws, !HostLaws} : IbcLaws.
Proof. split; simpl; try apply _. Qed.
