(* ===== verification/Connection.v ===== *)
(** * ICS 03: connections

    Models the connection keeper of src/modules/core/03-connection/keeper:
    its store accessors (keeper.go), the verification of counterparty state
    through the client of a connection (verify.go) and the four-step opening
    handshake (handshake.go), with genesis.go. *)

From stdpp Require Import gmap strings list.
From Stdlib Require Import ZArith Lia Ascii SpecFloat.
From S2P Require Import Prelude GoStd Host Chain Height Capability Commitment LightClient Client ConnTypes ChanTypes Env.

(** ** float64 arithmetic *)

(** [float64(n)], the quotient, and [math.Ceil] as an integer. *)
Definition float64 (n : Z) : spec_float := binary_normalize 53 1024 n 0 false.
Definition float64_div (x y : spec_float) : spec_float := SFdiv 53 1024 x y.
Definition Ceil (f : spec_float) : Z :=
  match f with
  | S754_finite s m e =>
      let v := if s then Z.neg m else Z.pos m in
      if 0 <=? e then v * 2 ^ e else - ((- v) / 2 ^ (- e))
  | _ => 0
  end.

Section keeper.
Context {E : IbcEnv}.

(** ** keeper/keeper.go *)

Definition GetCommitmentPrefix : MerklePrefix := NewMerklePrefix env_storeKey.

Definition GetConnection (connectionID : string) : M (option ConnectionEnd) :=
  ibc_get_proto (ConnectionPath connectionID).

Definition HasConnection (connectionID : string) : M bool :=
  ibc_has (ConnectionPath connectionID).

Definition SetConnection (connectionID : string) (connection : ConnectionEnd) : M () :=
  ibc_set (ConnectionPath connectionID) (Marshal connection).

Definition Conn_GetTimestampAtHeight (ctx : Context) (connection : ConnectionEnd) (height : Height) :
    M Z :=
  clientState ← GetClientState (conn_ClientId connection);
  clientState ← orErr ErrClientNotFound clientState;
  kv ← gets ibc;
  lift (GetTimestampAtHeight ctx kv (ClientStore (conn_ClientId connection)) clientState height).

Definition GetClientConnectionPaths (clientID : string) : M (option (list string)) :=
  clientPaths ← ibc_get_proto (A:=ClientPaths) (ClientConnectionsPath clientID);
  mret (Paths <$> clientPaths).

Definition SetClientConnectionPaths (clientID : string) (paths : list string) : M () :=
  ibc_set (ClientConnectionsPath clientID) (Marshal (mkClientPaths paths)).

Definition GetNextConnectionSequence : M Z :=
  bz ← ibc_get KeyNextConnectionSequence;
  bz ← orPanic (non_empty bz);
  mret (BigEndianToUint64 bz).

Definition SetNextConnectionSequence (sequence : Z) : M () :=
  ibc_set KeyNextConnectionSequence (Uint64ToBigEndian sequence).

Definition GenerateConnectionIdentifier : M string :=
  nextConnSeq ← GetNextConnectionSequence;
  let connectionID := FormatConnectionIdentifier nextConnSeq in
  SetNextConnectionSequence (u64 (nextConnSeq + 1));;
  mret connectionID.

(** The client iteration collects the identifiers; the paths of each are read
    in the same order. *)
Fixpoint collect_paths (clientIDs : list string) : M (list (string * list string)) :=
  match clientIDs with
  | [] => mret []
  | clientID :: l =>
      paths ← GetClientConnectionPaths clientID;
      rest ← collect_paths l;
      mret (match paths with Some p => (clientID, p) :: rest | None => rest end)
  end.

Definition GetAllClientConnectionPaths : M (list (string * list string)) :=
  ids ← IterateClientStates "" (λ clientID _ ids, (ids ++ [clientID], false)) [];
  collect_paths ids.

Definition IterateConnections {X} (cb : IdentifiedConnection → X → X * bool) (acc : X) : M X :=
  entries ← gets (λ s, KVStorePrefixIterator (ibc s) KeyConnectionPrefix);
  iterate entries (λ key value acc,
    connection ← lift (MustUnmarshal value);
    connectionID ← lift (MustParseConnectionPath key);
    mret (cb (NewIdentifiedConnection connectionID connection) acc)) acc.

Definition GetAllConnections : M (list IdentifiedConnection) :=
  IterateConnections (λ connection l, (l ++ [connection], false)) [].

Definition CreateSentinelLocalhostConnection : M () :=
  let counterparty := NewConnCounterparty LocalhostClientID LocalhostConnectionID
    (NewMerklePrefix (KeyPrefix GetCommitmentPrefix)) in
  let connectionEnd := NewConnectionEnd CONN_OPEN LocalhostClientID counterparty
    GetCompatibleVersions 0 in
  SetConnection LocalhostConnectionID connectionEnd.

Definition addConnectionToClient (clientID connectionID : string) : M () :=
  clientState ← GetClientState clientID;
  orErr ErrClientNotFound clientState;;
  conns ← GetClientConnectionPaths clientID;
  SetClientConnectionPaths clientID (default [] conns ++ [connectionID]).

Definition GetConnParams : M ConnParams :=
  bz ← ibc_get ConnParamsKey;
  bz ← orPanic bz;
  lift (MustUnmarshal bz).

Definition SetConnParams (params : ConnParams) : M () :=
  ibc_set ConnParamsKey (Marshal params).

(** ** keeper/verify.go *)

(** The whole IBC store for the localhost client, its own store for others. *)
Definition getClientStateAndVerificationStore (clientID : string) : M (ClientState * Store) :=
  clientState ← GetClientState clientID;
  clientState ← orErr ErrClientNotFound clientState;
  mret (clientState,
    if bool_decide (clientID = LocalhostClientID) then "" else ClientStore clientID).

Definition block_delay (timeDelay expectedTimePerBlock : Z) : Z :=
  let v := Ceil (float64_div (float64 timeDelay) (float64 expectedTimePerBlock)) in
  if (0 <=? v) && (v <=? MaxUint64) then v else env_uint64_of_float v.

Definition getBlockDelay (connection : ConnectionEnd) : M Z :=
  params ← GetConnParams;
  let expectedTimePerBlock := MaxExpectedTimePerBlock params in
  if expectedTimePerBlock =? 0 then mret 0
  else mret (block_delay (conn_DelayPeriod connection) expectedTimePerBlock).

(** What the [Verify...] methods have in common: the client of the connection,
    which has to be active, checks the proof at a path below the prefix of the
    counterparty, with the delays [delays] reads. *)
Definition verify_through (ctx : Context) (connection : ConnectionEnd) (delays : M (Z * Z))
    (path : string)
    (verify : ClientState → Store → Z → Z → MerklePath → SM ()) : M () :=
  let clientID := conn_ClientId connection in
  '(clientState, clientStore) ← getClientStateAndVerificationStore clientID;
  status ← GetClientStatus ctx clientState clientID;
  require (bool_decide (status = Active)) ErrClientNotActive;;
  '(timeDelay, blockDelay) ← delays;
  merklePath ← lift (ApplyPrefix (cpc_Prefix (conn_Counterparty connection)) (NewMerklePath [path]));
  on_ibc (verify clientState clientStore timeDelay blockDelay merklePath).

(** No delay for the handshakes; for packets, those of the connection. *)
Definition no_delay : M (Z * Z) := mret (0, 0).
Definition packet_delay (connection : ConnectionEnd) : M (Z * Z) :=
  blockDelay ← getBlockDelay connection;
  mret (conn_DelayPeriod connection, blockDelay).

Definition verify_member (ctx : Context) (height : Height) (proof value : bytes) :
    ClientState → Store → Z → Z → MerklePath → SM () :=
  λ clientState clientStore timeDelay blockDelay merklePath,
    VerifyMembership ctx clientStore clientState height timeDelay blockDelay proof merklePath value.

Definition VerifyClientState (ctx : Context) (connection : ConnectionEnd) (height : Height)
    (proof : bytes) (clientState : ClientState) : M () :=
  verify_through ctx connection no_delay
    (FullClientStatePath (cpc_ClientId (conn_Counterparty connection)))
    (verify_member ctx height proof (Marshal clientState)).

Definition VerifyClientConsensusState (ctx : Context) (connection : ConnectionEnd) (height : Height)
    (consensusHeight : Height) (proof : bytes) (consensusState : ConsensusState) : M () :=
  verify_through ctx connection no_delay
    (FullConsensusStatePath (cpc_ClientId (conn_Counterparty connection))
       (Height_String consensusHeight))
    (verify_member ctx height proof (Marshal consensusState)).

Definition VerifyConnectionState (ctx : Context) (connection : ConnectionEnd) (height : Height)
    (proof : bytes) (connectionID : string) (counterpartyConnection : ConnectionEnd) : M () :=
  verify_through ctx connection no_delay (ConnectionPath connectionID)
    (verify_member ctx height proof (Marshal counterpartyConnection)).

Definition VerifyChannelState (ctx : Context) (connection : ConnectionEnd) (height : Height)
    (proof : bytes) (portID channelID : string) (channel : Channel) : M () :=
  verify_through ctx connection no_delay (ChannelPath portID channelID)
    (verify_member ctx height proof (Marshal channel)).

Definition VerifyPacketCommitment (ctx : Context) (connection : ConnectionEnd) (height : Height)
    (proof : bytes) (portID channelID : string) (sequence : Z) (commitmentBytes : bytes) : M () :=
  verify_through ctx connection (packet_delay connection)
    (PacketCommitmentPath portID channelID sequence)
    (verify_member ctx height proof commitmentBytes).

Definition VerifyPacketAcknowledgement (ctx : Context) (connection : ConnectionEnd) (height : Height)
    (proof : bytes) (portID channelID : string) (sequence : Z) (acknowledgement : bytes) : M () :=
  verify_through ctx connection (packet_delay connection)
    (PacketAcknowledgementPath portID channelID sequence)
    (verify_member ctx height proof (CommitAcknowledgement acknowledgement)).

Definition VerifyPacketReceiptAbsence (ctx : Context) (connection : ConnectionEnd) (height : Height)
    (proof : bytes) (portID channelID : string) (sequence : Z) : M () :=
  verify_through ctx connection (packet_delay connection)
    (PacketReceiptPath portID channelID sequence)
    (λ clientState clientStore timeDelay blockDelay merklePath,
       VerifyNonMembership ctx clientStore clientState height timeDelay blockDelay proof merklePath).

Definition VerifyNextSequenceRecv (ctx : Context) (connection : ConnectionEnd) (height : Height)
    (proof : bytes) (portID channelID : string) (nextSequenceRecv : Z) : M () :=
  verify_through ctx connection (packet_delay connection) (NextSequenceRecvPath portID channelID)
    (verify_member ctx height proof (Uint64ToBigEndian nextSequenceRecv)).

(** ** keeper/handshake.go *)

Definition ConnOpenInit (ctx : Context) (clientID : string) (counterparty : ConnCounterparty)
    (version : option Version) (delayPeriod : Z) : M string :=
  versions ← match version with
    | Some version =>
        require (IsSupportedVersion GetCompatibleVersions version) ErrInvalidVersion;;
        mret [version]
    | None => mret GetCompatibleVersions
    end;
  clientState ← GetClientState clientID;
  clientState ← orErr ErrClientNotFound clientState;
  status ← GetClientStatus ctx clientState clientID;
  require (bool_decide (status = Active)) ErrClientNotActive;;
  connectionID ← GenerateConnectionIdentifier;
  addConnectionToClient clientID connectionID;;
  let connection := NewConnectionEnd CONN_INIT clientID counterparty versions delayPeriod in
  SetConnection connectionID connection;;
  mret connectionID.

Definition ConnOpenTry (ctx : Context) (counterparty : ConnCounterparty) (delayPeriod : Z)
    (clientID : string) (clientState : ClientState) (counterpartyVersions : list Version)
    (proofInit proofClient proofConsensus : bytes) (proofHeight consensusHeight : Height) : M string :=
  connectionID ← GenerateConnectionIdentifier;
  selfHeight ← lift (GetSelfHeight ctx);
  require (negb (GTE consensusHeight selfHeight)) ErrInvalidHeightIbc;;
  ValidateSelfClient ctx clientState;;
  expectedConsensusState ← GetSelfConsensusState ctx consensusHeight;
  let prefix := GetCommitmentPrefix in
  let expectedCounterparty := NewConnCounterparty clientID "" (NewMerklePrefix (KeyPrefix prefix)) in
  let expectedConnection := NewConnectionEnd CONN_INIT (cpc_ClientId counterparty)
    expectedCounterparty counterpartyVersions delayPeriod in
  version ← lift (PickVersion GetCompatibleVersions counterpartyVersions);
  let connection := NewConnectionEnd CONN_TRYOPEN clientID counterparty [version] delayPeriod in
  VerifyConnectionState ctx connection proofHeight proofInit (cpc_ConnectionId counterparty)
    expectedConnection;;
  VerifyClientState ctx connection proofHeight proofClient clientState;;
  VerifyClientConsensusState ctx connection proofHeight consensusHeight proofConsensus
    expectedConsensusState;;
  addConnectionToClient clientID connectionID;;
  SetConnection connectionID connection;;
  mret connectionID.

Definition ConnOpenAck (ctx : Context) (connectionID : string) (clientState : ClientState)
    (version : Version) (counterpartyConnectionID : string)
    (proofTry proofClient proofConsensus : bytes) (proofHeight consensusHeight : Height) : M () :=
  selfHeight ← lift (GetSelfHeight ctx);
  require (negb (GTE consensusHeight selfHeight)) ErrInvalidHeightIbc;;
  connection ← GetConnection connectionID;
  connection ← orErr ErrConnectionNotFound connection;
  require (bool_decide (conn_State connection = CONN_INIT)) ErrInvalidConnectionState;;
  require (IsSupportedVersion (conn_Versions connection) version) ErrInvalidConnectionState;;
  ValidateSelfClient ctx clientState;;
  expectedConsensusState ← GetSelfConsensusState ctx consensusHeight;
  let prefix := GetCommitmentPrefix in
  let expectedCounterparty := NewConnCounterparty (conn_ClientId connection) connectionID
    (NewMerklePrefix (KeyPrefix prefix)) in
  let expectedConnection := NewConnectionEnd CONN_TRYOPEN
    (cpc_ClientId (conn_Counterparty connection)) expectedCounterparty [version]
    (conn_DelayPeriod connection) in
  VerifyConnectionState ctx connection proofHeight proofTry counterpartyConnectionID
    expectedConnection;;
  VerifyClientState ctx connection proofHeight proofClient clientState;;
  VerifyClientConsensusState ctx connection proofHeight consensusHeight proofConsensus
    expectedConsensusState;;
  SetConnection connectionID (mkConnectionEnd (conn_ClientId connection) [version] CONN_OPEN
    (mkConnCounterparty (cpc_ClientId (conn_Counterparty connection)) counterpartyConnectionID
       (cpc_Prefix (conn_Counterparty connection)))
    (conn_DelayPeriod connection)).

Definition ConnOpenConfirm (ctx : Context) (connectionID : string) (proofAck : bytes)
    (proofHeight : Height) : M () :=
  connection ← GetConnection connectionID;
  connection ← orErr ErrConnectionNotFound connection;
  require (bool_decide (conn_State connection = CONN_TRYOPEN)) ErrInvalidConnectionState;;
  let prefix := GetCommitmentPrefix in
  let expectedCounterparty := NewConnCounterparty (conn_ClientId connection) connectionID
    (NewMerklePrefix (KeyPrefix prefix)) in
  let expectedConnection := NewConnectionEnd CONN_OPEN
    (cpc_ClientId (conn_Counterparty connection)) expectedCounterparty (conn_Versions connection)
    (conn_DelayPeriod connection) in
  VerifyConnectionState ctx connection proofHeight proofAck
    (cpc_ConnectionId (conn_Counterparty connection)) expectedConnection;;
  SetConnection connectionID (mkConnectionEnd (conn_ClientId connection) (conn_Versions connection)
    CONN_OPEN (conn_Counterparty connection) (conn_DelayPeriod connection)).

(** ** genesis.go *)

Record ConnGenesis := mkConnGenesis {
  cgs_Connections : list IdentifiedConnection;
  cgs_ClientConnectionPaths : list (string * list string);
  cgs_NextConnectionSequence : Z;
  cgs_Params : ConnParams
}.

Definition Conn_InitGenesis (gs : ConnGenesis) : M () :=
  for_each (cgs_Connections gs) (λ ic, SetConnection (ic_Id ic) (ic_Connection ic));;
  for_each (cgs_ClientConnectionPaths gs) (λ '(clientID, paths),
    SetClientConnectionPaths clientID paths);;
  SetNextConnectionSequence (cgs_NextConnectionSequence gs);;
  SetConnParams (cgs_Params gs);;
  CreateSentinelLocalhostConnection.

Definition Conn_ExportGenesis : M ConnGenesis :=
  connections ← GetAllConnections;
  paths ← GetAllClientConnectionPaths;
  next ← GetNextConnectionSequence;
  params ← GetConnParams;
  mret (mkConnGenesis connections paths next params).

End keeper.
