(* ===== verification/Channel.v ===== *)
(** * ICS 04: the channel keeper's store

    Models src/modules/core/04-channel/keeper/keeper.go: the accessors of channel
    ends, sequence counters, commitments, receipts and acknowledgements, the
    iterations over them, and genesis.go. *)

From stdpp Require Import gmap strings list.
From Stdlib Require Import ZArith Lia Ascii.
From S2P Require Import Prelude GoStd Host Chain Height Capability Port Commitment LightClient Client ConnTypes ChanTypes Env Connection.

Section keeper.
Context {E : IbcEnv}.

Definition HasChannel (portID channelID : string) : M bool := ibc_has (ChannelPath portID channelID).

Definition GetChannel (portID channelID : string) : M (option Channel) :=
  ibc_get_proto (ChannelPath portID channelID).

Definition SetChannel (portID channelID : string) (channel : Channel) : M () :=
  ibc_set (ChannelPath portID channelID) (Marshal channel).

Definition GetAppVersion (portID channelID : string) : M (option string) :=
  channel ← GetChannel portID channelID;
  mret (ch_Version <$> channel).

Definition GetNextChannelSequence : M Z :=
  bz ← ibc_get KeyNextChannelSequence;
  bz ← orPanic (non_empty bz);
  mret (BigEndianToUint64 bz).

Definition SetNextChannelSequence (sequence : Z) : M () :=
  ibc_set KeyNextChannelSequence (Uint64ToBigEndian sequence).

Definition GenerateChannelIdentifier : M string :=
  nextChannelSeq ← GetNextChannelSequence;
  let channelID := FormatChannelIdentifier nextChannelSeq in
  SetNextChannelSequence (u64 (nextChannelSeq + 1));;
  mret channelID.

(** Read a counter: absent or empty is not found. *)
Definition get_counter (k : string) : M (option Z) :=
  bz ← ibc_get k;
  mret (BigEndianToUint64 <$> non_empty bz).

Definition GetNextSequenceSend (portID channelID : string) : M (option Z) :=
  get_counter (NextSequenceSendPath portID channelID).
Definition SetNextSequenceSend (portID channelID : string) (sequence : Z) : M () :=
  ibc_set (NextSequenceSendPath portID channelID) (Uint64ToBigEndian sequence).

Definition GetNextSequenceRecv (portID channelID : string) : M (option Z) :=
  get_counter (NextSequenceRecvPath portID channelID).
Definition SetNextSequenceRecv (portID channelID : string) (sequence : Z) : M () :=
  ibc_set (NextSequenceRecvPath portID channelID) (Uint64ToBigEndian sequence).

Definition GetNextSequenceAck (portID channelID : string) : M (option Z) :=
  get_counter (NextSequenceAckPath portID channelID).
Definition SetNextSequenceAck (portID channelID : string) (sequence : Z) : M () :=
  ibc_set (NextSequenceAckPath portID channelID) (Uint64ToBigEndian sequence).

Definition GetPacketReceipt (portID channelID : string) (sequence : Z) : M (option string) :=
  bz ← ibc_get (PacketReceiptPath portID channelID sequence);
  mret (non_empty bz).

(** The stored receipt is one byte, 1. *)
Definition receipt_value : bytes := String (Ascii.ascii_of_nat 1) "".
Definition SetPacketReceipt (portID channelID : string) (sequence : Z) : M () :=
  ibc_set (PacketReceiptPath portID channelID sequence) receipt_value.

(** A nil slice is [None]. *)
Definition GetPacketCommitment (portID channelID : string) (sequence : Z) : M (option bytes) :=
  ibc_get (PacketCommitmentPath portID channelID sequence).
Definition HasPacketCommitment (portID channelID : string) (sequence : Z) : M bool :=
  ibc_has (PacketCommitmentPath portID channelID sequence).
Definition SetPacketCommitment (portID channelID : string) (sequence : Z) (commitmentHash : bytes) :
    M () :=
  ibc_set (PacketCommitmentPath portID channelID sequence) commitmentHash.
Definition deletePacketCommitment (portID channelID : string) (sequence : Z) : M () :=
  ibc_delete (PacketCommitmentPath portID channelID sequence).

Definition SetPacketAcknowledgement (portID channelID : string) (sequence : Z) (ackHash : bytes) : M () :=
  ibc_set (PacketAcknowledgementPath portID channelID sequence) ackHash.
Definition GetPacketAcknowledgement (portID channelID : string) (sequence : Z) : M (option bytes) :=
  bz ← ibc_get (PacketAcknowledgementPath portID channelID sequence);
  mret (non_empty bz).
Definition HasPacketAcknowledgement (portID channelID : string) (sequence : Z) : M bool :=
  ibc_has (PacketAcknowledgementPath portID channelID sequence).

(** ** Iterations *)

(** [PacketSequence] and [PacketState] of the genesis types. *)
Record PacketSequence := mkPacketSequence { ps_PortId : string; ps_ChannelId : string; ps_Sequence : Z }.
Record PacketState := mkPacketState {
  pst_PortId : string; pst_ChannelId : string; pst_Sequence : Z; pst_Data : bytes }.

(** The iteration ends at the first key that is not a channel key. *)
Definition IteratePacketSequence {X} (entries : list (string * bytes))
    (cb : string → string → Z → X → X * bool) (acc : X) : M X :=
  iterate entries (λ key value acc,
    match ParseChannelPath key with
    | Ok (portID, channelID) => mret (cb portID channelID (BigEndianToUint64 value) acc)
    | _ => mret (acc, true)
    end) acc.

Definition collect_seqs (prefix : string) : M (list PacketSequence) :=
  entries ← gets (λ s, KVStorePrefixIterator (ibc s) prefix);
  IteratePacketSequence entries (λ portID channelID n l,
    (l ++ [mkPacketSequence portID channelID n], false)) [].

Definition GetAllPacketSendSeqs : M (list PacketSequence) := collect_seqs KeyNextSeqSendPrefix.
Definition GetAllPacketRecvSeqs : M (list PacketSequence) := collect_seqs KeyNextSeqRecvPrefix.
Definition GetAllPacketAckSeqs : M (list PacketSequence) := collect_seqs KeyNextSeqAckPrefix.

(** Indexing the split key out of range panics, and so does a last part that is
    not a 64-bit number. *)
Definition iterateHashes {X} (entries : list (string * bytes))
    (cb : string → string → Z → bytes → X → X * bool) (acc : X) : M X :=
  iterate entries (λ key value acc,
    let keySplit := Split key "/" in
    portID ← orPanic (keySplit !! 2%nat);
    channelID ← orPanic (keySplit !! 4%nat);
    sequence ← orPanic (ParseUint (List.last keySplit ""));
    mret (cb portID channelID sequence value acc)) acc.

Definition collect_hashes (prefix : string) : M (list PacketState) :=
  entries ← gets (λ s, KVStorePrefixIterator (ibc s) prefix);
  iterateHashes entries (λ portID channelID n v l,
    (l ++ [mkPacketState portID channelID n v], false)) [].

Definition GetAllPacketCommitments : M (list PacketState) := collect_hashes KeyPacketCommitmentPrefix.
Definition GetAllPacketReceipts : M (list PacketState) := collect_hashes KeyPacketReceiptPrefix.
Definition GetAllPacketAcks : M (list PacketState) := collect_hashes KeyPacketAckPrefix.

Definition GetAllPacketCommitmentsAtChannel (portID channelID : string) : M (list PacketState) :=
  entries ← gets (λ s, KVStorePrefixIterator (ibc s) (PacketCommitmentPrefixPath portID channelID));
  iterateHashes entries (λ _ _ n v l, (l ++ [mkPacketState portID channelID n v], false)) [].

Definition iterate_channels {X} (prefix : string) (cb : IdentifiedChannel → X → X * bool) (acc : X) :
    M X :=
  entries ← gets (λ s, KVStorePrefixIterator (ibc s) prefix);
  iterate entries (λ key value acc,
    channel ← lift (MustUnmarshal value);
    '(portID, channelID) ← lift (MustParseChannelPath key);
    mret (cb (NewIdentifiedChannel portID channelID channel) acc)) acc.

Definition IterateChannels {X} (cb : IdentifiedChannel → X → X * bool) (acc : X) : M X :=
  iterate_channels KeyChannelEndPrefix cb acc.

Definition GetAllChannels : M (list IdentifiedChannel) :=
  IterateChannels (λ channel l, (l ++ [channel], false)) [].

Definition GetAllChannelsWithPortPrefix (portPrefix : string) : M (list IdentifiedChannel) :=
  if is_blank portPrefix then GetAllChannels
  else iterate_channels (FilteredPortPrefix portPrefix) (λ channel l, (l ++ [channel], false)) [].

(** ** What a channel is built on *)

(** [hops[0]]. *)
Definition hop0 (hops : list string) : M string := orPanic (head hops).

Definition GetChannelClientState (portID channelID : string) : M (string * ClientState) :=
  channel ← GetChannel portID channelID;
  channel ← orErr ErrChannelNotFound channel;
  hop ← hop0 (ch_ConnectionHops channel);
  connection ← GetConnection hop;
  connection ← orErr ErrConnectionNotFound connection;
  clientState ← GetClientState (conn_ClientId connection);
  clientState ← orErr ErrClientNotFound clientState;
  mret (conn_ClientId connection, clientState).

Definition Channel_GetConnection (connectionID : string) : M ConnectionEnd :=
  connection ← GetConnection connectionID;
  orErr ErrConnectionNotFound connection.

Definition GetChannelConnection (portID channelID : string) : M (string * ConnectionEnd) :=
  channel ← GetChannel portID channelID;
  channel ← orErr ErrChannelNotFound channel;
  connectionID ← hop0 (ch_ConnectionHops channel);
  connection ← GetConnection connectionID;
  connection ← orErr ErrConnectionNotFound connection;
  mret (connectionID, connection).

Definition LookupModuleByChannel (portID channelID : string) : M (string * Capability) :=
  '(modules, capability) ← LookupModules ibcModule (ChannelCapabilityPath portID channelID);
  owner ← lift (GetModuleOwner modules);
  mret (owner, capability).

(** ** genesis.go *)

Record ChanGenesis := mkChanGenesis {
  hgs_Channels : list IdentifiedChannel;
  hgs_Acknowledgements : list PacketState;
  hgs_Commitments : list PacketState;
  hgs_Receipts : list PacketState;
  hgs_SendSequences : list PacketSequence;
  hgs_RecvSequences : list PacketSequence;
  hgs_AckSequences : list PacketSequence;
  hgs_NextChannelSequence : Z
}.

Definition Chan_InitGenesis (gs : ChanGenesis) : M () :=
  for_each (hgs_Channels gs) (λ c, SetChannel (ich_PortId c) (ich_ChannelId c) (ich_Channel c));;
  for_each (hgs_Acknowledgements gs) (λ a,
    SetPacketAcknowledgement (pst_PortId a) (pst_ChannelId a) (pst_Sequence a) (pst_Data a));;
  for_each (hgs_Commitments gs) (λ c,
    SetPacketCommitment (pst_PortId c) (pst_ChannelId c) (pst_Sequence c) (pst_Data c));;
  for_each (hgs_Receipts gs) (λ r,
    SetPacketReceipt (pst_PortId r) (pst_ChannelId r) (pst_Sequence r));;
  for_each (hgs_SendSequences gs) (λ x,
    SetNextSequenceSend (ps_PortId x) (ps_ChannelId x) (ps_Sequence x));;
  for_each (hgs_RecvSequences gs) (λ x,
    SetNextSequenceRecv (ps_PortId x) (ps_ChannelId x) (ps_Sequence x));;
  for_each (hgs_AckSequences gs) (λ x,
    SetNextSequenceAck (ps_PortId x) (ps_ChannelId x) (ps_Sequence x));;
  SetNextChannelSequence (hgs_NextChannelSequence gs).

Definition Chan_ExportGenesis : M ChanGenesis :=
  channels ← GetAllChannels;
  acks ← GetAllPacketAcks;
  commitments ← GetAllPacketCommitments;
  receipts ← GetAllPacketReceipts;
  sends ← GetAllPacketSendSeqs;
  recvs ← GetAllPacketRecvSeqs;
  ackseqs ← GetAllPacketAckSeqs;
  next ← GetNextChannelSequence;
  mret (mkChanGenesis channels acks commitments receipts sends recvs ackseqs next).

End keeper.
