(* ===== verification/Queries.v ===== *)
(** * The queries of the core modules

    Models core/02-client/keeper/grpc_query.go, core/03-connection/keeper/grpc_query.go
    and core/04-channel/keeper/grpc_query.go with the constructors of their responses
    (types/query.go).  A relayer learns from these queries what it has to relay.

    A request is a pointer: a nil request is [None].  Errors of gRPC are errors with the
    code of their status; an error of a keeper that is passed on keeps its own. *)

From stdpp Require Import gmap strings list.
From Stdlib Require Import ZArith Lia Ascii.
From S2P Require Import Prelude GoStd Host Chain Height Capability Port Commitment LightClient Client ConnTypes ChanTypes Env Connection Channel.

(** [status.Error] with codes.InvalidArgument, codes.NotFound and codes.Internal. *)
Definition InvalidArgument : error := mkError "grpc" 3.
Definition NotFound : error := mkError "grpc" 5.
Definition Internal : error := mkError "grpc" 13.

(** [if err != nil { return nil, status.Error(code, err.Error()) }] *)
Definition with_status {A} (code : error) (o : Outcome A) : Outcome A :=
  match o with Err _ => Err code | o => o end.

Definition with_status_m {A} (code : error) (m : M A) : M A :=
  λ s, let '(o, s') := m s in (with_status code o, s').

(** The entries of [prefix.NewStore(store, p)] in the order of an iteration. *)
Definition prefix_view (p : string) (kv : KVStore) : list (string * bytes) :=
  (λ x, (str_drop (String.length p) x.1, x.2)) <$> KVStorePrefixIterator kv p.
Definition prefix_entries (p : string) (s : Chain) : list (string * bytes) := prefix_view p (ibc s).

(** [query.Paginate] and [query.FilteredPaginate] of the SDK: they run a callback over
    the entries of a page, in order; the first error of the callback ends them.  The
    callback of the second says whether the entry counts, and is told whether the entry
    is one of the page. *)
Class Pagination := {
  PageRequest : Type;
  PageResponse : Type;
  Paginate {X} : list (string * bytes) → option PageRequest → (string → bytes → X → Outcome X) → X →
    Outcome (X * PageResponse);
  FilteredPaginate {X} : list (string * bytes) → option PageRequest →
    (string → bytes → bool → X → Outcome (X * bool)) → X → Outcome (X * PageResponse)
}.

Fixpoint visit {X} (l : list (string * bytes)) (cb : string → bytes → X → Outcome X) (acc : X) : Outcome X :=
  match l with
  | [] => Ok acc
  | (k, v) :: l' => acc ← cb k v acc; visit l' cb acc
  end.

(** A page is a part of the entries; without a request the page has a hundred
    entries. *)
Class PaginationLaws `{Pagination} := {
  paginate_page {X} entries req cb (acc x : X) r :
    Paginate entries req cb acc = Ok (x, r) → ∃ page, page ⊆+ entries ∧ visit page cb acc = Ok x;
  paginate_all {X} entries cb (acc x : X) :
    (length entries <= 100)%nat → visit entries cb acc = Ok x → ∃ r, Paginate entries None cb acc = Ok (x, r)
}.

(** x/upgrade. *)
Class UpgradedConsensus := { GetUpgradedConsensusState : Context → Chain → Z → option bytes }.

Section queries.
Context {E : IbcEnv} {PG : Pagination} {UC : UpgradedConsensus}.

(** A response with its proof, which the keepers leave nil, and the height. *)
Record Proved (A : Type) := mkProved { pr_Value : A; pr_Proof : option bytes; pr_ProofHeight : Height }.
#[global] Arguments mkProved {A}.
#[global] Arguments pr_Value {A}.
#[global] Arguments pr_Proof {A}.
#[global] Arguments pr_ProofHeight {A}.

(** A page of values. *)
Record Paged (A : Type) := mkPaged { pg_Values : list A; pg_Pagination : option PageResponse; pg_Height : option Height }.
#[global] Arguments mkPaged {A}.
#[global] Arguments pg_Values {A}.
#[global] Arguments pg_Pagination {A}.
#[global] Arguments pg_Height {A}.

(** ** core/02-client *)

Definition Query_ClientState (ctx : Context) (req : option string) : M (Proved ClientState) :=
  clientId ← orErr InvalidArgument req;
  lift (with_status InvalidArgument (ClientIdentifierValidator clientId));;
  clientState ← GetClientState clientId;
  clientState ← orErr NotFound clientState;
  proofHeight ← lift (GetSelfHeight ctx);
  mret (mkProved clientState None proofHeight).

(** The callback of ClientStates; an entry outside of the page is added too. *)
Definition client_states_cb (key : string) (value : bytes) (accumulate : bool) (clientStates : list (string * ClientState)) :
    Outcome (list (string * ClientState) * bool) :=
  let keySplit := Split key "/" in
  if negb (bool_decide (List.last keySplit "" = "clientState")) then Ok (clientStates, false)
  else
    clientState ← of_option errUnregistered (Unmarshal value);
    clientID ← match keySplit !! 1%nat with Some i => Ok i | None => Panic end;
    ClientIdentifierValidator clientID;;
    Ok (clientStates ++ [(clientID, clientState)], true).

Definition Query_ClientStates (req : option (option PageRequest)) : M (Paged (string * ClientState)) :=
  pagination ← orErr InvalidArgument req;
  entries ← gets (prefix_entries KeyClientStorePrefix);
  '(clientStates, pageRes) ← lift (FilteredPaginate entries pagination client_states_cb []);
  mret (mkPaged (sort_by_id clientStates) (Some pageRes) None).

Record QueryConsensusStateRequest := mkQueryConsensusStateRequest {
  qcs_ClientId : string; qcs_RevisionNumber : Z; qcs_RevisionHeight : Z; qcs_LatestHeight : bool }.

Definition Query_ConsensusState (ctx : Context) (req : option QueryConsensusStateRequest) :
    M (Proved ConsensusState) :=
  req ← orErr InvalidArgument req;
  lift (with_status InvalidArgument (ClientIdentifierValidator (qcs_ClientId req)));;
  let height := NewHeight (qcs_RevisionNumber req) (qcs_RevisionHeight req) in
  consensusState ←
    (if qcs_LatestHeight req then GetLatestClientConsensusState (qcs_ClientId req)
     else
       require (negb (qcs_RevisionHeight req =? 0)) InvalidArgument;;
       GetClientConsensusState (qcs_ClientId req) height);
  consensusState ← orErr NotFound consensusState;
  proofHeight ← lift (GetSelfHeight ctx);
  mret (mkProved consensusState None proofHeight).

(** The heights, and the states with them; keys with a slash are metadata. *)
Definition consensus_entries (clientID : string) : Chain → list (string * bytes) :=
  prefix_entries (FullClientPath clientID (KeyConsensusStatePrefix +:+ "/")).

Definition consensus_states_cb (key : string) (value : bytes) (accumulate : bool)
    (consensusStates : list (Height * ConsensusState)) : Outcome (list (Height * ConsensusState) * bool) :=
  if Contains key "/" then Ok (consensusStates, false)
  else
    height ← ParseHeight key;
    consensusState ← of_option errUnregistered (Unmarshal value);
    Ok (consensusStates ++ [(height, consensusState)], true).

Definition Query_ConsensusStates (req : option (string * option PageRequest)) : M (Paged (Height * ConsensusState)) :=
  '(clientId, pagination) ← orErr InvalidArgument req;
  lift (with_status InvalidArgument (ClientIdentifierValidator clientId));;
  entries ← gets (consensus_entries clientId);
  '(consensusStates, pageRes) ← lift (FilteredPaginate entries pagination consensus_states_cb []);
  mret (mkPaged consensusStates (Some pageRes) None).

Definition consensus_heights_cb (key : string) (value : bytes) (accumulate : bool)
    (consensusStateHeights : list Height) : Outcome (list Height * bool) :=
  if Contains key "/" then Ok (consensusStateHeights, false)
  else
    height ← ParseHeight key;
    Ok (consensusStateHeights ++ [height], true).

Definition Query_ConsensusStateHeights (req : option (string * option PageRequest)) : M (Paged Height) :=
  '(clientId, pagination) ← orErr InvalidArgument req;
  lift (with_status InvalidArgument (ClientIdentifierValidator clientId));;
  entries ← gets (consensus_entries clientId);
  '(consensusStateHeights, pageRes) ← lift (FilteredPaginate entries pagination consensus_heights_cb []);
  mret (mkPaged consensusStateHeights (Some pageRes) None).

Definition Query_ClientStatus (ctx : Context) (req : option string) : M ClientStatus :=
  clientId ← orErr InvalidArgument req;
  lift (with_status InvalidArgument (ClientIdentifierValidator clientId));;
  clientState ← GetClientState clientId;
  clientState ← orErr NotFound clientState;
  GetClientStatus ctx clientState clientId.

Definition Query_ClientParams : M ClientParams := GetClientParams.

Definition Query_UpgradedClientState (ctx : Context) (req : option ()) : M ClientState :=
  orErr InvalidArgument req;;
  plan ← gets (GetUpgradePlan ctx);
  plan ← orErr NotFound plan;
  bz ← gets (λ s, GetUpgradedClient ctx s (Plan_Height plan));
  bz ← orErr NotFound bz;
  orErr Internal (Unmarshal bz).

Definition Query_UpgradedConsensusState (ctx : Context) (req : option ()) : M ConsensusState :=
  orErr InvalidArgument req;;
  bz ← gets (λ s, GetUpgradedConsensusState ctx s (BlockHeight ctx));
  bz ← orErr NotFound bz;
  orErr Internal (Unmarshal bz).

(** ** core/03-connection *)

Definition Query_Connection (ctx : Context) (req : option string) : M (Proved ConnectionEnd) :=
  connectionId ← orErr InvalidArgument req;
  lift (with_status InvalidArgument (ConnectionIdentifierValidator connectionId));;
  connection ← GetConnection connectionId;
  connection ← orErr NotFound connection;
  proofHeight ← lift (GetSelfHeight ctx);
  mret (mkProved connection None proofHeight).

Definition connections_cb (key : string) (value : bytes) (connections : list IdentifiedConnection) :
    Outcome (list IdentifiedConnection) :=
  result ← of_option errUnregistered (Unmarshal value);
  connectionID ← ParseConnectionPath key;
  Ok (connections ++ [NewIdentifiedConnection connectionID result]).

Definition Query_Connections (ctx : Context) (req : option (option PageRequest)) : M (Paged IdentifiedConnection) :=
  pagination ← orErr InvalidArgument req;
  entries ← gets (prefix_entries KeyConnectionPrefix);
  '(connections, pageRes) ← lift (Paginate entries pagination connections_cb []);
  height ← lift (GetSelfHeight ctx);
  mret (mkPaged connections (Some pageRes) (Some height)).

Definition Query_ClientConnections (ctx : Context) (req : option string) : M (Proved (list string)) :=
  clientId ← orErr InvalidArgument req;
  lift (with_status InvalidArgument (ClientIdentifierValidator clientId));;
  clientConnectionPaths ← GetClientConnectionPaths clientId;
  clientConnectionPaths ← orErr NotFound clientConnectionPaths;
  proofHeight ← lift (GetSelfHeight ctx);
  mret (mkProved clientConnectionPaths None proofHeight).

Definition Query_ConnectionClientState (ctx : Context) (req : option string) : M (Proved (string * ClientState)) :=
  connectionId ← orErr InvalidArgument req;
  lift (with_status InvalidArgument (ConnectionIdentifierValidator connectionId));;
  connection ← GetConnection connectionId;
  connection ← orErr NotFound connection;
  clientState ← GetClientState (conn_ClientId connection);
  clientState ← orErr NotFound clientState;
  height ← lift (GetSelfHeight ctx);
  mret (mkProved (conn_ClientId connection, clientState) None height).

Record QueryConnectionConsensusStateRequest := mkQueryConnectionConsensusStateRequest {
  qcc_ConnectionId : string; qcc_RevisionNumber : Z; qcc_RevisionHeight : Z }.

Definition Query_ConnectionConsensusState (ctx : Context) (req : option QueryConnectionConsensusStateRequest) :
    M (Proved (string * ConsensusState)) :=
  req ← orErr InvalidArgument req;
  lift (with_status InvalidArgument (ConnectionIdentifierValidator (qcc_ConnectionId req)));;
  connection ← GetConnection (qcc_ConnectionId req);
  connection ← orErr NotFound connection;
  let height := NewHeight (qcc_RevisionNumber req) (qcc_RevisionHeight req) in
  consensusState ← GetClientConsensusState (conn_ClientId connection) height;
  consensusState ← orErr NotFound consensusState;
  proofHeight ← lift (GetSelfHeight ctx);
  mret (mkProved (conn_ClientId connection, consensusState) None proofHeight).

Definition Query_ConnectionParams : M ConnParams := GetConnParams.

(** ** core/04-channel *)

Definition validategRPCRequest (portID channelID : string) : Outcome () :=
  with_status InvalidArgument (PortIdentifierValidator portID);;
  with_status InvalidArgument (ChannelIdentifierValidator channelID).

Definition Query_Channel (ctx : Context) (req : option (string * string)) : M (Proved Channel) :=
  '(portId, channelId) ← orErr InvalidArgument req;
  lift (validategRPCRequest portId channelId);;
  channel ← GetChannel portId channelId;
  channel ← orErr NotFound channel;
  selfHeight ← lift (GetSelfHeight ctx);
  mret (mkProved channel None selfHeight).

Definition channels_cb (key : string) (value : bytes) (channels : list IdentifiedChannel) :
    Outcome (list IdentifiedChannel) :=
  result ← of_option errUnregistered (Unmarshal value);
  '(portID, channelID) ← ParseChannelPath key;
  Ok (channels ++ [NewIdentifiedChannel portID channelID result]).

Definition Query_Channels (ctx : Context) (req : option (option PageRequest)) : M (Paged IdentifiedChannel) :=
  pagination ← orErr InvalidArgument req;
  entries ← gets (prefix_entries KeyChannelEndPrefix);
  '(channels, pageRes) ← lift (Paginate entries pagination channels_cb []);
  selfHeight ← lift (GetSelfHeight ctx);
  mret (mkPaged channels (Some pageRes) (Some selfHeight)).

(** A channel without hops makes the index panic. *)
Definition connection_channels_cb (connection key : string) (value : bytes) (accumulate : bool)
    (channels : list IdentifiedChannel) : Outcome (list IdentifiedChannel * bool) :=
  result ← of_option errUnregistered (Unmarshal value);
  hop ← match head (ch_ConnectionHops result) with Some h => Ok h | None => Panic end;
  if negb (bool_decide (hop = connection)) then Ok (channels, false)
  else
    '(portID, channelID) ← ParseChannelPath key;
    Ok (channels ++ [NewIdentifiedChannel portID channelID result], true).

Definition Query_ConnectionChannels (ctx : Context) (req : option (string * option PageRequest)) :
    M (Paged IdentifiedChannel) :=
  '(connection, pagination) ← orErr InvalidArgument req;
  lift (with_status InvalidArgument (ConnectionIdentifierValidator connection));;
  entries ← gets (prefix_entries KeyChannelEndPrefix);
  '(channels, pageRes) ← lift (FilteredPaginate entries pagination (connection_channels_cb connection) []);
  selfHeight ← lift (GetSelfHeight ctx);
  mret (mkPaged channels (Some pageRes) (Some selfHeight)).

Definition Query_ChannelClientState (ctx : Context) (req : option (string * string)) :
    M (Proved (string * ClientState)) :=
  '(portId, channelId) ← orErr InvalidArgument req;
  lift (validategRPCRequest portId channelId);;
  identified ← with_status_m NotFound (GetChannelClientState portId channelId);
  selfHeight ← lift (GetSelfHeight ctx);
  mret (mkProved identified None selfHeight).

Record QueryChannelConsensusStateRequest := mkQueryChannelConsensusStateRequest {
  qhc_PortId : string; qhc_ChannelId : string; qhc_RevisionNumber : Z; qhc_RevisionHeight : Z }.

Definition Query_ChannelConsensusState (ctx : Context) (req : option QueryChannelConsensusStateRequest) :
    M (Proved (string * ConsensusState)) :=
  req ← orErr InvalidArgument req;
  lift (validategRPCRequest (qhc_PortId req) (qhc_ChannelId req));;
  channel ← GetChannel (qhc_PortId req) (qhc_ChannelId req);
  channel ← orErr NotFound channel;
  hop ← hop0 (ch_ConnectionHops channel);
  connection ← GetConnection hop;
  connection ← orErr NotFound connection;
  let consHeight := NewHeight (qhc_RevisionNumber req) (qhc_RevisionHeight req) in
  consensusState ← GetClientConsensusState (conn_ClientId connection) consHeight;
  consensusState ← orErr NotFound consensusState;
  selfHeight ← lift (GetSelfHeight ctx);
  mret (mkProved (conn_ClientId connection, consensusState) None selfHeight).

(** A request about one packet. *)
Record PacketQuery := mkPacketQuery { pq_PortId : string; pq_ChannelId : string; pq_Sequence : Z }.

Definition packet_request (req : option PacketQuery) : M PacketQuery :=
  req ← orErr InvalidArgument req;
  lift (validategRPCRequest (pq_PortId req) (pq_ChannelId req));;
  require (negb (pq_Sequence req =? 0)) InvalidArgument;;
  mret req.

Definition Query_PacketCommitment (ctx : Context) (req : option PacketQuery) : M (Proved bytes) :=
  req ← packet_request req;
  commitmentBz ← GetPacketCommitment (pq_PortId req) (pq_ChannelId req) (pq_Sequence req);
  commitmentBz ← orErr NotFound (non_empty commitmentBz);
  selfHeight ← lift (GetSelfHeight ctx);
  mret (mkProved commitmentBz None selfHeight).

(** The callback over commitments and acknowledgements. *)
Definition packet_states_cb (portId channelId key : string) (value : bytes) (l : list PacketState) :
    Outcome (list PacketState) :=
  sequence ← of_option errUnregistered (ParseUint (List.last (Split key "/") ""));
  Ok (l ++ [mkPacketState portId channelId sequence value]).

Definition Query_PacketCommitments (ctx : Context) (req : option (string * string * option PageRequest)) :
    M (Paged PacketState) :=
  '(portId, channelId, pagination) ← orErr InvalidArgument req;
  lift (validategRPCRequest portId channelId);;
  entries ← gets (prefix_entries (PacketCommitmentPrefixPath portId channelId));
  '(commitments, pageRes) ← lift (Paginate entries pagination (packet_states_cb portId channelId) []);
  selfHeight ← lift (GetSelfHeight ctx);
  mret (mkPaged commitments (Some pageRes) (Some selfHeight)).

Definition Query_PacketReceipt (ctx : Context) (req : option PacketQuery) : M (Proved bool) :=
  req ← packet_request req;
  receipt ← GetPacketReceipt (pq_PortId req) (pq_ChannelId req) (pq_Sequence req);
  selfHeight ← lift (GetSelfHeight ctx);
  mret (mkProved (bool_decide (is_Some receipt)) None selfHeight).

Definition Query_PacketAcknowledgement (ctx : Context) (req : option PacketQuery) : M (Proved bytes) :=
  req ← packet_request req;
  acknowledgementBz ← GetPacketAcknowledgement (pq_PortId req) (pq_ChannelId req) (pq_Sequence req);
  acknowledgementBz ← orErr NotFound (non_empty acknowledgementBz);
  selfHeight ← lift (GetSelfHeight ctx);
  mret (mkProved acknowledgementBz None selfHeight).

(** The acknowledgements of the sequences that are asked for. *)
Fixpoint requested_acks (portId channelId : string) (sequences : list Z) : M (list PacketState) :=
  match sequences with
  | [] => mret []
  | seq :: sequences =>
      acknowledgementBz ← GetPacketAcknowledgement portId channelId seq;
      acks ← requested_acks portId channelId sequences;
      mret (match non_empty acknowledgementBz with
            | None => acks
            | Some bz => mkPacketState portId channelId seq bz :: acks
            end)
  end.

Definition Query_PacketAcknowledgements (ctx : Context)
    (req : option (string * string * option PageRequest * list Z)) : M (Paged PacketState) :=
  '(portId, channelId, pagination, sequences) ← orErr InvalidArgument req;
  lift (validategRPCRequest portId channelId);;
  entries ← gets (prefix_entries (PacketAcknowledgementPrefixPath portId channelId));
  acks ← requested_acks portId channelId sequences;
  match sequences with
  | _ :: _ =>
      selfHeight ← lift (GetSelfHeight ctx);
      mret (mkPaged acks None (Some selfHeight))
  | [] =>
      '(acks, pageRes) ← lift (Paginate entries pagination (packet_states_cb portId channelId) acks);
      selfHeight ← lift (GetSelfHeight ctx);
      mret (mkPaged acks (Some pageRes) (Some selfHeight))
  end.

(** The sequences of a list for which a test holds; 0 is an error. *)
Fixpoint filter_sequences (test : Z → M bool) (sequences : list Z) : M (list Z) :=
  match sequences with
  | [] => mret []
  | seq :: sequences =>
      require (negb (seq =? 0)) InvalidArgument;;
      keep ← test seq;
      l ← filter_sequences test sequences;
      mret (if keep : bool then seq :: l else l)
  end.

Definition no_receipt (portId channelId : string) (seq : Z) : M bool :=
  receipt ← GetPacketReceipt portId channelId seq;
  mret (bool_decide (receipt = None)).

Definition Query_UnreceivedPackets (ctx : Context) (req : option (string * string * list Z)) :
    M (list Z * Height) :=
  '(portId, channelId, sequences) ← orErr InvalidArgument req;
  lift (validategRPCRequest portId channelId);;
  channel ← GetChannel portId channelId;
  channel ← orErr NotFound channel;
  unreceivedSequences ←
    match ch_Ordering channel with
    | UNORDERED => filter_sequences (no_receipt portId channelId) sequences
    | ORDERED =>
        nextSequenceRecv ← GetNextSequenceRecv portId channelId;
        nextSequenceRecv ← orErr NotFound nextSequenceRecv;
        filter_sequences (λ seq, mret (nextSequenceRecv <=? seq)) sequences
    | NONE => fail InvalidArgument
    end;
  selfHeight ← lift (GetSelfHeight ctx);
  mret (unreceivedSequences, selfHeight).

Definition has_commitment (portId channelId : string) (seq : Z) : M bool :=
  commitment ← GetPacketCommitment portId channelId seq;
  mret (bool_decide (is_Some (non_empty commitment))).

Definition Query_UnreceivedAcks (ctx : Context) (req : option (string * string * list Z)) : M (list Z * Height) :=
  '(portId, channelId, sequences) ← orErr InvalidArgument req;
  lift (validategRPCRequest portId channelId);;
  unreceivedSequences ← filter_sequences (has_commitment portId channelId) sequences;
  selfHeight ← lift (GetSelfHeight ctx);
  mret (unreceivedSequences, selfHeight).

(** The sequence of an ordered channel; 0 for an unordered one. *)
Definition channel_sequence (ctx : Context) (get : string → string → M (option Z)) (req : option (string * string)) :
    M (Proved Z) :=
  '(portId, channelId) ← orErr InvalidArgument req;
  lift (validategRPCRequest portId channelId);;
  channel ← GetChannel portId channelId;
  channel ← orErr NotFound channel;
  sequence ←
    (if negb (bool_decide (ch_Ordering channel = UNORDERED)) then
       sequence ← get portId channelId;
       orErr NotFound sequence
     else mret 0);
  selfHeight ← lift (GetSelfHeight ctx);
  mret (mkProved sequence None selfHeight).

Definition Query_NextSequenceReceive (ctx : Context) (req : option (string * string)) : M (Proved Z) :=
  channel_sequence ctx GetNextSequenceRecv req.

Definition Query_NextSequenceSend (ctx : Context) (req : option (string * string)) : M (Proved Z) :=
  channel_sequence ctx GetNextSequenceSend req.

End queries.
