(* ===== verification/ChanHandshake.v ===== *)
(** * ICS 04: opening and closing channels

    Models src/modules/core/04-channel/keeper/handshake.go: the four steps of
    the opening handshake, each split as in the code into the check and the
    write the message server makes after the application's callback, and the
    two steps of closing. *)

From stdpp Require Import gmap strings list.
From Stdlib Require Import ZArith Lia Ascii.
From S2P Require Import Prelude GoStd Host Chain Height Capability Port Commitment LightClient Client ConnTypes ChanTypes Env Connection Channel.

Section handshake.
Context {E : IbcEnv}.

(** Some steps share their guards: a single version on the connection that
    supports the ordering, an active client, an open connection. *)
Definition require_ordering (connectionEnd : ConnectionEnd) (order : Order) : M () :=
  match conn_Versions connectionEnd with
  | [version] => require (VerifySupportedFeature version (Order_String order)) ErrInvalidVersion
  | _ => fail ErrInvalidVersion
  end.

Definition require_active_client (ctx : Context) (clientID : string) : M ClientState :=
  clientState ← GetClientState clientID;
  clientState ← orErr ErrClientNotFound clientState;
  status ← GetClientStatus ctx clientState clientID;
  require (bool_decide (status = Active)) ErrClientNotActive;;
  mret clientState.

Definition require_open (connectionEnd : ConnectionEnd) : M () :=
  require (bool_decide (conn_State connectionEnd = CONN_OPEN)) ErrInvalidConnectionState.

Definition channel_connection (channel : Channel) : M ConnectionEnd :=
  hop ← hop0 (ch_ConnectionHops channel);
  connectionEnd ← GetConnection hop;
  orErr ErrConnectionNotFound connectionEnd.

Definition require_chan_cap (chanCap : option Capability) (portID channelID : string) (e : error) : M () :=
  ok ← AuthenticateCapability ibcModule chanCap (ChannelCapabilityPath portID channelID);
  require ok e.

Definition ChanOpenInit (ctx : Context) (order : Order) (connectionHops : list string) (portID : string)
    (portCap : option Capability) (counterparty : Counterparty) (version : string) :
    M (string * Capability) :=
  hop ← hop0 connectionHops;
  connectionEnd ← GetConnection hop;
  connectionEnd ← orErr ErrConnectionNotFound connectionEnd;
  require_ordering connectionEnd order;;
  require_active_client ctx (conn_ClientId connectionEnd);;
  ok ← Port_Authenticate portCap portID;
  require ok ErrInvalidPort;;
  channelID ← GenerateChannelIdentifier;
  capKey ← NewCapability ibcModule (ChannelCapabilityPath portID channelID);
  mret (channelID, capKey).

Definition WriteOpenInitChannel (portID channelID : string) (order : Order)
    (connectionHops : list string) (counterparty : Counterparty) (version : string) : M () :=
  SetChannel portID channelID (NewChannel INIT order counterparty connectionHops version);;
  SetNextSequenceSend portID channelID 1;;
  SetNextSequenceRecv portID channelID 1;;
  SetNextSequenceAck portID channelID 1.

Definition ChanOpenTry (ctx : Context) (order : Order) (connectionHops : list string) (portID : string)
    (portCap : option Capability) (counterparty : Counterparty) (counterpartyVersion : string)
    (proofInit : bytes) (proofHeight : Height) : M (string * Capability) :=
  require (bool_decide (length connectionHops = 1%nat)) ErrTooManyConnectionHops;;
  channelID ← GenerateChannelIdentifier;
  ok ← Port_Authenticate portCap portID;
  require ok ErrInvalidPort;;
  hop ← hop0 connectionHops;
  connectionEnd ← GetConnection hop;
  connectionEnd ← orErr ErrConnectionNotFound connectionEnd;
  require_open connectionEnd;;
  require_ordering connectionEnd order;;
  let counterpartyHops := [cpc_ConnectionId (conn_Counterparty connectionEnd)] in
  let expectedCounterparty := NewCounterparty portID "" in
  let expectedChannel := NewChannel INIT order expectedCounterparty counterpartyHops
    counterpartyVersion in
  VerifyChannelState ctx connectionEnd proofHeight proofInit (cp_PortId counterparty)
    (cp_ChannelId counterparty) expectedChannel;;
  capKey ← NewCapability ibcModule (ChannelCapabilityPath portID channelID);
  mret (channelID, capKey).

Definition WriteOpenTryChannel (portID channelID : string) (order : Order)
    (connectionHops : list string) (counterparty : Counterparty) (version : string) : M () :=
  SetNextSequenceSend portID channelID 1;;
  SetNextSequenceRecv portID channelID 1;;
  SetNextSequenceAck portID channelID 1;;
  SetChannel portID channelID (NewChannel TRYOPEN order counterparty connectionHops version).

Definition ChanOpenAck (ctx : Context) (portID channelID : string) (chanCap : option Capability)
    (counterpartyVersion counterpartyChannelID : string) (proofTry : bytes) (proofHeight : Height) :
    M () :=
  channel ← GetChannel portID channelID;
  channel ← orErr ErrChannelNotFound channel;
  require (bool_decide (ch_State channel = INIT)) ErrInvalidChannelState;;
  require_chan_cap chanCap portID channelID ErrChannelCapabilityNotFound;;
  connectionEnd ← channel_connection channel;
  require_open connectionEnd;;
  let counterpartyHops := [cpc_ConnectionId (conn_Counterparty connectionEnd)] in
  let expectedCounterparty := NewCounterparty portID channelID in
  let expectedChannel := NewChannel TRYOPEN (ch_Ordering channel) expectedCounterparty
    counterpartyHops counterpartyVersion in
  VerifyChannelState ctx connectionEnd proofHeight proofTry (cp_PortId (ch_Counterparty channel))
    counterpartyChannelID expectedChannel.

Definition WriteOpenAckChannel (portID channelID counterpartyVersion counterpartyChannelID : string) :
    M () :=
  channel ← GetChannel portID channelID;
  channel ← orPanic channel;
  SetChannel portID channelID
    (with_cp_channel counterpartyChannelID (with_version counterpartyVersion (with_state OPEN channel))).

Definition ChanOpenConfirm (ctx : Context) (portID channelID : string) (chanCap : option Capability)
    (proofAck : bytes) (proofHeight : Height) : M () :=
  channel ← GetChannel portID channelID;
  channel ← orErr ErrChannelNotFound channel;
  require (bool_decide (ch_State channel = TRYOPEN)) ErrInvalidChannelState;;
  require_chan_cap chanCap portID channelID ErrChannelCapabilityNotFound;;
  connectionEnd ← channel_connection channel;
  require_open connectionEnd;;
  let counterpartyHops := [cpc_ConnectionId (conn_Counterparty connectionEnd)] in
  let counterparty := NewCounterparty portID channelID in
  let expectedChannel := NewChannel OPEN (ch_Ordering channel) counterparty counterpartyHops
    (ch_Version channel) in
  VerifyChannelState ctx connectionEnd proofHeight proofAck (cp_PortId (ch_Counterparty channel))
    (cp_ChannelId (ch_Counterparty channel)) expectedChannel.

Definition WriteOpenConfirmChannel (portID channelID : string) : M () :=
  channel ← GetChannel portID channelID;
  channel ← orPanic channel;
  SetChannel portID channelID (with_state OPEN channel).

Definition ChanCloseInit (ctx : Context) (portID channelID : string) (chanCap : option Capability) :
    M () :=
  require_chan_cap chanCap portID channelID ErrChannelCapabilityNotFound;;
  channel ← GetChannel portID channelID;
  channel ← orErr ErrChannelNotFound channel;
  require (negb (bool_decide (ch_State channel = CLOSED))) ErrInvalidChannelState;;
  connectionEnd ← channel_connection channel;
  require_active_client ctx (conn_ClientId connectionEnd);;
  require_open connectionEnd;;
  SetChannel portID channelID (with_state CLOSED channel).

Definition ChanCloseConfirm (ctx : Context) (portID channelID : string) (chanCap : option Capability)
    (proofInit : bytes) (proofHeight : Height) : M () :=
  require_chan_cap chanCap portID channelID ErrChannelCapabilityNotFound;;
  channel ← GetChannel portID channelID;
  channel ← orErr ErrChannelNotFound channel;
  require (negb (bool_decide (ch_State channel = CLOSED))) ErrInvalidChannelState;;
  connectionEnd ← channel_connection channel;
  require_open connectionEnd;;
  let counterpartyHops := [cpc_ConnectionId (conn_Counterparty connectionEnd)] in
  let counterparty := NewCounterparty portID channelID in
  let expectedChannel := NewChannel CLOSED (ch_Ordering channel) counterparty counterpartyHops
    (ch_Version channel) in
  VerifyChannelState ctx connectionEnd proofHeight proofInit (cp_PortId (ch_Counterparty channel))
    (cp_ChannelId (ch_Counterparty channel)) expectedChannel;;
  SetChannel portID channelID (with_state CLOSED channel).

End handshake.
