(* ===== verification/Packet.v ===== *)
(** * ICS 04: sending, receiving, acknowledging, timing out

    Models src/modules/core/04-channel/keeper/packet.go and timeout.go: the life
    of a packet on the sending and on the receiving chain. *)

From stdpp Require Import gmap strings list.
From Stdlib Require Import ZArith Lia Ascii.
From S2P Require Import Prelude GoStd Sha256 Host Chain Height Capability Port Commitment LightClient Client ConnTypes ChanTypes Env Connection Channel ChanHandshake.

(** The [exported.Acknowledgement] an application returns: whether it reports
    success, and its bytes. *)
Record AppAck := mkAppAck { app_Success : bool; app_Acknowledgement : bytes }.

Section packet.
Context {E : IbcEnv}.

(** ** packet.go *)

Definition SendPacket (ctx : Context) (channelCap : option Capability)
    (sourcePort sourceChannel : string) (timeoutHeight : Height) (timeoutTimestamp : Z) (data : bytes) :
    M Z :=
  channel ← GetChannel sourcePort sourceChannel;
  channel ← orErr ErrChannelNotFound channel;
  require (bool_decide (ch_State channel = OPEN)) ErrInvalidChannelState;;
  require_chan_cap channelCap sourcePort sourceChannel ErrChannelCapabilityNotFound;;
  sequence ← GetNextSequenceSend sourcePort sourceChannel;
  sequence ← orErr ErrSequenceSendNotFound sequence;
  let packet := NewPacket data sequence sourcePort sourceChannel
    (cp_PortId (ch_Counterparty channel)) (cp_ChannelId (ch_Counterparty channel))
    timeoutHeight timeoutTimestamp in
  lift (Packet_ValidateBasic packet);;
  connectionEnd ← channel_connection channel;
  clientState ← require_active_client ctx (conn_ClientId connectionEnd);
  let latestHeight := GetLatestHeight clientState in
  require (negb (negb (IsZero timeoutHeight) && GTE latestHeight timeoutHeight)) ErrPacketTimeout;;
  latestTimestamp ← Conn_GetTimestampAtHeight ctx connectionEnd latestHeight;
  require (negb (negb (TimeoutTimestamp packet =? 0) && (TimeoutTimestamp packet <=? latestTimestamp)))
    ErrPacketTimeout;;
  let commitment := CommitPacket packet in
  SetNextSequenceSend sourcePort sourceChannel (u64 (sequence + 1));;
  SetPacketCommitment sourcePort sourceChannel (Sequence packet) commitment;;
  mret (Sequence packet).

Definition RecvPacket (ctx : Context) (chanCap : option Capability) (packet : Packet) (proof : bytes)
    (proofHeight : Height) : M () :=
  channel ← GetChannel (DestinationPort packet) (DestinationChannel packet);
  channel ← orErr ErrChannelNotFound channel;
  require (bool_decide (ch_State channel = OPEN)) ErrInvalidChannelState;;
  require_chan_cap chanCap (DestinationPort packet) (DestinationChannel packet)
    ErrInvalidChannelCapability;;
  require (bool_decide (SourcePort packet = cp_PortId (ch_Counterparty channel))) ErrInvalidPacket;;
  require (bool_decide (SourceChannel packet = cp_ChannelId (ch_Counterparty channel)))
    ErrInvalidPacket;;
  connectionEnd ← channel_connection channel;
  require_open connectionEnd;;
  selfHeight ← lift (GetSelfHeight ctx);
  let timeoutHeight := TimeoutHeight packet in
  require (negb (negb (IsZero timeoutHeight) && GTE selfHeight timeoutHeight)) ErrPacketTimeout;;
  require (negb (negb (TimeoutTimestamp packet =? 0) && (TimeoutTimestamp packet <=? ctx_time ctx)))
    ErrPacketTimeout;;
  let commitment := CommitPacket packet in
  VerifyPacketCommitment ctx connectionEnd proofHeight proof (SourcePort packet)
    (SourceChannel packet) (Sequence packet) commitment;;
  match ch_Ordering channel with
  | UNORDERED =>
      receipt ← GetPacketReceipt (DestinationPort packet) (DestinationChannel packet) (Sequence packet);
      require (bool_decide (receipt = None)) ErrNoOpMsg;;
      SetPacketReceipt (DestinationPort packet) (DestinationChannel packet) (Sequence packet)
  | ORDERED =>
      nextSequenceRecv ← GetNextSequenceRecv (DestinationPort packet) (DestinationChannel packet);
      nextSequenceRecv ← orErr ErrSequenceReceiveNotFound nextSequenceRecv;
      require (negb (Sequence packet <? nextSequenceRecv)) ErrNoOpMsg;;
      require (Sequence packet =? nextSequenceRecv) ErrPacketSequenceOutOfOrder;;
      SetNextSequenceRecv (DestinationPort packet) (DestinationChannel packet)
        (u64 (nextSequenceRecv + 1))
  | NONE => mret tt
  end.

(** [acknowledgement] is [None] when it is nil. *)
Definition WriteAcknowledgement (chanCap : option Capability) (packet : Packet)
    (acknowledgement : option AppAck) : M () :=
  channel ← GetChannel (DestinationPort packet) (DestinationChannel packet);
  channel ← orErr ErrChannelNotFound channel;
  require (bool_decide (ch_State channel = OPEN)) ErrInvalidChannelState;;
  require_chan_cap chanCap (DestinationPort packet) (DestinationChannel packet)
    ErrInvalidChannelCapability;;
  exists_ ← HasPacketAcknowledgement (DestinationPort packet) (DestinationChannel packet)
    (Sequence packet);
  require (negb exists_) ErrAcknowledgementExists;;
  ack ← orErr ErrInvalidAcknowledgement acknowledgement;
  let bz := app_Acknowledgement ack in
  require (negb (bool_decide (bz = ""))) ErrInvalidAcknowledgement;;
  SetPacketAcknowledgement (DestinationPort packet) (DestinationChannel packet) (Sequence packet)
    (CommitAcknowledgement bz).

(** What AcknowledgePacket, TimeoutPacket and TimeoutOnClose check of a packet
    that was sent: it goes to the counterparty of the channel. *)
Definition require_destination (packet : Packet) (channel : Channel) : M () :=
  require (bool_decide (DestinationPort packet = cp_PortId (ch_Counterparty channel)))
    ErrInvalidPacket;;
  require (bool_decide (DestinationChannel packet = cp_ChannelId (ch_Counterparty channel)))
    ErrInvalidPacket.

Definition AcknowledgePacket (ctx : Context) (chanCap : option Capability) (packet : Packet)
    (acknowledgement proof : bytes) (proofHeight : Height) : M () :=
  channel ← GetChannel (SourcePort packet) (SourceChannel packet);
  channel ← orErr ErrChannelNotFound channel;
  require (bool_decide (ch_State channel = OPEN)) ErrInvalidChannelState;;
  require_chan_cap chanCap (SourcePort packet) (SourceChannel packet) ErrInvalidChannelCapability;;
  require_destination packet channel;;
  connectionEnd ← channel_connection channel;
  require_open connectionEnd;;
  commitment ← GetPacketCommitment (SourcePort packet) (SourceChannel packet) (Sequence packet);
  commitment ← orErr ErrNoOpMsg (non_empty commitment);
  let packetCommitment := CommitPacket packet in
  require (bool_decide (commitment = packetCommitment)) ErrInvalidPacket;;
  VerifyPacketAcknowledgement ctx connectionEnd proofHeight proof (DestinationPort packet)
    (DestinationChannel packet) (Sequence packet) acknowledgement;;
  (if bool_decide (ch_Ordering channel = ORDERED) then
     nextSequenceAck ← GetNextSequenceAck (SourcePort packet) (SourceChannel packet);
     nextSequenceAck ← orErr ErrSequenceAckNotFound nextSequenceAck;
     require (Sequence packet =? nextSequenceAck) ErrPacketSequenceOutOfOrder;;
     SetNextSequenceAck (SourcePort packet) (SourceChannel packet) (u64 (nextSequenceAck + 1))
   else mret tt);;
  deletePacketCommitment (SourcePort packet) (SourceChannel packet) (Sequence packet).

(** ** timeout.go *)

(** The packet was not received: [nextSequenceRecv] does not exceed its sequence
    (ordered channels), or there is no receipt (unordered ones). *)
Definition verify_not_received (ctx : Context) (channel : Channel) (connectionEnd : ConnectionEnd)
    (packet : Packet) (proof : bytes) (proofHeight : Height) (nextSequenceRecv : Z) (e : error) : M () :=
  match ch_Ordering channel with
  | ORDERED =>
      require (negb (Sequence packet <? nextSequenceRecv)) e;;
      VerifyNextSequenceRecv ctx connectionEnd proofHeight proof (DestinationPort packet)
        (DestinationChannel packet) nextSequenceRecv
  | UNORDERED =>
      VerifyPacketReceiptAbsence ctx connectionEnd proofHeight proof (DestinationPort packet)
        (DestinationChannel packet) (Sequence packet)
  | NONE => panic
  end.

Definition TimeoutPacket (ctx : Context) (packet : Packet) (proof : bytes) (proofHeight : Height)
    (nextSequenceRecv : Z) : M () :=
  channel ← GetChannel (SourcePort packet) (SourceChannel packet);
  channel ← orErr ErrChannelNotFound channel;
  require_destination packet channel;;
  connectionEnd ← channel_connection channel;
  proofTimestamp ← Conn_GetTimestampAtHeight ctx connectionEnd proofHeight;
  let timeoutHeight := TimeoutHeight packet in
  require (negb ((IsZero timeoutHeight || LT proofHeight timeoutHeight) &&
                 ((TimeoutTimestamp packet =? 0) || (proofTimestamp <? TimeoutTimestamp packet))))
    ErrPacketTimeout;;
  commitment ← GetPacketCommitment (SourcePort packet) (SourceChannel packet) (Sequence packet);
  commitment ← orErr ErrNoOpMsg (non_empty commitment);
  require (bool_decide (ch_State channel = OPEN)) ErrInvalidChannelState;;
  let packetCommitment := CommitPacket packet in
  require (bool_decide (commitment = packetCommitment)) ErrInvalidPacket;;
  verify_not_received ctx channel connectionEnd packet proof proofHeight nextSequenceRecv
    ErrPacketReceived.

Definition TimeoutExecuted (chanCap : option Capability) (packet : Packet) : M () :=
  channel ← GetChannel (SourcePort packet) (SourceChannel packet);
  channel ← orErr ErrChannelNotFound channel;
  require_chan_cap chanCap (SourcePort packet) (SourceChannel packet) ErrChannelCapabilityNotFound;;
  deletePacketCommitment (SourcePort packet) (SourceChannel packet) (Sequence packet);;
  if bool_decide (ch_Ordering channel = ORDERED) then
    SetChannel (SourcePort packet) (SourceChannel packet) (with_state CLOSED channel)
  else mret tt.

Definition TimeoutOnClose (ctx : Context) (chanCap : option Capability) (packet : Packet)
    (proof proofClosed : bytes) (proofHeight : Height) (nextSequenceRecv : Z) : M () :=
  channel ← GetChannel (SourcePort packet) (SourceChannel packet);
  channel ← orErr ErrChannelNotFound channel;
  require_chan_cap chanCap (SourcePort packet) (SourceChannel packet) ErrInvalidChannelCapability;;
  require_destination packet channel;;
  connectionEnd ← channel_connection channel;
  commitment ← GetPacketCommitment (SourcePort packet) (SourceChannel packet) (Sequence packet);
  commitment ← orErr ErrNoOpMsg (non_empty commitment);
  let packetCommitment := CommitPacket packet in
  require (bool_decide (commitment = packetCommitment)) ErrInvalidPacket;;
  let counterpartyHops := [cpc_ConnectionId (conn_Counterparty connectionEnd)] in
  let counterparty := NewCounterparty (SourcePort packet) (SourceChannel packet) in
  let expectedChannel := NewChannel CLOSED (ch_Ordering channel) counterparty counterpartyHops
    (ch_Version channel) in
  VerifyChannelState ctx connectionEnd proofHeight proofClosed (cp_PortId (ch_Counterparty channel))
    (cp_ChannelId (ch_Counterparty channel)) expectedChannel;;
  verify_not_received ctx channel connectionEnd packet proof proofHeight nextSequenceRecv
    ErrInvalidPacket.

End packet.
