(* ===== verification/MsgServer.v ===== *)
(** * The message server

    Models src/modules/core/keeper/msg_server.go: the handlers of every IBC
    message, which route a message to the keepers and to the callbacks of the
    application that owns the port or channel (the [IBCModule] interface of
    05-port/types/module.go), and the ante decorator of ante/ante.go that
    rejects redundant relays.  The stateless checks of messages
    ([ValidateBasic]) run before a handler and are not part of it. *)

From stdpp Require Import gmap strings list.
From Stdlib Require Import ZArith Lia Ascii.
From S2P Require Import Prelude GoStd Host Chain Height Capability Port Commitment LightClient Client ConnTypes ChanTypes Env Connection Channel ChanHandshake Packet.

(** ** Cached contexts *)

(** Dropping a cached context: the stores are those from before, the Go objects
    outside of them are not restored. *)
Definition rollback (old new : Chain) : Chain :=
  mkChain (ibc old) (capstore old) (memstore old) (capMap new) (heap new) (stores old).

(** Run on a cached context ([ctx.CacheContext]) that is written back only when
    the call returns no error; its error is handed to the caller. *)
Definition cached {A} (m : M A) : M (A + error) := λ s,
  match m s with
  | (Ok a, s') => (Ok (inl a), s')
  | (Err e, s') => (Ok (inr e), rollback s s')
  | (Panic, s') => (Panic, rollback s s')
  end.

(** ** The callbacks of an application *)

Abbreviation Address := string (only parsing).

(** [OnRecvPacket] has no error result: it reports failure in the
    acknowledgement; a nil acknowledgement is [None]. *)
Record IBCModule := mkIBCModule {
  OnChanOpenInit : Context → Order → list string → string → string → option Capability → Counterparty →
    string → M string;
  OnChanOpenTry : Context → Order → list string → string → string → option Capability → Counterparty →
    string → M string;
  OnChanOpenAck : Context → string → string → string → string → M ();
  OnChanOpenConfirm : Context → string → string → M ();
  OnChanCloseInit : Context → string → string → M ();
  OnChanCloseConfirm : Context → string → string → M ();
  OnRecvPacket : Context → Packet → Address → M (option AppAck);
  OnAcknowledgementPacket : Context → Packet → bytes → Address → M ();
  OnTimeoutPacket : Context → Packet → Address → M ()
}.

(** ** Messages *)

Inductive ResponseResultType := RESPONSE_UNSPECIFIED | NOOP | SUCCESS.

#[export] Instance ResponseResultType_eq_dec : EqDecision ResponseResultType.
Proof. solve_decision. Defined.

Record MsgChannelOpenInit := { moi_PortId : string; moi_Channel : Channel; moi_Signer : string }.
Record MsgChannelOpenTry := {
  mot_PortId : string; mot_PreviousChannelId : string; mot_Channel : Channel;
  mot_CounterpartyVersion : string; mot_ProofInit : bytes; mot_ProofHeight : Height; mot_Signer : string }.
Record MsgChannelOpenAck := {
  moa_PortId : string; moa_ChannelId : string; moa_CounterpartyChannelId : string;
  moa_CounterpartyVersion : string; moa_ProofTry : bytes; moa_ProofHeight : Height;
  moa_Signer : string }.
Record MsgChannelOpenConfirm := {
  moc_PortId : string; moc_ChannelId : string; moc_ProofAck : bytes; moc_ProofHeight : Height;
  moc_Signer : string }.
Record MsgChannelCloseInit := { mci_PortId : string; mci_ChannelId : string; mci_Signer : string }.
Record MsgChannelCloseConfirm := {
  mcc_PortId : string; mcc_ChannelId : string; mcc_ProofInit : bytes; mcc_ProofHeight : Height;
  mcc_Signer : string }.
Record MsgRecvPacket := {
  mrp_Packet : Packet; mrp_ProofCommitment : bytes; mrp_ProofHeight : Height; mrp_Signer : string }.
Record MsgTimeout := {
  mto_Packet : Packet; mto_ProofUnreceived : bytes; mto_ProofHeight : Height;
  mto_NextSequenceRecv : Z; mto_Signer : string }.
Record MsgTimeoutOnClose := {
  mtc_Packet : Packet; mtc_ProofUnreceived : bytes; mtc_ProofClose : bytes; mtc_ProofHeight : Height;
  mtc_NextSequenceRecv : Z; mtc_Signer : string }.
Record MsgAcknowledgement := {
  mak_Packet : Packet; mak_Acknowledgement : bytes; mak_ProofAcked : bytes; mak_ProofHeight : Height;
  mak_Signer : string }.

Section server.
Context {E : IbcEnv}.

(** The router of the keeper, its authority, and the SDK's address decoder. *)
Context (rtr : Router IBCModule) (authority : string)
  (AccAddressFromBech32 : string → option Address).

(** *** Clients; the Any values of the messages unpack to [Some] value, or fail. *)

Definition Msg_CreateClient (ctx : Context) (clientState : option ClientState)
    (consensusState : option ConsensusState) : M () :=
  clientState ← orErr ErrUnpackAny clientState;
  consensusState ← orErr ErrUnpackAny consensusState;
  CreateClient ctx clientState (Some consensusState);;
  mret tt.

Definition Msg_UpdateClient (ctx : Context) (clientId : string) (clientMessage : option ClientMessage) :
    M () :=
  clientMsg ← orErr ErrUnpackAny clientMessage;
  UpdateClient ctx clientId (Some clientMsg).

Definition Msg_UpgradeClient (ctx : Context) (clientId : string) (clientState : option ClientState)
    (consensusState : option ConsensusState) (proofUpgradeClient proofUpgradeConsensusState : bytes) :
    M () :=
  upgradedClient ← orErr ErrUnpackAny clientState;
  upgradedConsState ← orErr ErrUnpackAny consensusState;
  UpgradeClient ctx clientId upgradedClient upgradedConsState proofUpgradeClient
    proofUpgradeConsensusState.

Definition Msg_SubmitMisbehaviour (ctx : Context) (clientId : string)
    (misbehaviour : option ClientMessage) : M () :=
  misbehaviour ← orErr ErrUnpackAny misbehaviour;
  UpdateClient ctx clientId (Some misbehaviour).

(** *** Connections *)

Definition Msg_ConnectionOpenInit (ctx : Context) (clientId : string) (counterparty : ConnCounterparty)
    (version : option Version) (delayPeriod : Z) : M () :=
  ConnOpenInit ctx clientId counterparty version delayPeriod;; mret tt.

Definition Msg_ConnectionOpenTry (ctx : Context) (counterparty : ConnCounterparty) (delayPeriod : Z)
    (clientId : string) (clientState : option ClientState) (counterpartyVersions : list Version)
    (proofInit proofClient proofConsensus : bytes) (proofHeight consensusHeight : Height) : M () :=
  targetClient ← orErr ErrUnpackAny clientState;
  ConnOpenTry ctx counterparty delayPeriod clientId targetClient counterpartyVersions proofInit
    proofClient proofConsensus proofHeight consensusHeight;;
  mret tt.

Definition Msg_ConnectionOpenAck (ctx : Context) (connectionId : string)
    (clientState : option ClientState) (version : Version) (counterpartyConnectionId : string)
    (proofTry proofClient proofConsensus : bytes) (proofHeight consensusHeight : Height) : M () :=
  targetClient ← orErr ErrUnpackAny clientState;
  ConnOpenAck ctx connectionId targetClient version counterpartyConnectionId proofTry proofClient
    proofConsensus proofHeight consensusHeight.

Definition Msg_ConnectionOpenConfirm (ctx : Context) (connectionId : string) (proofAck : bytes)
    (proofHeight : Height) : M () :=
  ConnOpenConfirm ctx connectionId proofAck proofHeight.

(** *** Channels *)

Definition route_port (portID : string) : M (IBCModule * Capability) :=
  '(module, portCap) ← LookupModuleByPort portID;
  cbs ← orErr ErrInvalidRoute (GetRoute rtr module);
  mret (cbs, portCap).

Definition route_channel (portID channelID : string) : M (IBCModule * Capability) :=
  '(module, capability) ← LookupModuleByChannel portID channelID;
  cbs ← orErr ErrInvalidRoute (GetRoute rtr module);
  mret (cbs, capability).

Definition Msg_ChannelOpenInit (ctx : Context) (msg : MsgChannelOpenInit) : M (string * string) :=
  let ch := moi_Channel msg in
  '(cbs, portCap) ← route_port (moi_PortId msg);
  '(channelID, capability) ← ChanOpenInit ctx (ch_Ordering ch) (ch_ConnectionHops ch)
    (moi_PortId msg) (Some portCap) (ch_Counterparty ch) (ch_Version ch);
  version ← OnChanOpenInit cbs ctx (ch_Ordering ch) (ch_ConnectionHops ch) (moi_PortId msg) channelID
    (Some capability) (ch_Counterparty ch) (ch_Version ch);
  WriteOpenInitChannel (moi_PortId msg) channelID (ch_Ordering ch) (ch_ConnectionHops ch)
    (ch_Counterparty ch) version;;
  mret (channelID, version).

Definition Msg_ChannelOpenTry (ctx : Context) (msg : MsgChannelOpenTry) : M (string * string) :=
  let ch := mot_Channel msg in
  '(cbs, portCap) ← route_port (mot_PortId msg);
  '(channelID, capability) ← ChanOpenTry ctx (ch_Ordering ch) (ch_ConnectionHops ch)
    (mot_PortId msg) (Some portCap) (ch_Counterparty ch) (mot_CounterpartyVersion msg)
    (mot_ProofInit msg) (mot_ProofHeight msg);
  version ← OnChanOpenTry cbs ctx (ch_Ordering ch) (ch_ConnectionHops ch) (mot_PortId msg) channelID
    (Some capability) (ch_Counterparty ch) (mot_CounterpartyVersion msg);
  WriteOpenTryChannel (mot_PortId msg) channelID (ch_Ordering ch) (ch_ConnectionHops ch)
    (ch_Counterparty ch) version;;
  mret (channelID, version).

Definition Msg_ChannelOpenAck (ctx : Context) (msg : MsgChannelOpenAck) : M () :=
  '(cbs, capability) ← route_channel (moa_PortId msg) (moa_ChannelId msg);
  ChanOpenAck ctx (moa_PortId msg) (moa_ChannelId msg) (Some capability)
    (moa_CounterpartyVersion msg) (moa_CounterpartyChannelId msg) (moa_ProofTry msg)
    (moa_ProofHeight msg);;
  WriteOpenAckChannel (moa_PortId msg) (moa_ChannelId msg) (moa_CounterpartyVersion msg)
    (moa_CounterpartyChannelId msg);;
  OnChanOpenAck cbs ctx (moa_PortId msg) (moa_ChannelId msg) (moa_CounterpartyChannelId msg)
    (moa_CounterpartyVersion msg).

Definition Msg_ChannelOpenConfirm (ctx : Context) (msg : MsgChannelOpenConfirm) : M () :=
  '(cbs, capability) ← route_channel (moc_PortId msg) (moc_ChannelId msg);
  ChanOpenConfirm ctx (moc_PortId msg) (moc_ChannelId msg) (Some capability) (moc_ProofAck msg)
    (moc_ProofHeight msg);;
  WriteOpenConfirmChannel (moc_PortId msg) (moc_ChannelId msg);;
  OnChanOpenConfirm cbs ctx (moc_PortId msg) (moc_ChannelId msg).

Definition Msg_ChannelCloseInit (ctx : Context) (msg : MsgChannelCloseInit) : M () :=
  '(cbs, capability) ← route_channel (mci_PortId msg) (mci_ChannelId msg);
  OnChanCloseInit cbs ctx (mci_PortId msg) (mci_ChannelId msg);;
  ChanCloseInit ctx (mci_PortId msg) (mci_ChannelId msg) (Some capability).

Definition Msg_ChannelCloseConfirm (ctx : Context) (msg : MsgChannelCloseConfirm) : M () :=
  '(cbs, capability) ← route_channel (mcc_PortId msg) (mcc_ChannelId msg);
  OnChanCloseConfirm cbs ctx (mcc_PortId msg) (mcc_ChannelId msg);;
  ChanCloseConfirm ctx (mcc_PortId msg) (mcc_ChannelId msg) (Some capability) (mcc_ProofInit msg)
    (mcc_ProofHeight msg).

(** *** Packets *)

(** The pattern of the packet handlers: verify on a cached context; a redundant
    relay answers NOOP, another error is returned, otherwise go on. *)
Definition unless_redundant (verify : M ()) (continue : M ResponseResultType) : M ResponseResultType :=
  r ← cached verify;
  match r with
  | inl _ => continue
  | inr e => if bool_decide (e = ErrNoOpMsg) then mret NOOP else fail e
  end.

(** The receive callback runs on a cached context that is written back only for
    a nil or successful acknowledgement. *)
Definition run_OnRecvPacket (cbs : IBCModule) (ctx : Context) (packet : Packet) (relayer : Address) :
    M (option AppAck) := λ s,
  match OnRecvPacket cbs ctx packet relayer s with
  | (Ok ack, s') =>
      let keep := match ack with None => true | Some a => app_Success a end in
      (Ok ack, if keep : bool then s' else rollback s s')
  | (_, s') => (Panic, rollback s s')
  end.

Definition Msg_RecvPacket (ctx : Context) (msg : MsgRecvPacket) : M ResponseResultType :=
  relayer ← orErr errUnregistered (AccAddressFromBech32 (mrp_Signer msg));
  let packet := mrp_Packet msg in
  '(cbs, capability) ← route_channel (DestinationPort packet) (DestinationChannel packet);
  unless_redundant
    (RecvPacket ctx (Some capability) packet (mrp_ProofCommitment msg) (mrp_ProofHeight msg))
    (ack ← run_OnRecvPacket cbs ctx packet relayer;
     (match ack with
      | Some a => WriteAcknowledgement (Some capability) packet (Some a)
      | None => mret tt
      end);;
     mret SUCCESS).

Definition Msg_Timeout (ctx : Context) (msg : MsgTimeout) : M ResponseResultType :=
  relayer ← orErr errUnregistered (AccAddressFromBech32 (mto_Signer msg));
  let packet := mto_Packet msg in
  '(cbs, capability) ← route_channel (SourcePort packet) (SourceChannel packet);
  unless_redundant
    (TimeoutPacket ctx packet (mto_ProofUnreceived msg) (mto_ProofHeight msg)
       (mto_NextSequenceRecv msg))
    (OnTimeoutPacket cbs ctx packet relayer;;
     TimeoutExecuted (Some capability) packet;;
     mret SUCCESS).

Definition Msg_TimeoutOnClose (ctx : Context) (msg : MsgTimeoutOnClose) : M ResponseResultType :=
  relayer ← orErr errUnregistered (AccAddressFromBech32 (mtc_Signer msg));
  let packet := mtc_Packet msg in
  '(cbs, capability) ← route_channel (SourcePort packet) (SourceChannel packet);
  unless_redundant
    (TimeoutOnClose ctx (Some capability) packet (mtc_ProofUnreceived msg) (mtc_ProofClose msg)
       (mtc_ProofHeight msg) (mtc_NextSequenceRecv msg))
    (OnTimeoutPacket cbs ctx packet relayer;;
     TimeoutExecuted (Some capability) packet;;
     mret SUCCESS).

Definition Msg_Acknowledgement (ctx : Context) (msg : MsgAcknowledgement) : M ResponseResultType :=
  relayer ← orErr errUnregistered (AccAddressFromBech32 (mak_Signer msg));
  let packet := mak_Packet msg in
  '(cbs, capability) ← route_channel (SourcePort packet) (SourceChannel packet);
  unless_redundant
    (AcknowledgePacket ctx (Some capability) packet (mak_Acknowledgement msg) (mak_ProofAcked msg)
       (mak_ProofHeight msg))
    (OnAcknowledgementPacket cbs ctx packet (mak_Acknowledgement msg) relayer;;
     mret SUCCESS).

(** *** Parameters *)

Definition Msg_UpdateClientParams (msgAuthority : string) (params : ClientParams) : M () :=
  require (bool_decide (authority = msgAuthority)) ErrUnauthorized;;
  SetClientParams params.

Definition Msg_UpdateConnectionParams (msgAuthority : string) (params : ConnParams) : M () :=
  require (bool_decide (authority = msgAuthority)) ErrUnauthorized;;
  SetConnParams params.

(** ** ante/ante.go *)

Inductive TxMsg :=
| TxRecvPacket (msg : MsgRecvPacket)
| TxAcknowledgement (msg : MsgAcknowledgement)
| TxTimeout (msg : MsgTimeout)
| TxTimeoutOnClose (msg : MsgTimeoutOnClose)
| TxUpdateClient (clientId : string) (clientMessage : option ClientMessage)
| TxOther.

Definition ErrRedundantTx : error := mkError "channel" 22.

(** One message of the transaction: [None] for a message of another type. *)
Definition ante_msg (ctx : Context) (m : TxMsg) : option (M (option ResponseResultType)) :=
  match m with
  | TxRecvPacket msg => Some (r ← Msg_RecvPacket ctx msg; mret (Some r))
  | TxAcknowledgement msg => Some (r ← Msg_Acknowledgement ctx msg; mret (Some r))
  | TxTimeout msg => Some (r ← Msg_Timeout ctx msg; mret (Some r))
  | TxTimeoutOnClose msg => Some (r ← Msg_TimeoutOnClose ctx msg; mret (Some r))
  | TxUpdateClient i m => Some (Msg_UpdateClient ctx i m;; mret None)
  | TxOther => None
  end.

Fixpoint ante_loop (ctx : Context) (msgs : list TxMsg) (redundancies packetMsgs : Z) (next : M ()) :
    M () :=
  match msgs with
  | [] => if (redundancies =? packetMsgs) && (0 <? packetMsgs) then fail ErrRedundantTx else next
  | m :: l =>
      match ante_msg ctx m with
      | None => next
      | Some handle =>
          response ← handle;
          match response with
          | Some r => ante_loop ctx l (if bool_decide (r = NOOP) then redundancies + 1 else redundancies)
                        (packetMsgs + 1) next
          | None => ante_loop ctx l redundancies packetMsgs next
          end
      end
  end.

Definition AnteHandle (ctx : Context) (isCheckTx simulate : bool) (msgs : list TxMsg) (next : M ()) :
    M () :=
  if isCheckTx && negb simulate then ante_loop ctx msgs 0 0 next else next.

End server.
