(* ===== verification/CoreMsgs.v ===== *)
(** * The messages of core IBC

    Models the stateless side of the messages: src/modules/core/02-client/types/msgs.go,
    03-connection/types/msgs.go and 04-channel/types/msgs.go.  A transaction is
    checked with [ValidateBasic], its signers are read with [GetSigners], and only
    then is it handed to the message server; [deliver] composes the three.  The Any
    values of client states, consensus states and client messages unpack to [Some]
    value, or fail. *)

From stdpp Require Import gmap strings list.
From Stdlib Require Import ZArith Lia Ascii.
From S2P Require Import Prelude GoStd Host Chain Height Capability Port Commitment LightClient Client ConnTypes ChanTypes Env Connection Channel ChanHandshake Packet MsgServer.

Definition Chan_ErrInvalidCounterparty : error := mkError "channel" 7.
Definition ErrInvalidChannelIdentifier : error := mkError "channel" 18.
Definition ErrInvalidConnectionIdentifier : error := mkError "connection" 11.
Definition ErrInvalidSequence : error := mkError "ibc" 1.

Section messages.
Context {E : IbcEnv} {C : ClientChecks}.
Context (AccAddressFromBech32 : string → option Address).

(** The check of a signer and the reading of it. *)
Definition valid_signer (signer : string) : Outcome () :=
  check (bool_decide (is_Some (AccAddressFromBech32 signer))) ErrInvalidAddress.
Definition signers_of (signer : string) : Outcome (list Address) :=
  match AccAddressFromBech32 signer with Some a => Ok [a] | None => Panic end.

(** [len(bz) == 0] *)
Definition not_empty (bz : bytes) (e : error) : Outcome () := check (negb (bool_decide (bz = ""))) e.

(** ** 02-client *)

Record MsgCreateClient := mkMsgCreateClient {
  mcl_ClientState : option ClientState; mcl_ConsensusState : option ConsensusState; mcl_Signer : string }.
Record MsgUpdateClient := mkMsgUpdateClient {
  mul_ClientId : string; mul_ClientMessage : option ClientMessage; mul_Signer : string }.
Record MsgUpgradeClient := mkMsgUpgradeClient {
  mug_ClientId : string; mug_ClientState : option ClientState; mug_ConsensusState : option ConsensusState;
  mug_ProofUpgradeClient : bytes; mug_ProofUpgradeConsensusState : bytes; mug_Signer : string }.
Record MsgSubmitMisbehaviour := mkMsgSubmitMisbehaviour {
  msm_ClientId : string; msm_Misbehaviour : option ClientMessage; msm_Signer : string }.

Definition MsgCreateClient_ValidateBasic (msg : MsgCreateClient) : Outcome () :=
  valid_signer (mcl_Signer msg);;
  clientState ← of_option ErrUnpackAny (mcl_ClientState msg);
  ClientState_Validate clientState;;
  consensusState ← of_option ErrUnpackAny (mcl_ConsensusState msg);
  check (bool_decide (ClientType clientState = ConsensusState_ClientType consensusState))
    ErrInvalidClientType;;
  ValidateClientType (ClientType clientState);;
  ConsensusState_ValidateBasic consensusState.

Definition MsgUpdateClient_ValidateBasic (msg : MsgUpdateClient) : Outcome () :=
  valid_signer (mul_Signer msg);;
  clientMsg ← of_option ErrUnpackAny (mul_ClientMessage msg);
  ClientMessage_ValidateBasic clientMsg;;
  ClientIdentifierValidator (mul_ClientId msg).

Definition MsgUpgradeClient_ValidateBasic (msg : MsgUpgradeClient) : Outcome () :=
  clientState ← of_option ErrUnpackAny (mug_ClientState msg);
  consensusState ← of_option ErrUnpackAny (mug_ConsensusState msg);
  check (bool_decide (ClientType clientState = ConsensusState_ClientType consensusState))
    ErrInvalidUpgradeClient;;
  not_empty (mug_ProofUpgradeClient msg) ErrInvalidUpgradeClient;;
  not_empty (mug_ProofUpgradeConsensusState msg) ErrInvalidUpgradeClient;;
  valid_signer (mug_Signer msg);;
  ClientIdentifierValidator (mug_ClientId msg).

Definition MsgSubmitMisbehaviour_ValidateBasic (msg : MsgSubmitMisbehaviour) : Outcome () :=
  valid_signer (msm_Signer msg);;
  misbehaviour ← of_option ErrUnpackAny (msm_Misbehaviour msg);
  ClientMessage_ValidateBasic misbehaviour;;
  ClientIdentifierValidator (msm_ClientId msg).

Definition MsgUpdateClientParams_ValidateBasic (msgAuthority : string) (params : ClientParams) : Outcome () :=
  valid_signer msgAuthority;;
  ClientParams_Validate params.

(** ** 03-connection *)

Record MsgConnectionOpenInit := mkMsgConnectionOpenInit {
  cni_ClientId : string; cni_Counterparty : ConnCounterparty; cni_Version : option Version;
  cni_DelayPeriod : Z; cni_Signer : string }.
Record MsgConnectionOpenTry := mkMsgConnectionOpenTry {
  cnt_ClientId : string; cnt_PreviousConnectionId : string; cnt_ClientState : option ClientState;
  cnt_Counterparty : ConnCounterparty; cnt_DelayPeriod : Z; cnt_CounterpartyVersions : list Version;
  cnt_ProofHeight : Height; cnt_ProofInit : bytes; cnt_ProofClient : bytes; cnt_ProofConsensus : bytes;
  cnt_ConsensusHeight : Height; cnt_Signer : string }.
Record MsgConnectionOpenAck := mkMsgConnectionOpenAck {
  cna_ConnectionId : string; cna_CounterpartyConnectionId : string; cna_Version : option Version;
  cna_ClientState : option ClientState; cna_ProofHeight : Height; cna_ProofTry : bytes;
  cna_ProofClient : bytes; cna_ProofConsensus : bytes; cna_ConsensusHeight : Height; cna_Signer : string }.
Record MsgConnectionOpenConfirm := mkMsgConnectionOpenConfirm {
  cnc_ConnectionId : string; cnc_ProofAck : bytes; cnc_ProofHeight : Height; cnc_Signer : string }.

Definition MsgConnectionOpenInit_ValidateBasic (msg : MsgConnectionOpenInit) : Outcome () :=
  check (negb (bool_decide (cni_ClientId msg = LocalhostClientID))) ErrInvalidClientType;;
  ClientIdentifierValidator (cni_ClientId msg);;
  check (bool_decide (cpc_ConnectionId (cni_Counterparty msg) = "")) ErrInvalidCounterparty;;
  (match cni_Version msg with None => Ok tt | Some version => ValidateVersion (Some version) end);;
  valid_signer (cni_Signer msg);;
  ConnCounterparty_ValidateBasic (cni_Counterparty msg).

(** A nil client state and one that does not unpack fail alike. *)
Definition valid_counterparty_client (cs : option ClientState) : Outcome () :=
  clientState ← of_option ErrInvalidClient cs;
  ClientState_Validate clientState.

Definition MsgConnectionOpenTry_ValidateBasic (msg : MsgConnectionOpenTry) : Outcome () :=
  check (negb (bool_decide (cnt_ClientId msg = LocalhostClientID))) ErrInvalidClientType;;
  check (bool_decide (cnt_PreviousConnectionId msg = "")) ErrInvalidConnectionIdentifier;;
  ClientIdentifierValidator (cnt_ClientId msg);;
  ConnectionIdentifierValidator (cpc_ConnectionId (cnt_Counterparty msg));;
  valid_counterparty_client (cnt_ClientState msg);;
  check (negb (bool_decide (cnt_CounterpartyVersions msg = []))) ErrInvalidVersionIbc;;
  validate_versions (cnt_CounterpartyVersions msg);;
  not_empty (cnt_ProofInit msg) ErrInvalidProof;;
  not_empty (cnt_ProofClient msg) ErrInvalidProof;;
  not_empty (cnt_ProofConsensus msg) ErrInvalidProof;;
  check (negb (IsZero (cnt_ConsensusHeight msg))) ErrInvalidHeightIbc;;
  valid_signer (cnt_Signer msg);;
  ConnCounterparty_ValidateBasic (cnt_Counterparty msg).

Definition MsgConnectionOpenAck_ValidateBasic (msg : MsgConnectionOpenAck) : Outcome () :=
  check (IsValidConnectionID (cna_ConnectionId msg)) ErrInvalidConnectionIdentifier;;
  ConnectionIdentifierValidator (cna_CounterpartyConnectionId msg);;
  ValidateVersion (cna_Version msg);;
  valid_counterparty_client (cna_ClientState msg);;
  not_empty (cna_ProofTry msg) ErrInvalidProof;;
  not_empty (cna_ProofClient msg) ErrInvalidProof;;
  not_empty (cna_ProofConsensus msg) ErrInvalidProof;;
  check (negb (IsZero (cna_ConsensusHeight msg))) ErrInvalidHeightIbc;;
  valid_signer (cna_Signer msg).

Definition MsgConnectionOpenConfirm_ValidateBasic (msg : MsgConnectionOpenConfirm) : Outcome () :=
  check (IsValidConnectionID (cnc_ConnectionId msg)) ErrInvalidConnectionIdentifier;;
  not_empty (cnc_ProofAck msg) ErrInvalidProof;;
  valid_signer (cnc_Signer msg).

Definition MsgUpdateConnectionParams_ValidateBasic (msgAuthority : string) (params : ConnParams) : Outcome () :=
  valid_signer msgAuthority;;
  ConnParams_Validate params.

(** ** 04-channel *)

Definition MsgChannelOpenInit_ValidateBasic (msg : MsgChannelOpenInit) : Outcome () :=
  PortIdentifierValidator (moi_PortId msg);;
  check (bool_decide (ch_State (moi_Channel msg) = INIT)) ErrInvalidChannelState;;
  check (bool_decide (cp_ChannelId (ch_Counterparty (moi_Channel msg)) = "")) Chan_ErrInvalidCounterparty;;
  valid_signer (moi_Signer msg);;
  Channel_ValidateBasic (moi_Channel msg).

Definition MsgChannelOpenTry_ValidateBasic (msg : MsgChannelOpenTry) : Outcome () :=
  PortIdentifierValidator (mot_PortId msg);;
  check (bool_decide (mot_PreviousChannelId msg = "")) ErrInvalidChannelIdentifier;;
  not_empty (mot_ProofInit msg) ErrInvalidProof;;
  check (bool_decide (ch_State (mot_Channel msg) = TRYOPEN)) ErrInvalidChannelState;;
  ChannelIdentifierValidator (cp_ChannelId (ch_Counterparty (mot_Channel msg)));;
  valid_signer (mot_Signer msg);;
  Channel_ValidateBasic (mot_Channel msg).

Definition MsgChannelOpenAck_ValidateBasic (msg : MsgChannelOpenAck) : Outcome () :=
  PortIdentifierValidator (moa_PortId msg);;
  check (IsValidChannelID (moa_ChannelId msg)) ErrInvalidChannelIdentifier;;
  ChannelIdentifierValidator (moa_CounterpartyChannelId msg);;
  not_empty (moa_ProofTry msg) ErrInvalidProof;;
  valid_signer (moa_Signer msg).

Definition MsgChannelOpenConfirm_ValidateBasic (msg : MsgChannelOpenConfirm) : Outcome () :=
  PortIdentifierValidator (moc_PortId msg);;
  check (IsValidChannelID (moc_ChannelId msg)) ErrInvalidChannelIdentifier;;
  not_empty (moc_ProofAck msg) ErrInvalidProof;;
  valid_signer (moc_Signer msg).

Definition MsgChannelCloseInit_ValidateBasic (msg : MsgChannelCloseInit) : Outcome () :=
  PortIdentifierValidator (mci_PortId msg);;
  check (IsValidChannelID (mci_ChannelId msg)) ErrInvalidChannelIdentifier;;
  valid_signer (mci_Signer msg).

Definition MsgChannelCloseConfirm_ValidateBasic (msg : MsgChannelCloseConfirm) : Outcome () :=
  PortIdentifierValidator (mcc_PortId msg);;
  check (IsValidChannelID (mcc_ChannelId msg)) ErrInvalidChannelIdentifier;;
  not_empty (mcc_ProofInit msg) ErrInvalidProof;;
  valid_signer (mcc_Signer msg).

Definition MsgRecvPacket_ValidateBasic (msg : MsgRecvPacket) : Outcome () :=
  not_empty (mrp_ProofCommitment msg) ErrInvalidProof;;
  valid_signer (mrp_Signer msg);;
  Packet_ValidateBasic (mrp_Packet msg).

Definition MsgTimeout_ValidateBasic (msg : MsgTimeout) : Outcome () :=
  not_empty (mto_ProofUnreceived msg) ErrInvalidProof;;
  check (negb (mto_NextSequenceRecv msg =? 0)) ErrInvalidSequence;;
  valid_signer (mto_Signer msg);;
  Packet_ValidateBasic (mto_Packet msg).

Definition MsgTimeoutOnClose_ValidateBasic (msg : MsgTimeoutOnClose) : Outcome () :=
  check (negb (mtc_NextSequenceRecv msg =? 0)) ErrInvalidSequence;;
  not_empty (mtc_ProofUnreceived msg) ErrInvalidProof;;
  not_empty (mtc_ProofClose msg) ErrInvalidProof;;
  valid_signer (mtc_Signer msg);;
  Packet_ValidateBasic (mtc_Packet msg).

Definition MsgAcknowledgement_ValidateBasic (msg : MsgAcknowledgement) : Outcome () :=
  not_empty (mak_ProofAcked msg) ErrInvalidProof;;
  not_empty (mak_Acknowledgement msg) ErrInvalidAcknowledgement;;
  valid_signer (mak_Signer msg);;
  Packet_ValidateBasic (mak_Packet msg).

(** *** The constructors *)

Definition NewMsgChannelOpenInit (portID version : string) (channelOrder : Order)
    (connectionHops : list string) (counterpartyPortID signer : string) : MsgChannelOpenInit :=
  let counterparty := mkCounterparty counterpartyPortID "" in
  let channel := mkChannel INIT channelOrder counterparty connectionHops version in
  {| moi_PortId := portID; moi_Channel := channel; moi_Signer := signer |}.

Definition NewMsgChannelOpenTry (portID version : string) (channelOrder : Order)
    (connectionHops : list string) (counterpartyPortID counterpartyChannelID counterpartyVersion : string)
    (proofInit : bytes) (proofHeight : Height) (signer : string) : MsgChannelOpenTry :=
  let counterparty := mkCounterparty counterpartyPortID counterpartyChannelID in
  let channel := mkChannel TRYOPEN channelOrder counterparty connectionHops version in
  {| mot_PortId := portID; mot_PreviousChannelId := ""; mot_Channel := channel;
     mot_CounterpartyVersion := counterpartyVersion; mot_ProofInit := proofInit;
     mot_ProofHeight := proofHeight; mot_Signer := signer |}.

Definition NewMsgConnectionOpenInit (clientID counterpartyClientID : string)
    (counterpartyPrefix : MerklePrefix) (version : option Version) (delayPeriod : Z) (signer : string) :
    MsgConnectionOpenInit :=
  let counterparty := mkConnCounterparty counterpartyClientID "" counterpartyPrefix in
  mkMsgConnectionOpenInit clientID counterparty version delayPeriod signer.

(** ** Delivery *)

Inductive CoreMsg :=
| CreateClientMsg (msg : MsgCreateClient)
| UpdateClientMsg (msg : MsgUpdateClient)
| UpgradeClientMsg (msg : MsgUpgradeClient)
| SubmitMisbehaviourMsg (msg : MsgSubmitMisbehaviour)
| UpdateClientParamsMsg (msgAuthority : string) (params : ClientParams)
| ConnectionOpenInitMsg (msg : MsgConnectionOpenInit)
| ConnectionOpenTryMsg (msg : MsgConnectionOpenTry)
| ConnectionOpenAckMsg (msg : MsgConnectionOpenAck)
| ConnectionOpenConfirmMsg (msg : MsgConnectionOpenConfirm)
| UpdateConnectionParamsMsg (msgAuthority : string) (params : ConnParams)
| ChannelOpenInitMsg (msg : MsgChannelOpenInit)
| ChannelOpenTryMsg (msg : MsgChannelOpenTry)
| ChannelOpenAckMsg (msg : MsgChannelOpenAck)
| ChannelOpenConfirmMsg (msg : MsgChannelOpenConfirm)
| ChannelCloseInitMsg (msg : MsgChannelCloseInit)
| ChannelCloseConfirmMsg (msg : MsgChannelCloseConfirm)
| RecvPacketMsg (msg : MsgRecvPacket)
| TimeoutMsg (msg : MsgTimeout)
| TimeoutOnCloseMsg (msg : MsgTimeoutOnClose)
| AcknowledgementMsg (msg : MsgAcknowledgement).

(** [sdk.Msg]: the stateless check and the signers of a message. *)
Definition ValidateBasic (m : CoreMsg) : Outcome () :=
  match m with
  | CreateClientMsg msg => MsgCreateClient_ValidateBasic msg
  | UpdateClientMsg msg => MsgUpdateClient_ValidateBasic msg
  | UpgradeClientMsg msg => MsgUpgradeClient_ValidateBasic msg
  | SubmitMisbehaviourMsg msg => MsgSubmitMisbehaviour_ValidateBasic msg
  | UpdateClientParamsMsg a params => MsgUpdateClientParams_ValidateBasic a params
  | ConnectionOpenInitMsg msg => MsgConnectionOpenInit_ValidateBasic msg
  | ConnectionOpenTryMsg msg => MsgConnectionOpenTry_ValidateBasic msg
  | ConnectionOpenAckMsg msg => MsgConnectionOpenAck_ValidateBasic msg
  | ConnectionOpenConfirmMsg msg => MsgConnectionOpenConfirm_ValidateBasic msg
  | UpdateConnectionParamsMsg a params => MsgUpdateConnectionParams_ValidateBasic a params
  | ChannelOpenInitMsg msg => MsgChannelOpenInit_ValidateBasic msg
  | ChannelOpenTryMsg msg => MsgChannelOpenTry_ValidateBasic msg
  | ChannelOpenAckMsg msg => MsgChannelOpenAck_ValidateBasic msg
  | ChannelOpenConfirmMsg msg => MsgChannelOpenConfirm_ValidateBasic msg
  | ChannelCloseInitMsg msg => MsgChannelCloseInit_ValidateBasic msg
  | ChannelCloseConfirmMsg msg => MsgChannelCloseConfirm_ValidateBasic msg
  | RecvPacketMsg msg => MsgRecvPacket_ValidateBasic msg
  | TimeoutMsg msg => MsgTimeout_ValidateBasic msg
  | TimeoutOnCloseMsg msg => MsgTimeoutOnClose_ValidateBasic msg
  | AcknowledgementMsg msg => MsgAcknowledgement_ValidateBasic msg
  end.

Definition signer (m : CoreMsg) : string :=
  match m with
  | CreateClientMsg msg => mcl_Signer msg
  | UpdateClientMsg msg => mul_Signer msg
  | UpgradeClientMsg msg => mug_Signer msg
  | SubmitMisbehaviourMsg msg => msm_Signer msg
  | UpdateClientParamsMsg a _ => a
  | ConnectionOpenInitMsg msg => cni_Signer msg
  | ConnectionOpenTryMsg msg => cnt_Signer msg
  | ConnectionOpenAckMsg msg => cna_Signer msg
  | ConnectionOpenConfirmMsg msg => cnc_Signer msg
  | UpdateConnectionParamsMsg a _ => a
  | ChannelOpenInitMsg msg => moi_Signer msg
  | ChannelOpenTryMsg msg => mot_Signer msg
  | ChannelOpenAckMsg msg => moa_Signer msg
  | ChannelOpenConfirmMsg msg => moc_Signer msg
  | ChannelCloseInitMsg msg => mci_Signer msg
  | ChannelCloseConfirmMsg msg => mcc_Signer msg
  | RecvPacketMsg msg => mrp_Signer msg
  | TimeoutMsg msg => mto_Signer msg
  | TimeoutOnCloseMsg msg => mtc_Signer msg
  | AcknowledgementMsg msg => mak_Signer msg
  end.

Definition GetSigners (m : CoreMsg) : Outcome (list Address) := signers_of (signer m).

(** What the chain does with a message of a transaction: the check, the signers
    (whose signatures the SDK verifies), the handler. *)
Section deliver.
Context (rtr : Router IBCModule) (authority : string).

Definition handle (ctx : Context) (m : CoreMsg) : M () :=
  match m with
  | CreateClientMsg msg => Msg_CreateClient ctx (mcl_ClientState msg) (mcl_ConsensusState msg)
  | UpdateClientMsg msg => Msg_UpdateClient ctx (mul_ClientId msg) (mul_ClientMessage msg)
  | UpgradeClientMsg msg =>
      Msg_UpgradeClient ctx (mug_ClientId msg) (mug_ClientState msg) (mug_ConsensusState msg)
        (mug_ProofUpgradeClient msg) (mug_ProofUpgradeConsensusState msg)
  | SubmitMisbehaviourMsg msg => Msg_SubmitMisbehaviour ctx (msm_ClientId msg) (msm_Misbehaviour msg)
  | UpdateClientParamsMsg a params => Msg_UpdateClientParams authority a params
  | ConnectionOpenInitMsg msg =>
      Msg_ConnectionOpenInit ctx (cni_ClientId msg) (cni_Counterparty msg) (cni_Version msg)
        (cni_DelayPeriod msg)
  | ConnectionOpenTryMsg msg =>
      Msg_ConnectionOpenTry ctx (cnt_Counterparty msg) (cnt_DelayPeriod msg) (cnt_ClientId msg)
        (cnt_ClientState msg) (cnt_CounterpartyVersions msg) (cnt_ProofInit msg) (cnt_ProofClient msg)
        (cnt_ProofConsensus msg) (cnt_ProofHeight msg) (cnt_ConsensusHeight msg)
  | ConnectionOpenAckMsg msg =>
      version ← orPanic (cna_Version msg);
      Msg_ConnectionOpenAck ctx (cna_ConnectionId msg) (cna_ClientState msg) version
        (cna_CounterpartyConnectionId msg) (cna_ProofTry msg) (cna_ProofClient msg)
        (cna_ProofConsensus msg) (cna_ProofHeight msg) (cna_ConsensusHeight msg)
  | ConnectionOpenConfirmMsg msg =>
      Msg_ConnectionOpenConfirm ctx (cnc_ConnectionId msg) (cnc_ProofAck msg) (cnc_ProofHeight msg)
  | UpdateConnectionParamsMsg a params => Msg_UpdateConnectionParams authority a params
  | ChannelOpenInitMsg msg => Msg_ChannelOpenInit rtr ctx msg;; mret tt
  | ChannelOpenTryMsg msg => Msg_ChannelOpenTry rtr ctx msg;; mret tt
  | ChannelOpenAckMsg msg => Msg_ChannelOpenAck rtr ctx msg
  | ChannelOpenConfirmMsg msg => Msg_ChannelOpenConfirm rtr ctx msg
  | ChannelCloseInitMsg msg => Msg_ChannelCloseInit rtr ctx msg
  | ChannelCloseConfirmMsg msg => Msg_ChannelCloseConfirm rtr ctx msg
  | RecvPacketMsg msg => Msg_RecvPacket rtr AccAddressFromBech32 ctx msg;; mret tt
  | TimeoutMsg msg => Msg_Timeout rtr AccAddressFromBech32 ctx msg;; mret tt
  | TimeoutOnCloseMsg msg => Msg_TimeoutOnClose rtr AccAddressFromBech32 ctx msg;; mret tt
  | AcknowledgementMsg msg => Msg_Acknowledgement rtr AccAddressFromBech32 ctx msg;; mret tt
  end.

Definition deliver (ctx : Context) (m : CoreMsg) : M () :=
  lift (ValidateBasic m);;
  lift (GetSigners m);;
  handle ctx m.

End deliver.

End messages.
