(* ===== verification/ChanProofs.v ===== *)
(** * What the channel keeper reads and writes

    The values stored for channels, connections, clients and packets as
    functions of the chain, the runs of the accessors in terms of them, and the
    frame of the verification methods: they touch nothing but client stores. *)

From stdpp Require Import gmap strings list.
From Stdlib Require Import ZArith Lia Ascii.
From S2P Require Import Prelude GoStd Sha256 Host Chain Height Capability Port Commitment LightClient Client ConnTypes ChanTypes Env Connection Channel ChanHandshake Packet.

Section readers.
Context {E : IbcEnv}.

(** ** Stored values *)

Definition stored {A} `{Proto A} (k : string) (s : Chain) : option A :=
  non_empty (ibc s !! k) ≫= Unmarshal.
Definition channel_at (p c : string) (s : Chain) : option Channel := stored (ChannelPath p c) s.
Definition connection_at (i : string) (s : Chain) : option ConnectionEnd := stored (ConnectionPath i) s.
Definition client_at (i : string) (s : Chain) : option ClientState :=
  stored (prefixed (ClientStore i) ClientStateKey) s.
Definition counter_at (k : string) (s : Chain) : option Z :=
  BigEndianToUint64 <$> non_empty (ibc s !! k).
Definition next_send (p c : string) (s : Chain) : option Z := counter_at (NextSequenceSendPath p c) s.
Definition next_recv (p c : string) (s : Chain) : option Z := counter_at (NextSequenceRecvPath p c) s.
Definition next_ack (p c : string) (s : Chain) : option Z := counter_at (NextSequenceAckPath p c) s.
Definition commitment_at (p c : string) (n : Z) (s : Chain) : option bytes :=
  ibc s !! PacketCommitmentPath p c n.
Definition receipt_at (p c : string) (n : Z) (s : Chain) : option bytes :=
  ibc s !! PacketReceiptPath p c n.
Definition ack_at (p c : string) (n : Z) (s : Chain) : option bytes :=
  ibc s !! PacketAcknowledgementPath p c n.

(** ** Runs of the accessors *)

Lemma stored_ok {A} `{Proto A} k (o : option A) s s' :
  ibc_get_proto k s = (Ok o, s') → s' = s ∧ stored k s = o.
Proof. apply ibc_get_proto_ok. Qed.

Lemma stored_some {A} `{Proto A} k (a : A) s :
  stored k s = Some a → ibc_get_proto k s = (Ok (Some a), s).
Proof.
  unfold stored, ibc_get_proto, ibc_get, mbind, M_bind, gets, lift, MustUnmarshal.
  destruct (non_empty (ibc s !! k)) as [bz|]; [|done]. simpl. intros ->. done.
Qed.

Lemma get_counter_run k s : get_counter k s = (Ok (counter_at k s), s).
Proof. done. Qed.

Lemma GetClientParams_ro : readonly GetClientParams.
Proof. unfold GetClientParams. ro. Qed.
Lemma GetClientStatus_ro ctx cs i : readonly (GetClientStatus ctx cs i).
Proof. unfold GetClientStatus. pose proof GetClientParams_ro. ro. Qed.
Lemma GetClientState_ro i : readonly (GetClientState i).
Proof. unfold GetClientState. ro. Qed.
Lemma GetConnection_ro i : readonly (GetConnection i).
Proof. unfold GetConnection. ro. Qed.
Lemma GetChannel_ro p c : readonly (GetChannel p c).
Proof. unfold GetChannel. ro. Qed.
Lemma get_counter_ro k : readonly (get_counter k).
Proof. unfold get_counter. ro. Qed.
Lemma GetConnParams_ro : readonly GetConnParams.
Proof. unfold GetConnParams. ro. Qed.
Lemma hop0_ro l : readonly (hop0 l).
Proof. unfold hop0. ro. Qed.

#[local] Hint Resolve GetClientStatus_ro GetClientState_ro GetConnection_ro GetChannel_ro
  get_counter_ro GetConnParams_ro hop0_ro : ro.

Lemma AuthenticateCapability_ro m cap name : readonly (AuthenticateCapability m cap name).
Proof. unfold AuthenticateCapability, GetCapabilityName. ro. Qed.
#[local] Hint Resolve AuthenticateCapability_ro : ro.
Lemma require_chan_cap_ro cap p c e : readonly (require_chan_cap cap p c e).
Proof. unfold require_chan_cap. ro. Qed.
Lemma channel_connection_ro ch : readonly (channel_connection ch).
Proof. unfold channel_connection. ro. Qed.
Lemma require_active_client_ro ctx i : readonly (require_active_client ctx i).
Proof. unfold require_active_client. ro. Qed.
Lemma require_open_ro conn : readonly (require_open conn).
Proof. unfold require_open. ro. Qed.
Lemma require_destination_ro pk ch : readonly (require_destination pk ch).
Proof. unfold require_destination. ro. Qed.
Lemma Conn_GetTimestampAtHeight_ro ctx conn h : readonly (Conn_GetTimestampAtHeight ctx conn h).
Proof. unfold Conn_GetTimestampAtHeight. ro. Qed.
Lemma packet_delay_ro conn : readonly (packet_delay conn).
Proof. unfold packet_delay, getBlockDelay. ro. Qed.
Lemma no_delay_ro : readonly no_delay.
Proof. unfold no_delay. ro. Qed.
Lemma getClientStateAndVerificationStore_ro i : readonly (getClientStateAndVerificationStore i).
Proof. unfold getClientStateAndVerificationStore. ro. Qed.

End readers.

#[export] Hint Resolve GetClientParams_ro GetClientStatus_ro GetClientState_ro GetConnection_ro
  GetChannel_ro get_counter_ro GetConnParams_ro hop0_ro AuthenticateCapability_ro
  require_chan_cap_ro channel_connection_ro require_active_client_ro require_open_ro
  require_destination_ro Conn_GetTimestampAtHeight_ro packet_delay_ro no_delay_ro
  getClientStateAndVerificationStore_ro : ro.
#[export] Hint Unfold GetNextSequenceSend GetNextSequenceRecv GetNextSequenceAck GetPacketReceipt
  GetPacketCommitment HasPacketAcknowledgement SetNextSequenceSend SetNextSequenceRecv
  SetNextSequenceAck SetPacketReceipt SetPacketCommitment SetPacketAcknowledgement
  deletePacketCommitment SetChannel SetConnection : ro.

(** Inversion of a run that succeeded: accessors become equations on the stored
    values, computations that only read leave the chain. *)
Ltac kinv_step :=
  first
  [ minv_step
  | match goal with
    | H : GetChannel _ _ _ = (Ok _, _) |- _ => apply stored_ok in H as [-> H]
    | H : GetConnection _ _ = (Ok _, _) |- _ => apply stored_ok in H as [-> H]
    | H : GetClientState _ _ = (Ok _, _) |- _ => apply stored_ok in H as [-> H]
    | H : get_counter _ _ = (Ok _, _) |- _ =>
        rewrite get_counter_run in H; injection H as ? ?; subst
    | H : ibc_get _ _ = (Ok _, _) |- _ => unfold ibc_get in H
    | H : ibc_has _ _ = (Ok _, _) |- _ => unfold ibc_has in H
    | H : ibc_set _ _ _ = (Ok _, _) |- _ => unfold ibc_set in H
    | H : ibc_delete _ _ = (Ok _, _) |- _ => unfold ibc_delete in H
    | H : ?m ?s = (Ok _, ?s') |- _ =>
        is_var s'; let Hs := fresh in
        assert (s' = s) as Hs by (eapply readonly_ok; [|exact H]; solve [ro]); subst s'
    end ].
Ltac kinv := repeat kinv_step.
