(* ===== verification/PacketProofs.v ===== *)
(** * The packet operations, specified

    For each operation of packet.go and timeout.go: when it succeeds and what it
    then leaves in the store; what a failure leaves; and the frame. *)

From stdpp Require Import gmap strings list.
From Stdlib Require Import ZArith Lia Ascii.
From S2P Require Import Prelude GoStd Sha256 Host Chain Height Capability Port Commitment LightClient Client ConnTypes ChanTypes Env Connection Channel ChanHandshake Packet ChanProofs.

Section frame.
Context {E : IbcEnv}.

(** The client stored under the localhost identifier is a localhost client. *)
Definition localhost_ok (s : Chain) : Prop :=
  ∀ cs, client_at LocalhostClientID s = Some cs → ClientType cs = Localhost.

Context {L : IbcLaws}.

Lemma ClientStore_prefix i k : HasPrefix k (ClientStore i) = true → HasPrefix k "clients/" = true.
Proof.
  unfold ClientStore, KeyClientStorePrefix, HasPrefix. intros [t ->]%prefix_inv.
  rewrite !string_app_assoc. apply (prefix_app "clients/").
Qed.

Lemma on_ibc_only_clients {A} (m : SM A) s o s' :
  (∀ k, HasPrefix k "clients/" = false → snd (m (ibc s)) !! k = ibc s !! k) →
  on_ibc m s = (o, s') → only_clients s s'.
Proof.
  unfold on_ibc. intros Hm. destruct (m (ibc s)) as [o' kv]. intros [= <- <-].
  split; [by destruct s|exact Hm].
Qed.

(** What the interface promises of a verification method. *)
Definition verifier (verify : ClientState → Store → Z → Z → MerklePath → SM ()) : Prop :=
  ∀ cs st dt db mp kv,
    frame_outside st kv (snd (verify cs st dt db mp kv)) ∧
    (ClientType cs = Localhost → snd (verify cs st dt db mp kv) = kv).

Lemma verification_store_ok i cs st s s' :
  getClientStateAndVerificationStore i s = (Ok (cs, st), s') →
  client_at i s = Some cs ∧ st = if bool_decide (i = LocalhostClientID) then "" else ClientStore i.
Proof.
  unfold getClientStateAndVerificationStore. intros H. kinv. by simplify_eq.
Qed.

Lemma verify_through_frame ctx conn delays path verify s o s' :
  readonly delays → verifier verify → localhost_ok s →
  verify_through ctx conn delays path verify s = (o, s') → only_clients s s'.
Proof.
  intros Hd Hv Hl. unfold verify_through. intros H.
  apply readonly_bind_run in H as [->|([cs st] & H1 & H)]; [done| |ro].
  apply readonly_bind_run in H as [->|(status & _ & H)]; [done| |ro].
  apply readonly_bind_run in H as [->|(u & _ & H)]; [done| |ro].
  apply readonly_bind_run in H as [->|([dt db] & _ & H)]; [done| |done].
  apply readonly_bind_run in H as [->|(mp & _ & H)]; [done| |ro].
  apply verification_store_ok in H1 as [Hcs ->].
  eapply on_ibc_only_clients; [|exact H]. intros k Hk.
  case_bool_decide as Hi.
  - destruct (Hv cs "" dt db mp (ibc s)) as [_ Hpure]. rewrite Hpure; [done|].
    apply Hl. congruence.
  - destruct (Hv cs (ClientStore (conn_ClientId conn)) dt db mp (ibc s)) as [Hf _]. apply Hf.
    destruct (HasPrefix k (ClientStore _)) eqn:Hp; [|done].
    apply ClientStore_prefix in Hp. congruence.
Qed.

Lemma verify_member_verifier ctx h proof v : verifier (verify_member ctx h proof v).
Proof.
  intros cs st dt db mp kv. unfold verify_member. split.
  - apply verify_membership_frame.
  - apply localhost_membership_pure.
Qed.

Lemma verify_absence_verifier ctx h proof :
  verifier (λ cs st dt db mp, VerifyNonMembership ctx st cs h dt db proof mp).
Proof.
  intros cs st dt db mp kv. split.
  - apply verify_non_membership_frame.
  - apply localhost_non_membership_pure.
Qed.

End frame.

(** ** The guards *)

Section guards.
Context {E : IbcEnv}.

(** The IBC module owns the capability under the name of the channel. *)
Definition authenticated (cap : option Capability) (p c : string) (s : Chain) : Prop :=
  AuthenticateCapability ibcModule cap (ChannelCapabilityPath p c) s = (Ok true, s).

Definition active_client (ctx : Context) (i : string) (cs : ClientState) (s : Chain) : Prop :=
  client_at i s = Some cs ∧ GetClientStatus ctx cs i s = (Ok Active, s).

Definition connection_of (ch : Channel) (conn : ConnectionEnd) (s : Chain) : Prop :=
  ∃ hop, head (ch_ConnectionHops ch) = Some hop ∧ connection_at hop s = Some conn.

Lemma require_chan_cap_ok cap p c e u s s' :
  require_chan_cap cap p c e s = (Ok u, s') ↔ s' = s ∧ authenticated cap p c s.
Proof.
  unfold require_chan_cap, authenticated. split.
  - intros H. kinv. by subst.
  - intros [-> H]. destruct u. erewrite bind_run by exact H. done.
Qed.

Lemma require_active_client_ok ctx i cs s s' :
  require_active_client ctx i s = (Ok cs, s') ↔ s' = s ∧ active_client ctx i cs s.
Proof.
  unfold require_active_client, active_client. split.
  - intros H. kinv. rewrite bool_decide_eq_true in *. by subst.
  - intros [-> [H1 H2]]. erewrite bind_run by (apply stored_some; exact H1).
    erewrite bind_run by reflexivity. erewrite bind_run by exact H2. done.
Qed.

Lemma channel_connection_ok ch conn s s' :
  channel_connection ch s = (Ok conn, s') ↔ s' = s ∧ connection_of ch conn s.
Proof.
  unfold channel_connection, connection_of, hop0. split.
  - intros H. kinv. split; [done|]. eauto.
  - intros [-> (hop & Hh & Hc)]. rewrite Hh. erewrite bind_run by reflexivity.
    erewrite bind_run by (apply stored_some; exact Hc). done.
Qed.

Lemma require_open_ok conn u s s' :
  require_open conn s = (Ok u, s') ↔ s' = s ∧ conn_State conn = CONN_OPEN.
Proof. unfold require_open. rewrite require_ok, bool_decide_eq_true. tauto. Qed.

Lemma require_destination_ok pk ch u s s' :
  require_destination pk ch s = (Ok u, s') ↔
  s' = s ∧ DestinationPort pk = cp_PortId (ch_Counterparty ch) ∧
  DestinationChannel pk = cp_ChannelId (ch_Counterparty ch).
Proof.
  unfold require_destination. split.
  - intros H. kinv. rewrite bool_decide_eq_true in *. done.
  - intros (-> & ? & ?). destruct u.
    erewrite bind_run by (apply require_run; by apply bool_decide_eq_true_2).
    apply require_run. by apply bool_decide_eq_true_2.
Qed.

End guards.

(** Inversion with the guards. *)
Ltac ginv_step :=
  match goal with
  | H : require_chan_cap _ _ _ _ _ = (Ok _, _) |- _ => apply require_chan_cap_ok in H as [-> H]
  | H : require_active_client _ _ _ = (Ok _, _) |- _ => apply require_active_client_ok in H as [-> H]
  | H : channel_connection _ _ = (Ok _, _) |- _ => apply channel_connection_ok in H as [-> H]
  | H : require_open _ _ = (Ok _, _) |- _ => apply require_open_ok in H as [-> H]
  | H : require_destination _ _ _ = (Ok _, _) |- _ =>
      apply require_destination_ok in H as (-> & ? & ?)
  | H : bool_decide _ = true |- _ => apply bool_decide_eq_true in H
  | _ => kinv_step
  end.
Ltac ginv := repeat ginv_step; repeat match goal with u : () |- _ => destruct u end.

(** Running forward through one step whose result is known. *)
Ltac step_with H := erewrite bind_run by exact H.
Ltac step_req := erewrite bind_run by (apply require_run; done).

(** ** SendPacket *)

Section send.
Context {E : IbcEnv}.

Definition packet_of (ch : Channel) (p c : string) (th : Height) (ts : Z) (data : bytes) (n : Z) :
    Packet :=
  NewPacket data n p c (cp_PortId (ch_Counterparty ch)) (cp_ChannelId (ch_Counterparty ch)) th ts.

(** When a packet can be sent: as packet [n] of the channel [ch]. *)
Record can_send (ctx : Context) (cap : option Capability) (p c : string) (th : Height) (ts : Z)
    (data : bytes) (s : Chain) (ch : Channel) (n : Z) : Prop := {
  cs_channel : channel_at p c s = Some ch;
  cs_open : ch_State ch = OPEN;
  cs_cap : authenticated cap p c s;
  cs_next : next_send p c s = Some n;
  cs_valid : Packet_ValidateBasic (packet_of ch p c th ts data n) = Ok tt;
  cs_client : ∃ conn cs t, connection_of ch conn s ∧ active_client ctx (conn_ClientId conn) cs s ∧
    (th = ZeroHeight ∨ LT (GetLatestHeight cs) th = true) ∧
    Conn_GetTimestampAtHeight ctx conn (GetLatestHeight cs) s = (Ok t, s) ∧ (ts = 0 ∨ t < ts)
}.

(** What sending packet [pk] writes. *)
Definition send_effect (pk : Packet) (s : Chain) : Chain :=
  set_ibc (<[PacketCommitmentPath (SourcePort pk) (SourceChannel pk) (Sequence pk) := CommitPacket pk]>
    (<[NextSequenceSendPath (SourcePort pk) (SourceChannel pk) :=
        Uint64ToBigEndian (u64 (Sequence pk + 1))]> (ibc s))) s.

Lemma height_guard th h :
  negb (negb (IsZero th) && GTE h th) = true ↔ th = ZeroHeight ∨ LT h th = true.
Proof.
  rewrite <- IsZero_spec, negb_andb, negb_involutive, orb_true_iff, negb_true_iff.
  assert (GTE h th = false ↔ LT h th = true) as ->; [|done].
  pose proof (Compare_cases h th). unfold GTE, LT.
  destruct H as [[_ ->]|[[_ ->]|[_ ->]]]; simpl; naive_solver.
Qed.

Lemma time_guard ts t : negb (negb (ts =? 0) && (ts <=? t)) = true ↔ ts = 0 ∨ t < ts.
Proof.
  rewrite negb_andb, negb_involutive, orb_true_iff, negb_true_iff, Z.eqb_eq, Z.leb_gt. done.
Qed.

Lemma SendPacket_ok ctx cap p c th ts data s n s' :
  SendPacket ctx cap p c th ts data s = (Ok n, s') ↔
  ∃ ch, can_send ctx cap p c th ts data s ch n ∧ s' = send_effect (packet_of ch p c th ts data n) s.
Proof.
  unfold SendPacket, GetNextSequenceSend, SetNextSequenceSend, SetPacketCommitment. split.
  - intros H. ginv. rewrite height_guard, time_guard in *.
    eexists. split; [econstructor; eauto 8|done].
  - intros (ch & [Hch Hop Hcap Hn Hv (conn & cs & t & Hcn & Hcs & Hh & Ht & Hts)] & ->).
    step_with (stored_some _ _ _ Hch). step_with (eq_refl (Ok ch, s)).
    erewrite bind_run by (apply require_run; by apply bool_decide_eq_true_2).
    erewrite (bind_run _ _ _ tt) by (by apply require_chan_cap_ok).
    erewrite bind_run by apply get_counter_run. unfold next_send in Hn. rewrite Hn.
    step_with (eq_refl (Ok n, s)).
    unfold packet_of in Hv. rewrite Hv. step_with (eq_refl (Ok tt, s)).
    erewrite bind_run by (by apply channel_connection_ok).
    erewrite bind_run by (by apply require_active_client_ok).
    erewrite bind_run by (by apply require_run, height_guard).
    erewrite bind_run by exact Ht.
    erewrite bind_run by (by apply require_run, time_guard). done.
Qed.

Lemma SendPacket_atomic ctx cap p c th ts data : atomic (SendPacket ctx cap p c th ts data).
Proof. unfold SendPacket. atomic_tac. Qed.


End send.

(** ** Reading through verification *)

Section only_clients.
Context {E : IbcEnv}.

Lemma only_clients_lookup s s' k :
  only_clients s s' → HasPrefix k "clients/" = false → ibc s' !! k = ibc s !! k.
Proof. intros [_ H]. apply H. Qed.

Lemma only_clients_stored {A} `{Proto A} s s' k :
  only_clients s s' → HasPrefix k "clients/" = false → stored (A:=A) k s' = stored k s.
Proof. intros Ho Hk. unfold stored. by rewrite (only_clients_lookup s s'). Qed.

Lemma only_clients_counter s s' k :
  only_clients s s' → HasPrefix k "clients/" = false → counter_at k s' = counter_at k s.
Proof. intros H Hk. unfold counter_at. by rewrite (only_clients_lookup s s'). Qed.

End only_clients.

(** ** RecvPacket *)

Section recv.
Context {E : IbcEnv} {L : IbcLaws}.

Lemma VerifyPacketCommitment_frame ctx conn h proof p c n v s o s' :
  localhost_ok s → VerifyPacketCommitment ctx conn h proof p c n v s = (o, s') → only_clients s s'.
Proof. intros Hl. apply verify_through_frame; [ro|apply verify_member_verifier|done]. Qed.

Lemma VerifyPacketAcknowledgement_frame ctx conn h proof p c n v s o s' :
  localhost_ok s → VerifyPacketAcknowledgement ctx conn h proof p c n v s = (o, s') → only_clients s s'.
Proof. intros Hl. apply verify_through_frame; [ro|apply verify_member_verifier|done]. Qed.

Lemma VerifyNextSequenceRecv_frame ctx conn h proof p c n s o s' :
  localhost_ok s → VerifyNextSequenceRecv ctx conn h proof p c n s = (o, s') → only_clients s s'.
Proof. intros Hl. apply verify_through_frame; [ro|apply verify_member_verifier|done]. Qed.

Lemma VerifyPacketReceiptAbsence_frame ctx conn h proof p c n s o s' :
  localhost_ok s → VerifyPacketReceiptAbsence ctx conn h proof p c n s = (o, s') → only_clients s s'.
Proof. intros Hl. apply verify_through_frame; [ro|apply verify_absence_verifier|done]. Qed.

Lemma VerifyChannelState_frame ctx conn h proof p c ch s o s' :
  localhost_ok s → VerifyChannelState ctx conn h proof p c ch s = (o, s') → only_clients s s'.
Proof. intros Hl. apply verify_through_frame; [ro|apply verify_member_verifier|done]. Qed.

Lemma VerifyConnectionState_frame ctx conn h proof i c s o s' :
  localhost_ok s → VerifyConnectionState ctx conn h proof i c s = (o, s') → only_clients s s'.
Proof. intros Hl. apply verify_through_frame; [ro|apply verify_member_verifier|done]. Qed.

Lemma VerifyClientState_frame ctx conn h proof c s o s' :
  localhost_ok s → VerifyClientState ctx conn h proof c s = (o, s') → only_clients s s'.
Proof. intros Hl. apply verify_through_frame; [ro|apply verify_member_verifier|done]. Qed.

Lemma VerifyClientConsensusState_frame ctx conn h h' proof c s o s' :
  localhost_ok s → VerifyClientConsensusState ctx conn h h' proof c s = (o, s') → only_clients s s'.
Proof. intros Hl. apply verify_through_frame; [ro|apply verify_member_verifier|done]. Qed.

(** The guards before the verification of a received packet. *)
Record can_recv (ctx : Context) (cap : option Capability) (pk : Packet) (s : Chain) (ch : Channel)
    (conn : ConnectionEnd) : Prop := {
  cr_channel : channel_at (DestinationPort pk) (DestinationChannel pk) s = Some ch;
  cr_open : ch_State ch = OPEN;
  cr_cap : authenticated cap (DestinationPort pk) (DestinationChannel pk) s;
  cr_port : SourcePort pk = cp_PortId (ch_Counterparty ch);
  cr_chan : SourceChannel pk = cp_ChannelId (ch_Counterparty ch);
  cr_conn : connection_of ch conn s;
  cr_conn_open : conn_State conn = CONN_OPEN;
  cr_height : ∃ h, GetSelfHeight ctx = Ok h ∧ (TimeoutHeight pk = ZeroHeight ∨ LT h (TimeoutHeight pk) = true);
  cr_time : TimeoutTimestamp pk = 0 ∨ ctx_time ctx < TimeoutTimestamp pk
}.

Definition verify_recv ctx conn pk proof h : M () :=
  VerifyPacketCommitment ctx conn h proof (SourcePort pk) (SourceChannel pk) (Sequence pk)
    (CommitPacket pk).

(** What is written once the packet is verified. *)
Definition recv_effect (ch : Channel) (pk : Packet) (s : Chain) : Chain :=
  match ch_Ordering ch with
  | UNORDERED => set_ibc (<[PacketReceiptPath (DestinationPort pk) (DestinationChannel pk) (Sequence pk)
                             := receipt_value]> (ibc s)) s
  | ORDERED => set_ibc (<[NextSequenceRecvPath (DestinationPort pk) (DestinationChannel pk)
                           := Uint64ToBigEndian (u64 (Sequence pk + 1))]> (ibc s)) s
  | NONE => s
  end.

(** The packet was not received before; on an ordered channel it is the next. *)
Definition fresh_recv (ch : Channel) (pk : Packet) (s : Chain) : Prop :=
  match ch_Ordering ch with
  | UNORDERED => non_empty (receipt_at (DestinationPort pk) (DestinationChannel pk) (Sequence pk) s) = None
  | ORDERED => next_recv (DestinationPort pk) (DestinationChannel pk) s = Some (Sequence pk)
  | NONE => True
  end.

(** The last part of RecvPacket. *)
Definition recv_tail (ch : Channel) (pk : Packet) : M () :=
  match ch_Ordering ch with
  | UNORDERED =>
      receipt ← GetPacketReceipt (DestinationPort pk) (DestinationChannel pk) (Sequence pk);
      require (bool_decide (receipt = None)) ErrNoOpMsg;;
      SetPacketReceipt (DestinationPort pk) (DestinationChannel pk) (Sequence pk)
  | ORDERED =>
      next ← GetNextSequenceRecv (DestinationPort pk) (DestinationChannel pk);
      next ← orErr ErrSequenceReceiveNotFound next;
      require (negb (Sequence pk <? next)) ErrNoOpMsg;;
      require (Sequence pk =? next) ErrPacketSequenceOutOfOrder;;
      SetNextSequenceRecv (DestinationPort pk) (DestinationChannel pk) (u64 (next + 1))
  | NONE => mret tt
  end.

(** Received before: a receipt (unordered), or a counter past it (ordered). *)
Definition already_received (ch : Channel) (pk : Packet) (s : Chain) : Prop :=
  match ch_Ordering ch with
  | UNORDERED => non_empty (receipt_at (DestinationPort pk) (DestinationChannel pk) (Sequence pk) s) ≠ None
  | ORDERED => ∃ n, next_recv (DestinationPort pk) (DestinationChannel pk) s = Some n ∧ Sequence pk < n
  | NONE => False
  end.

Lemma recv_tail_ok ch pk s s' :
  recv_tail ch pk s = (Ok tt, s') ↔ fresh_recv ch pk s ∧ s' = recv_effect ch pk s.
Proof.
  unfold recv_tail, fresh_recv, recv_effect, GetPacketReceipt, GetNextSequenceRecv, SetPacketReceipt,
    SetNextSequenceRecv.
  destruct (ch_Ordering ch); split.
  - intros H. kinv. done.
  - by intros [_ ->].
  - intros H. ginv. done.
  - intros [Hf ->]. unfold receipt_at in Hf.
    unfold mbind, M_bind, ibc_get, gets, mret, M_ret. rewrite Hf. done.
  - intros H. ginv. rewrite Z.eqb_eq in *. subst. done.
  - intros [Hf ->]. unfold next_recv in Hf. erewrite bind_run by apply get_counter_run. rewrite Hf.
    erewrite bind_run by reflexivity.
    erewrite bind_run by (apply require_run; rewrite Z.ltb_irrefl; done).
    erewrite bind_run by (apply require_run, Z.eqb_refl). done.
Qed.

Lemma recv_tail_noop ch pk s :
  already_received ch pk s → recv_tail ch pk s = (Err ErrNoOpMsg, s).
Proof.
  unfold recv_tail, already_received, GetPacketReceipt, GetNextSequenceRecv.
  destruct (ch_Ordering ch); [done| |].
  - unfold receipt_at, mbind, M_bind, ibc_get, gets, mret, M_ret, require, lift.
    intros Hr. by rewrite bool_decide_eq_false_2.
  - intros (n & Hn & Hlt). unfold next_recv in Hn. erewrite bind_run by apply get_counter_run.
    rewrite Hn. erewrite bind_run by reflexivity.
    unfold mbind, M_bind, require, lift. by rewrite (proj2 (Z.ltb_lt _ _) Hlt).
Qed.

Lemma RecvPacket_run ctx cap pk proof h s ch conn s1 :
  can_recv ctx cap pk s ch conn → verify_recv ctx conn pk proof h s = (Ok tt, s1) →
  RecvPacket ctx cap pk proof h s = recv_tail ch pk s1.
Proof.
  intros [Hch Hop Hcap Hp Hc Hcn Hco (sh & Hsh & Hh) Ht] Hv. unfold RecvPacket.
  step_with (stored_some _ _ _ Hch). step_with (eq_refl (Ok ch, s)).
  erewrite bind_run by (apply require_run; by apply bool_decide_eq_true_2).
  erewrite (bind_run _ _ _ tt) by (by apply require_chan_cap_ok).
  erewrite bind_run by (apply require_run; by apply bool_decide_eq_true_2).
  erewrite bind_run by (apply require_run; by apply bool_decide_eq_true_2).
  erewrite bind_run by (by apply channel_connection_ok).
  erewrite (bind_run _ _ _ tt) by (by apply require_open_ok).
  rewrite Hsh. step_with (eq_refl (Ok sh, s)).
  erewrite bind_run by (by apply require_run, height_guard).
  erewrite bind_run by (by apply require_run, time_guard).
  erewrite bind_run by exact Hv. done.
Qed.

Lemma RecvPacket_inv ctx cap pk proof h s s' :
  RecvPacket ctx cap pk proof h s = (Ok tt, s') →
  ∃ ch conn s1, can_recv ctx cap pk s ch conn ∧ verify_recv ctx conn pk proof h s = (Ok tt, s1) ∧
    recv_tail ch pk s1 = (Ok tt, s').
Proof.
  unfold RecvPacket. intros H. ginv. rewrite height_guard, time_guard in *.
  eexists _, _, _. split; [econstructor; eauto|]. split; [done|exact H].
Qed.

Lemma fresh_recv_only_clients ch pk s s1 :
  only_clients s s1 → fresh_recv ch pk s1 ↔ fresh_recv ch pk s.
Proof.
  intros Ho. unfold fresh_recv, receipt_at, next_recv.
  by rewrite (only_clients_lookup s s1), (only_clients_counter s s1).
Qed.

Lemma already_received_only_clients ch pk s s1 :
  only_clients s s1 → already_received ch pk s1 ↔ already_received ch pk s.
Proof.
  intros Ho. unfold already_received, receipt_at, next_recv.
  by rewrite (only_clients_lookup s s1), (only_clients_counter s s1).
Qed.

Lemma RecvPacket_ok ctx cap pk proof h s s' :
  localhost_ok s →
  RecvPacket ctx cap pk proof h s = (Ok tt, s') ↔
  ∃ ch conn s1, can_recv ctx cap pk s ch conn ∧ verify_recv ctx conn pk proof h s = (Ok tt, s1) ∧
    only_clients s s1 ∧ fresh_recv ch pk s ∧ s' = recv_effect ch pk s1.
Proof.
  intros Hl. split.
  - intros (ch & conn & s1 & Hc & Hv & Ht)%RecvPacket_inv.
    pose proof (VerifyPacketCommitment_frame _ _ _ _ _ _ _ _ _ _ _ Hl Hv) as Ho.
    apply recv_tail_ok in Ht as [Hf ->]. exists ch, conn, s1. split_and!; try done.
    by apply (fresh_recv_only_clients ch pk s s1).
  - intros (ch & conn & s1 & Hc & Hv & Ho & Hf & ->).
    rewrite (RecvPacket_run _ _ _ _ _ _ ch conn s1) by done.
    apply recv_tail_ok. split; [|done]. by apply (fresh_recv_only_clients ch pk s s1).
Qed.

End recv.

(** ** WriteAcknowledgement *)

Section ack.
Context {E : IbcEnv} {L : IbcLaws}.

Definition ack_effect (pk : Packet) (bz : bytes) (s : Chain) : Chain :=
  set_ibc (<[PacketAcknowledgementPath (DestinationPort pk) (DestinationChannel pk) (Sequence pk)
              := CommitAcknowledgement bz]> (ibc s)) s.

Lemma WriteAcknowledgement_ok cap pk ack s s' :
  WriteAcknowledgement cap pk ack s = (Ok tt, s') ↔
  ∃ ch a, channel_at (DestinationPort pk) (DestinationChannel pk) s = Some ch ∧ ch_State ch = OPEN ∧
    authenticated cap (DestinationPort pk) (DestinationChannel pk) s ∧
    ack_at (DestinationPort pk) (DestinationChannel pk) (Sequence pk) s = None ∧
    ack = Some a ∧ app_Acknowledgement a ≠ "" ∧ s' = ack_effect pk (app_Acknowledgement a) s.
Proof.
  unfold WriteAcknowledgement, HasPacketAcknowledgement, SetPacketAcknowledgement. split.
  - intros H. ginv. rewrite negb_true_iff, bool_decide_eq_false in *.
    eexists _, _. split_and!; try done. unfold ack_at.
    destruct (ibc _ !! _) eqn:Hk; [|done]. exfalso; eauto.
  - intros (ch & a & Hch & Hop & Hcap & Hack & -> & Hne & ->).
    step_with (stored_some _ _ _ Hch). step_with (eq_refl (Ok ch, s)).
    erewrite bind_run by (apply require_run; by apply bool_decide_eq_true_2).
    erewrite (bind_run _ _ _ tt) by (by apply require_chan_cap_ok).
    unfold ack_at in Hack. unfold ibc_has. erewrite bind_run by reflexivity. rewrite Hack.
    erewrite bind_run by (apply require_run; rewrite bool_decide_eq_false_2; [done|by intros []]).
    erewrite bind_run by reflexivity.
    erewrite bind_run by (apply require_run; rewrite bool_decide_eq_false_2; done). done.
Qed.

Lemma WriteAcknowledgement_atomic cap pk ack : atomic (WriteAcknowledgement cap pk ack).
Proof. unfold WriteAcknowledgement. atomic_tac. Qed.

(** ** AcknowledgePacket *)

(** A packet this chain sent on the channel and has not cleared. *)
Record sent_packet (pk : Packet) (s : Chain) (ch : Channel) (conn : ConnectionEnd) : Prop := {
  sp_channel : channel_at (SourcePort pk) (SourceChannel pk) s = Some ch;
  sp_port : DestinationPort pk = cp_PortId (ch_Counterparty ch);
  sp_chan : DestinationChannel pk = cp_ChannelId (ch_Counterparty ch);
  sp_conn : connection_of ch conn s;
  sp_commitment : commitment_at (SourcePort pk) (SourceChannel pk) (Sequence pk) s = Some (CommitPacket pk)
}.

Definition clear_commitment (pk : Packet) (s : Chain) : Chain :=
  set_ibc (delete (PacketCommitmentPath (SourcePort pk) (SourceChannel pk) (Sequence pk)) (ibc s)) s.

Definition acknowledge_effect (ch : Channel) (pk : Packet) (s : Chain) : Chain :=
  clear_commitment pk
    (if bool_decide (ch_Ordering ch = ORDERED)
     then set_ibc (<[NextSequenceAckPath (SourcePort pk) (SourceChannel pk)
                      := Uint64ToBigEndian (u64 (Sequence pk + 1))]> (ibc s)) s
     else s).

Definition verify_acked ctx conn pk ack proof h : M () :=
  VerifyPacketAcknowledgement ctx conn h proof (DestinationPort pk) (DestinationChannel pk)
    (Sequence pk) ack.

Lemma commitment_ok pk s a :
  non_empty (ibc s !! PacketCommitmentPath (SourcePort pk) (SourceChannel pk) (Sequence pk)) = Some a →
  a = CommitPacket pk →
  commitment_at (SourcePort pk) (SourceChannel pk) (Sequence pk) s = Some (CommitPacket pk).
Proof.
  unfold commitment_at. intros Ha ->. destruct (ibc s !! _) as [bz|]; simpl in *; [|done].
  case_bool_decide; naive_solver.
Qed.

Lemma AcknowledgePacket_ok ctx cap pk ack proof h s s' :
  localhost_ok s → AcknowledgePacket ctx cap pk ack proof h s = (Ok tt, s') →
  ∃ ch conn s1, sent_packet pk s ch conn ∧ ch_State ch = OPEN ∧ conn_State conn = CONN_OPEN ∧
    authenticated cap (SourcePort pk) (SourceChannel pk) s ∧
    verify_acked ctx conn pk ack proof h s = (Ok tt, s1) ∧ only_clients s s1 ∧
    (ch_Ordering ch = ORDERED → next_ack (SourcePort pk) (SourceChannel pk) s = Some (Sequence pk)) ∧
    s' = acknowledge_effect ch pk s1.
Proof.
  intros Hl. unfold AcknowledgePacket, GetPacketCommitment, GetNextSequenceAck, SetNextSequenceAck,
    deletePacketCommitment.
  intros H. ginv.
  match goal with Hv : VerifyPacketAcknowledgement _ _ _ _ _ _ _ _ _ = _ |- _ =>
    pose proof (VerifyPacketAcknowledgement_frame _ _ _ _ _ _ _ _ _ _ _ Hl Hv) as Ho end.
  eexists _, _, _. split; [econstructor; eauto using commitment_ok|].
  split_and!; try done; unfold acknowledge_effect;
    case_bool_decide as Hord; ginv; rewrite ?Z.eqb_eq in *; subst; try done.
  unfold next_ack. rewrite <- (only_clients_counter _ _ _ Ho) by done. naive_solver.
Qed.

(** ** TimeoutPacket, TimeoutOnClose, TimeoutExecuted *)

Lemma verify_not_received_frame ctx ch conn pk proof h n e s o s' :
  localhost_ok s → verify_not_received ctx ch conn pk proof h n e s = (o, s') → only_clients s s'.
Proof.
  intros Hl. unfold verify_not_received. destruct (ch_Ordering ch).
  - by intros [= <- <-].
  - by apply VerifyPacketReceiptAbsence_frame.
  - intros H. apply readonly_bind_run in H as [->|(u & _ & H)]; [done| |ro].
    by apply VerifyNextSequenceRecv_frame in H.
Qed.

(** The proof shows the packet was not received. *)
Definition not_received ctx ch conn pk proof h n s : Prop :=
  ∃ e s1, verify_not_received ctx ch conn pk proof h n e s = (Ok tt, s1) ∧
    (ch_Ordering ch = ORDERED → n <= Sequence pk).

Lemma verify_not_received_ok ctx ch conn pk proof h n e s s' :
  verify_not_received ctx ch conn pk proof h n e s = (Ok tt, s') →
  ch_Ordering ch ≠ NONE ∧ (ch_Ordering ch = ORDERED → n <= Sequence pk).
Proof.
  unfold verify_not_received. destruct (ch_Ordering ch); intros H; kinv; split; try done.
  intros _. rewrite negb_true_iff, Z.ltb_ge in *. lia.
Qed.

(** The timeout has passed on the counterparty, as of the proof. *)
Definition timed_out (pk : Packet) (h : Height) (t : Z) : Prop :=
  (TimeoutHeight pk ≠ ZeroHeight ∧ GTE h (TimeoutHeight pk) = true) ∨
  (TimeoutTimestamp pk ≠ 0 ∧ TimeoutTimestamp pk <= t).

Lemma timeout_guard pk h t :
  negb ((IsZero (TimeoutHeight pk) || LT h (TimeoutHeight pk)) &&
        ((TimeoutTimestamp pk =? 0) || (t <? TimeoutTimestamp pk))) = true ↔ timed_out pk h t.
Proof.
  unfold timed_out. rewrite negb_andb, orb_true_iff, !negb_true_iff, !orb_false_iff.
  rewrite Z.eqb_neq, Z.ltb_ge.
  assert (IsZero (TimeoutHeight pk) = false ↔ TimeoutHeight pk ≠ ZeroHeight) as ->.
  { rewrite <- IsZero_spec. destruct (IsZero _); naive_solver. }
  assert (LT h (TimeoutHeight pk) = false ↔ GTE h (TimeoutHeight pk) = true) as ->; [|done].
  pose proof (Compare_cases h (TimeoutHeight pk)) as Hc. unfold GTE, LT.
  destruct Hc as [[_ ->]|[[_ ->]|[_ ->]]]; simpl; naive_solver.
Qed.

Lemma TimeoutPacket_ok ctx pk proof h n s s' :
  localhost_ok s → TimeoutPacket ctx pk proof h n s = (Ok tt, s') →
  ∃ ch conn t, sent_packet pk s ch conn ∧ ch_State ch = OPEN ∧ ch_Ordering ch ≠ NONE ∧
    Conn_GetTimestampAtHeight ctx conn h s = (Ok t, s) ∧ timed_out pk h t ∧
    verify_not_received ctx ch conn pk proof h n ErrPacketReceived s = (Ok tt, s') ∧
    (ch_Ordering ch = ORDERED → n <= Sequence pk) ∧ only_clients s s'.
Proof.
  intros Hl. unfold TimeoutPacket, GetPacketCommitment. intros H. ginv.
  rewrite timeout_guard in *.
  pose proof (verify_not_received_frame _ _ _ _ _ _ _ _ _ _ _ Hl H) as Ho.
  pose proof (verify_not_received_ok _ _ _ _ _ _ _ _ _ _ H) as [Hne Hle].
  eexists _, _, _. split; [econstructor; eauto using commitment_ok|]. done.
Qed.

Lemma TimeoutOnClose_ok ctx cap pk proof proofClosed h n s s' :
  localhost_ok s → TimeoutOnClose ctx cap pk proof proofClosed h n s = (Ok tt, s') →
  ∃ ch conn s1, sent_packet pk s ch conn ∧ authenticated cap (SourcePort pk) (SourceChannel pk) s ∧
    VerifyChannelState ctx conn h proofClosed (cp_PortId (ch_Counterparty ch))
      (cp_ChannelId (ch_Counterparty ch))
      (NewChannel CLOSED (ch_Ordering ch) (NewCounterparty (SourcePort pk) (SourceChannel pk))
         [cpc_ConnectionId (conn_Counterparty conn)] (ch_Version ch)) s = (Ok tt, s1) ∧
    verify_not_received ctx ch conn pk proof h n ErrInvalidPacket s1 = (Ok tt, s') ∧
    ch_Ordering ch ≠ NONE ∧ (ch_Ordering ch = ORDERED → n <= Sequence pk) ∧ only_clients s s1.
Proof.
  intros Hl. unfold TimeoutOnClose, GetPacketCommitment. intros H. ginv.
  match goal with Hv : VerifyChannelState _ _ _ _ _ _ _ _ = _ |- _ =>
    pose proof (VerifyChannelState_frame _ _ _ _ _ _ _ _ _ _ Hl Hv) as Ho end.
  pose proof (verify_not_received_ok _ _ _ _ _ _ _ _ _ _ H) as [Hne Hle].
  eexists _, _, _. split; [econstructor; eauto using commitment_ok|]. done.
Qed.

Definition timeout_effect (ch : Channel) (pk : Packet) (s : Chain) : Chain :=
  let s := clear_commitment pk s in
  if bool_decide (ch_Ordering ch = ORDERED)
  then set_ibc (<[ChannelPath (SourcePort pk) (SourceChannel pk) := Marshal (with_state CLOSED ch)]>
         (ibc s)) s
  else s.

Lemma TimeoutExecuted_ok cap pk s s' :
  TimeoutExecuted cap pk s = (Ok tt, s') ↔
  ∃ ch, channel_at (SourcePort pk) (SourceChannel pk) s = Some ch ∧
    authenticated cap (SourcePort pk) (SourceChannel pk) s ∧ s' = timeout_effect ch pk s.
Proof.
  unfold TimeoutExecuted, deletePacketCommitment, SetChannel, timeout_effect. split.
  - intros H. ginv. eexists. split_and!; try done. case_bool_decide; ginv; done.
  - intros (ch & Hch & Hcap & ->).
    step_with (stored_some _ _ _ Hch). step_with (eq_refl (Ok ch, s)).
    erewrite (bind_run _ _ _ tt) by (by apply require_chan_cap_ok).
    erewrite bind_run by reflexivity. case_bool_decide; done.
Qed.

Lemma TimeoutExecuted_atomic cap pk : atomic (TimeoutExecuted cap pk).
Proof. unfold TimeoutExecuted. atomic_tac. Qed.

End ack.
