(* ===== verification/Frames.v ===== *)
(** * What the operations leave alone

    The operations of clients and connections never touch the state of channels
    and packets, whatever their outcome; the handshake steps of channels write
    only the records of their own channel. *)

From stdpp Require Import gmap strings list.
From Stdlib Require Import ZArith Lia Ascii.
From S2P Require Import Prelude GoStd Sha256 Host Chain Height Capability Port Commitment LightClient Client ConnTypes ChanTypes Env Connection Channel ChanHandshake Packet ChanProofs PacketProofs.

(** The keys of the channel module. *)
Definition chan_families : list string :=
  ["channelEnds/"; "nextSequenceSend/"; "nextSequenceRecv/"; "nextSequenceAck/"; "commitments/";
   "receipts/"; "acks/"; "nextChannelSequence"].
Definition chan_key (k : string) : bool := existsb (HasPrefix k) chan_families.

Definition keeps_channels (s s' : Chain) : Prop :=
  ∀ k, chan_key k = true → ibc s' !! k = ibc s !! k.

#[export] Instance keeps_channels_refl : Reflexive keeps_channels.
Proof. by intros s k. Qed.
#[export] Instance keeps_channels_trans : Transitive keeps_channels.
Proof. intros s1 s2 s3 H1 H2 k Hk. by rewrite H2, H1. Qed.

(** A computation that leaves the channel module's keys, in every outcome. *)
Definition off_channels {A} (m : M A) : Prop := ∀ s, keeps_channels s (snd (m s)).

Lemma off_readonly {A} (m : M A) : readonly m → off_channels m.
Proof. intros H s. by rewrite H. Qed.

Lemma off_bind {A B} (m : M A) (f : A → M B) :
  off_channels m → (∀ a, off_channels (f a)) → off_channels (m ≫= f).
Proof.
  intros Hm Hf s. unfold mbind, M_bind. specialize (Hm s).
  destruct (m s) as [[a|e|] s1]; simpl in *; [|done|done].
  etrans; [exact Hm|apply Hf].
Qed.

Lemma off_set k v : chan_key k = false → off_channels (ibc_set k v).
Proof. intros Hk s j Hj. simpl. apply lookup_insert_ne. congruence. Qed.

Lemma off_same {A} (m : M A) : (∀ s, ibc (snd (m s)) = ibc s) → off_channels m.
Proof. intros H s k _. by rewrite H. Qed.

Lemma chan_key_client k : chan_key k = true → HasPrefix k "clients/" = false.
Proof.
  unfold chan_key. rewrite existsb_exists. intros (f & Hf & [t ->]%prefix_inv).
  repeat (destruct Hf as [<-|Hf]; [done|]). done.
Qed.

Lemma only_clients_channels s s' : only_clients s s' → keeps_channels s s'.
Proof. intros Ho k Hk. apply Ho, chan_key_client, Hk. Qed.

Lemma off_on_ibc {E : IbcEnv} {A} (m : SM A) i :
  (∀ kv, frame_outside (ClientStore i) kv (snd (m kv))) → off_channels (on_ibc m).
Proof.
  intros Hm s k Hk. unfold on_ibc. specialize (Hm (ibc s)).
  destruct (m (ibc s)) as [o kv]. simpl. apply Hm.
  destruct (HasPrefix k (ClientStore i)) eqn:Hp; [|done].
  apply ClientStore_prefix in Hp. apply chan_key_client in Hk. congruence.
Qed.

Create HintDb off.

Ltac off :=
  intros; repeat first
    [ match goal with |- off_channels (_ ≫= _) => apply off_bind; [|intros] end
    | solve [apply off_set; reflexivity]
    | solve [apply off_readonly; ro]
    | case_match
    | solve [auto 2 with off] ].

(** ** Clients *)

Section clients.
Context {E : IbcEnv} {L : IbcLaws}.

Lemma SetClientParams_off params : off_channels (SetClientParams params).
Proof. unfold SetClientParams. off. Qed.
Lemma SetConnParams_off params : off_channels (SetConnParams params).
Proof. unfold SetConnParams. off. Qed.

Lemma GenerateClientIdentifier_off ct : off_channels (GenerateClientIdentifier ct).
Proof. unfold GenerateClientIdentifier, GetNextClientSequence, SetNextClientSequence. off. Qed.

Lemma CreateClient_off ctx cs cons : off_channels (CreateClient ctx cs cons).
Proof.
  unfold CreateClient. off.
  - apply GenerateClientIdentifier_off.
  - eapply off_on_ibc. intros kv. apply initialize_frame.
Qed.

Lemma UpdateClient_off ctx i msg : off_channels (UpdateClient ctx i msg).
Proof.
  unfold UpdateClient. off; eapply off_on_ibc; intros kv.
  - apply verify_message_frame.
  - apply check_misbehaviour_frame.
  - apply misbehaviour_frame.
  - apply update_frame.
Qed.

Lemma UpgradeClient_off ctx i cs cons p1 p2 : off_channels (UpgradeClient ctx i cs cons p1 p2).
Proof.
  unfold UpgradeClient. off. eapply off_on_ibc. intros kv. apply upgrade_frame.
Qed.

Lemma ClientUpdateProposal_off ctx i j : off_channels (ClientUpdateProposal ctx i j).
Proof.
  unfold ClientUpdateProposal. off. eapply off_on_ibc. intros kv. apply substitute_frame.
Qed.

Lemma HandleUpgradeProposal_off ctx plan cs : off_channels (HandleUpgradeProposal ctx plan cs).
Proof.
  unfold HandleUpgradeProposal. off.
  - apply off_same, schedule_frame.
  - apply off_same, upgraded_client_frame.
Qed.

Lemma ignore_error_off m : off_channels m → off_channels (ignore_error m).
Proof.
  intros Hm s. specialize (Hm s). unfold ignore_error. by destruct (m s) as [[|e|] s1].
Qed.

Lemma Client_BeginBlocker_off ctx : off_channels (Client_BeginBlocker ctx).
Proof.
  unfold Client_BeginBlocker. off.
  - apply ignore_error_off, off_same, upgraded_consensus_frame.
  - unfold UpdateLocalhostClient. eapply off_on_ibc. intros kv. apply update_frame.
Qed.

End clients.

(** ** Connections *)

Section connections.
Context {E : IbcEnv} {L : IbcLaws}.

(** Verification needs the localhost client to be one, and keeps it. *)
Definition localhost_key_at : string := prefixed (ClientStore LocalhostClientID) ClientStateKey.

Definition guarded {A} (m : M A) : Prop :=
  ∀ s, localhost_ok s → keeps_channels s (snd (m s)) ∧ localhost_ok (snd (m s)).

Lemma localhost_ok_same s s' :
  ibc s' !! localhost_key_at = ibc s !! localhost_key_at → localhost_ok s → localhost_ok s'.
Proof. unfold localhost_ok, client_at, stored. fold localhost_key_at. by intros ->. Qed.

Lemma guarded_readonly {A} (m : M A) : readonly m → guarded m.
Proof. intros H s Hl. by rewrite H. Qed.

Lemma guarded_bind {A B} (m : M A) (f : A → M B) :
  guarded m → (∀ a, guarded (f a)) → guarded (m ≫= f).
Proof.
  intros Hm Hf s Hl. unfold mbind, M_bind. specialize (Hm s Hl).
  destruct (m s) as [[a|e|] s1]; simpl in *; [|done|done].
  destruct Hm as [Hk Hl1]. destruct (Hf a s1 Hl1) as [Hk2 Hl2]. split; [by etrans|done].
Qed.

Lemma guarded_set k v : chan_key k = false → k ≠ localhost_key_at → guarded (ibc_set k v).
Proof.
  intros Hk Hne s Hl. split; [by apply off_set|].
  eapply localhost_ok_same; [|exact Hl]. simpl. by rewrite lookup_insert_ne.
Qed.

(** Only the localhost client's own store holds its state. *)
Lemma ClientStore_localhost i :
  HasPrefix localhost_key_at (ClientStore i) = true → i = LocalhostClientID.
Proof.
  unfold HasPrefix, ClientStore, KeyClientStorePrefix. intros [t Ht]%prefix_inv.
  apply (f_equal (λ x, Split x "/")) in Ht.
  change (Split localhost_key_at "/") with ["clients"; "09-localhost"; "clientState"] in Ht.
  rewrite !string_app_assoc in Ht.
  rewrite (Split_slash "clients" (i +:+ "/" +:+ t)) in Ht by done. injection Ht as Ht.
  rewrite (Split_join "/" i t) in Ht.
  pose proof (Split_nonempty "/" i) as Hi. pose proof (Split_nonempty "/" t) as Hn.
  rewrite <- (Join_Split "/" i).
  destruct (Split i "/") as [|x [|y l]]; [done| |]; simpl in Ht.
  - injection Ht as <- _. done.
  - injection Ht as _ _ Ht. symmetry in Ht. by apply app_eq_nil in Ht as [_ ?].
Qed.

Lemma verify_through_localhost ctx conn delays path verify s o s' :
  readonly delays → verifier verify → localhost_ok s →
  verify_through ctx conn delays path verify s = (o, s') → localhost_ok s'.
Proof.
  intros Hd Hv Hl. unfold verify_through. intros H.
  apply readonly_bind_run in H as [->|([cs st] & H1 & H)]; [done| |ro].
  apply readonly_bind_run in H as [->|(status & _ & H)]; [done| |ro].
  apply readonly_bind_run in H as [->|(u & _ & H)]; [done| |ro].
  apply readonly_bind_run in H as [->|([dt db] & _ & H)]; [done| |done].
  apply readonly_bind_run in H as [->|(mp & _ & H)]; [done| |ro].
  apply verification_store_ok in H1 as [Hcs ->].
  apply (localhost_ok_same s); [|done].
  destruct (Hv cs (if bool_decide (conn_ClientId conn = LocalhostClientID) then ""
    else ClientStore (conn_ClientId conn)) dt db mp (ibc s)) as [Hf Hpure].
  unfold on_ibc in H. destruct (verify _ _ _ _ _ _) as [o' kv]. simpl in Hf, Hpure.
  injection H as <- <-. simpl. case_bool_decide as Hi.
  - rewrite Hpure; [done|]. apply Hl. congruence.
  - apply Hf. destruct (HasPrefix localhost_key_at _) eqn:Hp; [|done].
    by apply ClientStore_localhost in Hp.
Qed.

Lemma verify_through_guarded ctx conn delays path verify :
  readonly delays → verifier verify → guarded (verify_through ctx conn delays path verify).
Proof.
  intros Hd Hv s Hl. destruct (verify_through _ _ _ _ _ s) as [o s'] eqn:H. simpl. split.
  - apply only_clients_channels. by eapply verify_through_frame in H.
  - by eapply verify_through_localhost in H.
Qed.

Lemma VerifyConnectionState_guarded ctx conn h proof i c :
  guarded (VerifyConnectionState ctx conn h proof i c).
Proof. apply verify_through_guarded; [ro|apply verify_member_verifier]. Qed.
Lemma VerifyClientState_guarded ctx conn h proof c : guarded (VerifyClientState ctx conn h proof c).
Proof. apply verify_through_guarded; [ro|apply verify_member_verifier]. Qed.
Lemma VerifyClientConsensusState_guarded ctx conn h h' proof c :
  guarded (VerifyClientConsensusState ctx conn h h' proof c).
Proof. apply verify_through_guarded; [ro|apply verify_member_verifier]. Qed.

Lemma ClientConnectionsPath_not_localhost i : ClientConnectionsPath i ≠ localhost_key_at.
Proof.
  intros H. apply (f_equal (λ x, List.last (Split x "/") "")) in H.
  change (List.last (Split localhost_key_at "/") "") with "clientState" in H.
  unfold ClientConnectionsPath, FullClientPath, KeyClientStorePrefix in H.
  rewrite (Split_slash "clients" (i +:+ "/" +:+ KeyConnectionPrefix)) in H by done.
  change ("/" +:+ KeyConnectionPrefix) with (String "/" KeyConnectionPrefix) in H.
  rewrite Split_join in H.
  change (Split KeyConnectionPrefix "/") with ["connections"] in H.
  rewrite app_comm_cons, List.last_last in H. done.
Qed.

Lemma SetConnection_guarded i c : guarded (SetConnection i c).
Proof. apply guarded_set; [done|]. by intros H. Qed.

Lemma GenerateConnectionIdentifier_guarded : guarded GenerateConnectionIdentifier.
Proof.
  apply guarded_bind; [apply guarded_readonly; unfold GetNextConnectionSequence; ro|intros n].
  apply guarded_bind; [by apply guarded_set|intros u]. apply guarded_readonly. ro.
Qed.

Lemma addConnectionToClient_guarded i j : guarded (addConnectionToClient i j).
Proof.
  unfold addConnectionToClient, GetClientConnectionPaths, SetClientConnectionPaths.
  apply guarded_bind; [apply guarded_readonly; ro|intros cs].
  apply guarded_bind; [apply guarded_readonly; ro|intros u].
  apply guarded_bind; [apply guarded_readonly; ro|intros conns].
  apply guarded_set; [done|apply ClientConnectionsPath_not_localhost].
Qed.

Lemma GetSelfConsensusState_ro ctx h : readonly (GetSelfConsensusState ctx h).
Proof. unfold GetSelfConsensusState. ro. Qed.
Lemma ValidateSelfClient_ro ctx cs : readonly (ValidateSelfClient ctx cs).
Proof. unfold ValidateSelfClient. ro. Qed.

End connections.

#[export] Hint Resolve GetSelfConsensusState_ro ValidateSelfClient_ro : ro.
#[export] Hint Resolve VerifyConnectionState_guarded VerifyClientState_guarded
  VerifyClientConsensusState_guarded SetConnection_guarded GenerateConnectionIdentifier_guarded
  addConnectionToClient_guarded : off.

Ltac guarded_tac :=
  intros; repeat first
    [ match goal with |- guarded (_ ≫= _) => apply guarded_bind; [|intros] end
    | solve [auto 2 with off]
    | solve [apply guarded_readonly; ro]
    | case_match ].

Section conn_ops.
Context {E : IbcEnv} {L : IbcLaws}.

Lemma ConnOpenInit_guarded ctx i cp v d : guarded (ConnOpenInit ctx i cp v d).
Proof. unfold ConnOpenInit. guarded_tac. Qed.
Lemma ConnOpenTry_guarded ctx cp d i cs vs p1 p2 p3 h h' :
  guarded (ConnOpenTry ctx cp d i cs vs p1 p2 p3 h h').
Proof. unfold ConnOpenTry. guarded_tac. Qed.
Lemma ConnOpenAck_guarded ctx i cs v j p1 p2 p3 h h' :
  guarded (ConnOpenAck ctx i cs v j p1 p2 p3 h h').
Proof. unfold ConnOpenAck. guarded_tac. Qed.
Lemma ConnOpenConfirm_guarded ctx i p h : guarded (ConnOpenConfirm ctx i p h).
Proof. unfold ConnOpenConfirm. guarded_tac. Qed.

End conn_ops.
