(* ===== verification/HandshakeProofs.v ===== *)
(** * The channel handshake, specified

    What each step of handshake.go requires of the channel and the connection,
    and what it leaves: a fresh identifier, a channel in its next state, and
    sequences that start at 1. *)

From stdpp Require Import gmap strings list.
From Stdlib Require Import ZArith Lia Ascii.
From S2P Require Import Prelude GoStd Sha256 Host Chain Height Capability Port Commitment LightClient Client ConnTypes ChanTypes Env Connection Channel ChanHandshake Packet ChanProofs PacketProofs Frames.

(** ** Capabilities are not kept in the IBC store *)

Definition same_ibc {A} (m : M A) : Prop := ∀ s, ibc (snd (m s)) = ibc s.

Lemma same_readonly {A} (m : M A) : readonly m → same_ibc m.
Proof. intros H s. by rewrite H. Qed.

Lemma same_bind {A B} (m : M A) (f : A → M B) :
  same_ibc m → (∀ a, same_ibc (f a)) → same_ibc (m ≫= f).
Proof.
  intros Hm Hf s. unfold mbind, M_bind. specialize (Hm s).
  destruct (m s) as [[a|e|] s1]; simpl in *; [by rewrite Hf|done|done].
Qed.

Lemma same_orPanics {A} (m : M A) : same_ibc m → same_ibc (orPanics m).
Proof. intros H s. specialize (H s). unfold orPanics. by destruct (m s) as [[|e|] s1]. Qed.

Create HintDb same.

Ltac same :=
  intros; repeat first
    [ match goal with |- same_ibc (_ ≫= _) => apply same_bind; [|intros] end
    | solve [auto 2 with same]
    | solve [apply same_readonly; ro]
    | solve [intros ?; reflexivity]
    | case_match ].

Section caps.
Context {E : IbcEnv}.

Lemma GetCapabilityName_ro m cap : readonly (GetCapabilityName m cap).
Proof. unfold GetCapabilityName. ro. Qed.
Lemma GetCapability_ro m n : readonly (GetCapability m n).
Proof. unfold GetCapability. ro. Qed.
Lemma getOwners_ro cap : readonly (getOwners cap).
Proof. unfold getOwners. ro. Qed.
#[local] Hint Resolve GetCapabilityName_ro GetCapability_ro getOwners_ro : ro.
Lemma GetOwners_ro m n : readonly (GetOwners m n).
Proof. unfold GetOwners. ro. Qed.
#[local] Hint Resolve GetOwners_ro : ro.
Lemma LookupModules_ro m n : readonly (LookupModules m n).
Proof. unfold LookupModules. ro. Qed.

Lemma addOwner_same m cap n : same_ibc (addOwner m cap n).
Proof. unfold addOwner. same. Qed.
#[local] Hint Resolve addOwner_same : same.
Lemma alloc_capability_same i : same_ibc (alloc_capability i).
Proof. unfold alloc_capability. same. Qed.
#[local] Hint Resolve alloc_capability_same : same.

Lemma NewCapability_same m n : same_ibc (NewCapability m n).
Proof. unfold NewCapability, capMap_set. same. Qed.
Lemma ClaimCapability_same m cap n : same_ibc (ClaimCapability m cap n).
Proof. unfold ClaimCapability. same. Qed.
Lemma ReleaseCapability_same m cap : same_ibc (ReleaseCapability m cap).
Proof. unfold ReleaseCapability, capMap_delete. same. Qed.

End caps.

#[export] Hint Resolve GetCapabilityName_ro GetCapability_ro getOwners_ro GetOwners_ro
  LookupModules_ro : ro.
#[export] Hint Resolve NewCapability_same ClaimCapability_same ReleaseCapability_same : same.

(** ** Identifiers *)

Section ids.
Context {E : IbcEnv} {L : IbcLaws}.

Definition next_channel (s : Chain) : option Z := counter_at KeyNextChannelSequence s.

Lemma counter_written k v (kv : KVStore) s :
  is_u64 v → counter_at k (set_ibc (<[k := Uint64ToBigEndian v]> kv) s) = Some v.
Proof.
  intros Hv. unfold counter_at. simpl. rewrite lookup_insert_eq. simpl.
  rewrite bool_decide_eq_false_2 by by apply be_nonempty. simpl. by rewrite be_roundtrip.
Qed.

Lemma counter_range k s n : counter_at k s = Some n → is_u64 n.
Proof.
  unfold counter_at. destruct (non_empty _); simpl; [|done]. intros [= <-]. apply be_range.
Qed.

Lemma stored_written {A} `{ProtoLaws A, !ProtoNonEmpty A} k (a : A) (kv : KVStore) s :
  stored k (set_ibc (<[k := Marshal a]> kv) s) = Some a.
Proof.
  unfold stored. simpl. rewrite lookup_insert_eq. simpl.
  rewrite bool_decide_eq_false_2 by apply marshal_nonempty. simpl. apply unmarshal_marshal.
Qed.

Lemma GenerateChannelIdentifier_ok s i s' :
  GenerateChannelIdentifier s = (Ok i, s') →
  ∃ n, next_channel s = Some n ∧ i = FormatChannelIdentifier n ∧
    s' = set_ibc (<[KeyNextChannelSequence := Uint64ToBigEndian (u64 (n + 1))]> (ibc s)) s.
Proof.
  unfold GenerateChannelIdentifier, GetNextChannelSequence, SetNextChannelSequence. intros H. kinv.
  unfold next_channel, counter_at. eexists. split; [|done].
  match goal with H : non_empty _ = Some _ |- _ => by rewrite H end.
Qed.

Lemma Port_Authenticate_ok cap p b s s' :
  Port_Authenticate cap p s = (Ok b, s') → PortIdentifierValidator p = Ok tt ∧ s' = s.
Proof.
  unfold Port_Authenticate. intros H. kinv.
  unfold orPanics, lift in *. destruct (PortIdentifierValidator p) as [[]| |]; simplify_eq. done.
Qed.

(** A channel identifier was generated: the counter moved, nothing else outside
    of the client stores did. *)
Definition generated (p i : string) (s s' : Chain) : Prop :=
  PortIdentifierValidator p = Ok tt ∧
  ∃ n, next_channel s = Some n ∧ i = FormatChannelIdentifier n ∧
    ibc s' !! KeyNextChannelSequence = Some (Uint64ToBigEndian (u64 (n + 1))) ∧
    ∀ k, k ≠ KeyNextChannelSequence → HasPrefix k "clients/" = false → ibc s' !! k = ibc s !! k.

Lemma NewCapability_ibc m n s o s' : NewCapability m n s = (o, s') → ibc s' = ibc s.
Proof. intros H. pose proof (NewCapability_same m n s) as Hs. by rewrite H in Hs. Qed.

Lemma require_ordering_ro conn o : readonly (require_ordering conn o).
Proof. unfold require_ordering. ro. Qed.
#[local] Hint Resolve require_ordering_ro : ro.

Lemma GenerateChannelIdentifier_localhost s n :
  localhost_ok s →
  localhost_ok (set_ibc (<[KeyNextChannelSequence := Uint64ToBigEndian n]> (ibc s)) s).
Proof. apply localhost_ok_same. simpl. by rewrite lookup_insert_ne. Qed.

Lemma ChanOpenInit_ok ctx order hops p cap cp v s i k s' :
  ChanOpenInit ctx order hops p cap cp v s = (Ok (i, k), s') → generated p i s s'.
Proof.
  unfold ChanOpenInit. intros H. kinv.
  repeat match goal with
  | H : Port_Authenticate _ _ _ = _ |- _ => apply Port_Authenticate_ok in H as [? ->]
  | H : GenerateChannelIdentifier _ = _ |- _ => apply GenerateChannelIdentifier_ok in H as (n & ? & -> & ->)
  | H : NewCapability _ _ _ = _ |- _ => apply NewCapability_ibc in H as Hibc
  | H : (_, _) = (_, _) |- _ => injection H as ? ?; subst
  end.
  split; [done|]. exists n. split_and!; [done|done|..].
  - rewrite Hibc. simpl. by rewrite lookup_insert_eq.
  - intros j Hj _. rewrite Hibc. simpl. by rewrite lookup_insert_ne.
Qed.

Lemma ChanOpenTry_ok ctx order hops p cap cp v proof h s i k s' :
  localhost_ok s →
  ChanOpenTry ctx order hops p cap cp v proof h s = (Ok (i, k), s') → generated p i s s'.
Proof.
  intros Hl. unfold ChanOpenTry. intros H. kinv.
  repeat match goal with
  | H : Port_Authenticate _ _ _ = _ |- _ => apply Port_Authenticate_ok in H as [? ->]
  | H : GenerateChannelIdentifier _ = _ |- _ => apply GenerateChannelIdentifier_ok in H as (n & ? & -> & ->)
  | H : NewCapability _ _ _ = _ |- _ => apply NewCapability_ibc in H as Hibc
  | H : VerifyChannelState _ _ _ _ _ _ _ _ = _ |- _ =>
      apply VerifyChannelState_frame in H as [_ Hv]; [|by apply GenerateChannelIdentifier_localhost]
  | H : (_, _) = (_, _) |- _ => injection H as ? ?; subst
  end.
  split; [done|]. exists n. split_and!; [done|done|..].
  - rewrite Hibc, Hv by done. simpl. by rewrite lookup_insert_eq.
  - intros j Hj Hc. rewrite Hibc, Hv by done. simpl. by rewrite lookup_insert_ne.
Qed.

End ids.

(** ** The writes *)

Section writes.
Context {E : IbcEnv} {L : IbcLaws}.

(** The records of a channel that has just been created. *)
Definition channel_created (p c : string) (ch : Channel) (s s' : Chain) : Prop :=
  channel_at p c s' = Some ch ∧ is_Some (ibc s' !! ChannelPath p c) ∧
  next_send p c s' = Some 1 ∧ next_recv p c s' = Some 1 ∧ next_ack p c s' = Some 1 ∧
  ∀ k, k ≠ ChannelPath p c → k ≠ NextSequenceSendPath p c → k ≠ NextSequenceRecvPath p c →
    k ≠ NextSequenceAckPath p c → ibc s' !! k = ibc s !! k.

Lemma counter_lookup k v s :
  is_u64 v → ibc s !! k = Some (Uint64ToBigEndian v) → counter_at k s = Some v.
Proof.
  intros Hv Hk. unfold counter_at. rewrite Hk. simpl.
  rewrite bool_decide_eq_false_2 by by apply be_nonempty. simpl. by rewrite be_roundtrip.
Qed.

Lemma stored_lookup {A} `{ProtoLaws A, !ProtoNonEmpty A} k (a : A) s :
  ibc s !! k = Some (Marshal a) → stored k s = Some a.
Proof.
  intros Hk. unfold stored. rewrite Hk. simpl.
  rewrite bool_decide_eq_false_2 by apply marshal_nonempty. simpl. apply unmarshal_marshal.
Qed.

Lemma one_u64 : is_u64 1.
Proof. unfold is_u64. lia. Qed.

Ltac lookup_writes :=
  simpl; repeat first
    [ rewrite lookup_insert_eq
    | rewrite lookup_insert_ne by first [done|key_ne] ]; try done.

Lemma WriteOpenInitChannel_ok p c o hops cp v s u s' :
  WriteOpenInitChannel p c o hops cp v s = (Ok u, s') →
  channel_created p c (NewChannel INIT o cp hops v) s s'.
Proof.
  unfold WriteOpenInitChannel, SetChannel, SetNextSequenceSend, SetNextSequenceRecv, SetNextSequenceAck.
  intros H. kinv. split_and!.
  - apply stored_lookup. lookup_writes.
  - eexists. lookup_writes.
  - apply counter_lookup; [apply one_u64|]. lookup_writes.
  - apply counter_lookup; [apply one_u64|]. lookup_writes.
  - apply counter_lookup; [apply one_u64|]. lookup_writes.
  - intros k H1 H2 H3 H4. lookup_writes.
Qed.

Lemma WriteOpenTryChannel_ok p c o hops cp v s u s' :
  WriteOpenTryChannel p c o hops cp v s = (Ok u, s') →
  channel_created p c (NewChannel TRYOPEN o cp hops v) s s'.
Proof.
  unfold WriteOpenTryChannel, SetChannel, SetNextSequenceSend, SetNextSequenceRecv, SetNextSequenceAck.
  intros H. kinv. split_and!.
  - apply stored_lookup. lookup_writes.
  - eexists. lookup_writes.
  - apply counter_lookup; [apply one_u64|]. lookup_writes.
  - apply counter_lookup; [apply one_u64|]. lookup_writes.
  - apply counter_lookup; [apply one_u64|]. lookup_writes.
  - intros k H1 H2 H3 H4. lookup_writes.
Qed.

(** The channel was overwritten; otherwise only client stores changed. *)
Definition channel_updated (p c : string) (ch : Channel) (s s' : Chain) : Prop :=
  ibc s' !! ChannelPath p c = Some (Marshal ch) ∧
  ∀ k, k ≠ ChannelPath p c → HasPrefix k "clients/" = false → ibc s' !! k = ibc s !! k.

Lemma channel_updated_set p c ch s s1 :
  only_clients s s1 → channel_updated p c ch s (set_ibc (<[ChannelPath p c := Marshal ch]> (ibc s1)) s1).
Proof.
  intros [_ Ho]. split; simpl; [by rewrite lookup_insert_eq|].
  intros k Hk Hc. rewrite lookup_insert_ne by done. by apply Ho.
Qed.

(** What ChanOpenAck requires, and the channel it and its write leave. *)
Lemma ChanOpenAck_ok ctx p c cap v i proof h s s' :
  localhost_ok s →
  (ChanOpenAck ctx p c cap v i proof h;; WriteOpenAckChannel p c v i) s = (Ok tt, s') →
  ∃ ch conn, channel_at p c s = Some ch ∧ ch_State ch = INIT ∧ connection_of ch conn s ∧
    conn_State conn = CONN_OPEN ∧ authenticated cap p c s ∧
    channel_updated p c (with_cp_channel i (with_version v (with_state OPEN ch))) s s'.
Proof.
  intros Hl. unfold ChanOpenAck, WriteOpenAckChannel, SetChannel. intros H. ginv.
  match goal with H : VerifyChannelState _ _ _ _ _ _ _ _ = _ |- _ =>
    apply VerifyChannelState_frame in H as Ho; [|done] end.
  match goal with H : stored _ _ = Some _ |- _ => rewrite (only_clients_stored _ _ _ Ho) in H by done end.
  simplify_eq. eexists _, _. split_and!; try done. by apply channel_updated_set.
Qed.

Lemma ChanOpenConfirm_ok ctx p c cap proof h s s' :
  localhost_ok s →
  (ChanOpenConfirm ctx p c cap proof h;; WriteOpenConfirmChannel p c) s = (Ok tt, s') →
  ∃ ch conn, channel_at p c s = Some ch ∧ ch_State ch = TRYOPEN ∧ connection_of ch conn s ∧
    conn_State conn = CONN_OPEN ∧ authenticated cap p c s ∧
    channel_updated p c (with_state OPEN ch) s s'.
Proof.
  intros Hl. unfold ChanOpenConfirm, WriteOpenConfirmChannel, SetChannel. intros H. ginv.
  match goal with H : VerifyChannelState _ _ _ _ _ _ _ _ = _ |- _ =>
    apply VerifyChannelState_frame in H as Ho; [|done] end.
  match goal with H : stored _ _ = Some _ |- _ => rewrite (only_clients_stored _ _ _ Ho) in H by done end.
  simplify_eq. eexists _, _. split_and!; try done. by apply channel_updated_set.
Qed.

Lemma ChanCloseInit_ok ctx p c cap s s' :
  ChanCloseInit ctx p c cap s = (Ok tt, s') →
  ∃ ch conn cs, channel_at p c s = Some ch ∧ ch_State ch ≠ CLOSED ∧ connection_of ch conn s ∧
    conn_State conn = CONN_OPEN ∧ active_client ctx (conn_ClientId conn) cs s ∧
    authenticated cap p c s ∧ channel_updated p c (with_state CLOSED ch) s s'.
Proof.
  unfold ChanCloseInit, SetChannel. intros H. ginv. rewrite negb_true_iff, bool_decide_eq_false in *.
  eexists _, _, _. split_and!; try done. by apply channel_updated_set.
Qed.

Lemma ChanCloseConfirm_ok ctx p c cap proof h s s' :
  localhost_ok s →
  ChanCloseConfirm ctx p c cap proof h s = (Ok tt, s') →
  ∃ ch conn, channel_at p c s = Some ch ∧ ch_State ch ≠ CLOSED ∧ connection_of ch conn s ∧
    conn_State conn = CONN_OPEN ∧ authenticated cap p c s ∧
    channel_updated p c (with_state CLOSED ch) s s'.
Proof.
  intros Hl. unfold ChanCloseConfirm, SetChannel. intros H. ginv.
  rewrite negb_true_iff, bool_decide_eq_false in *.
  match goal with H : VerifyChannelState _ _ _ _ _ _ _ _ = _ |- _ =>
    apply VerifyChannelState_frame in H as Ho; [|done] end.
  eexists _, _. split_and!; try done. by apply channel_updated_set.
Qed.

Lemma ChanCloseInit_atomic ctx p c cap : atomic (ChanCloseInit ctx p c cap).
Proof. unfold ChanCloseInit. atomic_tac. Qed.

End writes.
