(* ===== verification/ClientProofs.v ===== *)
(** * Clients, specified

    The operations of 02-client/keeper: who may be updated, upgraded, recovered or
    created, and that an operation on one client touches the store of that client
    only, whatever its outcome and whatever the client's own code does. *)

From stdpp Require Import gmap strings list.
From Stdlib Require Import ZArith Lia Ascii.
From S2P Require Import Prelude GoStd Host Chain Height Capability Commitment LightClient Client ConnTypes ChanTypes Env Connection Channel ChanHandshake Packet ChanProofs PacketProofs Frames HandshakeProofs.

Section clients.
Context {E : IbcEnv} {L : IbcLaws}.

(** Only keys of the client's store change, and nothing outside of the IBC store. *)
Definition own_store (i : string) (s s' : Chain) : Prop :=
  s' = set_ibc (ibc s') s ∧ frame_outside (ClientStore i) (ibc s) (ibc s').

#[local] Instance own_store_refl i : Reflexive (own_store i).
Proof. intros []. by split. Qed.
#[local] Instance own_store_trans i : Transitive (own_store i).
Proof. intros a b c [H1 F1] [H2 F2]. split; [by rewrite H2, H1|by etrans]. Qed.

Definition within {A} (i : string) (m : M A) : Prop := ∀ s, own_store i s (snd (m s)).

Lemma within_readonly {A} i (m : M A) : readonly m → within i m.
Proof. intros H s. by rewrite H. Qed.

Lemma within_bind {A B} i (m : M A) (f : A → M B) :
  within i m → (∀ a, within i (f a)) → within i (m ≫= f).
Proof.
  intros Hm Hf s. unfold mbind, M_bind. specialize (Hm s).
  destruct (m s) as [[a|e|] s1]; simpl in *; [|done|done]. etrans; [exact Hm|apply Hf].
Qed.

Lemma within_ibc {A} i (m : SM A) :
  (∀ kv, frame_outside (ClientStore i) kv (snd (m kv))) → within i (on_ibc m).
Proof. intros H s. unfold on_ibc. specialize (H (ibc s)). by destruct (m (ibc s)) as [o kv]. Qed.

Ltac within_tac :=
  repeat first
    [ match goal with |- within _ (_ ≫= _) => apply within_bind; [|intros] end
    | match goal with |- within _ (on_ibc _) => apply within_ibc; intros end
    | match goal with |- within _ (match _ with _ => _ end) => case_match end
    | solve [apply within_readonly; ro] ].

Lemma UpdateClient_within ctx i msg : within i (UpdateClient ctx i msg).
Proof.
  unfold UpdateClient. within_tac.
  - apply verify_message_frame.
  - apply check_misbehaviour_frame.
  - apply misbehaviour_frame.
  - apply update_frame.
Qed.

Lemma UpgradeClient_within ctx i cs cons p1 p2 : within i (UpgradeClient ctx i cs cons p1 p2).
Proof. unfold UpgradeClient. within_tac. apply upgrade_frame. Qed.

Lemma ClientUpdateProposal_within ctx i j : within i (ClientUpdateProposal ctx i j).
Proof. unfold ClientUpdateProposal. within_tac. apply substitute_frame. Qed.

(** The stores of two clients have no key in common. *)
Lemma ClientStore_disjoint i j x :
  no_slash i → no_slash j → i ≠ j → HasPrefix (prefixed (ClientStore j) x) (ClientStore i) = false.
Proof.
  intros Hi Hj Hne. destruct (HasPrefix _ _) eqn:Hp; [|done]. exfalso. apply Hne.
  unfold HasPrefix, prefixed, ClientStore, KeyClientStorePrefix in Hp. apply prefix_inv in Hp as [t Ht].
  rewrite !string_app_assoc in Ht.
  apply (slash_inj "clients" "clients" (j +:+ "/" +:+ x) (i +:+ "/" +:+ t)) in Ht as [_ Ht]; [|done|done].
  by apply slash_inj in Ht as [-> _].
Qed.

Lemma own_store_other i j s s' :
  own_store i s s' → no_slash i → no_slash j → i ≠ j → client_at j s' = client_at j s.
Proof.
  intros [_ Hf] Hi Hj Hne. unfold client_at, stored. rewrite Hf; [done|]. by apply ClientStore_disjoint.
Qed.

Lemma status_guard ctx i cs st s :
  client_at i s = Some cs → GetClientStatus ctx cs i s = (Ok st, s) →
  GetClientState i s = (Ok (Some cs), s).
Proof. intros Hc _. by apply stored_some. Qed.

(** Operations on a client.  Updating and upgrading are refused with
    ErrClientNotActive unless the client is active, recovering by a substitute is
    refused when it is active, and a refusal writes nothing; whatever the outcome,
    and whatever the client's own code does, only keys of the client's own store
    change, so that every other client is as before. *)
Theorem client_operations_isolated ctx i cs st s :
  no_slash i → client_at i s = Some cs → GetClientStatus ctx cs i s = (Ok st, s) →
  (st ≠ Active →
     (∀ msg, UpdateClient ctx i msg s = (Err ErrClientNotActive, s)) ∧
     (∀ cs' cons p1 p2, UpgradeClient ctx i cs' cons p1 p2 s = (Err ErrClientNotActive, s))) ∧
  (st = Active → ∀ j, ClientUpdateProposal ctx i j s = (Err ErrInvalidUpdateClientProposal, s)) ∧
  (∀ s', (∃ msg, s' = snd (UpdateClient ctx i msg s)) ∨
         (∃ cs' cons p1 p2, s' = snd (UpgradeClient ctx i cs' cons p1 p2 s)) ∨
         (∃ j, s' = snd (ClientUpdateProposal ctx i j s)) →
     own_store i s s' ∧ ∀ j, no_slash j → i ≠ j → client_at j s' = client_at j s).
Proof.
  intros Hi Hc Hst. pose proof (status_guard ctx i cs st s Hc Hst) as Hg. split_and!.
  - intros Hne. split; intros.
    + unfold UpdateClient. rewrite (bind_run _ _ _ _ _ Hg). rewrite (bind_run _ _ _ cs s) by done.
      rewrite (bind_run _ _ _ _ _ Hst). unfold mbind, M_bind, require, lift. by rewrite bool_decide_eq_false_2.
    + unfold UpgradeClient. rewrite (bind_run _ _ _ _ _ Hg). rewrite (bind_run _ _ _ cs s) by done.
      rewrite (bind_run _ _ _ _ _ Hst). unfold mbind, M_bind, require, lift. by rewrite bool_decide_eq_false_2.
  - intros -> j. unfold ClientUpdateProposal. rewrite (bind_run _ _ _ _ _ Hg).
    rewrite (bind_run _ _ _ cs s) by done. by rewrite (bind_run _ _ _ _ _ Hst).
  - intros s' Hs'. assert (own_store i s s') as Ho.
    { destruct Hs' as [(msg & ->)|[(cs' & cons & p1 & p2 & ->)|(j & ->)]].
      - apply UpdateClient_within.
      - apply UpgradeClient_within.
      - apply ClientUpdateProposal_within. }
    split; [done|]. intros j Hj Hne. by eapply own_store_other.
Qed.

(** Creating a client.  CreateClient never creates a localhost client nor a
    client of a type that is not allowed; it stores the client under the identifier
    "{type}-{n}" for the next n, the client is active in the end, and only the
    identifier counter and the new client's store have changed. *)
Theorem create_client_spec ctx cs cons s i s' :
  CreateClient ctx cs cons s = (Ok i, s') →
  ClientType cs ≠ Localhost ∧
  (∃ params, GetClientParams s = (Ok params, s) ∧ IsAllowedClient params (ClientType cs) = true) ∧
  (∃ n, counter_at KeyNextClientSequence s = Some n ∧ i = FormatClientIdentifier (ClientType cs) n ∧
     (∀ k, k ≠ KeyNextClientSequence → HasPrefix k (ClientStore i) = false → ibc s' !! k = ibc s !! k)) ∧
  GetClientStatus ctx cs i s' = (Ok Active, s').
Proof.
  unfold CreateClient. intros (u & s1 & [Hlt ->]%require_ok & H)%bind_ok.
  rewrite negb_true_iff, bool_decide_eq_false in Hlt.
  apply bind_ok in H as (params & s1 & Hp & H).
  assert (s1 = s) as -> by (eapply readonly_ok; [|exact Hp]; ro).
  apply bind_ok in H as (u1 & s1 & [Hal ->]%require_ok & H).
  apply bind_ok in H as (j & s1 & Hg & H). apply bind_ok in H as (u2 & s2 & Hinit & H).
  apply bind_ok in H as (st & s3 & Hst & H).
  assert (s3 = s2) as -> by (eapply readonly_ok; [|exact Hst]; ro).
  apply bind_ok in H as (u3 & s4 & [->%bool_decide_eq_true ->]%require_ok & [-> ->]%ret_ok).
  split_and!; [done|eauto| |done].
  assert (frame_outside (ClientStore j) (ibc s1) (ibc s2)) as Hf.
  { pose proof (within_ibc j _ (initialize_frame ctx (ClientStore j) cs cons) s1) as [_ Hf].
    by rewrite Hinit in Hf. }
  unfold GenerateClientIdentifier, GetNextClientSequence, SetNextClientSequence, ibc_get, ibc_set in Hg. minv.
  match goal with Hb : non_empty _ = Some ?bz |- _ => rename Hb into Hbz end.
  eexists. split_and!; [unfold counter_at; by rewrite Hbz|done|]. intros k Hk Hpre.
  rewrite Hf by done. by apply lookup_insert_ne.
Qed.

End clients.
