(* ===== verification/ConnProofs.v ===== *)
(** * The connection handshake, specified

    What each step of 03-connection/keeper/handshake.go requires and leaves: a
    fresh identifier for the first two steps, the next state for the others, the
    negotiated version, and every other connection as it was. *)

From stdpp Require Import gmap strings list.
From Stdlib Require Import ZArith Lia Ascii.
From S2P Require Import Prelude GoStd Host Chain Height Capability Port Commitment LightClient Client ConnTypes ChanTypes Env Connection Channel ChanHandshake Packet ChanProofs PacketProofs Frames HandshakeProofs.

Section connections.
Context {E : IbcEnv} {L : IbcLaws}.

Definition next_connection (s : Chain) : option Z := counter_at KeyNextConnectionSequence s.

(** Only connection [i], the counter of identifiers and client stores changed. *)
Definition only_connection (i : string) (s s' : Chain) : Prop :=
  ∀ k, HasPrefix k "clients/" = false → k ≠ KeyNextConnectionSequence → k ≠ ConnectionPath i →
    ibc s' !! k = ibc s !! k.

Lemma only_connection_clients i s s1 s' : only_clients s s1 → only_connection i s1 s' → only_connection i s s'.
Proof. intros [_ Ho] Hc k Hk Hn Hi. rewrite Hc by done. by apply Ho. Qed.

Lemma set_connection_ok i c s s' :
  SetConnection i c s = (Ok tt, s') → connection_at i s' = Some c ∧ only_connection i s s'.
Proof.
  unfold SetConnection, ibc_set. intros ->%modify_ok. split.
  - apply stored_lookup. simpl. apply lookup_insert_eq.
  - intros k _ _ Hk. simpl. by apply lookup_insert_ne.
Qed.

Lemma GenerateConnectionIdentifier_ok s i s' :
  GenerateConnectionIdentifier s = (Ok i, s') →
  ∃ n, next_connection s = Some n ∧ i = FormatConnectionIdentifier n ∧
    next_connection s' = Some (u64 (n + 1)) ∧
    (∀ k, k ≠ KeyNextConnectionSequence → ibc s' !! k = ibc s !! k).
Proof.
  unfold GenerateConnectionIdentifier, GetNextConnectionSequence, SetNextConnectionSequence, ibc_get, ibc_set.
  intros H. minv. match goal with Hb : non_empty _ = Some ?bz |- _ => rename Hb into Hbz end.
  eexists. unfold next_connection at 1, counter_at. rewrite Hbz. split_and!; [done|done| |].
  - apply counter_written, u64_range.
  - intros k Hk. simpl. by apply lookup_insert_ne.
Qed.

Lemma addConnectionToClient_ok c i u s s' :
  addConnectionToClient c i s = (Ok u, s') →
  is_Some (client_at c s) ∧ ∀ k, HasPrefix k "clients/" = false → ibc s' !! k = ibc s !! k.
Proof.
  unfold addConnectionToClient, GetClientConnectionPaths, SetClientConnectionPaths. intros H. kinv.
  split; [by eexists|]. intros k Hk. simpl. rewrite lookup_insert_ne; [done|]. intros <-.
  pose proof (prefix_app "clients/" (c +:+ "/" +:+ KeyConnectionPrefix)) as Hp.
  change (HasPrefix (ClientConnectionsPath c) "clients/" = true) in Hp. congruence.
Qed.

Lemma verified_run ctx conn delays path h proof v s u s' :
  localhost_ok s → readonly delays →
  verify_through ctx conn delays path (verify_member ctx h proof v) s = (Ok u, s') →
  only_clients s s' ∧ localhost_ok s'.
Proof.
  intros Hl Hd H. split.
  - eapply verify_through_frame; [done|apply verify_member_verifier|done|exact H].
  - eapply verify_through_localhost; [done|apply verify_member_verifier|done|exact H].
Qed.

(** The three proofs of the counterparty's state. *)
Lemma verified_all ctx conn h proof1 proof2 proof3 i c cs h' cons (rest : M ()) s s' :
  localhost_ok s →
  (VerifyConnectionState ctx conn h proof1 i c;; VerifyClientState ctx conn h proof2 cs;;
   VerifyClientConsensusState ctx conn h h' proof3 cons;; rest) s = (Ok tt, s') →
  ∃ s1, only_clients s s1 ∧ rest s1 = (Ok tt, s').
Proof.
  intros Hl (u1 & s1 & H1 & (u2 & s2 & H2 & (u3 & s3 & H3 & H)%bind_ok)%bind_ok)%bind_ok.
  apply verified_run in H1 as [Ho1 Hl1]; [|done|ro]. apply verified_run in H2 as [Ho2 Hl2]; [|done|ro].
  apply verified_run in H3 as [Ho3 _]; [|done|ro]. exists s3. split; [|done].
  etrans; [exact Ho1|]. by etrans.
Qed.

Lemma ConnOpenAck_ok ctx i cs v j p1 p2 p3 h h' s s' :
  localhost_ok s → ConnOpenAck ctx i cs v j p1 p2 p3 h h' s = (Ok tt, s') →
  ∃ conn, connection_at i s = Some conn ∧ conn_State conn = CONN_INIT ∧
    IsSupportedVersion (conn_Versions conn) v = true ∧
    connection_at i s' = Some (NewConnectionEnd CONN_OPEN (conn_ClientId conn)
      (NewConnCounterparty (cpc_ClientId (conn_Counterparty conn)) j (cpc_Prefix (conn_Counterparty conn)))
      [v] (conn_DelayPeriod conn)) ∧
    only_connection i s s'.
Proof.
  intros Hl. unfold ConnOpenAck. intros (hh & s1 & [_ ->]%lift_ok & H)%bind_ok.
  apply bind_ok in H as (u & s1 & [_ ->]%require_ok & H).
  apply bind_ok in H as (oc & s1 & [-> Hc]%stored_ok & H).
  apply bind_ok in H as (conn & s1 & [-> ->]%orErr_ok & H).
  apply bind_ok in H as (u' & s1 & [Hst%bool_decide_eq_true ->]%require_ok & H).
  apply bind_ok in H as (u'' & s1 & [Hver ->]%require_ok & H).
  apply bind_ok in H as (x & s1 & Hx & H). apply readonly_ok in Hx; [|ro]. subst s1.
  apply bind_ok in H as (y & s1 & Hy & H). apply readonly_ok in Hy; [|ro]. subst s1.
  apply verified_all in H as (s1 & Ho & H); [|done]. apply set_connection_ok in H as [Hn Hf].
  exists conn. split_and!; [done|done|done|done|by eapply only_connection_clients].
Qed.

Lemma ConnOpenConfirm_ok ctx i proof h s s' :
  localhost_ok s → ConnOpenConfirm ctx i proof h s = (Ok tt, s') →
  ∃ conn, connection_at i s = Some conn ∧ conn_State conn = CONN_TRYOPEN ∧
    connection_at i s' = Some (NewConnectionEnd CONN_OPEN (conn_ClientId conn) (conn_Counterparty conn)
      (conn_Versions conn) (conn_DelayPeriod conn)) ∧
    only_connection i s s'.
Proof.
  intros Hl. unfold ConnOpenConfirm. intros (oc & s1 & [-> Hc]%stored_ok & H)%bind_ok.
  apply bind_ok in H as (conn & s1 & [-> ->]%orErr_ok & H).
  apply bind_ok in H as (u' & s1 & [Hst%bool_decide_eq_true ->]%require_ok & H).
  apply bind_ok in H as (u & s1 & H1 & H). apply verified_run in H1 as [Ho _]; [|done|ro].
  apply set_connection_ok in H as [Hn Hf].
  exists conn. split_and!; [done|done|done|by eapply only_connection_clients].
Qed.

(** The end of the first two steps: a fresh identifier, registered with the client. *)
Lemma open_new_connection i c conn s s' :
  (addConnectionToClient c i;; SetConnection i conn;; mret i) s = (Ok i, s') →
  is_Some (client_at c s) ∧ connection_at i s' = Some conn ∧ only_connection i s s'.
Proof.
  intros (u & s1 & [Hc Hf]%addConnectionToClient_ok & ([] & s2 & [Hn Ho]%set_connection_ok & [_ ->]%ret_ok)%bind_ok)%bind_ok.
  split_and!; [done|done|]. intros k Hk Hk' Hi. rewrite Ho by done. by apply Hf.
Qed.

Lemma GenerateConnectionIdentifier_lh s i s' :
  GenerateConnectionIdentifier s = (Ok i, s') → localhost_ok s → localhost_ok s'.
Proof.
  intros (n & _ & _ & _ & Hs)%GenerateConnectionIdentifier_ok. apply localhost_ok_same. by apply Hs.
Qed.

(** What the opening steps leave. *)
Definition connection_opened (i : string) (conn : ConnectionEnd) (s s' : Chain) : Prop :=
  (∃ n, next_connection s = Some n ∧ i = FormatConnectionIdentifier n) ∧
  connection_at i s' = Some conn ∧ only_connection i s s'.

Lemma generated_connection i conn s s1 s2 s' :
  GenerateConnectionIdentifier s = (Ok i, s1) → only_clients s1 s2 →
  connection_at i s' = Some conn → only_connection i s2 s' → connection_opened i conn s s'.
Proof.
  intros (n & Hn & -> & _ & Hs)%GenerateConnectionIdentifier_ok Hoc Hc Ho. split; [eauto|]. split; [done|].
  intros k Hk Hk' Hi. rewrite Ho, (proj2 Hoc) by done. by apply Hs.
Qed.

Lemma ConnOpenInit_ok ctx c cp v d s i s' :
  ConnOpenInit ctx c cp v d s = (Ok i, s') →
  ∃ cs vs, active_client ctx c cs s ∧
    (vs = match v with Some v => [v] | None => GetCompatibleVersions end) ∧
    (∀ v', v = Some v' → IsSupportedVersion GetCompatibleVersions v' = true) ∧
    connection_opened i (NewConnectionEnd CONN_INIT c cp vs d) s s'.
Proof.
  unfold ConnOpenInit. intros (vs & s1 & Hvs & H)%bind_ok.
  assert (s1 = s ∧ vs = match v with Some v => [v] | None => GetCompatibleVersions end ∧
    (∀ v', v = Some v' → IsSupportedVersion GetCompatibleVersions v' = true)) as (-> & -> & Hsup).
  { destruct v as [v|]; minv; split_and!; congruence. }
  apply bind_ok in H as (oc & s1 & [-> Hc]%stored_ok & H).
  apply bind_ok in H as (cs & s1 & [-> ->]%orErr_ok & H).
  apply bind_ok in H as (status & s1 & Hst & H).
  assert (s1 = s) as -> by (eapply readonly_ok; [|exact Hst]; ro).
  apply bind_ok in H as (u & s1 & [->%bool_decide_eq_true ->]%require_ok & H).
  apply bind_ok in H as (j & s1 & Hg & H).
  assert (j = i) as ->.
  { apply bind_ok in H as (? & ? & _ & H). apply bind_ok in H as (? & ? & _ & H). by apply ret_ok in H as [-> _]. }
  apply open_new_connection in H as (_ & Hn & Ho).
  exists cs. eexists. split_and!; [by split|done|done|by eapply generated_connection].
Qed.

Lemma ConnOpenTry_ok ctx cp d c cs vs p1 p2 p3 h h' s i s' :
  localhost_ok s → ConnOpenTry ctx cp d c cs vs p1 p2 p3 h h' s = (Ok i, s') →
  ∃ v, PickVersion GetCompatibleVersions vs = Ok v ∧
    connection_opened i (NewConnectionEnd CONN_TRYOPEN c cp [v] d) s s'.
Proof.
  intros Hl. unfold ConnOpenTry. intros (j & s1 & Hg & H)%bind_ok.
  pose proof (GenerateConnectionIdentifier_lh _ _ _ Hg Hl) as Hl1.
  apply bind_ok in H as (hh & s2 & [_ ->]%lift_ok & H).
  apply bind_ok in H as (u & s2 & [_ ->]%require_ok & H).
  apply bind_ok in H as (x & s2 & Hx & H). apply readonly_ok in Hx; [|ro]. subst s2.
  apply bind_ok in H as (cons & s2 & Hy & H). apply readonly_ok in Hy; [|ro]. subst s2.
  apply bind_ok in H as (v & s2 & [Hv ->]%lift_ok & H).
  apply bind_ok in H as (u1 & s2 & H1 & H). apply verified_run in H1 as [Ho1 Hl2]; [|done|ro].
  apply bind_ok in H as (u2 & s3 & H1 & H). apply verified_run in H1 as [Ho2 Hl3]; [|done|ro].
  apply bind_ok in H as (u3 & s4 & H1 & H). apply verified_run in H1 as [Ho3 _]; [|done|ro].
  assert (j = i) as ->.
  { apply bind_ok in H as (? & ? & _ & H). apply bind_ok in H as (? & ? & _ & H). by apply ret_ok in H as [-> _]. }
  apply open_new_connection in H as (_ & Hn & Ho).
  exists v. split; [done|]. eapply (generated_connection _ _ s s1 s4); [done| |done|done].
  etrans; [exact Ho1|]. by etrans.
Qed.

(** The connection handshake.  ConnOpenInit and ConnOpenTry store a new
    connection, in INIT with the proposed or the compatible versions, or in TRYOPEN
    with the one version picked from the counterparty's, under the next identifier;
    ConnOpenAck takes a connection from INIT to OPEN with a version that was
    proposed, ConnOpenConfirm from TRYOPEN to OPEN.  No step changes another
    connection, or anything outside of the connections and the client stores. *)
Theorem connection_handshake ctx c cp d v cs vs j p1 p2 p3 h h' i s s' :
  localhost_ok s →
  (ConnOpenInit ctx c cp v d s = (Ok i, s') →
   ∃ cs', active_client ctx c cs' s ∧
     connection_opened i (NewConnectionEnd CONN_INIT c cp
       (match v with Some v => [v] | None => GetCompatibleVersions end) d) s s') ∧
  (ConnOpenTry ctx cp d c cs vs p1 p2 p3 h h' s = (Ok i, s') →
   ∃ v', PickVersion GetCompatibleVersions vs = Ok v' ∧
     connection_opened i (NewConnectionEnd CONN_TRYOPEN c cp [v'] d) s s') ∧
  (∀ v', ConnOpenAck ctx i cs v' j p1 p2 p3 h h' s = (Ok tt, s') →
   ∃ conn, connection_at i s = Some conn ∧ conn_State conn = CONN_INIT ∧
     IsSupportedVersion (conn_Versions conn) v' = true ∧
     connection_at i s' = Some (NewConnectionEnd CONN_OPEN (conn_ClientId conn)
       (NewConnCounterparty (cpc_ClientId (conn_Counterparty conn)) j (cpc_Prefix (conn_Counterparty conn)))
       [v'] (conn_DelayPeriod conn)) ∧
     only_connection i s s') ∧
  (ConnOpenConfirm ctx i p1 h s = (Ok tt, s') →
   ∃ conn, connection_at i s = Some conn ∧ conn_State conn = CONN_TRYOPEN ∧
     connection_at i s' = Some (NewConnectionEnd CONN_OPEN (conn_ClientId conn) (conn_Counterparty conn)
       (conn_Versions conn) (conn_DelayPeriod conn)) ∧
     only_connection i s s').
Proof.
  intros Hl. split_and!.
  - intros (cs' & vs' & Ha & -> & _ & Ho)%ConnOpenInit_ok. eauto.
  - by apply ConnOpenTry_ok.
  - intros v'. by apply ConnOpenAck_ok.
  - by apply ConnOpenConfirm_ok.
Qed.

End connections.

(** The number of blocks a packet delay stands for is computed in 64-bit
    floating point: it is the quotient rounded up for ordinary delays, but for a
    delay above 2^53 nanoseconds the conversion can lose the last bits, and the
    result is then below the exact quotient. *)
Theorem block_delay_precision {E : IbcEnv} :
  block_delay 10 3 = 4 ∧ block_delay 9 3 = 3 ∧ block_delay (30 * 10 ^ 9) (7 * 10 ^ 9) = 5 ∧
  block_delay (2 ^ 53 + 1) 1 = 2 ^ 53.
Proof. split_and!; vm_compute; reflexivity. Qed.
