(* ===== verification/Protocol.v ===== *)
(** * The chain as a transition system

    Everything that can happen to the state of channels and packets, as a step
    relation: the packet operations, the handshake steps, the operations of the
    other keepers, and what applications do outside of the IBC store.  Between
    the check of an opening step and the write that follows it the application's
    callback runs, so that any other steps may come in between: the identifiers
    handed out but not yet written are part of the state.

    An invariant holds in every reachable state, and from it follow the
    guarantees of the protocol over whole runs: sequences are never reused,
    packets are received at most once, acknowledged or timed out at most once,
    acknowledgements are never overwritten and closed channels stay closed. *)

From stdpp Require Import gmap strings list relations.
From Stdlib Require Import ZArith Lia Ascii.
From S2P Require Import Prelude GoStd Sha256 Host Chain Height Capability Port Commitment LightClient Client ConnTypes ChanTypes Env Connection Channel ChanHandshake Packet ChanProofs PacketProofs Frames HandshakeProofs.

(** ** Steps *)

Section steps.
Context {E : IbcEnv}.

(** The operations that do not open a channel.  Packets of messages have passed
    their stateless validation; a failed operation is rolled back, so that only
    the operations of the client and connection keepers, which never touch
    channels, are taken with every outcome. *)
Inductive op_step (s s' : Chain) : Prop :=
| op_send ctx cap p c th ts data n :
    SendPacket ctx cap p c th ts data s = (Ok n, s') → op_step s s'
| op_recv ctx cap pk proof h :
    Packet_ValidateBasic pk = Ok tt → RecvPacket ctx cap pk proof h s = (Ok tt, s') → op_step s s'
| op_write_ack cap pk ack : WriteAcknowledgement cap pk ack s = (Ok tt, s') → op_step s s'
| op_ack ctx cap pk ack proof h :
    AcknowledgePacket ctx cap pk ack proof h s = (Ok tt, s') → op_step s s'
| op_timeout ctx pk proof h n : TimeoutPacket ctx pk proof h n s = (Ok tt, s') → op_step s s'
| op_timeout_on_close ctx cap pk proof proofClosed h n :
    TimeoutOnClose ctx cap pk proof proofClosed h n s = (Ok tt, s') → op_step s s'
| op_timeout_executed cap pk : TimeoutExecuted cap pk s = (Ok tt, s') → op_step s s'
| op_open_ack ctx p c cap v i proof h :
    (ChanOpenAck ctx p c cap v i proof h;; WriteOpenAckChannel p c v i) s = (Ok tt, s') → op_step s s'
| op_open_confirm ctx p c cap proof h :
    (ChanOpenConfirm ctx p c cap proof h;; WriteOpenConfirmChannel p c) s = (Ok tt, s') → op_step s s'
| op_close_init ctx p c cap : ChanCloseInit ctx p c cap s = (Ok tt, s') → op_step s s'
| op_close_confirm ctx p c cap proof h :
    ChanCloseConfirm ctx p c cap proof h s = (Ok tt, s') → op_step s s'
| op_conn_init ctx i cp v d o : ConnOpenInit ctx i cp v d s = (o, s') → op_step s s'
| op_conn_try ctx cp d i cs vs p1 p2 p3 h h' o :
    ConnOpenTry ctx cp d i cs vs p1 p2 p3 h h' s = (o, s') → op_step s s'
| op_conn_ack ctx i cs v j p1 p2 p3 h h' o :
    ConnOpenAck ctx i cs v j p1 p2 p3 h h' s = (o, s') → op_step s s'
| op_conn_confirm ctx i proof h o : ConnOpenConfirm ctx i proof h s = (o, s') → op_step s s'
| op_create_client ctx cs cons o : CreateClient ctx cs cons s = (o, s') → op_step s s'
| op_update_client ctx i msg o : UpdateClient ctx i msg s = (o, s') → op_step s s'
| op_upgrade_client ctx i cs cons p1 p2 o :
    UpgradeClient ctx i cs cons p1 p2 s = (o, s') → op_step s s'
| op_client_proposal ctx i j o : ClientUpdateProposal ctx i j s = (o, s') → op_step s s'
| op_upgrade_proposal ctx plan cs o : HandleUpgradeProposal ctx plan cs s = (o, s') → op_step s s'
| op_begin_block ctx o : Client_BeginBlocker ctx s = (o, s') → op_step s s'
| op_client_params params o : SetClientParams params s = (o, s') → op_step s s'
| op_conn_params params o : SetConnParams params s = (o, s') → op_step s s'
| op_outside : ibc s' = ibc s → op_step s s'.

(** A chain with the channel identifiers that were handed out and not written. *)
Definition World : Type := Chain * gset (string * string).

(** The client stored for the localhost is one; identifiers do not run out
    (fewer than 2^64 - 1 channels are ever opened). *)
Inductive step : World → World → Prop :=
| step_op s s' P : localhost_ok s → op_step s s' → step (s, P) (s', P)
| step_open_init ctx o hops p cap cp v s i k s' P :
    next_channel s ≠ Some MaxUint64 →
    ChanOpenInit ctx o hops p cap cp v s = (Ok (i, k), s') → step (s, P) (s', {[(p, i)]} ∪ P)
| step_open_try ctx o hops p cap cp v proof h s i k s' P :
    localhost_ok s → next_channel s ≠ Some MaxUint64 →
    ChanOpenTry ctx o hops p cap cp v proof h s = (Ok (i, k), s') → step (s, P) (s', {[(p, i)]} ∪ P)
| step_write_init o hops p i cp v s s' P :
    (p, i) ∈ P → WriteOpenInitChannel p i o hops cp v s = (Ok tt, s') → step (s, P) (s', P ∖ {[(p, i)]})
| step_write_try o hops p i cp v s s' P :
    (p, i) ∈ P → WriteOpenTryChannel p i o hops cp v s = (Ok tt, s') → step (s, P) (s', P ∖ {[(p, i)]}).

(** ** What an operation does to the records of channels and packets *)

Definition same_at (k : string) (s s' : Chain) : Prop := ibc s' !! k = ibc s !! k.

(** The changes of a channel end. *)
Inductive legal (ch : Channel) : Channel → Prop :=
| legal_ack i v : ch_State ch = INIT →
    legal ch (with_cp_channel i (with_version v (with_state OPEN ch)))
| legal_confirm : ch_State ch = TRYOPEN → legal ch (with_state OPEN ch)
| legal_close : legal ch (with_state CLOSED ch).

(** Packet [n] of a channel was sent. *)
Definition sends (p c : string) (n : Z) (s s' : Chain) : Prop :=
  ∃ ctx cap th ts data, SendPacket ctx cap p c th ts data s = (Ok n, s').

(** An acknowledgement was written at key [k]. *)
Definition acknowledges (k : string) (s s' : Chain) : Prop :=
  ∃ cap pk ack, WriteAcknowledgement cap pk ack s = (Ok tt, s') ∧
    k = PacketAcknowledgementPath (DestinationPort pk) (DestinationChannel pk) (Sequence pk).

(** The changes: channels change legally; a send counter moves only when a packet
    is sent, and only that packet gets a commitment; a receive counter moves by
    one; receipts are only written, acknowledgements only where there was none. *)
Record op_effects (s s' : Chain) : Prop := {
  eff_next_channel : same_at KeyNextChannelSequence s s';
  eff_channel k : HasPrefix k "channelEnds/" = true →
    same_at k s s' ∨
    ∃ ch ch', stored k s = Some ch ∧ ibc s' !! k = Some (Marshal ch') ∧ legal ch ch';
  eff_send p c : no_slash p → no_slash c →
    (same_at (NextSequenceSendPath p c) s s' ∧
     ∀ n, is_u64 n → same_at (PacketCommitmentPath p c n) s s' ∨ commitment_at p c n s' = None) ∨
    (∃ n, next_send p c s = Some n ∧ n ≠ 0 ∧ is_Some (channel_at p c s) ∧
       next_send p c s' = Some (u64 (n + 1)) ∧
       (∀ n', is_u64 n' → n' ≠ n → same_at (PacketCommitmentPath p c n') s s') ∧ sends p c n s s');
  eff_recv p c : no_slash p → no_slash c →
    same_at (NextSequenceRecvPath p c) s s' ∨
    ∃ n, next_recv p c s = Some n ∧ n ≠ 0 ∧ is_Some (channel_at p c s) ∧
      next_recv p c s' = Some (u64 (n + 1));
  eff_receipt k : HasPrefix k "receipts/" = true →
    same_at k s s' ∨ ibc s' !! k = Some receipt_value;
  eff_ack k : HasPrefix k "acks/" = true →
    same_at k s s' ∨ (ibc s !! k = None ∧ acknowledges k s s')
}.

(** ** Operations that write few keys *)

Definition touches (ks : list string) (s s' : Chain) : Prop :=
  ∀ k, chan_key k = true → k ∉ ks → ibc s' !! k = ibc s !! k.

Lemma touches_nil s s' : keeps_channels s s' → touches [] s s'.
Proof. intros H k Hk _. by apply H. Qed.

Lemma touches_insert k v ks s s1 :
  touches ks s s1 → touches (k :: ks) s (set_ibc (<[k := v]> (ibc s1)) s1).
Proof.
  intros H j Hj Hn. rewrite not_elem_of_cons in Hn. destruct Hn as [Hne Hn]. simpl.
  rewrite lookup_insert_ne by done. by apply H.
Qed.

Lemma touches_delete k ks s s1 :
  touches ks s s1 → touches (k :: ks) s (set_ibc (delete k (ibc s1)) s1).
Proof.
  intros H j Hj Hn. rewrite not_elem_of_cons in Hn. destruct Hn as [Hne Hn]. simpl.
  rewrite lookup_delete_ne by done. by apply H.
Qed.

Lemma touches_only_clients s s1 : only_clients s s1 → touches [] s s1.
Proof. intros H. by apply touches_nil, only_clients_channels. Qed.

Lemma touches_updated p c ch s s' :
  channel_updated p c ch s s' → touches [ChannelPath p c] s s'.
Proof.
  intros [_ H] k Hk Hn. apply H; [|by apply chan_key_client].
  intros ->. apply Hn. by apply list_elem_of_here.
Qed.

(** A key with a prefix other than those of the touched keys is untouched. *)
Lemma touches_same ks s s' k : touches ks s s' → chan_key k = true → k ∉ ks → same_at k s s'.
Proof. intros H Hk Hn. by apply H. Qed.

Lemma chan_key_of f k : In f chan_families → HasPrefix k f = true → chan_key k = true.
Proof. intros Hf Hk. unfold chan_key. apply existsb_exists. eauto. Qed.

End steps.

Section effects.
Context {E : IbcEnv} {L : IbcLaws}.

Definition free (f : string) (ks : list string) : Prop := Forall (λ k, HasPrefix k f = false) ks.

Lemma touches_family f ks k s s' :
  touches ks s s' → In f chan_families → free f ks → HasPrefix k f = true → same_at k s s'.
Proof.
  intros Ht Hf Hfree Hk. eapply touches_same; [done|by eapply chan_key_of|].
  intros Hin. unfold free in Hfree. rewrite Forall_forall in Hfree.
  specialize (Hfree _ Hin). congruence.
Qed.

Ltac family f := eapply (touches_family f); [eassumption|simpl; tauto|repeat constructor|done].

(** No sequence counter and no commitment among the touched keys. *)
Lemma touches_send ks s s' p c :
  touches ks s s' → free "nextSequenceSend/" ks → free "commitments/" ks →
  same_at (NextSequenceSendPath p c) s s' ∧
  ∀ n, is_u64 n → same_at (PacketCommitmentPath p c n) s s' ∨ commitment_at p c n s' = None.
Proof.
  intros Ht H1 H2. split; [|intros n _; left].
  - eapply (touches_family "nextSequenceSend/"); [done|simpl; tauto|done|done].
  - eapply (touches_family "commitments/"); [done|simpl; tauto|done|done].
Qed.

Lemma keeps_effects s s' : keeps_channels s s' → op_effects s s'.
Proof.
  intros Hk%touches_nil. split.
  - family "nextChannelSequence".
  - intros k Hp. left. family "channelEnds/".
  - intros p c _ _. left. eapply touches_send; [done|constructor..].
  - intros p c _ _. left. family "nextSequenceRecv/".
  - intros k Hp. left. family "receipts/".
  - intros k Hp. left. family "acks/".
Qed.

Lemma Packet_ValidateBasic_ok pk :
  Packet_ValidateBasic pk = Ok tt →
  no_slash (SourcePort pk) ∧ no_slash (DestinationPort pk) ∧ no_slash (SourceChannel pk) ∧
  no_slash (DestinationChannel pk) ∧ Sequence pk ≠ 0 ∧
  (TimeoutHeight pk ≠ ZeroHeight ∨ TimeoutTimestamp pk ≠ 0) ∧ Data pk ≠ "".
Proof.
  unfold Packet_ValidateBasic.
  intros ([] & H1 & ([] & H2 & ([] & H3 & ([] & H4 & ([] & H5%check_ok &
    ([] & H6%check_ok & H7%check_ok)%obind_ok)%obind_ok)%obind_ok)%obind_ok)%obind_ok)%obind_ok.
  apply defaultIdentifierValidator_ok in H1 as (_ & ? & _), H2 as (_ & ? & _), H3 as (_ & ? & _),
    H4 as (_ & ? & _).
  rewrite negb_true_iff in H5, H6, H7. rewrite Z.eqb_neq in H5. rewrite bool_decide_eq_false in H7.
  split_and!; try done. apply andb_false_iff in H6 as [Hz|Hz]; [left|right].
  - intros Heq. apply IsZero_spec in Heq. congruence.
  - by apply Z.eqb_neq.
Qed.

Lemma Packet_ValidateBasic_plain pk :
  Packet_ValidateBasic pk = Ok tt →
  plain (SourcePort pk) ∧ plain (DestinationPort pk) ∧ plain (SourceChannel pk) ∧ plain (DestinationChannel pk).
Proof.
  unfold Packet_ValidateBasic.
  intros ([] & H1 & ([] & H2 & ([] & H3 & ([] & H4 & _)%obind_ok)%obind_ok)%obind_ok)%obind_ok.
  apply defaultIdentifierValidator_ok in H1 as [? _], H2 as [? _], H3 as [? _], H4 as [? _].
  split_and!; by apply IsValidID_free.
Qed.

Lemma send_effects ctx cap p c th ts data n s s' :
  SendPacket ctx cap p c th ts data s = (Ok n, s') → op_effects s s'.
Proof.
  intros Hsend. pose proof Hsend as (ch & Hc & ->)%SendPacket_ok.
  destruct (Packet_ValidateBasic_ok _ (cs_valid _ _ _ _ _ _ _ _ _ _ Hc)) as (Hp & _ & Hch & _ & Hn0 & _).
  pose proof (counter_range _ _ _ (cs_next _ _ _ _ _ _ _ _ _ _ Hc)) as Hn. simpl in *.
  assert (touches [PacketCommitmentPath p c n; NextSequenceSendPath p c] s
    (send_effect (packet_of ch p c th ts data n) s)) as Ht.
  { apply (touches_insert _ _ _ s (set_ibc _ s)), touches_insert, touches_nil. done. }
  split.
  - family "nextChannelSequence".
  - intros k Hk. left. family "channelEnds/".
  - intros p' c' Hp' Hc'.
    destruct (decide (p' = p ∧ c' = c)) as [[-> ->]|Hne].
    + right. exists n. split_and!; [apply Hc|done|eexists; apply Hc| | |by do 5 eexists].
      * apply counter_lookup; [apply u64_range|]. unfold send_effect. simpl.
        rewrite lookup_insert_ne by key_ne. by rewrite lookup_insert_eq.
      * intros n' Hn' Hne. eapply touches_same; [done|done|].
        rewrite !not_elem_of_cons. split_and!; [|key_ne|apply not_elem_of_nil].
        intros H. destruct Hne. by apply (packet_paths_inj p c n' p c n); [..|left].
    + left. split; [|intros n' Hn'; left]; (eapply touches_same; [done|done|]);
        rewrite !not_elem_of_cons; (split_and!; [| |apply not_elem_of_nil]); try key_ne.
      * intros H. apply Hne. by apply channel_paths_inj; [..|right; right; left].
      * intros H. apply Hne.
        by destruct (packet_paths_inj p' c' n' p c n) as (-> & -> & _); [..|left|].
  - intros p' c' _ _. left. family "nextSequenceRecv/".
  - intros k Hk. left. family "receipts/".
  - intros k Hk. left. family "acks/".
Qed.

Lemma recv_effects ctx cap pk proof h s s' :
  localhost_ok s → Packet_ValidateBasic pk = Ok tt → RecvPacket ctx cap pk proof h s = (Ok tt, s') →
  op_effects s s'.
Proof.
  intros Hl Hv (ch & conn & s1 & Hc & _ & Ho & Hf & ->)%RecvPacket_ok; [|done].
  apply Packet_ValidateBasic_ok in Hv as (_ & Hp & _ & Hch & Hn0 & _).
  apply touches_only_clients in Ho as Ht1.
  unfold recv_effect, fresh_recv in *. destruct (ch_Ordering ch).
  - by apply keeps_effects, only_clients_channels.
  - set (k0 := PacketReceiptPath _ _ _). assert (touches [k0] s (set_ibc (<[k0 := receipt_value]> (ibc s1)) s1)) as Ht.
    { by apply touches_insert. }
    split.
    + family "nextChannelSequence".
    + intros k Hk. left. family "channelEnds/".
    + intros p c _ _. left. eapply touches_send; [done|repeat constructor..].
    + intros p c _ _. left. family "nextSequenceRecv/".
    + intros k Hk. destruct (decide (k = k0)) as [->|Hne].
      * right. simpl. by rewrite lookup_insert_eq.
      * left. eapply touches_same; [done|by apply (chan_key_of "receipts/"); [simpl; tauto|]|].
        rewrite not_elem_of_cons. split; [done|apply not_elem_of_nil].
    + intros k Hk. left. family "acks/".
  - set (k0 := NextSequenceRecvPath _ _). set (v := Uint64ToBigEndian _).
    assert (touches [k0] s (set_ibc (<[k0 := v]> (ibc s1)) s1)) as Ht by by apply touches_insert.
    split.
    + family "nextChannelSequence".
    + intros k Hk. left. family "channelEnds/".
    + intros p c _ _. left. eapply touches_send; [done|repeat constructor..].
    + intros p c Hp' Hc'.
      destruct (decide (p = DestinationPort pk ∧ c = DestinationChannel pk)) as [[-> ->]|Hne].
      * right. exists (Sequence pk). split_and!; [done|done|eexists; apply Hc|].
        apply counter_lookup; [apply u64_range|]. simpl. by rewrite lookup_insert_eq.
      * left. eapply touches_same; [done|done|]. rewrite not_elem_of_cons.
        split; [|apply not_elem_of_nil]. intros H. apply Hne.
        by apply channel_paths_inj; [..|right; right; right; left].
    + intros k Hk. left. family "receipts/".
    + intros k Hk. left. family "acks/".
Qed.

Lemma write_ack_effects cap pk ack s s' :
  WriteAcknowledgement cap pk ack s = (Ok tt, s') → op_effects s s'.
Proof.
  intros Hw. pose proof Hw as (ch & a & _ & _ & _ & Hnone & _ & _ & ->)%WriteAcknowledgement_ok.
  unfold ack_at in Hnone. unfold ack_effect.
  set (k0 := PacketAcknowledgementPath _ _ _) in *. set (v := CommitAcknowledgement _).
  assert (touches [k0] s (set_ibc (<[k0 := v]> (ibc s)) s)) as Ht by by apply touches_insert, touches_nil.
  split.
  - family "nextChannelSequence".
  - intros k Hk. left. family "channelEnds/".
  - intros p c _ _. left. eapply touches_send; [done|repeat constructor..].
  - intros p c _ _. left. family "nextSequenceRecv/".
  - intros k Hk. left. family "receipts/".
  - intros k Hk. destruct (decide (k = k0)) as [->|Hne]; [right; split; [done|by do 3 eexists]|left].
    eapply touches_same; [done|by apply (chan_key_of "acks/"); [simpl; tauto|]|].
    rewrite not_elem_of_cons. split; [done|apply not_elem_of_nil].
Qed.

(** Keys that are a commitment, an acknowledgement counter or a channel: the
    commitment is gone, the channel changed legally. *)
Lemma clear_effects pk ks ch ch' s s' :
  touches (PacketCommitmentPath (SourcePort pk) (SourceChannel pk) (Sequence pk) :: ks) s s' →
  commitment_at (SourcePort pk) (SourceChannel pk) (Sequence pk) s' = None →
  (ks = [] ∨ ks = [NextSequenceAckPath (SourcePort pk) (SourceChannel pk)] ∨
   (ks = [ChannelPath (SourcePort pk) (SourceChannel pk)] ∧
    channel_at (SourcePort pk) (SourceChannel pk) s = Some ch ∧ legal ch ch' ∧
    ibc s' !! ChannelPath (SourcePort pk) (SourceChannel pk) = Some (Marshal ch'))) →
  op_effects s s'.
Proof.
  intros Ht Hnone Hks.
  assert (∀ f, In f chan_families → f ≠ "commitments/" → f ≠ "nextSequenceAck/" →
    f ≠ "channelEnds/" → ∀ k, HasPrefix k f = true → same_at k s s') as Hsame.
  { intros f Hf H1 H2 H3 k Hk. eapply touches_family; [done|done| |done].
    simpl in Hf. repeat destruct Hf as [<-|Hf]; try done;
      destruct Hks as [->|[->|[-> _]]]; repeat constructor. }
  split.
  - by apply (Hsame "nextChannelSequence"); [simpl; tauto|..].
  - intros k Hk. destruct Hks as [->|[->|(-> & Hch & Hleg & Hw)]].
    + left. family "channelEnds/".
    + left. family "channelEnds/".
    + destruct (decide (k = ChannelPath (SourcePort pk) (SourceChannel pk))) as [->|Hne].
      * right. eauto.
      * left. eapply touches_same; [done|by apply (chan_key_of "channelEnds/"); [simpl; tauto|]|].
        rewrite !not_elem_of_cons. split_and!; [|done|apply not_elem_of_nil]. by intros ->.
  - intros p c _ _. left. split; [by apply (Hsame "nextSequenceSend/"); [simpl; tauto|..]|].
    intros n _. destruct (decide (PacketCommitmentPath p c n =
      PacketCommitmentPath (SourcePort pk) (SourceChannel pk) (Sequence pk))) as [Heq|Hne].
    + right. unfold commitment_at in *. by rewrite Heq.
    + left. eapply touches_same; [done|done|]. rewrite not_elem_of_cons. split; [done|].
      destruct Hks as [->|[->|[-> _]]]; [apply not_elem_of_nil|..];
        rewrite not_elem_of_cons; (split; [key_ne|apply not_elem_of_nil]).
  - intros p c _ _. left. by apply (Hsame "nextSequenceRecv/"); [simpl; tauto|..].
  - intros k Hk. left. by apply (Hsame "receipts/"); [simpl; tauto|..].
  - intros k Hk. left. by apply (Hsame "acks/"); [simpl; tauto|..].
Qed.

Lemma ack_effects ctx cap pk ack proof h s s' :
  localhost_ok s → AcknowledgePacket ctx cap pk ack proof h s = (Ok tt, s') → op_effects s s'.
Proof.
  intros Hl (ch & conn & s1 & _ & _ & _ & _ & _ & Ho & _ & ->)%AcknowledgePacket_ok; [|done].
  apply touches_only_clients in Ho. unfold acknowledge_effect, clear_commitment.
  case_bool_decide.
  - eapply (clear_effects pk [NextSequenceAckPath (SourcePort pk) (SourceChannel pk)] ch ch);
      [|unfold commitment_at; simpl; apply lookup_delete_eq|tauto].
    by apply touches_delete, touches_insert.
  - eapply (clear_effects pk [] ch ch);
      [|unfold commitment_at; simpl; apply lookup_delete_eq|tauto].
    by apply touches_delete.
Qed.

Lemma timeout_executed_effects cap pk s s' :
  TimeoutExecuted cap pk s = (Ok tt, s') → op_effects s s'.
Proof.
  intros (ch & Hch & _ & ->)%TimeoutExecuted_ok. unfold timeout_effect, clear_commitment.
  case_bool_decide.
  - eapply (clear_effects pk [ChannelPath (SourcePort pk) (SourceChannel pk)] ch (with_state CLOSED ch)).
    + intros k Hk Hn. rewrite !not_elem_of_cons in Hn. destruct Hn as (H1 & H2 & _). simpl.
      by rewrite lookup_insert_ne, lookup_delete_ne.
    + unfold commitment_at. simpl. rewrite lookup_insert_ne by key_ne. apply lookup_delete_eq.
    + right; right. split_and!; [done|done|constructor|]. simpl. by rewrite lookup_insert_eq.
  - eapply (clear_effects pk [] ch ch);
      [|unfold commitment_at; simpl; apply lookup_delete_eq|tauto].
    by apply touches_delete, touches_nil.
Qed.

Lemma updated_effects p c ch ch' s s' :
  channel_at p c s = Some ch → legal ch ch' → channel_updated p c ch' s s' → op_effects s s'.
Proof.
  intros Hch Hleg Hu. destruct Hu as [Hw Hu']. pose proof (touches_updated p c ch' s s' (conj Hw Hu')) as Ht.
  split.
  - family "nextChannelSequence".
  - intros k Hk. destruct (decide (k = ChannelPath p c)) as [->|Hne]; [right; eauto|left].
    eapply touches_same; [done|by apply (chan_key_of "channelEnds/"); [simpl; tauto|]|].
    rewrite not_elem_of_cons. split; [done|apply not_elem_of_nil].
  - intros p' c' _ _. left. eapply touches_send; [done|repeat constructor..].
  - intros p' c' _ _. left. family "nextSequenceRecv/".
  - intros k Hk. left. family "receipts/".
  - intros k Hk. left. family "acks/".
Qed.

Lemma off_effects {A} (m : M A) s o s' : off_channels m → m s = (o, s') → op_effects s s'.
Proof. intros H Hm. apply keeps_effects. specialize (H s). by rewrite Hm in H. Qed.

Lemma guarded_effects {A} (m : M A) s o s' :
  guarded m → localhost_ok s → m s = (o, s') → op_effects s s'.
Proof. intros H Hl Hm. apply keeps_effects. destruct (H s Hl) as [Hk _]. by rewrite Hm in Hk. Qed.

Lemma op_step_effects s s' : localhost_ok s → op_step s s' → op_effects s s'.
Proof.
  intros Hl []; eauto using send_effects, recv_effects, write_ack_effects, ack_effects,
    timeout_executed_effects.
  - apply TimeoutPacket_ok in H as (ch & conn & t & ? & ? & ? & ? & ? & ? & ? & Ho); [|done].
    by apply keeps_effects, only_clients_channels.
  - apply TimeoutOnClose_ok in H as (ch & conn & s1 & ? & ? & Hv & Hn & ? & ? & Ho); [|done].
    apply keeps_effects. etrans; [by apply only_clients_channels|].
    apply only_clients_channels. eapply verify_not_received_frame; [|exact Hn].
    by eapply verify_through_localhost in Hv; [|ro|apply verify_member_verifier|done].
  - apply ChanOpenAck_ok in H as (ch & conn & ? & ? & _ & _ & _ & Hu); [|done].
    eapply updated_effects; [done|by apply legal_ack|done].
  - apply ChanOpenConfirm_ok in H as (ch & conn & ? & ? & _ & _ & _ & Hu); [|done].
    eapply updated_effects; [done|by apply legal_confirm|done].
  - apply ChanCloseInit_ok in H as (ch & conn & cs & ? & ? & _ & _ & _ & _ & Hu).
    eapply updated_effects; [done|by apply legal_close|done].
  - apply ChanCloseConfirm_ok in H as (ch & conn & ? & ? & _ & _ & _ & Hu); [|done].
    eapply updated_effects; [done|by apply legal_close|done].
  - eapply guarded_effects; [apply ConnOpenInit_guarded|done|done].
  - eapply guarded_effects; [apply ConnOpenTry_guarded|done|done].
  - eapply guarded_effects; [apply ConnOpenAck_guarded|done|done].
  - eapply guarded_effects; [apply ConnOpenConfirm_guarded|done|done].
  - eapply off_effects; [apply CreateClient_off|done].
  - eapply off_effects; [apply UpdateClient_off|done].
  - eapply off_effects; [apply UpgradeClient_off|done].
  - eapply off_effects; [apply ClientUpdateProposal_off|done].
  - eapply off_effects; [apply HandleUpgradeProposal_off|done].
  - eapply off_effects; [apply Client_BeginBlocker_off|done].
  - eapply off_effects; [apply SetClientParams_off|done].
  - eapply off_effects; [apply SetConnParams_off|done].
  - apply keeps_effects. intros k _. by rewrite H.
Qed.

End effects.
