(* ===== verification/Guarantees.v ===== *)
(** * The guarantees of the protocol

    The invariant of reachable states and what follows from it over runs of any
    length. *)

From stdpp Require Import gmap strings list relations.
From Stdlib Require Import ZArith Lia Ascii.
From S2P Require Import Prelude GoStd Sha256 Host Chain Height Capability Port Commitment LightClient Client ConnTypes ChanTypes Env Connection Channel ChanHandshake Packet ChanProofs PacketProofs Frames HandshakeProofs Protocol.

Section guarantees.
Context {E : IbcEnv} {L : IbcLaws}.

(** A sequence below the counter; the counter wraps to 0 after 2^64 - 1. *)
Definition used (n : Z) (counter : option Z) : Prop := ∃ m, counter = Some m ∧ (m = 0 ∨ n < m).

(** The invariant: packet records exist only for existing channels; a
    commitment has a sequence that was handed out; channel identifiers are below
    the counter of identifiers; pending ones are not in the store. *)
Record Inv (w : World) : Prop := {
  inv_dom p c : no_slash p → no_slash c → ibc w.1 !! ChannelPath p c = None →
    ibc w.1 !! NextSequenceSendPath p c = None ∧ ibc w.1 !! NextSequenceRecvPath p c = None ∧
    ∀ n, is_u64 n → commitment_at p c n w.1 = None;
  inv_commit p c n : no_slash p → no_slash c → is_u64 n → is_Some (commitment_at p c n w.1) →
    used n (next_send p c w.1);
  inv_chan p c : no_slash p → no_slash c → is_Some (ibc w.1 !! ChannelPath p c) ∨ (p, c) ∈ w.2 →
    ∃ m N, c = FormatChannelIdentifier m ∧ is_u64 m ∧ next_channel w.1 = Some N ∧ m < N;
  inv_pend p c : (p, c) ∈ w.2 → no_slash p ∧ no_slash c ∧ ibc w.1 !! ChannelPath p c = None
}.

(** ** Arithmetic of counters *)

Lemma u64_succ_used n : is_u64 n → u64 (n + 1) = 0 ∨ n < u64 (n + 1).
Proof.
  intros Hn. destruct (decide (n = MaxUint64)) as [->|Hne]; [by left|].
  right. rewrite u64_succ by done. lia.
Qed.

Lemma used_succ n m : is_u64 m → m ≠ 0 → used n (Some m) → used n (Some (u64 (m + 1))).
Proof.
  intros Hm Hm0 (m' & [= <-] & [?|Hlt]); [done|]. eexists. split; [done|].
  destruct (u64_succ_used m Hm); lia.
Qed.

Lemma used_self m : is_u64 m → used m (Some (u64 (m + 1))).
Proof. intros Hm. eexists. split; [done|]. destruct (u64_succ_used m Hm); lia. Qed.

Lemma same_counter k s s' : same_at k s s' → counter_at k s' = counter_at k s.
Proof. unfold same_at, counter_at. by intros ->. Qed.

Lemma stored_present {A} `{Proto A} k s : is_Some (stored (A:=A) k s) → ibc s !! k ≠ None.
Proof. unfold stored. intros [a Ha] Hk. by rewrite Hk in Ha. Qed.

Lemma absent_counter k s : ibc s !! k = None → counter_at k s = None.
Proof. unfold counter_at. by intros ->. Qed.

(** ** Preservation by operations *)

Lemma eff_presence s s' k :
  op_effects s s' → HasPrefix k "channelEnds/" = true → ibc s' !! k = None ↔ ibc s !! k = None.
Proof.
  intros He Hk. destruct (eff_channel _ _ He k Hk) as [Hs|(ch & ch' & H1 & H2 & _)].
  - unfold same_at in Hs. by rewrite Hs.
  - split; intros Hn; [congruence|]. exfalso. apply (stored_present (A:=Channel) k s); [by exists ch|exact Hn].
Qed.

Lemma op_send_commit s s' p c n :
  op_effects s s' → no_slash p → no_slash c → is_u64 n →
  (is_Some (commitment_at p c n s) → used n (next_send p c s)) →
  is_Some (commitment_at p c n s') → used n (next_send p c s').
Proof.
  intros He Hp Hc Hn Hold Hnew.
  destruct (eff_send _ _ He p c Hp Hc) as [[Hs Hk]|(m & Hm & Hm0 & _ & Hm' & Hk & _)].
  - unfold next_send. rewrite (same_counter _ s s' Hs). apply Hold.
    destruct (Hk n Hn) as [Hsame|Hnone]; [|by rewrite Hnone in Hnew; destruct Hnew].
    unfold commitment_at, same_at in *. by rewrite <- Hsame.
  - rewrite Hm'. pose proof (counter_range _ _ _ Hm) as Hmr.
    destruct (decide (n = m)) as [->|Hne]; [by apply used_self|].
    apply used_succ; [done|done|]. rewrite <- Hm. apply Hold.
    specialize (Hk n Hn Hne). unfold commitment_at, same_at in *. by rewrite <- Hk.
Qed.

Lemma op_inv s s' P : op_effects s s' → Inv (s, P) → Inv (s', P).
Proof.
  intros He [Hdom Hcom Hchan Hpend]. split; simpl in *.
  - intros p c Hp Hc Hn. apply (eff_presence s s') in Hn; [|done|done].
    destruct (Hdom p c Hp Hc Hn) as (H1 & H2 & H3).
    destruct (eff_send _ _ He p c Hp Hc) as [[Hs Hk]|(m & _ & _ & Hch & _)];
      [|by apply stored_present in Hch].
    destruct (eff_recv _ _ He p c Hp Hc) as [Hr|(m & _ & _ & Hch & _)];
      [|by apply stored_present in Hch].
    unfold same_at in *. split_and!; [congruence|congruence|].
    intros n Hu. destruct (Hk n Hu) as [Hs'|?]; [|done].
    unfold commitment_at in *. rewrite Hs'. by apply H3.
  - intros p c n Hp Hc Hn. eapply op_send_commit; eauto.
  - intros p c Hp Hc Hex. destruct (Hchan p c Hp Hc) as (m & N & ? & ? & HN & ?).
    + destruct Hex as [Hex|?]; [left|by right].
      rewrite <- not_eq_None_Some in Hex |- *. by rewrite <- (eff_presence s s').
    + exists m, N. split_and!; try done. unfold next_channel.
      by rewrite (same_counter _ s s' (eff_next_channel _ _ He)).
  - intros p c Hin. destruct (Hpend p c Hin) as (? & ? & ?). split_and!; [done|done|].
    by apply (eff_presence s s').
Qed.

(** ** Preservation by the opening steps *)

Lemma FormatChannelIdentifier_no_slash n : no_slash (FormatChannelIdentifier n).
Proof.
  unfold FormatChannelIdentifier, str_free. rewrite str_forall_app. simpl.
  by apply FormatUint_free.
Qed.

Lemma generated_inv p i s s' P :
  next_channel s ≠ Some MaxUint64 → generated p i s s' → Inv (s, P) → Inv (s', {[(p, i)]} ∪ P).
Proof.
  intros Hmax (Hport & n & Hn & -> & Hnext & Hsame) [Hdom Hcom Hchan Hpend].
  apply defaultIdentifierValidator_ok in Hport as (_ & Hp & _).
  pose proof (counter_range _ _ _ Hn) as Hnr.
  assert (next_channel s' = Some (n + 1)) as Hn'.
  { rewrite <- (u64_succ n Hnr) by congruence. by apply counter_lookup; [apply u64_range|]. }
  simpl in *. split; simpl.
  - intros p' c' Hp' Hc'. rewrite Hsame by done. intros Hnone.
    destruct (Hdom p' c' Hp' Hc' Hnone) as (? & ? & Hk). rewrite !Hsame by done.
    split_and!; [done|done|]. intros m Hm. unfold commitment_at. rewrite Hsame by done. by apply Hk.
  - intros p' c' m Hp' Hc' Hm. unfold commitment_at, next_send, counter_at.
    rewrite !Hsame by done. by apply Hcom.
  - intros p' c' Hp' Hc' Hex. rewrite Hsame, elem_of_union, elem_of_singleton in Hex by done.
    destruct Hex as [Hex|[[= -> ->]|Hex]].
    + destruct (Hchan p' c') as (m & N & ? & ? & ? & ?); [done|done|by left|].
      exists m, (n + 1). split_and!; [done|done|done|]. simplify_eq. lia.
    + exists n, (n + 1). split_and!; [done|done|done|lia].
    + destruct (Hchan p' c') as (m & N & ? & ? & ? & ?); [done|done|by right|].
      exists m, (n + 1). split_and!; [done|done|done|]. simplify_eq. lia.
  - intros p' c'. rewrite elem_of_union, elem_of_singleton. rewrite Hsame by done.
    intros [[= -> ->]|Hin]; [|by apply Hpend].
    split_and!; [done|apply FormatChannelIdentifier_no_slash|].
    destruct (ibc s !! _) eqn:Hk; [|done]. exfalso.
    destruct (Hchan p (FormatChannelIdentifier n)) as (m & N & Heq & Hm & HN & Hlt);
      [done|apply FormatChannelIdentifier_no_slash|left; by eexists|].
    apply FormatChannelIdentifier_inj in Heq; [|done|done]. simplify_eq. lia.
Qed.

(** The keys of a channel are not those of another. *)
Lemma channel_keys_ne p c p' c' :
  no_slash p → no_slash p' → ¬ (p = p' ∧ c = c') →
  ChannelPath p c ≠ ChannelPath p' c' ∧ NextSequenceSendPath p c ≠ NextSequenceSendPath p' c' ∧
  NextSequenceRecvPath p c ≠ NextSequenceRecvPath p' c'.
Proof. intros Hp Hp' Hne. split_and!; intros H; apply Hne, channel_paths_inj; tauto. Qed.

Lemma created_inv p i ch s s' P :
  (p, i) ∈ P → channel_created p i ch s s' → Inv (s, P) → Inv (s', P ∖ {[(p, i)]}).
Proof.
  intros Hin (_ & Hpres & _ & _ & _ & Hsame) [Hdom Hcom Hchan Hpend]. simpl in *.
  destruct (Hpend p i Hin) as (Hp & Hi & Habs).
  assert (∀ p' c' n, ibc s' !! PacketCommitmentPath p' c' n = ibc s !! PacketCommitmentPath p' c' n) as Hcm.
  { intros. apply Hsame; key_ne. }
  assert (∀ p' c', no_slash p' → ¬ (p' = p ∧ c' = i) →
    ibc s' !! ChannelPath p' c' = ibc s !! ChannelPath p' c' ∧
    ibc s' !! NextSequenceSendPath p' c' = ibc s !! NextSequenceSendPath p' c' ∧
    ibc s' !! NextSequenceRecvPath p' c' = ibc s !! NextSequenceRecvPath p' c') as Hother.
  { intros p' c' Hp' Hne. destruct (channel_keys_ne p' c' p i Hp' Hp Hne) as (? & ? & ?).
    split_and!; apply Hsame; first [done|key_ne]. }
  split; simpl.
  - intros p' c' Hp' Hc' Hn. destruct (decide (p' = p ∧ c' = i)) as [[-> ->]|Hne].
    + rewrite Hn in Hpres. by destruct Hpres.
    + destruct (Hother p' c' Hp' Hne) as (H1 & H2 & H3). rewrite H1 in Hn. rewrite H2, H3.
      destruct (Hdom p' c' Hp' Hc' Hn) as (? & ? & Hk). split_and!; [done|done|].
      intros n Hu. unfold commitment_at. rewrite Hcm. by apply Hk.
  - intros p' c' n Hp' Hc' Hn. unfold commitment_at. rewrite Hcm. intros Hk.
    destruct (decide (p' = p ∧ c' = i)) as [[-> ->]|Hne].
    + destruct (Hdom p i Hp Hi Habs) as (_ & _ & Hnone). unfold commitment_at in Hnone.
      rewrite (Hnone n Hn) in Hk. by destruct Hk.
    + destruct (Hother p' c' Hp' Hne) as (_ & H2 & _). unfold next_send.
      rewrite (same_counter _ s s' H2). by apply Hcom.
  - intros p' c' Hp' Hc' Hex. assert (next_channel s' = next_channel s) as ->.
    { unfold next_channel, counter_at. rewrite Hsame by key_ne. done. }
    apply (Hchan p' c' Hp' Hc'). destruct (decide (p' = p ∧ c' = i)) as [[-> ->]|Hne]; [by right|].
    destruct (Hother p' c' Hp' Hne) as (H1 & _). rewrite H1 in Hex. set_solver.
  - intros p' c' [Hin' Hne]%elem_of_difference. destruct (Hpend p' c' Hin') as (? & ? & ?).
    split_and!; [done|done|].
    destruct (Hother p' c') as (Heq & _); [done|set_solver|]. by rewrite Heq.
Qed.

Lemma step_inv w w' : step w w' → Inv w → Inv w'.
Proof.
  intros []; intros HI.
  - eapply op_inv; [by apply op_step_effects|done].
  - eapply generated_inv; [done|by eapply ChanOpenInit_ok|done].
  - eapply generated_inv; [done|by eapply ChanOpenTry_ok|done].
  - eapply created_inv; [done|by eapply WriteOpenInitChannel_ok|done].
  - eapply created_inv; [done|by eapply WriteOpenTryChannel_ok|done].
Qed.

Lemma steps_inv w w' : rtc step w w' → Inv w → Inv w'.
Proof. induction 1; eauto using step_inv. Qed.

(** A chain without channels. *)
Definition no_channels (s : Chain) : Prop :=
  ∀ k, chan_key k = true → k ≠ KeyNextChannelSequence → ibc s !! k = None.

Lemma no_channels_inv s : no_channels s → Inv (s, ∅).
Proof.
  intros Hno. split; simpl.
  - intros p c _ _ _. unfold commitment_at. split_and!; [| |intros n _]; apply Hno; first [done|key_ne].
  - intros p c n _ _ _. unfold commitment_at. rewrite Hno by first [done|key_ne]. by intros [].
  - intros p c _ _ [Hs|]; [|set_solver]. rewrite Hno in Hs by first [done|key_ne]. by destruct Hs.
  - set_solver.
Qed.

(** ** What a step can change *)

Lemma step_cases w w' :
  step w w' →
  op_effects w.1 w'.1 ∨
  (∀ k, chan_key k = true → k ≠ KeyNextChannelSequence → same_at k w.1 w'.1) ∨
  (∃ p i ch, (p, i) ∈ w.2 ∧ channel_created p i ch w.1 w'.1 ∧ (ch_State ch = INIT ∨ ch_State ch = TRYOPEN)).
Proof.
  intros [s s' P Hl Hop|ctx o hops p cap cp v s i k s' P _ H|ctx o hops p cap cp v proof h s i k s' P Hl _ H
    |o hops p i cp v s s' P Hin H|o hops p i cp v s s' P Hin H]; simpl.
  - left. by apply op_step_effects.
  - right; left. apply ChanOpenInit_ok in H as (_ & n & _ & _ & _ & Hs).
    intros j Hj Hne. by apply Hs, chan_key_client.
  - right; left. apply ChanOpenTry_ok in H as (_ & n & _ & _ & _ & Hs); [|done].
    intros j Hj Hne. by apply Hs, chan_key_client.
  - right; right. apply WriteOpenInitChannel_ok in H. eauto 8.
  - right; right. apply WriteOpenTryChannel_ok in H. eauto 8.
Qed.

(** A counter that has passed [n] stays past it, and a cleared commitment of a
    sequence that was handed out stays cleared. *)
Definition consumed (p c : string) (n : Z) (s : Chain) : Prop :=
  commitment_at p c n s = None ∧ used n (next_send p c s).

Lemma used_none n : ¬ used n None.
Proof. by intros (m & ? & _). Qed.

Lemma op_used_send s s' p c n :
  op_effects s s' → no_slash p → no_slash c →
  used n (next_send p c s) → used n (next_send p c s').
Proof.
  intros He Hp Hc Hu. destruct (eff_send _ _ He p c Hp Hc) as [[Hs _]|(m & Hm & Hm0 & _ & Hm' & _)].
  - unfold next_send. by rewrite (same_counter _ s s' Hs).
  - rewrite Hm'. rewrite Hm in Hu. apply used_succ; [by eapply counter_range|done|done].
Qed.

Lemma op_used_recv s s' p c n :
  op_effects s s' → no_slash p → no_slash c →
  used n (next_recv p c s) → used n (next_recv p c s').
Proof.
  intros He Hp Hc Hu. destruct (eff_recv _ _ He p c Hp Hc) as [Hs|(m & Hm & Hm0 & _ & Hm')].
  - unfold next_recv. by rewrite (same_counter _ s s' Hs).
  - rewrite Hm'. rewrite Hm in Hu. apply used_succ; [by eapply counter_range|done|done].
Qed.

(** A counter of an existing channel is not a counter of a pending one. *)
Lemma created_counters (w w' : World) p i ch q d :
  Inv w → (p, i) ∈ w.2 → channel_created p i ch w.1 w'.1 → no_slash q →
  (q = p ∧ d = i ∧ next_send q d w.1 = None ∧ next_recv q d w.1 = None) ∨
  (next_send q d w'.1 = next_send q d w.1 ∧ next_recv q d w'.1 = next_recv q d w.1).
Proof.
  intros [Hdom _ _ Hpend] Hin (_ & _ & _ & _ & _ & Hsame) Hq.
  destruct (Hpend p i Hin) as (Hp & Hi & Habs).
  destruct (decide (q = p ∧ d = i)) as [[-> ->]|Hne]; [left|right].
  - destruct (Hdom p i Hp Hi Habs) as (H1 & H2 & _).
    split_and!; [done|done|by apply absent_counter..].
  - destruct (channel_keys_ne q d p i Hq Hp Hne) as (? & ? & ?).
    split; apply same_counter, Hsame; first [done|key_ne].
Qed.

Lemma used_send_step w w' p c n :
  Inv w → step w w' → no_slash p → no_slash c →
  used n (next_send p c w.1) → used n (next_send p c w'.1).
Proof.
  intros HI Hs Hp Hc Hu. destruct (step_cases w w' Hs) as [He|[Hsame|(q & i & ch & Hin & Hcr & _)]].
  - by eapply op_used_send.
  - unfold next_send. rewrite (same_counter _ w.1 w'.1); [done|]. apply Hsame; [done|key_ne].
  - destruct (created_counters w w' q i ch p c HI Hin Hcr Hp) as [(_ & _ & Hn & _)|[-> _]]; [|done].
    rewrite Hn in Hu. by apply used_none in Hu.
Qed.

Lemma used_recv_step w w' p c n :
  Inv w → step w w' → no_slash p → no_slash c →
  used n (next_recv p c w.1) → used n (next_recv p c w'.1).
Proof.
  intros HI Hs Hp Hc Hu. destruct (step_cases w w' Hs) as [He|[Hsame|(q & i & ch & Hin & Hcr & _)]].
  - by eapply op_used_recv.
  - unfold next_recv. rewrite (same_counter _ w.1 w'.1); [done|]. apply Hsame; [done|key_ne].
  - destruct (created_counters w w' q i ch p c HI Hin Hcr Hp) as [(_ & _ & _ & Hn)|[_ ->]]; [|done].
    rewrite Hn in Hu. by apply used_none in Hu.
Qed.

Lemma consumed_step w w' p c n :
  Inv w → step w w' → no_slash p → no_slash c → is_u64 n →
  consumed p c n w.1 → consumed p c n w'.1.
Proof.
  intros HI Hs Hp Hc Hn [Hnone Hu]. split; [|by eapply used_send_step].
  unfold commitment_at in *. destruct (step_cases w w' Hs) as [He|[Hsame|(q & i & ch & Hin & Hcr & _)]].
  - destruct (eff_send _ _ He p c Hp Hc) as [[_ Hk]|(m & Hm & Hm0 & _ & _ & Hk & _)].
    + destruct (Hk n Hn) as [Hk'|Hk']; [|done]. by rewrite Hk'.
    + rewrite Hk; [done|done|]. intros ->. rewrite Hm in Hu.
      destruct Hu as (m' & [= <-] & [?|?]); [done|lia].
  - rewrite Hsame; [done|done|key_ne].
  - destruct Hcr as (_ & _ & _ & _ & _ & Hsame). rewrite Hsame by key_ne. done.
Qed.

(** Receipts stay, acknowledgements are never changed. *)
Lemma receipt_step w w' p c n :
  step w w' → non_empty (receipt_at p c n w.1) ≠ None → non_empty (receipt_at p c n w'.1) ≠ None.
Proof.
  intros Hs Hr. unfold receipt_at in *.
  destruct (step_cases w w' Hs) as [He|[Hsame|(q & i & ch & Hin & Hcr & _)]].
  - destruct (eff_receipt _ _ He (PacketReceiptPath p c n)) as [Hk|Hk]; [done|by rewrite Hk|by rewrite Hk].
  - rewrite Hsame; [done|done|key_ne].
  - destruct Hcr as (_ & _ & _ & _ & _ & Hsame). rewrite Hsame by key_ne. done.
Qed.

Lemma ack_step w w' p c n v : step w w' → ack_at p c n w.1 = Some v → ack_at p c n w'.1 = Some v.
Proof.
  intros Hs Hr. unfold ack_at in *.
  destruct (step_cases w w' Hs) as [He|[Hsame|(q & i & ch & Hin & Hcr & _)]].
  - destruct (eff_ack _ _ He (PacketAcknowledgementPath p c n)) as [Hk|[Hk _]]; [done|by rewrite Hk|congruence].
  - rewrite Hsame; [done|done|key_ne].
  - destruct Hcr as (_ & _ & _ & _ & _ & Hsame). rewrite Hsame by key_ne. done.
Qed.

(** ** The life of a channel end *)

(** What stays and what moves: ordering, hops and the counterparty's port stay;
    the version and the counterparty's channel are settled once the end leaves
    INIT; the state moves forward only. *)
Definition state_rank (st : State) : Z :=
  match st with UNINITIALIZED => 0 | INIT => 1 | TRYOPEN => 1 | OPEN => 2 | CLOSED => 3 end.

Record evolves (ch ch' : Channel) : Prop := {
  ev_ordering : ch_Ordering ch' = ch_Ordering ch;
  ev_hops : ch_ConnectionHops ch' = ch_ConnectionHops ch;
  ev_port : cp_PortId (ch_Counterparty ch') = cp_PortId (ch_Counterparty ch);
  ev_settled : ch_State ch ≠ INIT →
    ch_Counterparty ch' = ch_Counterparty ch ∧ ch_Version ch' = ch_Version ch;
  ev_rank : ch' = ch ∨ state_rank (ch_State ch) < state_rank (ch_State ch') ∨
    (ch_State ch' = CLOSED ∧ ch_State ch = CLOSED);
  ev_init : ch_State ch ≠ INIT → ch_State ch' ≠ INIT;
  ev_closed : ch_State ch = CLOSED → ch' = ch
}.

Lemma with_state_id ch : with_state (ch_State ch) ch = ch.
Proof. by destruct ch. Qed.

Lemma legal_evolves ch ch' : legal ch ch' → evolves ch ch'.
Proof.
  destruct ch as [st o cp h ver]. intros [i v Hst|Hst|]; simpl in *; subst.
  - split; simpl; try done. right; left. lia.
  - split; simpl; try done. right; left. lia.
  - split; simpl; try done; [|by intros ->]. destruct st; simpl; auto; right; left; lia.
Qed.

#[export] Instance evolves_refl : Reflexive evolves.
Proof. intros ch. split; auto. Qed.

#[export] Instance evolves_trans : Transitive evolves.
Proof.
  intros a b c [A1 A2 A3 A4 A5 A6 A7] [B1 B2 B3 B4 B5 B6 B7]. split; try congruence.
  - intros H. destruct (A4 H). destruct (B4 (A6 H)). split; congruence.
  - destruct A5 as [->|[A5|[A5 A5']]], B5 as [->|[B5|[B5 B5']]]; auto; right.
    + left. lia.
    + rewrite B5' in A5. left. by rewrite B5.
    + rewrite A5 in B5. destruct (ch_State c); simpl in B5; lia.
  - auto.
  - intros H. rewrite (B7 (eq_trans (f_equal ch_State (A7 H)) H)). auto.
Qed.

Lemma stored_marshal k (ch : Channel) s : ibc s !! k = Some (Marshal ch) → stored k s = Some ch.
Proof. apply stored_lookup. Qed.

Lemma channel_step w w' p c ch :
  Inv w → step w w' → no_slash p → no_slash c → channel_at p c w.1 = Some ch →
  ∃ ch', channel_at p c w'.1 = Some ch' ∧ evolves ch ch'.
Proof.
  intros HI Hs Hp Hc Hch. unfold channel_at in *.
  destruct (step_cases w w' Hs) as [He|[Hsame|(q & i & ch0 & Hin & Hcr & _)]].
  - destruct (eff_channel _ _ He (ChannelPath p c)) as [Hk|(a & a' & Ha & Ha' & Hleg)]; [done| |].
    + exists ch. unfold stored in *. by rewrite Hk.
    + exists a'. simplify_eq. split; [by apply stored_marshal|by apply legal_evolves].
  - exists ch. unfold stored in *. rewrite Hsame; [done|done|key_ne].
  - exists ch. split; [|done]. destruct (inv_pend w HI q i Hin) as (Hq & Hi & Habs).
    destruct Hcr as (_ & _ & _ & _ & _ & Hsame). unfold stored in *.
    rewrite Hsame by first [key_ne|intros Heq; rewrite Heq, Habs in Hch; done]. done.
Qed.

(** ** Over runs *)

Lemma steps_lift (P : World → Prop) w w' :
  (∀ a b, Inv a → step a b → P a → P b) → Inv w → rtc step w w' → P w → P w'.
Proof. intros HP HI Hr. induction Hr as [|a b c Hab Hbc IH]; eauto using step_inv. Qed.

Lemma channel_steps w w' p c ch :
  Inv w → rtc step w w' → no_slash p → no_slash c → channel_at p c w.1 = Some ch →
  ∃ ch', channel_at p c w'.1 = Some ch' ∧ evolves ch ch'.
Proof.
  intros HI Hr Hp Hc Hch.
  refine (steps_lift (λ w, ∃ ch', channel_at p c w.1 = Some ch' ∧ evolves ch ch') w w' _ HI Hr _); [|by exists ch].
  intros a b Ha Hab (ch1 & H1 & He). destruct (channel_step a b p c ch1) as (ch2 & ? & ?); [done..|].
  exists ch2. split; [done|by etrans].
Qed.

Lemma used_send_steps w w' p c n :
  Inv w → rtc step w w' → no_slash p → no_slash c →
  used n (next_send p c w.1) → used n (next_send p c w'.1).
Proof.
  intros HI Hr Hp Hc. refine (steps_lift (λ w, used n (next_send p c w.1)) w w' _ HI Hr).
  intros a b Ha Hab. by apply used_send_step.
Qed.

Lemma used_recv_steps w w' p c n :
  Inv w → rtc step w w' → no_slash p → no_slash c →
  used n (next_recv p c w.1) → used n (next_recv p c w'.1).
Proof.
  intros HI Hr Hp Hc. refine (steps_lift (λ w, used n (next_recv p c w.1)) w w' _ HI Hr).
  intros a b Ha Hab. by apply used_recv_step.
Qed.

Lemma consumed_steps w w' p c n :
  Inv w → rtc step w w' → no_slash p → no_slash c → is_u64 n →
  consumed p c n w.1 → consumed p c n w'.1.
Proof.
  intros HI Hr Hp Hc Hn. refine (steps_lift (λ w, consumed p c n w.1) w w' _ HI Hr).
  intros a b Ha Hab. by apply consumed_step.
Qed.

Lemma receipt_steps w w' p c n :
  rtc step w w' → non_empty (receipt_at p c n w.1) ≠ None → non_empty (receipt_at p c n w'.1) ≠ None.
Proof. induction 1; eauto using receipt_step. Qed.

Lemma ack_steps w w' p c n v :
  rtc step w w' → ack_at p c n w.1 = Some v → ack_at p c n w'.1 = Some v.
Proof. induction 1; eauto using ack_step. Qed.

(** A state the chain can reach from one without channels. *)
Definition reachable (w : World) : Prop := ∃ s, no_channels s ∧ rtc step (s, ∅) w.

Lemma reachable_inv w : reachable w → Inv w.
Proof. intros (s & Hs & Hr). by eapply steps_inv, no_channels_inv. Qed.

Lemma reachable_steps w w' : reachable w → rtc step w w' → reachable w'.
Proof. intros (s & Hs & Hr) Hr'. exists s. split; [done|by etrans]. Qed.

(** ** Receiving *)

(** Receiving a packet leaves its mark. *)
Definition marked (ch : Channel) (pk : Packet) (s : Chain) : Prop :=
  match ch_Ordering ch with
  | UNORDERED => non_empty (receipt_at (DestinationPort pk) (DestinationChannel pk) (Sequence pk) s) ≠ None
  | ORDERED => used (Sequence pk) (next_recv (DestinationPort pk) (DestinationChannel pk) s)
  | NONE => False
  end.

Lemma recv_marks ch pk s :
  is_u64 (Sequence pk) → ch_Ordering ch ≠ NONE → marked ch pk (recv_effect ch pk s).
Proof.
  unfold marked, recv_effect. intros Hn Ho. destruct (ch_Ordering ch); [done| |].
  - unfold receipt_at. simpl. by rewrite lookup_insert_eq.
  - unfold next_recv. rewrite counter_written by apply u64_range. by apply used_self.
Qed.

Lemma marked_steps w w' ch pk :
  Inv w → rtc step w w' → no_slash (DestinationPort pk) → no_slash (DestinationChannel pk) →
  marked ch pk w.1 → marked ch pk w'.1.
Proof.
  unfold marked. intros HI Hr Hp Hc. destruct (ch_Ordering ch); [done|by apply receipt_steps|].
  by apply used_recv_steps.
Qed.

Lemma marked_not_fresh ch pk s : Sequence pk ≠ 0 → marked ch pk s → ¬ fresh_recv ch pk s.
Proof.
  unfold marked, fresh_recv. intros Hn0. destruct (ch_Ordering ch); [done|done|].
  intros (m & Hm & Hlt) Hf. rewrite Hf in Hm. simplify_eq. lia.
Qed.

(** The same place for another packet with the same destination and sequence. *)
Lemma fresh_recv_same ch ch' pk pk' s :
  ch_Ordering ch' = ch_Ordering ch → DestinationPort pk' = DestinationPort pk →
  DestinationChannel pk' = DestinationChannel pk → Sequence pk' = Sequence pk →
  fresh_recv ch' pk' s ↔ fresh_recv ch pk s.
Proof. unfold fresh_recv. by intros -> -> -> ->. Qed.

(** ** Settling *)

(** The commitment of a packet is cleared: by an acknowledgement, or by a
    timeout, whose verification and execution may have other steps in between
    (the application's callback). *)
Inductive settled (pk : Packet) : World → World → Prop :=
| settled_ack ctx cap ack proof h s s' P :
    AcknowledgePacket ctx cap pk ack proof h s = (Ok tt, s') → settled pk (s, P) (s', P)
| settled_timeout ctx cap proof h n s s1 s2 s3 P Q :
    TimeoutPacket ctx pk proof h n s = (Ok tt, s1) → rtc step (s1, P) (s2, Q) →
    TimeoutExecuted cap pk s2 = (Ok tt, s3) → settled pk (s, P) (s3, Q)
| settled_timeout_on_close ctx cap cap' proof proofClosed h n s s1 s2 s3 P Q :
    TimeoutOnClose ctx cap' pk proof proofClosed h n s = (Ok tt, s1) → rtc step (s1, P) (s2, Q) →
    TimeoutExecuted cap pk s2 = (Ok tt, s3) → settled pk (s, P) (s3, Q).

Lemma settled_start pk w w' :
  localhost_ok w.1 → settled pk w w' → ∃ ch conn, sent_packet pk w.1 ch conn.
Proof.
  intros Hl Hs. revert Hl. destruct Hs as [???????? H|??????????? H _ _|????????????? H _ _]; simpl; intros Hl.
  - apply AcknowledgePacket_ok in H as (ch & conn & ? & ? & _); [eauto|done].
  - apply TimeoutPacket_ok in H as (ch & conn & ? & ? & _); [eauto|done].
  - apply TimeoutOnClose_ok in H as (ch & conn & ? & ? & _); [eauto|done].
Qed.

Lemma acknowledge_clears ch pk s :
  commitment_at (SourcePort pk) (SourceChannel pk) (Sequence pk) (acknowledge_effect ch pk s) = None.
Proof. unfold commitment_at, acknowledge_effect, clear_commitment. apply lookup_delete_eq. Qed.

Lemma timeout_clears ch pk s :
  commitment_at (SourcePort pk) (SourceChannel pk) (Sequence pk) (timeout_effect ch pk s) = None.
Proof.
  unfold commitment_at, timeout_effect, clear_commitment. case_bool_decide; simpl;
    [rewrite lookup_insert_ne by key_ne|]; apply lookup_delete_eq.
Qed.

Lemma op_run s s' P : localhost_ok s → op_step s s' → rtc step (s, P) (s', P).
Proof. intros Hl Hop. by apply rtc_once, step_op. Qed.

Lemma sent_used pk w ch conn :
  Inv w → no_slash (SourcePort pk) → no_slash (SourceChannel pk) → is_u64 (Sequence pk) →
  sent_packet pk w.1 ch conn → used (Sequence pk) (next_send (SourcePort pk) (SourceChannel pk) w.1).
Proof.
  intros HI Hp Hc Hn Hsp. apply inv_commit; [done..|]. eexists. apply (sp_commitment _ _ _ _ Hsp).
Qed.

(** A timeout that was verified, then executed. *)
Lemma timeout_consumes pk cap s s1 s2 s3 P Q :
  Inv (s, P) → no_slash (SourcePort pk) → no_slash (SourceChannel pk) → is_u64 (Sequence pk) →
  used (Sequence pk) (next_send (SourcePort pk) (SourceChannel pk) s) →
  rtc step (s, P) (s1, P) → rtc step (s1, P) (s2, Q) → TimeoutExecuted cap pk s2 = (Ok tt, s3) →
  Inv (s3, Q) ∧ consumed (SourcePort pk) (SourceChannel pk) (Sequence pk) s3.
Proof.
  intros HI Hp Hc Hn Hu Hr1 Hr2 Hex.
  assert (rtc step (s, P) (s2, Q)) as Hr by by etrans.
  pose proof (timeout_executed_effects _ _ _ _ Hex) as He.
  split; [by eapply op_inv, steps_inv|]. split.
  - apply TimeoutExecuted_ok in Hex as (ch & _ & _ & ->). apply timeout_clears.
  - eapply op_used_send; [done..|]. by apply (used_send_steps (s, P) (s2, Q)).
Qed.

Lemma settled_consumed pk w w' :
  Inv w → localhost_ok w.1 → Packet_ValidateBasic pk = Ok tt → is_u64 (Sequence pk) →
  settled pk w w' → Inv w' ∧ consumed (SourcePort pk) (SourceChannel pk) (Sequence pk) w'.1.
Proof.
  intros HI Hl (Hp & _ & Hc & _)%Packet_ValidateBasic_ok Hn Hs.
  destruct (settled_start pk w w' Hl Hs) as (ch & conn & Hsp).
  pose proof (sent_used pk w ch conn HI Hp Hc Hn Hsp) as Hu. clear Hsp. revert HI Hl Hu.
  destruct Hs as [ctx cap ack proof h s s' P H|ctx cap proof h n s s1 s2 s3 P Q H Hr Hex
    |ctx cap cap' proof proofClosed h n s s1 s2 s3 P Q H Hr Hex]; simpl; intros HI Hl Hu.
  - pose proof (ack_effects _ _ _ _ _ _ _ _ Hl H) as He. split; [by eapply op_inv|].
    apply AcknowledgePacket_ok in H as (ch' & conn' & s1 & _ & _ & _ & _ & _ & Ho & _ & ->); [|done].
    split; [apply acknowledge_clears|by eapply op_used_send].
  - eapply timeout_consumes; [done..| |done|done]. apply op_run; [done|by eapply op_timeout].
  - eapply timeout_consumes; [done..| |done|done]. apply op_run; [done|by eapply op_timeout_on_close].
Qed.

Lemma consumed_not_sent pk pk' s ch conn :
  SourcePort pk' = SourcePort pk → SourceChannel pk' = SourceChannel pk → Sequence pk' = Sequence pk →
  consumed (SourcePort pk) (SourceChannel pk) (Sequence pk) s → ¬ sent_packet pk' s ch conn.
Proof. intros H1 H2 H3 [Hn _] Hs. pose proof (sp_commitment _ _ _ _ Hs) as Hc. congruence. Qed.

End guarantees.

(** ** The theorems *)

Section theorems.
Context {E : IbcEnv} {L : IbcLaws}.

(** In every reachable state a stored packet commitment belongs to a channel
    that exists and has a sequence that the channel's counter has handed out,
    channel identifiers are below the identifier counter, and identifiers that
    were handed out but not yet written have no record. *)
Theorem commitments_have_channels (w : World) (p c : string) (n : Z) :
  reachable w → no_slash p → no_slash c → is_u64 n → is_Some (commitment_at p c n w.1) →
  is_Some (ibc w.1 !! ChannelPath p c) ∧
  (∃ m, next_send p c w.1 = Some m ∧ (m = 0 ∨ n < m)) ∧
  (∃ i N, c = FormatChannelIdentifier i ∧ next_channel w.1 = Some N ∧ i < N) ∧ (p, c) ∉ w.2.
Proof.
  intros Hr%reachable_inv Hp Hc Hn Hk.
  assert (is_Some (ibc w.1 !! ChannelPath p c)) as Hch.
  { apply not_eq_None_Some. intros Habs. destruct (inv_dom w Hr p c Hp Hc Habs) as (_ & _ & H).
    rewrite H in Hk by done. by destruct Hk. }
  split_and!; [done|by apply (inv_commit w Hr)| |].
  - destruct (inv_chan w Hr p c Hp Hc) as (i & N & -> & _ & ? & ?); [by left|eauto].
  - intros Hin. destruct (inv_pend w Hr p c Hin) as (_ & _ & Habs). rewrite Habs in Hch. by destruct Hch.
Qed.

(** [C23] The sequences of a channel are never reused: of two packets sent on a
    channel, the later one has the larger sequence, whatever happened in between. *)
Theorem send_sequences_increase w ctx cap p c th ts data n s1 w2 ctx' cap' th' ts' data' m s3 :
  reachable w → SendPacket ctx cap p c th ts data w.1 = (Ok n, s1) → rtc step (s1, w.2) w2 →
  SendPacket ctx' cap' p c th' ts' data' w2.1 = (Ok m, s3) → n < m.
Proof.
  destruct w as [s P]. simpl. intros Hr%reachable_inv H1 Hrun H2.
  pose proof (send_effects _ _ _ _ _ _ _ _ _ _ H1) as He.
  apply SendPacket_ok in H1 as (ch & Hc & ->), H2 as (ch' & Hc' & _).
  destruct (Packet_ValidateBasic_ok _ (cs_valid _ _ _ _ _ _ _ _ _ _ Hc)) as (Hp & _ & Hch & _ & Hn0 & _).
  destruct (Packet_ValidateBasic_ok _ (cs_valid _ _ _ _ _ _ _ _ _ _ Hc')) as (_ & _ & _ & _ & Hm0 & _).
  simpl in *. pose proof (counter_range _ _ _ (cs_next _ _ _ _ _ _ _ _ _ _ Hc)) as Hn.
  destruct (used_send_steps _ _ p c n (op_inv _ _ _ He Hr) Hrun Hp Hch) as (m' & Hm' & Hlt).
  - unfold next_send. erewrite counter_lookup; [by apply used_self|apply u64_range|].
    unfold send_effect. simpl. rewrite lookup_insert_ne by key_ne. by rewrite lookup_insert_eq.
  - rewrite (cs_next _ _ _ _ _ _ _ _ _ _ Hc') in Hm'. simplify_eq. lia.
Qed.

(** [C21] A packet is received at most once: after RecvPacket accepted a packet on a
    channel that is ordered or unordered, no packet with the same destination and
    sequence is ever accepted again, whatever happens in between. *)
Theorem receive_at_most_once w ctx cap pk proof h s1 ch w2 ctx' cap' pk' proof' h' s3 :
  reachable w → localhost_ok w.1 → Packet_ValidateBasic pk = Ok tt → is_u64 (Sequence pk) →
  channel_at (DestinationPort pk) (DestinationChannel pk) w.1 = Some ch → ch_Ordering ch ≠ NONE →
  RecvPacket ctx cap pk proof h w.1 = (Ok tt, s1) → rtc step (s1, w.2) w2 → localhost_ok w2.1 →
  DestinationPort pk' = DestinationPort pk → DestinationChannel pk' = DestinationChannel pk →
  Sequence pk' = Sequence pk →
  RecvPacket ctx' cap' pk' proof' h' w2.1 ≠ (Ok tt, s3).
Proof.
  destruct w as [s P]. simpl. intros HI%reachable_inv Hl Hv Hn Hch Ho H1 Hrun Hl2 Ep Ec En H2.
  assert (rtc step (s, P) w2) as Hrun0.
  { etrans; [|exact Hrun]. apply op_run; [done|by eapply op_recv]. }
  pose proof (recv_effects _ _ _ _ _ _ _ Hl Hv H1) as He.
  apply Packet_ValidateBasic_ok in Hv as (_ & Hp & _ & Hc & Hn0 & _).
  apply RecvPacket_ok in H1 as (ch1 & conn & s' & Hcr & _ & _ & _ & ->); [|done].
  apply RecvPacket_ok in H2 as (ch2 & conn2 & s'' & Hcr2 & _ & _ & Hf & _); [|done].
  pose proof (cr_channel _ _ _ _ _ _ Hcr) as E1. pose proof (cr_channel _ _ _ _ _ _ Hcr2) as E2.
  rewrite Ep, Ec in E2. rewrite Hch in E1. injection E1 as <-.
  destruct (channel_steps _ _ _ _ _ HI Hrun0 Hp Hc Hch) as (ch3 & E3 & Hev).
  rewrite E2 in E3. injection E3 as <-.
  rewrite (fresh_recv_same ch ch2 pk pk' w2.1 (ev_ordering _ _ Hev) Ep Ec En) in Hf.
  revert Hf. apply marked_not_fresh; [done|].
  eapply marked_steps; [by eapply op_inv|exact Hrun|done|done|]. by apply recv_marks.
Qed.

(** [C22] A packet is settled at most once: after it was acknowledged, or timed out,
    no packet with the same source and sequence is acknowledged or times out
    again; in particular it is never both acknowledged and timed out. *)
Theorem settled_at_most_once w pk w1 w2 pk' w3 :
  reachable w → localhost_ok w.1 → Packet_ValidateBasic pk = Ok tt → is_u64 (Sequence pk) →
  settled pk w w1 → rtc step w1 w2 → localhost_ok w2.1 →
  SourcePort pk' = SourcePort pk → SourceChannel pk' = SourceChannel pk → Sequence pk' = Sequence pk →
  ¬ settled pk' w2 w3.
Proof.
  intros HI%reachable_inv Hl Hv Hn H1 Hrun Hl2 Ep Ec En H2.
  destruct (settled_consumed pk w w1 HI Hl Hv Hn H1) as [HI1 Hcons].
  apply Packet_ValidateBasic_ok in Hv as (Hp & _ & Hc & _).
  destruct (settled_start pk' w2 w3 Hl2 H2) as (ch & conn & Hsp).
  revert Hsp. apply (consumed_not_sent pk); [done..|]. by apply (consumed_steps w1 w2).
Qed.

(** [C25] An acknowledgement is written once: once WriteAcknowledgement stored one,
    it is what the store holds for the packet ever after, and every later attempt
    to write one for the same packet fails with ErrAcknowledgementExists (or an
    earlier check) and changes nothing. *)
Theorem acknowledgement_written_once w cap pk a s1 w2 :
  WriteAcknowledgement cap pk (Some a) w.1 = (Ok tt, s1) → rtc step (s1, w.2) w2 →
  ack_at (DestinationPort pk) (DestinationChannel pk) (Sequence pk) w2.1 =
    Some (CommitAcknowledgement (app_Acknowledgement a)) ∧
  ∀ cap' a', is_ok (fst (WriteAcknowledgement cap' pk a' w2.1)) = false ∧
    snd (WriteAcknowledgement cap' pk a' w2.1) = w2.1.
Proof.
  destruct w as [s P]. simpl. intros (ch & b & _ & _ & _ & _ & [= <-] & _ & ->)%WriteAcknowledgement_ok Hrun.
  assert (ack_at (DestinationPort pk) (DestinationChannel pk) (Sequence pk) w2.1 =
    Some (CommitAcknowledgement (app_Acknowledgement a))) as Hk.
  { eapply ack_steps; [exact Hrun|]. unfold ack_at, ack_effect. simpl. apply lookup_insert_eq. }
  split; [done|]. intros cap' a'.
  destruct (WriteAcknowledgement cap' pk a' w2.1) as [o s'] eqn:Hw.
  assert (is_ok o = false) as Hno.
  { destruct o as [[]| |]; [|done|done]. apply WriteAcknowledgement_ok in Hw as (? & ? & _ & _ & _ & Hn & _).
    congruence. }
  split; [done|]. destruct (WriteAcknowledgement_atomic cap' pk a' w2.1) as [Hok|Hs]; rewrite Hw in *; simpl in *;
    [congruence|done].
Qed.

(** [C24] The life of a channel end.  An existing channel is never deleted; its
    ordering, its connection and its counterparty's port never change; once it has
    left INIT its counterparty and version never change; its state only moves
    forward (INIT or TRYOPEN, OPEN, CLOSED), and a closed channel stays as it is. *)
Theorem channel_lifecycle w w' p c ch :
  reachable w → rtc step w w' → no_slash p → no_slash c → channel_at p c w.1 = Some ch →
  ∃ ch', channel_at p c w'.1 = Some ch' ∧
    ch_Ordering ch' = ch_Ordering ch ∧ ch_ConnectionHops ch' = ch_ConnectionHops ch ∧
    cp_PortId (ch_Counterparty ch') = cp_PortId (ch_Counterparty ch) ∧
    (ch_State ch ≠ INIT → ch_Counterparty ch' = ch_Counterparty ch ∧ ch_Version ch' = ch_Version ch) ∧
    (ch' = ch ∨ state_rank (ch_State ch) < state_rank (ch_State ch')) ∧
    (ch_State ch = CLOSED → ch' = ch).
Proof.
  intros HI%reachable_inv Hr Hp Hc Hch.
  destruct (channel_steps w w' p c ch HI Hr Hp Hc Hch) as (ch' & Hch' & []).
  exists ch'. split_and!; try done. destruct ev_rank0 as [->|[?|[? ?]]]; [by left|by right|left; auto].
Qed.

End theorems.
