(* ===== verification/CoreGenesis.v ===== *)
(** * The genesis of the core modules

    Models the types/genesis.go of core/02-client, core/03-connection and core/04-channel, and
    core/types/genesis.go and core/genesis.go, which put them together: the validation
    of a genesis state before a chain starts from it.

    An error that wraps another one keeps its code.  The field createLocalhost is
    deprecated and not kept.  The theorem shows what the validation of channel sequences
    is for: the identifiers that are generated after genesis are new. *)

From stdpp Require Import gmap strings list.
From Stdlib Require Import ZArith Lia Ascii.
From S2P Require Import Prelude GoStd Host Chain Height Capability Port Commitment LightClient Client ConnTypes ChanTypes Env Connection Channel ChanHandshake Packet ChanProofs PacketProofs Frames HandshakeProofs Protocol Guarantees.

(** ** core/04-channel/types/genesis.go *)

(** A packet state as it is read: its data may be nil. *)
Record GenPacketState := mkGenPacketState {
  gps_PortId : string; gps_ChannelId : string; gps_Sequence : Z; gps_Data : option bytes }.

Definition NewPacketState (portID channelID : string) (seq : Z) (data : option bytes) : GenPacketState :=
  mkGenPacketState portID channelID seq data.
Definition NewPacketSequence (portID channelID : string) (seq : Z) : PacketSequence :=
  mkPacketSequence portID channelID seq.

Definition validateGenFields (portID channelID : string) (sequence : Z) : Outcome () :=
  PortIdentifierValidator portID;;
  ChannelIdentifierValidator channelID;;
  check (negb (sequence =? 0)) errUnregistered.

Definition PacketState_Validate (pa : GenPacketState) : Outcome () :=
  check (bool_decide (is_Some (gps_Data pa))) errUnregistered;;
  validateGenFields (gps_PortId pa) (gps_ChannelId pa) (gps_Sequence pa).

Definition PacketSequence_Validate (ps : PacketSequence) : Outcome () :=
  validateGenFields (ps_PortId ps) (ps_ChannelId ps) (ps_Sequence ps).

Record ChanGenesisState := mkChanGenesisState {
  gcs_Channels : list IdentifiedChannel;
  gcs_Acknowledgements : list GenPacketState;
  gcs_Commitments : list GenPacketState;
  gcs_Receipts : list GenPacketState;
  gcs_SendSequences : list PacketSequence;
  gcs_RecvSequences : list PacketSequence;
  gcs_AckSequences : list PacketSequence;
  gcs_NextChannelSequence : Z
}.

(** The receipts are an argument that is not used. *)
Definition Chan_NewGenesisState (channels : list IdentifiedChannel) (acks receipts commitments : list GenPacketState)
    (sendSeqs recvSeqs ackSeqs : list PacketSequence) (nextChannelSequence : Z) : ChanGenesisState :=
  mkChanGenesisState channels acks commitments [] sendSeqs recvSeqs ackSeqs nextChannelSequence.

Definition Chan_DefaultGenesisState : ChanGenesisState := mkChanGenesisState [] [] [] [] [] [] [] 0.

(** The loop over the channels, with the largest sequence so far. *)
Fixpoint validate_genesis_channels (channels : list IdentifiedChannel) (maxSequence : Z) : Outcome Z :=
  match channels with
  | [] => Ok maxSequence
  | channel :: l =>
      sequence ← ParseChannelSequence (ich_ChannelId channel);
      let maxSequence := if maxSequence <? sequence then sequence else maxSequence in
      IdentifiedChannel_ValidateBasic channel;;
      validate_genesis_channels l maxSequence
  end.

(** [maxSequence != 0 && maxSequence >= next] is an error. *)
Definition check_next (maxSequence next : Z) : Outcome () :=
  check (negb (negb (maxSequence =? 0) && (next <=? maxSequence))) errUnregistered.

Definition with_data (pa : GenPacketState) : Outcome () :=
  PacketState_Validate pa;;
  check (bool_decide (is_Some (non_empty (gps_Data pa)))) errUnregistered.

Definition Chan_Validate (gs : ChanGenesisState) : Outcome () :=
  maxSequence ← validate_genesis_channels (gcs_Channels gs) 0;
  check_next maxSequence (gcs_NextChannelSequence gs);;
  check_each with_data (gcs_Acknowledgements gs);;
  check_each PacketState_Validate (gcs_Receipts gs);;
  check_each with_data (gcs_Commitments gs);;
  check_each PacketSequence_Validate (gcs_SendSequences gs);;
  check_each PacketSequence_Validate (gcs_RecvSequences gs);;
  check_each PacketSequence_Validate (gcs_AckSequences gs).

(** What the module is initialised with: nil data is empty. *)
Definition packet_state (pa : GenPacketState) : PacketState :=
  mkPacketState (gps_PortId pa) (gps_ChannelId pa) (gps_Sequence pa) (default "" (gps_Data pa)).
Definition chan_genesis (gs : ChanGenesisState) : ChanGenesis :=
  mkChanGenesis (gcs_Channels gs) (packet_state <$> gcs_Acknowledgements gs) (packet_state <$> gcs_Commitments gs)
    (packet_state <$> gcs_Receipts gs) (gcs_SendSequences gs) (gcs_RecvSequences gs) (gcs_AckSequences gs)
    (gcs_NextChannelSequence gs).

(** ** core/03-connection/types/genesis.go *)

Definition NewConnectionPaths (id : string) (paths : list string) : string * list string := (id, paths).

Definition Conn_NewGenesisState (connections : list IdentifiedConnection) (connPaths : list (string * list string))
    (nextConnectionSequence : Z) (params : ConnParams) : ConnGenesis :=
  mkConnGenesis connections connPaths nextConnectionSequence params.

Definition Conn_DefaultGenesisState : ConnGenesis := mkConnGenesis [] [] 0 DefaultConnParams.

Fixpoint validate_genesis_connections (connections : list IdentifiedConnection) (maxSequence : Z) : Outcome Z :=
  match connections with
  | [] => Ok maxSequence
  | conn :: l =>
      sequence ← ParseConnectionSequence (ic_Id conn);
      let maxSequence := if maxSequence <? sequence then sequence else maxSequence in
      IdentifiedConnection_ValidateBasic conn;;
      validate_genesis_connections l maxSequence
  end.

Definition Conn_Validate (gs : ConnGenesis) : Outcome () :=
  maxSequence ← validate_genesis_connections (cgs_Connections gs) 0;
  check_each (λ '(clientId, paths),
    ClientIdentifierValidator clientId;;
    check_each ConnectionIdentifierValidator paths) (cgs_ClientConnectionPaths gs);;
  check_next maxSequence (cgs_NextConnectionSequence gs);;
  ConnParams_Validate (cgs_Params gs).

(** ** core/02-client/types/genesis.go *)

Definition GenesisMetadata_Validate (gm : GenesisMetadata) : Outcome () :=
  check (negb (bool_decide (md_Key gm = ""))) errUnregistered;;
  check (negb (bool_decide (md_Value gm = ""))) errUnregistered.

Section client.
Context {E : IbcEnv} {CC : ClientChecks}.

Definition Client_DefaultGenesisState : ClientGenesis := mkClientGenesis [] [] [] DefaultClientParams 0.

(** The loop over the clients: their types by identifier, and the largest sequence. *)
Fixpoint validate_genesis_clients (params : ClientParams) (clients : list (string * option ClientState))
    (validClients : gmap string string) (maxSequence : Z) : Outcome (gmap string string * Z) :=
  match clients with
  | [] => Ok (validClients, maxSequence)
  | (clientId, clientState) :: l =>
      ClientIdentifierValidator clientId;;
      clientState ← of_option errUnregistered clientState;
      check (IsAllowedClient params (ClientType clientState)) errUnregistered;;
      ClientState_Validate clientState;;
      '(clientType, sequence) ← ParseClientIdentifier clientId;
      check (bool_decide (clientType = ClientType clientState)) errUnregistered;;
      ValidateClientType clientType;;
      let maxSequence := if maxSequence <? sequence then sequence else maxSequence in
      validate_genesis_clients params l (<[clientId := ClientType clientState]> validClients) maxSequence
  end.

Definition validate_consensus_state (clientType : string) (c : Height * option ConsensusState) : Outcome () :=
  check (negb (IsZero c.1)) errUnregistered;;
  cs ← of_option errUnregistered c.2;
  ConsensusState_ValidateBasic cs;;
  check (bool_decide (clientType = ConsensusState_ClientType cs)) errUnregistered.

Definition Client_Validate (gs : ClientGenesis) : Outcome () :=
  ClientParams_Validate (gs_Params gs);;
  '(validClients, maxSequence) ← validate_genesis_clients (gs_Params gs) (gs_Clients gs) ∅ 0;
  check_each (λ '(clientId, consensusStates),
    clientType ← of_option errUnregistered (validClients !! clientId);
    check_each (validate_consensus_state clientType) consensusStates) (gs_ClientsConsensus gs);;
  check_each (λ '(clientId, metadata),
    of_option errUnregistered (validClients !! clientId);;
    check_each GenesisMetadata_Validate metadata) (gs_ClientsMetadata gs);;
  check_next maxSequence (gs_NextClientSequence gs).

(** ** core/types/genesis.go and core/genesis.go *)

Record GenesisState := mkGenesisState {
  ClientGenesisState : ClientGenesis; ConnectionGenesisState : ConnGenesis; ChannelGenesisState : ChanGenesisState }.

Definition Core_DefaultGenesisState : GenesisState :=
  mkGenesisState Client_DefaultGenesisState Conn_DefaultGenesisState Chan_DefaultGenesisState.

Definition Core_Validate (gs : GenesisState) : Outcome () :=
  Client_Validate (ClientGenesisState gs);;
  Conn_Validate (ConnectionGenesisState gs);;
  Chan_Validate (ChannelGenesisState gs).

Definition Core_InitGenesis (ctx : Context) (gs : GenesisState) : M () :=
  Client_InitGenesis ctx (ClientGenesisState gs);;
  Conn_InitGenesis (ConnectionGenesisState gs);;
  Chan_InitGenesis (chan_genesis (ChannelGenesisState gs)).

Definition Core_ExportGenesis : M (ClientGenesis * ConnGenesis * ChanGenesis) :=
  clients ← Client_ExportGenesis;
  connections ← Conn_ExportGenesis;
  channels ← Chan_ExportGenesis;
  mret (clients, connections, channels).
End client.

(** ** Identifiers after genesis *)

Section fresh.
Context {E : IbcEnv} {L : IbcLaws}.

Lemma validate_genesis_channels_ok l m0 m :
  validate_genesis_channels l m0 = Ok m →
  m0 <= m ∧ ∀ ic, ic ∈ l → no_slash (ich_PortId ic) ∧
    ∃ n, ParseChannelSequence (ich_ChannelId ic) = Ok n ∧ n <= m.
Proof.
  revert m0. induction l as [|ic l IH]; intros m0; cbn [validate_genesis_channels].
  { intros [= <-]. split; [done|]. by intros ic ?%not_elem_of_nil. }
  intros (n & Hn & ([] & Hv & [Hle Hall]%IH)%obind_ok)%obind_ok.
  apply obind_ok in Hv as ([] & _ & ([] & (_ & Hp & _)%defaultIdentifierValidator_ok & _)%obind_ok).
  destruct (Z.ltb_spec m0 n); (split; [lia|]); intros ic' [->|?]%elem_of_cons; [|by apply Hall| |by apply Hall];
    (split; [done|]); exists n; (split; [done|lia]).
Qed.

Lemma for_each_set {A} (f : A → string) (g : A → bytes) l s s' :
  for_each l (λ a, ibc_set (f a) (g a)) s = (Ok tt, s') →
  ∀ k, is_Some (ibc s' !! k) → is_Some (ibc s !! k) ∨ ∃ a, a ∈ l ∧ k = f a.
Proof.
  revert s. induction l as [|a l IH]; intros s; cbn [for_each].
  { intros [_ ->]%ret_ok. by left. }
  intros ([] & s1 & ->%modify_ok & H)%bind_ok k [Hk|(b & Hb & ->)]%(IH _ H).
  - simpl in Hk. destruct (decide (k = f a)) as [->|Hne]; [right; exists a; split; [by left|done]|].
    rewrite lookup_insert_ne in Hk by done. by left.
  - right. exists b. split; [by right|done].
Qed.

Lemma init_channels gs s s' :
  Chan_InitGenesis gs s = (Ok tt, s') →
  (∀ p c, is_Some (ibc s' !! ChannelPath p c) →
     is_Some (ibc s !! ChannelPath p c) ∨
     ∃ ic, ic ∈ hgs_Channels gs ∧ ChannelPath p c = ChannelPath (ich_PortId ic) (ich_ChannelId ic)) ∧
  ibc s' !! KeyNextChannelSequence = Some (Uint64ToBigEndian (hgs_NextChannelSequence gs)).
Proof.
  unfold Chan_InitGenesis. intros ([] & s1 & H1 & ([] & s2 & H2 & ([] & s3 & H3 & ([] & s4 & H4 & H)%bind_ok)%bind_ok)%bind_ok)%bind_ok.
  apply bind_ok in H as ([] & s5 & H5 & ([] & s6 & H6 & ([] & s7 & H7 & ->%modify_ok)%bind_ok)%bind_ok).
  split; [|simpl; by rewrite lookup_insert_eq].
  intros p c. cbn [ibc set_ibc]. rewrite lookup_insert_ne by key_ne. intros Hk.
  apply (for_each_set _ _ _ _ _ H7) in Hk as [Hk|(? & _ & Hk)]; [|exfalso; revert Hk; key_ne].
  apply (for_each_set _ _ _ _ _ H6) in Hk as [Hk|(? & _ & Hk)]; [|exfalso; revert Hk; key_ne].
  apply (for_each_set _ _ _ _ _ H5) in Hk as [Hk|(? & _ & Hk)]; [|exfalso; revert Hk; key_ne].
  apply (for_each_set _ _ _ _ _ H4) in Hk as [Hk|(? & _ & Hk)]; [|exfalso; revert Hk; key_ne].
  apply (for_each_set _ _ _ _ _ H3) in Hk as [Hk|(? & _ & Hk)]; [|exfalso; revert Hk; key_ne].
  apply (for_each_set _ _ _ _ _ H2) in Hk as [Hk|(? & _ & Hk)]; [|exfalso; revert Hk; key_ne].
  exact (for_each_set _ _ _ _ _ H1 _ Hk).
Qed.

(** [C37] The validation of a channel genesis does what it is for: on a chain that starts from
    a validated genesis whose next channel sequence is not zero, the first channel
    identifier that is generated is that of the next sequence, and no port has a channel
    under it.  (With the next sequence zero and a channel of sequence zero the
    validation passes too, and the identifier is not new.) *)
Theorem validated_genesis_fresh gs s s1 i s2 p :
  Chan_Validate gs = Ok tt → is_u64 (gcs_NextChannelSequence gs) → gcs_NextChannelSequence gs ≠ 0 → no_channels s →
  Chan_InitGenesis (chan_genesis gs) s = (Ok tt, s1) → GenerateChannelIdentifier s1 = (Ok i, s2) → no_slash p →
  i = FormatChannelIdentifier (gcs_NextChannelSequence gs) ∧ ibc s2 !! ChannelPath p i = None.
Proof.
  intros (m & [_ Hch]%validate_genesis_channels_ok & ([] & Hnext%check_ok & _)%obind_ok)%obind_ok Hu Hn0 Hno Hinit Hgen Hp.
  apply init_channels in Hinit as [Hin Hctr]. apply counter_lookup in Hctr; [|done].
  apply GenerateChannelIdentifier_ok in Hgen as (n & Hn & -> & ->). unfold next_channel in Hn. rewrite Hn in Hctr. injection Hctr as ->. cbn [chan_genesis hgs_NextChannelSequence hgs_Channels] in *.
  split; [done|]. cbn [ibc set_ibc]. rewrite lookup_insert_ne by key_ne.
  destruct (ibc s1 !! _) as [v|] eqn:Hv; [|done]. exfalso.
  destruct (Hin p (FormatChannelIdentifier (gcs_NextChannelSequence gs))) as [Hs|(ic & Hic & Heq)]; [by eexists| |].
  - rewrite Hno in Hs; [by destruct Hs|done|key_ne].
  - destruct (Hch ic Hic) as (Hps & k & Hk & Hle). destruct (channel_paths_inj _ _ _ _ Hp Hps (or_introl Heq)) as [_ Hid].
    rewrite <- Hid, ParseChannelSequence_format in Hk by done. injection Hk as <-.
    apply negb_true_iff, andb_false_iff in Hnext as [Hz|Hlt]; [|apply Z.leb_gt in Hlt; lia].
    apply negb_false_iff, Z.eqb_eq in Hz. destruct Hu. lia.
Qed.
End fresh.
