(* ===== verification/Specs.v ===== *)
(** * What each operation of the channel keeper does

    The functional specifications of the packet operations and of the handshake:
    exactly when they succeed, what they then leave in the store, and what a
    failure leaves. *)

From stdpp Require Import gmap strings list relations.
From Stdlib Require Import ZArith Lia Ascii.
From S2P Require Import Prelude GoStd Sha256 Host Chain Height Capability Port Commitment LightClient Client ConnTypes ChanTypes Env Connection Channel ChanHandshake Packet ChanProofs PacketProofs Frames HandshakeProofs Protocol Guarantees.

Section packets.
Context {E : IbcEnv} {L : IbcLaws}.

Lemma send_effect_keys pk s :
  commitment_at (SourcePort pk) (SourceChannel pk) (Sequence pk) (send_effect pk s) = Some (CommitPacket pk) ∧
  next_send (SourcePort pk) (SourceChannel pk) (send_effect pk s) = Some (u64 (Sequence pk + 1)).
Proof.
  unfold commitment_at, next_send, send_effect. split; [simpl; apply lookup_insert_eq|].
  apply counter_lookup; [apply u64_range|]. simpl. rewrite lookup_insert_ne by key_ne.
  apply lookup_insert_eq.
Qed.

(** [C35] SendPacket succeeds exactly when the channel is open, the capability is the
    channel's, the packet built from the channel's counterparty and the next
    sequence is valid, the connection's client is active and the timeout is ahead
    of it; it then returns the next sequence, stores the commitment of the packet
    and moves the counter, and nothing else.  When it fails it writes nothing. *)
Theorem send_packet_spec ctx cap p c th ts data s :
  (∀ n s', SendPacket ctx cap p c th ts data s = (Ok n, s') ↔
     ∃ ch, can_send ctx cap p c th ts data s ch n ∧
       s' = send_effect (packet_of ch p c th ts data n) s) ∧
  (∀ n ch, can_send ctx cap p c th ts data s ch n →
     let s' := send_effect (packet_of ch p c th ts data n) s in
     commitment_at p c n s' = Some (CommitPacket (packet_of ch p c th ts data n)) ∧
     next_send p c s' = Some (u64 (n + 1))) ∧
  (is_ok (fst (SendPacket ctx cap p c th ts data s)) = true ∨
   snd (SendPacket ctx cap p c th ts data s) = s).
Proof.
  split_and!; [intros; apply SendPacket_ok| |apply SendPacket_atomic].
  intros n ch _. apply (send_effect_keys (packet_of ch p c th ts data n)).
Qed.

Lemma exhausted_step w w' p c :
  Inv w → step w w' → no_slash p → no_slash c →
  next_send p c w.1 = Some 0 → next_send p c w'.1 = Some 0.
Proof.
  intros HI Hs Hp Hc H0. destruct (step_cases w w' Hs) as [He|[Hsame|(q & i & ch & Hin & Hcr & _)]].
  - destruct (eff_send _ _ He p c Hp Hc) as [[Heq _]|(m & Hm & Hm0 & _)]; [|congruence].
    unfold next_send in *. by rewrite (same_counter _ w.1 w'.1 Heq).
  - unfold next_send in *. rewrite (same_counter _ w.1 w'.1); [done|]. apply Hsame; [done|key_ne].
  - destruct (created_counters w w' q i ch p c HI Hin Hcr Hp) as [(_ & _ & Hn & _)|[-> _]]; congruence.
Qed.

(** [C36] Sequences run out safely.  Sending packet 2^64 - 1 wraps the counter to 0;
    from then on the counter stays 0 and no packet can be sent on the channel,
    whatever happens, so that no sequence is ever used twice.  The state it starts
    from satisfies the invariant of reachable states. *)
Theorem sequences_run_out w p c w' ctx cap th ts data s1 :
  Inv w → SendPacket ctx cap p c th ts data w.1 = (Ok MaxUint64, s1) → rtc step (s1, w.2) w' →
  next_send p c w'.1 = Some 0 ∧
  ∀ ctx' cap' th' ts' data', is_ok (fst (SendPacket ctx' cap' p c th' ts' data' w'.1)) = false.
Proof.
  destruct w as [s P]. simpl. intros HI Hsend Hrun.
  pose proof (send_effects _ _ _ _ _ _ _ _ _ _ Hsend) as He.
  apply SendPacket_ok in Hsend as (ch & Hcs & ->).
  destruct (Packet_ValidateBasic_ok _ (cs_valid _ _ _ _ _ _ _ _ _ _ Hcs)) as (Hp & _ & Hc & _).
  simpl in Hp, Hc.
  assert (next_send p c w'.1 = Some 0) as Hz.
  { refine (steps_lift (λ w, next_send p c w.1 = Some 0) _ w' _ (op_inv _ _ _ He HI) Hrun _).
    - intros a b Ha Hab. by apply exhausted_step.
    - apply (send_effect_keys (packet_of ch p c th ts data MaxUint64)). }
  split; [done|]. intros ctx' cap' th' ts' data'.
  destruct (SendPacket ctx' cap' p c th' ts' data' w'.1) as [o s''] eqn:H.
  destruct o as [m| |]; [exfalso|done|done].
  apply SendPacket_ok in H as (ch' & Hcs' & _). pose proof (cs_next _ _ _ _ _ _ _ _ _ _ Hcs') as Hm.
  destruct (Packet_ValidateBasic_ok _ (cs_valid _ _ _ _ _ _ _ _ _ _ Hcs')) as (_ & _ & _ & _ & Hm0 & _).
  simpl in Hm0. congruence.
Qed.

Lemma recv_tail_gap ch pk n s :
  ch_Ordering ch = ORDERED → next_recv (DestinationPort pk) (DestinationChannel pk) s = Some n →
  n < Sequence pk → recv_tail ch pk s = (Err ErrPacketSequenceOutOfOrder, s).
Proof.
  intros Ho Hn Hlt. unfold recv_tail. rewrite Ho. unfold GetNextSequenceRecv.
  erewrite bind_run by apply get_counter_run. fold (next_recv (DestinationPort pk) (DestinationChannel pk) s).
  rewrite Hn. simpl. erewrite (bind_run _ _ _ n) by done.
  erewrite (bind_run _ _ _ tt) by (apply require_run; rewrite negb_true_iff, Z.ltb_ge; lia).
  unfold mbind, M_bind, require, lift, check. by rewrite (proj2 (Z.eqb_neq _ _)) by lia.
Qed.

(** [C34] RecvPacket accepts a packet exactly when its guards hold, the client
    verifies the commitment, and the packet is new (no receipt on an unordered
    channel; exactly the next sequence on an ordered one); it then writes the
    receipt or moves the counter.  A verified packet that was received before is
    answered with ErrNoOpMsg, one that is ahead of the counter of an ordered
    channel with ErrPacketSequenceOutOfOrder; both leave everything but the
    client's own store as it was. *)
Theorem recv_packet_spec ctx cap pk proof h s :
  localhost_ok s →
  (∀ s', RecvPacket ctx cap pk proof h s = (Ok tt, s') ↔
     ∃ ch conn s1, can_recv ctx cap pk s ch conn ∧ verify_recv ctx conn pk proof h s = (Ok tt, s1) ∧
       only_clients s s1 ∧ fresh_recv ch pk s ∧ s' = recv_effect ch pk s1) ∧
  (∀ ch conn s1, can_recv ctx cap pk s ch conn → verify_recv ctx conn pk proof h s = (Ok tt, s1) →
     only_clients s s1 ∧
     (already_received ch pk s → RecvPacket ctx cap pk proof h s = (Err ErrNoOpMsg, s1)) ∧
     (∀ n, ch_Ordering ch = ORDERED → next_recv (DestinationPort pk) (DestinationChannel pk) s = Some n →
        n < Sequence pk → RecvPacket ctx cap pk proof h s = (Err ErrPacketSequenceOutOfOrder, s1))).
Proof.
  intros Hl. split; [intros s'; by apply RecvPacket_ok|].
  intros ch conn s1 Hcr Hv. pose proof (VerifyPacketCommitment_frame _ _ _ _ _ _ _ _ _ _ _ Hl Hv) as Ho.
  rewrite (RecvPacket_run _ _ _ _ _ _ _ _ _ Hcr Hv). split_and!; [done| |].
  - intros Ha. apply recv_tail_noop. by rewrite already_received_only_clients.
  - intros n Hord Hn Hlt. apply (recv_tail_gap ch pk n); [done| |done].
    rewrite <- Hn. by apply only_clients_counter.
Qed.

(** WriteAcknowledgement succeeds exactly for an open channel, its capability,
    a packet without acknowledgement and an acknowledgement that is not nil and has
    bytes; it then stores the hash of the bytes and nothing else.  When it fails it
    writes nothing. *)
Theorem write_acknowledgement_spec cap pk ack s :
  (∀ s', WriteAcknowledgement cap pk ack s = (Ok tt, s') ↔
     ∃ ch a, channel_at (DestinationPort pk) (DestinationChannel pk) s = Some ch ∧ ch_State ch = OPEN ∧
       authenticated cap (DestinationPort pk) (DestinationChannel pk) s ∧
       ack_at (DestinationPort pk) (DestinationChannel pk) (Sequence pk) s = None ∧
       ack = Some a ∧ app_Acknowledgement a ≠ "" ∧ s' = ack_effect pk (app_Acknowledgement a) s) ∧
  (is_ok (fst (WriteAcknowledgement cap pk ack s)) = true ∨
   snd (WriteAcknowledgement cap pk ack s) = s).
Proof. split; [intros s'; apply WriteAcknowledgement_ok|apply WriteAcknowledgement_atomic]. Qed.

End packets.

(** ** Settling *)

Section settle.
Context {E : IbcEnv} {L : IbcLaws}.

Lemma ack_effect_keys ch pk s :
  commitment_at (SourcePort pk) (SourceChannel pk) (Sequence pk) (acknowledge_effect ch pk s) = None ∧
  (ch_Ordering ch = ORDERED →
   next_ack (SourcePort pk) (SourceChannel pk) (acknowledge_effect ch pk s) = Some (u64 (Sequence pk + 1))) ∧
  touches (PacketCommitmentPath (SourcePort pk) (SourceChannel pk) (Sequence pk) ::
    if bool_decide (ch_Ordering ch = ORDERED) then [NextSequenceAckPath (SourcePort pk) (SourceChannel pk)]
    else []) s (acknowledge_effect ch pk s).
Proof.
  split; [apply acknowledge_clears|]. unfold acknowledge_effect, clear_commitment, next_ack. split.
  - intros Ho. rewrite bool_decide_eq_true_2 by done. apply counter_lookup; [apply u64_range|]. simpl.
    rewrite lookup_delete_ne by key_ne. apply lookup_insert_eq.
  - case_bool_decide; apply touches_delete; [apply touches_insert|]; by apply touches_nil.
Qed.

(** Of two changes in a row, the keys of both are touched. *)
Lemma touches_after ks s s1 s2 : only_clients s s1 → touches ks s1 s2 → touches ks s s2.
Proof.
  intros Ho%touches_only_clients Ht k Hk Hn. rewrite Ht by done. apply Ho; [done|apply not_elem_of_nil].
Qed.

(** A packet is acknowledged only if it was sent on an open channel and its
    commitment is still there, the caller has the channel's capability, the client
    verifies the acknowledgement and, on an ordered channel, it is the next to be
    acknowledged.  Its commitment is then gone, the counter of an ordered channel
    has moved, and no other record of channels and packets has changed. *)
Theorem acknowledge_packet_spec ctx cap pk ack proof h s s' :
  localhost_ok s → AcknowledgePacket ctx cap pk ack proof h s = (Ok tt, s') →
  ∃ ch conn s1, sent_packet pk s ch conn ∧ ch_State ch = OPEN ∧ conn_State conn = CONN_OPEN ∧
    authenticated cap (SourcePort pk) (SourceChannel pk) s ∧
    verify_acked ctx conn pk ack proof h s = (Ok tt, s1) ∧
    commitment_at (SourcePort pk) (SourceChannel pk) (Sequence pk) s' = None ∧
    (ch_Ordering ch = ORDERED → next_ack (SourcePort pk) (SourceChannel pk) s = Some (Sequence pk) ∧
       next_ack (SourcePort pk) (SourceChannel pk) s' = Some (u64 (Sequence pk + 1))) ∧
    touches (PacketCommitmentPath (SourcePort pk) (SourceChannel pk) (Sequence pk) ::
      if bool_decide (ch_Ordering ch = ORDERED) then [NextSequenceAckPath (SourcePort pk) (SourceChannel pk)]
      else []) s s'.
Proof.
  intros Hl (ch & conn & s1 & Hsp & Ho & Hco & Ha & Hv & Hoc & Hn & ->)%AcknowledgePacket_ok; [|done].
  destruct (ack_effect_keys ch pk s1) as (H1 & H2 & H3).
  exists ch, conn, s1. split_and!; [done..|auto|by eapply touches_after].
Qed.

Lemma timeout_effect_keys ch pk s :
  channel_at (SourcePort pk) (SourceChannel pk) s = Some ch →
  commitment_at (SourcePort pk) (SourceChannel pk) (Sequence pk) (timeout_effect ch pk s) = None ∧
  channel_at (SourcePort pk) (SourceChannel pk) (timeout_effect ch pk s) =
    Some (if bool_decide (ch_Ordering ch = ORDERED) then with_state CLOSED ch else ch) ∧
  touches (PacketCommitmentPath (SourcePort pk) (SourceChannel pk) (Sequence pk) ::
    if bool_decide (ch_Ordering ch = ORDERED) then [ChannelPath (SourcePort pk) (SourceChannel pk)] else [])
    s (timeout_effect ch pk s).
Proof.
  intros Hch. split; [apply timeout_clears|]. unfold timeout_effect, clear_commitment.
  case_bool_decide; split.
  - apply stored_lookup. simpl. apply lookup_insert_eq.
  - intros k Hk Hn. rewrite !not_elem_of_cons in Hn. destruct Hn as (H1 & H2 & _). simpl.
    by rewrite lookup_insert_ne, lookup_delete_ne.
  - rewrite <- Hch. unfold channel_at, stored. simpl. by rewrite lookup_delete_ne by key_ne.
  - by apply touches_delete, touches_nil.
Qed.

(** What a timeout does.  A packet times out only if it was sent on an open
    channel and its commitment is still there, its timeout height or timestamp has
    passed on the counterparty as of the proof, and the client verifies that it was
    not received.  Its commitment is then gone, an ordered channel is closed, an
    unordered one is as before, and no other record of channels and packets has
    changed. *)
Theorem timeout_packet_spec ctx cap pk proof h n s s' :
  localhost_ok s → (TimeoutPacket ctx pk proof h n;; TimeoutExecuted cap pk) s = (Ok tt, s') →
  ∃ ch conn t, sent_packet pk s ch conn ∧ ch_State ch = OPEN ∧
    Conn_GetTimestampAtHeight ctx conn h s = (Ok t, s) ∧ timed_out pk h t ∧
    fst (verify_not_received ctx ch conn pk proof h n ErrPacketReceived s) = Ok tt ∧
    commitment_at (SourcePort pk) (SourceChannel pk) (Sequence pk) s' = None ∧
    channel_at (SourcePort pk) (SourceChannel pk) s' =
      Some (if bool_decide (ch_Ordering ch = ORDERED) then with_state CLOSED ch else ch) ∧
    touches (PacketCommitmentPath (SourcePort pk) (SourceChannel pk) (Sequence pk) ::
      if bool_decide (ch_Ordering ch = ORDERED) then [ChannelPath (SourcePort pk) (SourceChannel pk)] else [])
      s s'.
Proof.
  intros Hl ([] & s1 & H1 & H2)%bind_ok.
  apply TimeoutPacket_ok in H1 as (ch & conn & t & Hsp & Ho & _ & Ht & Hto & Hv & _ & Hoc); [|done].
  apply TimeoutExecuted_ok in H2 as (ch' & Hch' & _ & ->).
  assert (channel_at (SourcePort pk) (SourceChannel pk) s1 = Some ch) as Hch1.
  { rewrite <- (sp_channel _ _ _ _ Hsp). by apply only_clients_stored. }
  rewrite Hch1 in Hch'. injection Hch' as <-.
  destruct (timeout_effect_keys ch pk s1 Hch1) as (H3 & H4 & H5).
  exists ch, conn, t. split_and!; [done..| |done|done|by eapply touches_after]. by rewrite Hv.
Qed.

End settle.

(** ** The handshake *)

Section handshake.
Context {E : IbcEnv} {L : IbcLaws}.

(** Opening a channel.  ChanOpenInit and ChanOpenTry hand out the identifier
    "channel-{n}" for the next n; in a reachable state nothing is stored for it on
    any port and it is not pending.  The write that follows stores the channel in
    INIT or TRYOPEN and sets its three sequence counters to 1. *)
Theorem opening_is_fresh w ctx o hops p cap cp v proof h i k s1 s2 s3 :
  reachable w → localhost_ok w.1 →
  (ChanOpenInit ctx o hops p cap cp v w.1 = (Ok (i, k), s1) ∧
   WriteOpenInitChannel p i o hops cp v s2 = (Ok tt, s3)) ∨
  (ChanOpenTry ctx o hops p cap cp v proof h w.1 = (Ok (i, k), s1) ∧
   WriteOpenTryChannel p i o hops cp v s2 = (Ok tt, s3)) →
  (∃ n, next_channel w.1 = Some n ∧ i = FormatChannelIdentifier n ∧ next_channel s1 = Some (u64 (n + 1))) ∧
  (∀ q, no_slash q → ibc w.1 !! ChannelPath q i = None ∧ next_send q i w.1 = None ∧
     next_recv q i w.1 = None ∧ (q, i) ∉ w.2 ∧ ∀ m, is_u64 m → commitment_at q i m w.1 = None) ∧
  (∃ ch, channel_at p i s3 = Some ch ∧ (ch_State ch = INIT ∨ ch_State ch = TRYOPEN) ∧
     ch_Ordering ch = o ∧ ch_ConnectionHops ch = hops ∧ ch_Counterparty ch = cp ∧ ch_Version ch = v) ∧
  next_send p i s3 = Some 1 ∧ next_recv p i s3 = Some 1 ∧ next_ack p i s3 = Some 1.
Proof.
  intros HI%reachable_inv Hl Hopen.
  assert (generated p i w.1 s1 ∧ ∃ st, (st = INIT ∨ st = TRYOPEN) ∧ channel_created p i (NewChannel st o cp hops v) s2 s3)
    as [Hg (st & Hst & Hcr)].
  { destruct Hopen as [[H1 H2]|[H1 H2]].
    - split; [by eapply ChanOpenInit_ok|]. exists INIT. split; [by left|by eapply WriteOpenInitChannel_ok].
    - split; [by eapply ChanOpenTry_ok|]. exists TRYOPEN. split; [by right|by eapply WriteOpenTryChannel_ok]. }
  destruct Hg as (_ & n & Hn & -> & Hn' & _). pose proof (counter_range _ _ _ Hn) as Hnr.
  destruct Hcr as (Hch & _ & Hs & Hr & Ha & _).
  split_and!; [|..|done|done|done].
  - exists n. split_and!; [done|done|]. by apply counter_lookup; [apply u64_range|].
  - intros q Hq. pose proof (FormatChannelIdentifier_no_slash n) as Hi.
    assert (¬ (is_Some (ibc w.1 !! ChannelPath q (FormatChannelIdentifier n)) ∨ (q, FormatChannelIdentifier n) ∈ w.2)) as Hno.
    { intros Hex. destruct (inv_chan w HI _ _ Hq Hi Hex) as (m & N & Heq & Hm & HN & Hlt).
      apply FormatChannelIdentifier_inj in Heq; [|done|done]. simplify_eq. lia. }
    assert (ibc w.1 !! ChannelPath q (FormatChannelIdentifier n) = None) as Habs.
    { apply eq_None_not_Some. tauto. }
    destruct (inv_dom w HI _ _ Hq Hi Habs) as (H1 & H2 & H3).
    split_and!; [done|by apply absent_counter|by apply absent_counter|tauto|done].
  - eexists. split; [exact Hch|]. done.
Qed.

(** The later handshake steps.  ChanOpenAck takes a channel from INIT to OPEN
    and sets its version and its counterparty's channel; ChanOpenConfirm takes it
    from TRYOPEN to OPEN; ChanCloseInit and ChanCloseConfirm take a channel that is
    not closed to CLOSED.  Each needs the channel's capability and an open
    connection, and changes no other record of channels and packets. *)
Theorem handshake_transitions ctx p c cap v i proof h s s' :
  localhost_ok s →
  ((ChanOpenAck ctx p c cap v i proof h;; WriteOpenAckChannel p c v i) s = (Ok tt, s') →
   ∃ ch conn, channel_at p c s = Some ch ∧ ch_State ch = INIT ∧ authenticated cap p c s ∧
     connection_of ch conn s ∧ conn_State conn = CONN_OPEN ∧
     channel_at p c s' = Some (NewChannel OPEN (ch_Ordering ch)
       (NewCounterparty (cp_PortId (ch_Counterparty ch)) i) (ch_ConnectionHops ch) v) ∧
     touches [ChannelPath p c] s s') ∧
  ((ChanOpenConfirm ctx p c cap proof h;; WriteOpenConfirmChannel p c) s = (Ok tt, s') →
   ∃ ch conn, channel_at p c s = Some ch ∧ ch_State ch = TRYOPEN ∧ authenticated cap p c s ∧
     connection_of ch conn s ∧ conn_State conn = CONN_OPEN ∧
     channel_at p c s' = Some (with_state OPEN ch) ∧ touches [ChannelPath p c] s s') ∧
  (ChanCloseInit ctx p c cap s = (Ok tt, s') ∨ ChanCloseConfirm ctx p c cap proof h s = (Ok tt, s') →
   ∃ ch conn, channel_at p c s = Some ch ∧ ch_State ch ≠ CLOSED ∧ authenticated cap p c s ∧
     connection_of ch conn s ∧ conn_State conn = CONN_OPEN ∧
     channel_at p c s' = Some (with_state CLOSED ch) ∧ touches [ChannelPath p c] s s').
Proof.
  intros Hl.
  assert (∀ ch, channel_updated p c ch s s' → channel_at p c s' = Some ch ∧ touches [ChannelPath p c] s s') as Hu.
  { intros ch Hu. split; [by apply stored_lookup, Hu|by eapply touches_updated]. }
  split_and!.
  - intros (ch & conn & ? & ? & ? & ? & ? & []%Hu)%ChanOpenAck_ok; [|done]. by exists ch, conn.
  - intros (ch & conn & ? & ? & ? & ? & ? & []%Hu)%ChanOpenConfirm_ok; [|done]. by exists ch, conn.
  - intros [(ch & conn & cs & ? & ? & ? & ? & _ & ? & []%Hu)%ChanCloseInit_ok
           |(ch & conn & ? & ? & ? & ? & ? & []%Hu)%ChanCloseConfirm_ok]; [..|done]; by exists ch, conn.
Qed.

(** The operations of clients and connections, with every outcome, change no
    record of channels and packets: creating, updating, upgrading and recovering
    clients, the block hook, the parameters and the connection handshake. *)
Theorem clients_and_connections_leave_channels s :
  localhost_ok s →
  (∀ ctx cs cons, keeps_channels s (snd (CreateClient ctx cs cons s))) ∧
  (∀ ctx i msg, keeps_channels s (snd (UpdateClient ctx i msg s))) ∧
  (∀ ctx i cs cons p1 p2, keeps_channels s (snd (UpgradeClient ctx i cs cons p1 p2 s))) ∧
  (∀ ctx i j, keeps_channels s (snd (ClientUpdateProposal ctx i j s))) ∧
  (∀ ctx, keeps_channels s (snd (Client_BeginBlocker ctx s))) ∧
  (∀ ctx i cp v d, keeps_channels s (snd (ConnOpenInit ctx i cp v d s))) ∧
  (∀ ctx cp d i cs vs p1 p2 p3 h h',
     keeps_channels s (snd (ConnOpenTry ctx cp d i cs vs p1 p2 p3 h h' s))) ∧
  (∀ ctx i cs v j p1 p2 p3 h h', keeps_channels s (snd (ConnOpenAck ctx i cs v j p1 p2 p3 h h' s))) ∧
  (∀ ctx i proof h, keeps_channels s (snd (ConnOpenConfirm ctx i proof h s))).
Proof.
  intros Hl. split_and!; intros.
  - apply CreateClient_off.
  - apply UpdateClient_off.
  - apply UpgradeClient_off.
  - apply ClientUpdateProposal_off.
  - apply Client_BeginBlocker_off.
  - by apply ConnOpenInit_guarded.
  - by apply ConnOpenTry_guarded.
  - by apply ConnOpenAck_guarded.
  - by apply ConnOpenConfirm_guarded.
Qed.

End handshake.
