(* ===== verification/QueryProofs.v ===== *)
(** * What the queries answer

    What a relayer may conclude from the queries about packets, and that the listing of
    channels is complete: everything stored under the prefix of channels is a channel
    under its own path. *)

From stdpp Require Import gmap strings list relations.
From Stdlib Require Import ZArith Lia Ascii.
From S2P Require Import Prelude GoStd Sha256 Host Chain Sums Height Capability Port Commitment LightClient Client ConnTypes ChanTypes Env Connection Channel ChanHandshake Packet ChanProofs PacketProofs Frames HandshakeProofs Protocol Guarantees Queries.

Section answers.
Context {E : IbcEnv} {L : IbcLaws}.

Lemma validategRPCRequest_ok p c : validategRPCRequest p c = Ok tt → no_slash p ∧ no_slash c.
Proof.
  unfold validategRPCRequest. intros ([] & Hp & Hc)%obind_ok.
  destruct (PortIdentifierValidator p) as [[]| |] eqn:E1; [|done..].
  destruct (ChannelIdentifierValidator c) as [[]| |] eqn:E2; [|done..].
  apply defaultIdentifierValidator_ok in E1 as (_ & ? & _), E2 as (_ & ? & _). done.
Qed.

(** A loop with a test that only reads. *)
Lemma filter_sequences_ok test f l r s s' :
  (∀ n, test n s = (Ok (f n), s)) → filter_sequences test l s = (Ok r, s') →
  s' = s ∧ ∀ n, n ∈ r ↔ n ∈ l ∧ f n = true.
Proof.
  intros Ht. revert r s'. induction l as [|m l IH]; intros r s'; simpl.
  { intros H. minv. split; [done|]. intros n. split; [by intros ?%not_elem_of_nil|by intros [?%not_elem_of_nil _]]. }
  intros ([] & s1 & [_ ->]%require_ok & (k & s2 & Hk & (r' & s3 & Hr & [-> ->]%ret_ok)%bind_ok)%bind_ok)%bind_ok.
  rewrite Ht in Hk. injection Hk as <- <-. apply IH in Hr as [-> Hr].
  split; [done|]. intros n. destruct (f m) eqn:Hm; rewrite ?elem_of_cons, Hr.
  - split; [intros [->|[? ?]]; auto|intros [[->|?] ?]; auto].
  - split; [intros [? ?]; auto|intros [[->|?] ?]; [congruence|auto]].
Qed.

(** What the queries about packets answer, without the run around them. *)
Lemma no_receipt_run p c n s :
  no_receipt p c n s = (Ok (bool_decide (non_empty (receipt_at p c n s) = None)), s).
Proof. done. Qed.

Lemma has_commitment_run p c n s :
  has_commitment p c n s = (Ok (bool_decide (is_Some (non_empty (commitment_at p c n s)))), s).
Proof. done. Qed.

Lemma UnreceivedPackets_ok ctx p c ns l h s s' :
  Query_UnreceivedPackets ctx (Some (p, c, ns)) s = (Ok (l, h), s') →
  s' = s ∧ no_slash p ∧ no_slash c ∧ ∃ ch, channel_at p c s = Some ch ∧ ch_Ordering ch ≠ NONE ∧
    (ch_Ordering ch = ORDERED → is_Some (next_recv p c s)) ∧ ∀ n, n ∈ l ↔ n ∈ ns ∧
      match ch_Ordering ch with
      | ORDERED => ∃ m, next_recv p c s = Some m ∧ m <= n
      | _ => non_empty (receipt_at p c n s) = None
      end.
Proof.
  unfold Query_UnreceivedPackets. intros (x & s1 & [[= <-] ->]%orErr_ok & H)%bind_ok.
  apply bind_ok in H as ([] & s2 & [Hv ->]%lift_ok & (o & s3 & Hch & (ch & s4 & [-> ->]%orErr_ok & H)%bind_ok)%bind_ok).
  apply validategRPCRequest_ok in Hv as [Hp Hc]. apply ibc_get_proto_ok in Hch as [-> Hch].
  apply bind_ok in H as (r & s5 & Hr & (hh & s6 & [_ ->]%lift_ok & [[= <- <-] ->]%ret_ok)%bind_ok).
  assert (s5 = s ∧ ch_Ordering ch ≠ NONE ∧ (ch_Ordering ch = ORDERED → is_Some (next_recv p c s)) ∧ ∀ n, n ∈ l ↔ n ∈ ns ∧
      match ch_Ordering ch with
      | ORDERED => ∃ m, next_recv p c s = Some m ∧ m <= n
      | _ => non_empty (receipt_at p c n s) = None
      end) as (-> & Ho & Hx & Hn); [|split_and!; [done..|by exists ch]].
  destruct (ch_Ordering ch).
  - by apply fail_ok in Hr.
  - eapply filter_sequences_ok in Hr as [-> Hr]; [|intros n; apply no_receipt_run]. split_and!; [done..|].
    intros n. by rewrite Hr, bool_decide_eq_true.
  - apply bind_ok in Hr as (m & s6 & Hm & (m' & s7 & [-> ->]%orErr_ok & Hr)%bind_ok).
    unfold GetNextSequenceRecv in Hm. rewrite get_counter_run in Hm. injection Hm as Hm <-.
    eapply filter_sequences_ok in Hr as [-> Hr]; [|done]. split_and!; [done..|by exists m'|].
    intros n. rewrite Hr, Z.leb_le. unfold next_recv. rewrite Hm. naive_solver.
Qed.

Lemma UnreceivedAcks_ok ctx p c ns l h s s' :
  Query_UnreceivedAcks ctx (Some (p, c, ns)) s = (Ok (l, h), s') →
  s' = s ∧ no_slash p ∧ no_slash c ∧ ∀ n, n ∈ l ↔ n ∈ ns ∧ is_Some (non_empty (commitment_at p c n s)).
Proof.
  unfold Query_UnreceivedAcks. intros (x & s1 & [[= <-] ->]%orErr_ok & H)%bind_ok.
  apply bind_ok in H as ([] & s2 & [Hv ->]%lift_ok & (r & s3 & Hr & (hh & s4 & [_ ->]%lift_ok & [[= <- <-] ->]%ret_ok)%bind_ok)%bind_ok).
  apply validategRPCRequest_ok in Hv as [Hp Hc].
  eapply filter_sequences_ok in Hr as [-> Hr]; [|intros n; apply has_commitment_run]. split_and!; [done..|].
  intros n. by rewrite Hr, bool_decide_eq_true.
Qed.

(** A listed sequence and the mark of reception exclude each other. *)
Lemma listed_not_received (p c : string) (ch : Channel) (pk : Packet) s :
  DestinationPort pk = p → DestinationChannel pk = c → ch_Ordering ch ≠ NONE →
  (ch_Ordering ch = ORDERED → is_Some (next_recv p c s)) →
  match ch_Ordering ch with
  | ORDERED => ∃ m, next_recv p c s = Some m ∧ m <= Sequence pk
  | _ => non_empty (receipt_at p c (Sequence pk) s) = None
  end ↔ ¬ already_received ch pk s.
Proof.
  intros <- <- Ho Hex. unfold already_received. destruct (ch_Ordering ch).
  - done.
  - split; [by intros -> H|]. intros H. by destruct (non_empty _); [exfalso; apply H|].
  - destruct Hex as [m Hm]; [done|]. rewrite Hm. split.
    + intros (? & [= <-] & ?) (? & [= <-] & ?). lia.
    + intros H. exists m. split; [done|]. apply Z.nlt_ge. intros ?. apply H. by exists m.
Qed.

#[export] Instance already_received_dec ch pk s : Decision (already_received ch pk s).
Proof.
  unfold already_received. destruct (ch_Ordering ch); [apply _|apply _|].
  destruct (next_recv (DestinationPort pk) (DestinationChannel pk) s) as [n|]; [|right; by intros (? & ? & _)].
  destruct (decide (Sequence pk < n)); [left; by exists n|right; by intros (? & [= <-] & ?)].
Defined.

Lemma received_marked ch pk s : already_received ch pk s → marked ch pk s.
Proof. unfold already_received, marked. destruct (ch_Ordering ch); [done..|]. intros (n & ? & ?). exists n. auto. Qed.

Lemma marked_received ch pk s :
  next_recv (DestinationPort pk) (DestinationChannel pk) s ≠ Some 0 → marked ch pk s → already_received ch pk s.
Proof.
  unfold already_received, marked. intros Hz. destruct (ch_Ordering ch); [done..|]. intros (n & Hn & [->|?]); [done|].
  by exists n.
Qed.

Lemma marked_ordering ch ch' pk s : ch_Ordering ch = ch_Ordering ch' → marked ch pk s → marked ch' pk s.
Proof. unfold marked. by intros ->. Qed.
End answers.

(** ** Relaying *)

Section relaying.
Context {E : IbcEnv} {L : IbcLaws}.

(** [C31] The query for unreceived packets tells a relayer exactly what there is to relay.
    In a reachable state, for a sequence it was asked about: it is left out exactly when
    its packet was received already; if it is left out, no packet with this sequence is
    accepted from then on, whatever steps the chain takes; and a packet that was received
    earlier in the run is left out (on an ordered channel as long as the counter of 64
    bits has not wrapped around).  Asking changes nothing. *)
Theorem unreceived_packets_exact w ctx p c ns l h s' :
  reachable w → Query_UnreceivedPackets ctx (Some (p, c, ns)) w.1 = (Ok (l, h), s') →
  s' = w.1 ∧ (∀ n, n ∈ l → n ∈ ns) ∧ ∃ ch, channel_at p c w.1 = Some ch ∧
  ∀ pk, DestinationPort pk = p → DestinationChannel pk = c → Sequence pk ∈ ns → Sequence pk ≠ 0 →
    (Sequence pk ∉ l ↔ already_received ch pk w.1) ∧
    (Sequence pk ∉ l → ∀ w2 ctx' cap proof h' s3, rtc step w w2 → localhost_ok w2.1 →
       RecvPacket ctx' cap pk proof h' w2.1 ≠ (Ok tt, s3)) ∧
    (∀ w0 ctx' cap proof h' s1, reachable w0 → localhost_ok w0.1 → Packet_ValidateBasic pk = Ok tt →
       is_u64 (Sequence pk) → RecvPacket ctx' cap pk proof h' w0.1 = (Ok tt, s1) → rtc step (s1, w0.2) w →
       next_recv p c w.1 ≠ Some 0 → Sequence pk ∉ l).
Proof.
  intros HI%reachable_inv (-> & Hp & Hc & ch & Hch & Ho & Hx & Hl)%UnreceivedPackets_ok.
  split_and!; [done|by intros n [? _]%Hl|]. exists ch. split; [done|]. intros pk Ep Ec Hin Hn0.
  pose proof (listed_not_received p c ch pk w.1 Ep Ec Ho Hx) as Hiff. subst p c.
  assert (Sequence pk ∉ l ↔ already_received ch pk w.1) as Hout.
  { rewrite Hl, Hiff. split; [|tauto]. intros H. destruct (decide (already_received ch pk w.1)); [done|].
    exfalso. by apply H. }
  split_and!; [done| |].
  - intros Hm%Hout%received_marked w2 ctx' cap proof h' s3 Hrun Hl2 Hr.
    apply RecvPacket_ok in Hr as (ch2 & conn & s4 & Hcr & _ & _ & Hf & _); [|done].
    destruct (channel_steps _ _ _ _ _ HI Hrun Hp Hc Hch) as (ch3 & E3 & Hev).
    rewrite (cr_channel _ _ _ _ _ _ Hcr) in E3. injection E3 as <-. revert Hf. apply marked_not_fresh; [done|].
    eapply marked_ordering; [symmetry; apply (ev_ordering _ _ Hev)|]. by eapply marked_steps.
  - intros [s0 P] ctx' cap proof h' s1 HI0%reachable_inv Hl0 Hv Hu Hr Hrun Hz. simpl in *. apply Hout, marked_received; [done|].
    pose proof (recv_effects _ _ _ _ _ _ _ Hl0 Hv Hr) as He.
    assert (rtc step (s0, P) w) as Hrun0 by (etrans; [|exact Hrun]; apply op_run; [done|by eapply op_recv]).
    apply RecvPacket_ok in Hr as (ch1 & conn & s4 & Hcr & _ & _ & _ & ->); [|done].
    destruct (channel_steps _ _ _ _ _ HI0 Hrun0 Hp Hc (cr_channel _ _ _ _ _ _ Hcr)) as (ch3 & E3 & Hev).
    rewrite Hch in E3. injection E3 as <-. eapply marked_ordering; [symmetry; apply (ev_ordering _ _ Hev)|].
    eapply marked_steps; [by eapply op_inv|exact Hrun|done|done|]. apply recv_marks; [done|].
    by rewrite <- (ev_ordering _ _ Hev).
Qed.

(** The query for unreceived acknowledgements lists, of the sequences it was asked
    about, those whose commitment is still stored.  For a sequence that is left out no
    acknowledgement and no timeout is accepted in this state, and the sequence of a packet
    that was acknowledged or timed out earlier in the run is left out.  Asking changes
    nothing. *)
Theorem unreceived_acks_exact w ctx p c ns l h s' :
  reachable w → localhost_ok w.1 → Query_UnreceivedAcks ctx (Some (p, c, ns)) w.1 = (Ok (l, h), s') →
  s' = w.1 ∧ (∀ n, n ∈ l ↔ n ∈ ns ∧ is_Some (non_empty (commitment_at p c n w.1))) ∧
  ∀ pk, SourcePort pk = p → SourceChannel pk = c → Sequence pk ∈ ns →
    (Sequence pk ∉ l → ∀ w3, ¬ settled pk w w3) ∧
    (∀ w0 w1, reachable w0 → localhost_ok w0.1 → Packet_ValidateBasic pk = Ok tt → is_u64 (Sequence pk) →
       settled pk w0 w1 → rtc step w1 w → Sequence pk ∉ l).
Proof.
  intros HI%reachable_inv Hl (-> & Hp & Hc & Hn)%UnreceivedAcks_ok. split_and!; [done..|].
  intros pk <- <- Hin. split.
  - intros Hout w3 (ch & conn & Hs)%settled_start; [|done]. apply Hout, Hn. split; [done|].
    rewrite (sp_commitment _ _ _ _ Hs). simpl. rewrite bool_decide_eq_false_2 by apply CommitPacket_nonempty. by eexists.
  - intros w0 w1 HI0%reachable_inv Hl0 Hv Hu Hs Hrun. destruct (settled_consumed pk w0 w1 HI0 Hl0 Hv Hu Hs) as [HI1 Hcon].
    destruct (consumed_steps w1 w _ _ _ HI1 Hrun Hp Hc Hu Hcon) as [Hnone _].
    rewrite Hn, Hnone. by intros [_ []].
Qed.
End relaying.

(** ** The channels in the store *)

Section listing.
Context {E : IbcEnv} {L : IbcLaws}.

(** Everything under the prefix of channel ends is a channel under its own path. *)
Definition typed (s : Chain) : Prop :=
  ∀ k, HasPrefix k "channelEnds/" = true → is_Some (ibc s !! k) →
    ∃ p c ch, k = ChannelPath p c ∧ no_slash p ∧ no_slash c ∧ stored (A:=Channel) k s = Some ch.

Lemma step_typed w w' : Inv w → step w w' → typed w.1 → typed w'.1.
Proof.
  intros HI Hs Ht k Hk Hex.
  assert (same_at k w.1 w'.1 → ∃ p c ch, k = ChannelPath p c ∧ no_slash p ∧ no_slash c ∧ stored (A:=Channel) k w'.1 = Some ch) as Hsame.
  { intros He. unfold same_at, stored in *. rewrite He in *. by apply Ht. }
  destruct (step_cases w w' Hs) as [He|[Hall|(p & i & ch & Hin & Hcr & _)]].
  - destruct (eff_channel _ _ He k Hk) as [?|(a & a' & Ha & Ha' & _)]; [by apply Hsame|].
    destruct (Ht k Hk) as (p & c & ch & -> & Hp & Hc & _).
    { destruct (ibc w.1 !! k) eqn:Hb; [by eexists|]. unfold stored in Ha. by rewrite Hb in Ha. }
    exists p, c, a'. split_and!; [done..|]. by apply stored_marshal.
  - apply Hsame, Hall; [by apply (chan_key_of "channelEnds/"); [left|]|]. by intros ->.
  - destruct (decide (k = ChannelPath p i)) as [->|Hne].
    + destruct (inv_pend w HI p i Hin) as (Hp & Hi & _). destruct Hcr as (Hch & _). by exists p, i, ch.
    + apply Hsame. destruct Hcr as (_ & _ & _ & _ & _ & Hall). apply Hall; [done|intros ->; by vm_compute in Hk..].
Qed.

Lemma reachable_typed w : reachable w → typed w.1.
Proof.
  intros (s & Hs & Hr). refine (steps_lift (λ w, typed w.1) _ w _ (no_channels_inv s Hs) Hr _).
  - intros a b Ha Hab. by apply step_typed.
  - intros k Hk. rewrite Hs; [by intros []|by apply (chan_key_of "channelEnds/"); [left|]|by intros ->].
Qed.

(** An entry and the channel it holds; [pre] is what is left of the prefix. *)
Definition entry_of (pre : string) (e : string * bytes) (ic : IdentifiedChannel) : Prop :=
  e.1 = pre +:+ "/" +:+ channelPath (ich_PortId ic) (ich_ChannelId ic) ∧ no_slash (ich_PortId ic) ∧
  no_slash (ich_ChannelId ic) ∧ Unmarshal e.2 = Some (ich_Channel ic).

Lemma visit_channels pre entries l acc :
  no_slash pre → Forall2 (entry_of pre) entries l → visit entries channels_cb acc = Ok (acc ++ l).
Proof.
  intros Hpre Hl. revert acc. induction Hl as [|[k v] [p c ch] entries l (Hk & Hp & Hc & Hv) _ IH]; intros acc; cbn [fst snd ich_PortId ich_ChannelId ich_Channel visit iterate] in *.
  - by rewrite app_nil_r.
  - assert (channels_cb k v acc = Ok (acc ++ [NewIdentifiedChannel p c ch])) as ->.
    { unfold channels_cb. by rewrite Hv, Hk, ParseChannelPath_format. }
    change (visit entries channels_cb (acc ++ [NewIdentifiedChannel p c ch]) = Ok (acc ++ mkIdentifiedChannel p c ch :: l)).
    rewrite IH. by rewrite <- app_assoc.
Qed.

Lemma visited_channels entries l acc r :
  (∀ e, e ∈ entries → ∃ ic, ic ∈ l ∧ entry_of "" e ic) → visit entries channels_cb acc = Ok r → acc ⊆ l → r ⊆ l.
Proof.
  revert acc. induction entries as [|[k v] entries IH]; intros acc He; cbn [visit]; [by intros [= <-]|].
  intros (acc' & Hcb & Hv)%obind_ok Hacc. apply (IH acc'); [intros e ?; apply He; by right|done|].
  destruct (He (k, v)) as ([p c ch] & Hin & Hk & Hp & Hc & Hu); [by left|].
  cbn [fst snd ich_PortId ich_ChannelId ich_Channel] in *. unfold channels_cb in Hcb.
  rewrite Hu, Hk, ParseChannelPath_format in Hcb by done. injection Hcb as <-.
  intros ic [?|Hs]%elem_of_app; [by apply Hacc|]. by apply list_elem_of_singleton in Hs as ->.
Qed.

Lemma iterate_all pre entries l acc s :
  no_slash pre → Forall2 (entry_of pre) entries l →
  iterate entries (λ key value acc,
    channel ← lift (MustUnmarshal value);
    '(portID, channelID) ← lift (MustParseChannelPath key);
    mret (acc ++ [NewIdentifiedChannel portID channelID channel], false)) acc s = (Ok (acc ++ l), s).
Proof.
  intros Hpre Hl. revert acc. induction Hl as [|[k v] [p c ch] entries l (Hk & Hp & Hc & Hv) _ IH]; intros acc; cbn [fst snd ich_PortId ich_ChannelId ich_Channel visit iterate] in *.
  - by rewrite app_nil_r.
  - subst k. rewrite (bind_run _ _ s (acc ++ [NewIdentifiedChannel p c ch], false) s).
    + rewrite IH. by rewrite <- app_assoc.
    + unfold MustUnmarshal, MustParseChannelPath. rewrite Hv, ParseChannelPath_format by done. done.
Qed.

(** The store has no other keys that begin like those of channels. *)
Definition no_stray (s : Chain) : Prop :=
  ∀ k, HasPrefix k KeyChannelEndPrefix = true → is_Some (ibc s !! k) → HasPrefix k "channelEnds/" = true.

Lemma stored_value {A} `{Proto A} k (a : A) s :
  stored k s = Some a ↔ ∃ v, ibc s !! k = Some v ∧ v ≠ "" ∧ Unmarshal v = Some a.
Proof.
  unfold stored. destruct (ibc s !! k) as [v|]; simpl; [|naive_solver].
  case_bool_decide; simpl; naive_solver.
Qed.

Lemma entries_typed s :
  typed s → no_stray s → ∃ l, Forall2 (entry_of KeyChannelEndPrefix) (KVStorePrefixIterator (ibc s) KeyChannelEndPrefix) l.
Proof.
  intros Ht Hn. assert (∀ e, e ∈ KVStorePrefixIterator (ibc s) KeyChannelEndPrefix → ∃ ic, entry_of KeyChannelEndPrefix e ic) as He.
  { intros [k v] [Hk Hp]%KVStorePrefixIterator_elem.
    destruct (Ht k) as (p & c & ch & -> & Hsp & Hsc & (v' & Hv & _ & Hu)%stored_value); [by apply Hn; [|eexists]|by eexists|].
    rewrite Hk in Hv. injection Hv as <-. by exists (mkIdentifiedChannel p c ch). }
  induction (KVStorePrefixIterator (ibc s) KeyChannelEndPrefix) as [|e es IH]; [by exists []|].
  destruct (He e) as [ic Hic]; [by left|]. destruct IH as [l Hl]; [intros e' ?; apply He; by right|].
  exists (ic :: l). by constructor.
Qed.

Lemma entry_stripped e ic :
  entry_of KeyChannelEndPrefix e ic → entry_of "" (str_drop (String.length KeyChannelEndPrefix) e.1, e.2) ic.
Proof.
  intros (Hk & Hrest). split; [|done]. cbn [fst]. rewrite Hk. by rewrite str_drop_app.
Qed.

Lemma KVStorePrefixIterator_keys kv p : NoDup (fst <$> KVStorePrefixIterator kv p).
Proof.
  apply NoDup_fmap_fst; [|apply KVStorePrefixIterator_NoDup].
  intros k v v' [H _]%KVStorePrefixIterator_elem [H' _]%KVStorePrefixIterator_elem. congruence.
Qed.

(** The channels found in all entries are those of the store, each once. *)
Lemma entries_exact s l :
  typed s → Forall2 (entry_of KeyChannelEndPrefix) (KVStorePrefixIterator (ibc s) KeyChannelEndPrefix) l →
  NoDup l ∧ ∀ p c ch, mkIdentifiedChannel p c ch ∈ l ↔ no_slash p ∧ no_slash c ∧ channel_at p c s = Some ch.
Proof.
  intros Ht Hl. split.
  - apply (NoDup_fmap_1 (λ ic, ChannelPath (ich_PortId ic) (ich_ChannelId ic))).
    enough ((λ ic, ChannelPath (ich_PortId ic) (ich_ChannelId ic)) <$> l = (fst <$> KVStorePrefixIterator (ibc s) KeyChannelEndPrefix))
      as -> by apply KVStorePrefixIterator_keys.
    induction Hl as [|e ic es l (Hk & _) _ IH]; [done|]. rewrite !fmap_cons, IH. by rewrite Hk.
  - intros p c ch. split.
    + intros (i & Hi)%list_elem_of_lookup. destruct (Forall2_lookup_r _ _ _ _ _ Hl Hi) as ([k v] & He & Hk & Hp & Hc & Hv).
      apply list_elem_of_lookup_2, KVStorePrefixIterator_elem in He as [He _]. cbn [fst snd ich_PortId ich_ChannelId ich_Channel] in *.
      split_and!; [done..|]. destruct (Ht k) as (p' & c' & ch' & _ & _ & _ & Hs); [by rewrite Hk|by eexists|].
      subst k. unfold channel_at. rewrite <- Hv. apply stored_value in Hs as (v' & Hv' & Hne & Hu).
      rewrite He in Hv'. injection Hv' as <-. rewrite Hu. apply stored_value. eauto.
    + intros (Hp & Hc & (v & Hk & _ & Hv)%stored_value).
      assert ((ChannelPath p c, v) ∈ KVStorePrefixIterator (ibc s) KeyChannelEndPrefix) as Hin by by apply KVStorePrefixIterator_elem.
      apply list_elem_of_lookup in Hin as (i & Hi).
      destruct (Forall2_lookup_l _ _ _ _ _ Hl Hi) as ([p' c' ch'] & Hic & Hk' & Hp' & Hc' & Hv').
      apply list_elem_of_lookup_2 in Hic. cbn [fst snd ich_PortId ich_ChannelId ich_Channel] in *.
      apply string_app_inj_l, (string_app_inj_l "/"), channelPath_inj in Hk' as [-> ->]; [|done..]. congruence.
Qed.

End listing.

Section listings.
Context {E : IbcEnv} {L : IbcLaws} {PG : Pagination} {PL : PaginationLaws}.

(** [C32] On a reachable chain where no other key begins like those of channels ("channelEnds"
    without the slash after it), everything stored under that prefix is well typed: the
    key is the path of a port and of a channel identifier that was handed out, the value
    decodes to a channel.  So listing the channels never fails, and the list has exactly
    the channels of the chain, each once; the query for channels answers the same list,
    without a page request and if it has at most the hundred entries of a page, and a page
    that is answered to any request has only channels of the chain. *)
Theorem channel_listing_exact w ctx h :
  reachable w → no_stray w.1 → GetSelfHeight ctx = Ok h →
  (∀ k v, HasPrefix k KeyChannelEndPrefix = true → ibc w.1 !! k = Some v →
     ∃ p n N ch, k = ChannelPath p (FormatChannelIdentifier n) ∧ no_slash p ∧ next_channel w.1 = Some N ∧ n < N ∧
       Unmarshal v = Some (ch : Channel)) ∧
  ∃ l, GetAllChannels w.1 = (Ok l, w.1) ∧ NoDup l ∧
    (∀ p c ch, mkIdentifiedChannel p c ch ∈ l ↔ no_slash p ∧ no_slash c ∧ channel_at p c w.1 = Some ch) ∧
    ((length l <= 100)%nat → ∃ r, Query_Channels ctx (Some None) w.1 = (Ok (mkPaged l (Some r) (Some h)), w.1)) ∧
    ∀ req page, fst (Query_Channels ctx (Some req) w.1) = Ok page → pg_Values page ⊆ l.
Proof.
  intros Hr Hn Hh. pose proof (reachable_typed w Hr) as Ht. pose proof (reachable_inv w Hr) as HI. split.
  { intros k v Hk Hv. destruct (Ht k) as (p & c & ch & -> & Hp & Hc & (v' & Hv' & _ & Hu)%stored_value); [by apply Hn; [|eexists]|by eexists|].
    destruct (inv_chan w HI p c Hp Hc) as (m & N & -> & _ & HN & Hlt); [left; by eexists|].
    rewrite Hv in Hv'. injection Hv' as <-. by exists p, m, N, ch. }
  destruct (entries_typed w.1 Ht Hn) as [l Hl]. exists l. destruct (entries_exact w.1 l Ht Hl) as [Hnd Hex].
  assert (Forall2 (entry_of "") (prefix_entries KeyChannelEndPrefix w.1) l) as Hl'.
  { unfold prefix_entries, prefix_view. apply Forall2_fmap_l. eapply Forall2_impl; [exact Hl|]. apply entry_stripped. }
  split_and!; [|done|done| |].
  - unfold GetAllChannels, IterateChannels, iterate_channels. erewrite bind_run by done.
    exact (iterate_all KeyChannelEndPrefix _ l [] w.1 eq_refl Hl).
  - intros Hlen. pose proof (visit_channels "" _ l [] eq_refl Hl') as Hvis.
    rewrite <- (Forall2_length _ _ _ Hl') in Hlen. destruct (paginate_all _ _ _ _ Hlen Hvis) as [r Hpg].
    exists r. unfold Query_Channels. erewrite bind_run by done. erewrite bind_run by done.
    erewrite bind_run by (unfold lift; by rewrite Hpg). simpl. erewrite bind_run by (unfold lift; by rewrite Hh). done.
  - intros req page Hq. destruct (Query_Channels ctx (Some req) w.1) as [o s'] eqn:Hrun. simpl in Hq. subst o.
    unfold Query_Channels in Hrun. apply bind_ok in Hrun as (x & s1 & [[= <-] ->]%orErr_ok & Hrun).
    apply bind_ok in Hrun as (es & s2 & [-> ->]%gets_ok & ([chs pr] & s3 & [Hpg ->]%lift_ok & Hrun)%bind_ok).
    apply bind_ok in Hrun as (hh & s4 & _ & [-> _]%ret_ok). simpl.
    apply paginate_page in Hpg as (es & Hsub & Hvis).
    apply (visited_channels es l [] chs); [|done|by intros ? ?%not_elem_of_nil]. intros e He.
    apply (elem_of_submseteq _ _ _ He) in Hsub. apply list_elem_of_lookup in Hsub as (i & Hi).
    destruct (Forall2_lookup_l _ _ _ _ _ Hl' Hi) as (ic & Hic & Hof). exists ic. split; [by eapply list_elem_of_lookup_2|done].
Qed.
End listings.
