(* ===== verification/MsgProofs.v ===== *)
(** * The message server refines the transition system

    A handler that succeeds is a run of steps of the transition system, whatever
    the applications' callbacks do as long as they are such runs themselves; a
    redundant relay changes no store; a failed receive callback leaves no trace
    in any store but its acknowledgement. *)

From stdpp Require Import gmap strings list relations.
From Stdlib Require Import ZArith Lia Ascii.
From S2P Require Import Prelude GoStd Sha256 Host Chain Height Capability Port Commitment LightClient Client ConnTypes ChanTypes Env Connection Channel ChanHandshake Packet MsgServer ChanProofs PacketProofs Frames HandshakeProofs Protocol Guarantees.

(** ** The localhost client stays one *)

Section localhost.
Context {E : IbcEnv} {L : IbcLaws}.

Definition keeps_localhost {A} (m : M A) : Prop := ∀ s, localhost_ok s → localhost_ok (snd (m s)).

Lemma lh_run {A} (m : M A) s o s' : keeps_localhost m → localhost_ok s → m s = (o, s') → localhost_ok s'.
Proof. intros Hm Hl H. specialize (Hm s Hl). by rewrite H in Hm. Qed.

Lemma lh_guarded {A} (m : M A) : guarded m → keeps_localhost m.
Proof. intros H s Hl. by apply H. Qed.

Lemma lh_readonly {A} (m : M A) : readonly m → keeps_localhost m.
Proof. intros H s Hl. by rewrite H. Qed.

Lemma lh_same {A} (m : M A) : same_ibc m → keeps_localhost m.
Proof. intros H s Hl. eapply localhost_ok_same; [|exact Hl]. by rewrite H. Qed.

Lemma lh_bind {A B} (m : M A) (f : A → M B) :
  keeps_localhost m → (∀ a, keeps_localhost (f a)) → keeps_localhost (m ≫= f).
Proof.
  intros Hm Hf s Hl. unfold mbind, M_bind. specialize (Hm s Hl).
  destruct (m s) as [[a|e|] s1]; simpl in *; [by apply Hf|done|done].
Qed.

Lemma lh_set k v : k ≠ localhost_key_at → keeps_localhost (ibc_set k v).
Proof.
  intros Hne s Hl. eapply localhost_ok_same; [|exact Hl]. simpl. by rewrite lookup_insert_ne.
Qed.

Lemma lh_delete k : k ≠ localhost_key_at → keeps_localhost (ibc_delete k).
Proof.
  intros Hne s Hl. eapply localhost_ok_same; [|exact Hl]. simpl. by rewrite lookup_delete_ne.
Qed.

Lemma lh_verify ctx conn delays path verify :
  readonly delays → verifier verify → keeps_localhost (verify_through ctx conn delays path verify).
Proof. intros Hd Hv. by apply lh_guarded, verify_through_guarded. Qed.

Lemma lh_verify_member ctx conn delays path h proof v :
  readonly delays → keeps_localhost (verify_through ctx conn delays path (verify_member ctx h proof v)).
Proof. intros Hd. apply lh_verify; [done|apply verify_member_verifier]. Qed.

End localhost.

Lemma Port_Authenticate_ro `{IbcEnv} cap p : readonly (Port_Authenticate cap p).
Proof.
  unfold Port_Authenticate. apply readonly_bind; [|intros; ro].
  intros s. unfold orPanics, lift. by destruct (PortIdentifierValidator p).
Qed.

Ltac lh :=
  intros; repeat first
    [ match goal with
      | |- keeps_localhost (_ ≫= _) => apply lh_bind; [|intros]
      | |- keeps_localhost (match _ with _ => _ end) => case_match
      | |- keeps_localhost (verify_through _ _ _ _ (verify_member _ _ _ _)) => apply lh_verify_member; ro
      | |- keeps_localhost (verify_through _ _ _ _ _) =>
          apply lh_verify; [ro|apply verify_absence_verifier]
      | |- keeps_localhost (ibc_set _ _) => apply lh_set; by intros ?
      | |- keeps_localhost (ibc_delete _) => apply lh_delete; by intros ?
      | |- keeps_localhost (Port_Authenticate _ _) => apply lh_readonly, Port_Authenticate_ro
      | |- keeps_localhost (require_ordering _ _) => apply lh_readonly, require_ordering_ro
      | |- keeps_localhost (NewCapability _ _) => apply lh_same, NewCapability_same
      | |- keeps_localhost _ =>
          progress unfold VerifyPacketCommitment, VerifyPacketAcknowledgement, VerifyChannelState,
            VerifyNextSequenceRecv, VerifyPacketReceiptAbsence, SetChannel, SetNextSequenceSend,
            SetNextSequenceRecv, SetNextSequenceAck, SetPacketReceipt, SetPacketCommitment,
            SetPacketAcknowledgement, deletePacketCommitment
      end
    | solve [apply lh_readonly; ro] ].

Section preserves.
Context {E : IbcEnv} {L : IbcLaws}.

Lemma SendPacket_lh ctx cap p c th ts data : keeps_localhost (SendPacket ctx cap p c th ts data).
Proof. unfold SendPacket. lh. Qed.
Lemma RecvPacket_lh ctx cap pk proof h : keeps_localhost (RecvPacket ctx cap pk proof h).
Proof. unfold RecvPacket. lh. Qed.
Lemma WriteAcknowledgement_lh cap pk ack : keeps_localhost (WriteAcknowledgement cap pk ack).
Proof. unfold WriteAcknowledgement. lh. Qed.
Lemma AcknowledgePacket_lh ctx cap pk ack proof h :
  keeps_localhost (AcknowledgePacket ctx cap pk ack proof h).
Proof. unfold AcknowledgePacket. lh. Qed.
Lemma TimeoutPacket_lh ctx pk proof h n : keeps_localhost (TimeoutPacket ctx pk proof h n).
Proof. unfold TimeoutPacket, verify_not_received. lh. Qed.
Lemma TimeoutOnClose_lh ctx cap pk proof pc h n :
  keeps_localhost (TimeoutOnClose ctx cap pk proof pc h n).
Proof. unfold TimeoutOnClose, verify_not_received. lh. Qed.
Lemma TimeoutExecuted_lh cap pk : keeps_localhost (TimeoutExecuted cap pk).
Proof. unfold TimeoutExecuted. lh. Qed.
Lemma ChanOpenInit_lh ctx o hops p cap cp v : keeps_localhost (ChanOpenInit ctx o hops p cap cp v).
Proof. unfold ChanOpenInit, GenerateChannelIdentifier, GetNextChannelSequence, SetNextChannelSequence. lh. Qed.
Lemma ChanOpenTry_lh ctx o hops p cap cp v proof h :
  keeps_localhost (ChanOpenTry ctx o hops p cap cp v proof h).
Proof. unfold ChanOpenTry, GenerateChannelIdentifier, GetNextChannelSequence, SetNextChannelSequence. lh. Qed.
Lemma WriteOpenInitChannel_lh p c o hops cp v : keeps_localhost (WriteOpenInitChannel p c o hops cp v).
Proof. unfold WriteOpenInitChannel. lh. Qed.
Lemma WriteOpenTryChannel_lh p c o hops cp v : keeps_localhost (WriteOpenTryChannel p c o hops cp v).
Proof. unfold WriteOpenTryChannel. lh. Qed.
Lemma ChanOpenAck_lh ctx p c cap v i proof h :
  keeps_localhost (ChanOpenAck ctx p c cap v i proof h;; WriteOpenAckChannel p c v i).
Proof. unfold ChanOpenAck, WriteOpenAckChannel. lh. Qed.
Lemma ChanOpenConfirm_lh ctx p c cap proof h :
  keeps_localhost (ChanOpenConfirm ctx p c cap proof h;; WriteOpenConfirmChannel p c).
Proof. unfold ChanOpenConfirm, WriteOpenConfirmChannel. lh. Qed.
Lemma ChanCloseInit_lh ctx p c cap : keeps_localhost (ChanCloseInit ctx p c cap).
Proof. unfold ChanCloseInit. lh. Qed.
Lemma ChanCloseConfirm_lh ctx p c cap proof h : keeps_localhost (ChanCloseConfirm ctx p c cap proof h).
Proof. unfold ChanCloseConfirm. lh. Qed.

End preserves.

(** ** Runs *)

Section runs.
Context {E : IbcEnv} {L : IbcLaws}.

(** A computation whose successful executions are runs of the system. *)
Definition runs {A} (m : M A) : Prop :=
  ∀ s a s' P, Inv (s, P) → localhost_ok s → m s = (Ok a, s') →
    rtc step (s, P) (s', P) ∧ localhost_ok s'.

Lemma runs_bind {A B} (m : M A) (f : A → M B) : runs m → (∀ a, runs (f a)) → runs (m ≫= f).
Proof.
  intros Hm Hf s b s' P HI Hl (a & s1 & H1 & H2)%bind_ok.
  destruct (Hm _ _ _ _ HI Hl H1) as [Hr1 Hl1].
  destruct (Hf a _ _ _ _ (steps_inv _ _ Hr1 HI) Hl1 H2) as [Hr2 Hl2]. split; [by etrans|done].
Qed.

Lemma runs_readonly {A} (m : M A) : readonly m → runs m.
Proof. intros Hm s a s' P HI Hl H. apply readonly_ok in H; [|done]. by subst. Qed.

Lemma runs_op (m : M ()) :
  (∀ s s', m s = (Ok tt, s') → op_step s s') → keeps_localhost m → runs m.
Proof.
  intros Hop Hk s [] s' P HI Hl H. split; [by apply op_run; [|apply Hop]|].
  specialize (Hk s Hl). by rewrite H in Hk.
Qed.

Lemma runs_same {A} (m : M A) : same_ibc m → runs m.
Proof.
  intros Hm s a s' P _ Hl H. split; [|by apply (lh_run m s (Ok a)); [apply lh_same|..]].
  apply op_run; [done|]. apply op_outside. specialize (Hm s). by rewrite H in Hm.
Qed.

(** An operation split by a bind into its check and its write. *)
Lemma runs_assoc {A B C} (m : M A) (f : A → M B) (g : B → M C) :
  runs ((m ≫= f) ≫= g) → runs (m ≫= λ a, f a ≫= g).
Proof.
  intros H s c s' P HI Hl Hm. apply (H s c s' P HI Hl). rewrite <- Hm.
  unfold mbind, M_bind. by destruct (m s) as [[a|e|] s1].
Qed.

Lemma rollback_outside s s' : op_step s (rollback s s').
Proof. by apply op_outside. Qed.

Lemma rollback_localhost s s' : localhost_ok s → localhost_ok (rollback s s').
Proof. done. Qed.

(** What the applications are asked for: their callbacks are runs. *)
Record well_behaved (cbs : IBCModule) : Prop := {
  wb_open_init ctx o hops p c cap cp v : runs (OnChanOpenInit cbs ctx o hops p c cap cp v);
  wb_open_try ctx o hops p c cap cp v : runs (OnChanOpenTry cbs ctx o hops p c cap cp v);
  wb_open_ack ctx p c i v : runs (OnChanOpenAck cbs ctx p c i v);
  wb_open_confirm ctx p c : runs (OnChanOpenConfirm cbs ctx p c);
  wb_close_init ctx p c : runs (OnChanCloseInit cbs ctx p c);
  wb_close_confirm ctx p c : runs (OnChanCloseConfirm cbs ctx p c);
  wb_recv ctx pk rel : runs (OnRecvPacket cbs ctx pk rel);
  wb_ack ctx pk ack rel : runs (OnAcknowledgementPacket cbs ctx pk ack rel);
  wb_timeout ctx pk rel : runs (OnTimeoutPacket cbs ctx pk rel)
}.

(** The redundancy pattern: the verification succeeded and the rest ran, or it
    was redundant and only the state outside of the stores changed. *)
Lemma unless_redundant_ok verify continue s r s' :
  unless_redundant verify continue s = (Ok r, s') →
  (∃ s1, verify s = (Ok tt, s1) ∧ continue s1 = (Ok r, s')) ∨
  (∃ s1, verify s = (Err ErrNoOpMsg, s1) ∧ r = NOOP ∧ s' = rollback s s1).
Proof.
  unfold unless_redundant, cached. intros (x & s1 & H1 & H2)%bind_ok.
  destruct (verify s) as [[[]|e|] s0] eqn:Hv; [| |done]; simplify_eq.
  - left. eauto.
  - right. case_bool_decide as He; [|by apply fail_ok in H2].
    apply ret_ok in H2 as [-> ->]. subst. eauto.
Qed.

Lemma runs_unless verify continue :
  runs verify → runs continue → runs (unless_redundant verify continue).
Proof.
  intros Hv Hc s r s' P HI Hl [(s1 & H1 & H2)|(s1 & H1 & -> & ->)]%unless_redundant_ok.
  - eapply (runs_bind verify (λ _, continue)); [done|done|done|done|].
    apply bind_ok. eauto.
  - split; [|by apply rollback_localhost]. apply op_run; [done|apply rollback_outside].
Qed.

Lemma runs_recv_callback cbs ctx pk rel :
  well_behaved cbs → runs (run_OnRecvPacket cbs ctx pk rel).
Proof.
  intros Hwb s ack s' P HI Hl. unfold run_OnRecvPacket.
  destruct (OnRecvPacket cbs ctx pk rel s) as [[a|e|] s1] eqn:Hcb; [|done|done].
  intros [= -> <-]. destruct (match ack with Some a => app_Success a | None => true end).
  - by apply (wb_recv _ Hwb ctx pk rel s ack s1 P HI Hl).
  - split; [|by apply rollback_localhost]. apply op_run; [done|apply rollback_outside].
Qed.

End runs.

(** ** The handlers *)

Section handlers.
Context {E : IbcEnv} {L : IbcLaws}.
Context (rtr : Router IBCModule) (bech32 : string → option Address).
Hypothesis routed : ∀ m cbs, GetRoute rtr m = Some cbs → well_behaved cbs.

Lemma LookupModuleByChannel_ro p c : readonly (LookupModuleByChannel p c).
Proof. unfold LookupModuleByChannel. ro. Qed.
Lemma LookupModuleByPort_ro p : readonly (LookupModuleByPort p).
Proof. unfold LookupModuleByPort. ro. Qed.
#[local] Hint Resolve LookupModuleByChannel_ro LookupModuleByPort_ro : ro.

Lemma route_channel_ok p c cbs cap s s' :
  route_channel rtr p c s = (Ok (cbs, cap), s') → s' = s ∧ well_behaved cbs.
Proof.
  unfold route_channel. intros H. kinv. destruct a as [m k]. minv. eauto.
Qed.

Lemma route_port_ok p cbs cap s s' :
  route_port rtr p s = (Ok (cbs, cap), s') → s' = s ∧ well_behaved cbs.
Proof. unfold route_port. intros H. kinv. destruct a as [m k]. minv. eauto. Qed.

Lemma runs_route {B} p c (f : IBCModule * Capability → M B) :
  (∀ cbs cap, well_behaved cbs → runs (f (cbs, cap))) → runs (route_channel rtr p c ≫= f).
Proof.
  intros Hf s b s' P HI Hl ([cbs cap] & s1 & H1 & H2)%bind_ok.
  apply route_channel_ok in H1 as [-> Hwb]. by apply (Hf cbs cap Hwb s b s' P HI Hl).
Qed.

Ltac run_tac :=
  repeat first
    [ match goal with
      | |- runs (route_channel _ _ _ ≫= _) => apply runs_route; intros cbs cap Hwb
      | |- runs (_ ≫= _) => apply runs_bind; [|intros]
      | |- runs (unless_redundant _ _) => apply runs_unless
      | |- runs (run_OnRecvPacket _ _ _ _) => by apply runs_recv_callback
      | |- runs (match _ with _ => _ end) => case_match
      | Hwb : well_behaved _ |- runs _ => solve [destruct Hwb; eauto 2]
      end
    | solve [apply runs_readonly; ro] ].

Lemma Msg_RecvPacket_runs ctx msg :
  Packet_ValidateBasic (mrp_Packet msg) = Ok tt → runs (Msg_RecvPacket rtr bech32 ctx msg).
Proof.
  intros Hv. unfold Msg_RecvPacket. run_tac.
  - apply runs_op; [intros; by eapply op_recv|apply RecvPacket_lh].
  - apply runs_op; [intros; by eapply op_write_ack|apply WriteAcknowledgement_lh].
Qed.

Lemma runs_timeout_executed cap pk : runs (TimeoutExecuted cap pk).
Proof. apply runs_op; [intros; by eapply op_timeout_executed|apply TimeoutExecuted_lh]. Qed.

Lemma Msg_Timeout_runs ctx msg : runs (Msg_Timeout rtr bech32 ctx msg).
Proof.
  unfold Msg_Timeout. run_tac; [|apply runs_timeout_executed].
  apply runs_op; [intros; by eapply op_timeout|apply TimeoutPacket_lh].
Qed.

Lemma Msg_TimeoutOnClose_runs ctx msg : runs (Msg_TimeoutOnClose rtr bech32 ctx msg).
Proof.
  unfold Msg_TimeoutOnClose. run_tac; [|apply runs_timeout_executed].
  apply runs_op; [intros; by eapply op_timeout_on_close|apply TimeoutOnClose_lh].
Qed.

Lemma Msg_Acknowledgement_runs ctx msg : runs (Msg_Acknowledgement rtr bech32 ctx msg).
Proof.
  unfold Msg_Acknowledgement. run_tac.
  apply runs_op; [intros; by eapply op_ack|apply AcknowledgePacket_lh].
Qed.

Lemma Msg_ChannelOpenAck_runs ctx msg : runs (Msg_ChannelOpenAck rtr ctx msg).
Proof.
  unfold Msg_ChannelOpenAck. apply runs_route. intros cbs cap Hwb. simpl. apply runs_assoc.
  apply runs_bind; [|intros; run_tac].
  apply runs_op; [intros; by eapply op_open_ack|apply ChanOpenAck_lh].
Qed.

Lemma Msg_ChannelOpenConfirm_runs ctx msg : runs (Msg_ChannelOpenConfirm rtr ctx msg).
Proof.
  unfold Msg_ChannelOpenConfirm. apply runs_route. intros cbs cap Hwb. simpl. apply runs_assoc.
  apply runs_bind; [|intros; run_tac].
  apply runs_op; [intros; by eapply op_open_confirm|apply ChanOpenConfirm_lh].
Qed.

Lemma Msg_ChannelCloseInit_runs ctx msg : runs (Msg_ChannelCloseInit rtr ctx msg).
Proof.
  unfold Msg_ChannelCloseInit. run_tac.
  apply runs_op; [intros; by eapply op_close_init|apply ChanCloseInit_lh].
Qed.

Lemma Msg_ChannelCloseConfirm_runs ctx msg : runs (Msg_ChannelCloseConfirm rtr ctx msg).
Proof.
  unfold Msg_ChannelCloseConfirm. run_tac.
  apply runs_op; [intros; by eapply op_close_confirm|apply ChanCloseConfirm_lh].
Qed.

(** The opening steps hand out an identifier and write it after the callback. *)
Lemma pending_fresh p n s P :
  Inv (s, P) → no_slash p → next_channel s = Some n → (p, FormatChannelIdentifier n) ∉ P.
Proof.
  intros HI Hp Hn Hin. pose proof (counter_range _ _ _ Hn) as Hnr.
  destruct (inv_chan (s, P) HI p (FormatChannelIdentifier n)) as (m & N & Heq & Hm & HN & Hlt);
    [done|apply FormatChannelIdentifier_no_slash|by right|].
  apply FormatChannelIdentifier_inj in Heq; [|done|done]. simpl in HN. simplify_eq. lia.
Qed.

Lemma pending_removed (p i : string) (P : gset (string * string)) :
  (p, i) ∉ P → ({[(p, i)]} ∪ P) ∖ {[(p, i)]} = P.
Proof. intros H. apply leibniz_equiv. set_solver. Qed.

Lemma generated_fresh p i s s' P : Inv (s, P) → generated p i s s' → (p, i) ∉ P.
Proof.
  intros HI (Hp & n & Hn & -> & _). apply defaultIdentifierValidator_ok in Hp as (_ & Hp & _).
  by eapply pending_fresh.
Qed.

(** The common end of the opening handlers. *)
Lemma open_rest_runs p i (callback : M string) (write : string → M ()) s1 s' x P :
  (p, i) ∉ P → Inv (s1, {[(p, i)]} ∪ P) → localhost_ok s1 → runs callback →
  (∀ v s s', write v s = (Ok tt, s') → step (s, {[(p, i)]} ∪ P) (s', ({[(p, i)]} ∪ P) ∖ {[(p, i)]})) →
  (∀ v, keeps_localhost (write v)) →
  (version ← callback; write version;; mret (i, version)) s1 = (Ok x, s') →
  rtc step (s1, {[(p, i)]} ∪ P) (s', P) ∧ localhost_ok s'.
Proof.
  intros Hfresh HI Hl Hcb Hw Hlw (v & s2 & H2 & ([] & s3 & H3 & [_ ->]%ret_ok)%bind_ok)%bind_ok.
  destruct (Hcb _ _ _ _ HI Hl H2) as [Hr2 Hl2]. pose proof (Hw v _ _ H3) as Hs.
  rewrite pending_removed in Hs by done. split; [by eapply rtc_r|].
  pose proof (Hlw v s2 Hl2) as Hl3. by rewrite H3 in Hl3.
Qed.

Lemma Msg_ChannelOpenInit_runs ctx msg s r s' P :
  Inv (s, P) → localhost_ok s → next_channel s ≠ Some MaxUint64 →
  Msg_ChannelOpenInit rtr ctx msg s = (Ok r, s') → rtc step (s, P) (s', P) ∧ localhost_ok s'.
Proof.
  intros HI Hl Hmax. unfold Msg_ChannelOpenInit.
  intros ([cbs cap] & s0 & [-> Hwb]%route_port_ok & ([i k] & s1 & H1 & H2)%bind_ok)%bind_ok.
  pose proof (ChanOpenInit_ok _ _ _ _ _ _ _ _ _ _ _ H1) as Hg.
  assert (step (s, P) (s1, {[(moi_PortId msg, i)]} ∪ P)) as Hs by by eapply step_open_init.
  assert (localhost_ok s1) as Hl1.
  { eapply (lh_run (ChanOpenInit _ _ _ _ _ _ _)); [apply ChanOpenInit_lh|exact Hl|exact H1]. }
  eapply open_rest_runs in H2 as [Hr ?]; [split; [by eapply rtc_l|done]|..].
  - by eapply generated_fresh.
  - by eapply step_inv.
  - done.
  - by apply wb_open_init.
  - intros v s2 s3 H3. eapply step_write_init; [set_solver|done].
  - intros v. apply WriteOpenInitChannel_lh.
Qed.

Lemma Msg_ChannelOpenTry_runs ctx msg s r s' P :
  Inv (s, P) → localhost_ok s → next_channel s ≠ Some MaxUint64 →
  Msg_ChannelOpenTry rtr ctx msg s = (Ok r, s') → rtc step (s, P) (s', P) ∧ localhost_ok s'.
Proof.
  intros HI Hl Hmax. unfold Msg_ChannelOpenTry.
  intros ([cbs cap] & s0 & [-> Hwb]%route_port_ok & ([i k] & s1 & H1 & H2)%bind_ok)%bind_ok.
  pose proof (ChanOpenTry_ok _ _ _ _ _ _ _ _ _ _ _ _ _ Hl H1) as Hg.
  assert (step (s, P) (s1, {[(mot_PortId msg, i)]} ∪ P)) as Hs by by eapply step_open_try.
  assert (localhost_ok s1) as Hl1.
  { eapply (lh_run (ChanOpenTry _ _ _ _ _ _ _ _ _)); [apply ChanOpenTry_lh|exact Hl|exact H1]. }
  eapply open_rest_runs in H2 as [Hr ?]; [split; [by eapply rtc_l|done]|..].
  - by eapply generated_fresh.
  - by eapply step_inv.
  - done.
  - by apply wb_open_try.
  - intros v s2 s3 H3. eapply step_write_try; [set_solver|done].
  - intros v. apply WriteOpenTryChannel_lh.
Qed.

(** A message was delivered: one of the handlers of channels and packets
    succeeded.  Packets of MsgRecvPacket have passed their validation. *)
Inductive delivered (ctx : Context) (s s' : Chain) : Prop :=
| delivered_open_init msg r : next_channel s ≠ Some MaxUint64 →
    Msg_ChannelOpenInit rtr ctx msg s = (Ok r, s') → delivered ctx s s'
| delivered_open_try msg r : next_channel s ≠ Some MaxUint64 →
    Msg_ChannelOpenTry rtr ctx msg s = (Ok r, s') → delivered ctx s s'
| delivered_open_ack msg : Msg_ChannelOpenAck rtr ctx msg s = (Ok tt, s') → delivered ctx s s'
| delivered_open_confirm msg : Msg_ChannelOpenConfirm rtr ctx msg s = (Ok tt, s') → delivered ctx s s'
| delivered_close_init msg : Msg_ChannelCloseInit rtr ctx msg s = (Ok tt, s') → delivered ctx s s'
| delivered_close_confirm msg :
    Msg_ChannelCloseConfirm rtr ctx msg s = (Ok tt, s') → delivered ctx s s'
| delivered_recv msg r : Packet_ValidateBasic (mrp_Packet msg) = Ok tt →
    Msg_RecvPacket rtr bech32 ctx msg s = (Ok r, s') → delivered ctx s s'
| delivered_ack msg r : Msg_Acknowledgement rtr bech32 ctx msg s = (Ok r, s') → delivered ctx s s'
| delivered_timeout msg r : Msg_Timeout rtr bech32 ctx msg s = (Ok r, s') → delivered ctx s s'
| delivered_timeout_on_close msg r :
    Msg_TimeoutOnClose rtr bech32 ctx msg s = (Ok r, s') → delivered ctx s s'.

Lemma delivered_runs ctx s s' P :
  Inv (s, P) → localhost_ok s → delivered ctx s s' → rtc step (s, P) (s', P) ∧ localhost_ok s'.
Proof.
  intros HI Hl [msg r Hm H|msg r Hm H|msg H|msg H|msg H|msg H|msg r Hv H|msg r H|msg r H|msg r H].
  - by eapply Msg_ChannelOpenInit_runs.
  - by eapply Msg_ChannelOpenTry_runs.
  - by eapply Msg_ChannelOpenAck_runs.
  - by eapply Msg_ChannelOpenConfirm_runs.
  - by eapply Msg_ChannelCloseInit_runs.
  - by eapply Msg_ChannelCloseConfirm_runs.
  - by eapply Msg_RecvPacket_runs.
  - by eapply Msg_Acknowledgement_runs.
  - by eapply Msg_Timeout_runs.
  - by eapply Msg_TimeoutOnClose_runs.
Qed.

Lemma delivered_reachable ctx s s' :
  reachable (s, ∅) → localhost_ok s → delivered ctx s s' → reachable (s', ∅) ∧ localhost_ok s'.
Proof.
  intros Hr Hl Hd. destruct (delivered_runs ctx s s' ∅ (reachable_inv _ Hr) Hl Hd) as [Hs ?].
  split; [by eapply reachable_steps|done].
Qed.

End handlers.

(** ** What the handlers guarantee *)

Section guarantees.
Context {E : IbcEnv} {L : IbcLaws}.

(** Two chains with the same stores. *)
Definition same_stores (s s' : Chain) : Prop :=
  ibc s' = ibc s ∧ capstore s' = capstore s ∧ memstore s' = memstore s ∧ stores s' = stores s.

Lemma unless_redundant_noop verify continue s s' :
  (∀ s1 s2, continue s1 ≠ (Ok NOOP, s2)) →
  unless_redundant verify continue s = (Ok NOOP, s') →
  (∃ s1, verify s = (Err ErrNoOpMsg, s1)) ∧ same_stores s s'.
Proof.
  intros Hc [(s1 & _ & H2)|(s1 & H1 & _ & ->)]%unless_redundant_ok; [by apply Hc in H2|].
  split; [eauto|done].
Qed.

Lemma bind_success {A} (m : M A) s1 s2 : (m;; mret SUCCESS) s1 ≠ (Ok NOOP, s2).
Proof. by intros (a & s3 & _ & [? _]%ret_ok)%bind_ok. Qed.

Lemma bind_never {A B} (m : M A) (f : A → M B) b s1 s2 :
  (∀ a s s', f a s ≠ (Ok b, s')) → (m ≫= f) s1 ≠ (Ok b, s2).
Proof. by intros Hf (a & s & _ & H)%bind_ok; apply Hf in H. Qed.

Variables (rtr : Router IBCModule) (bech32 : string → option Address).

(** Every message handler of channels and packets that succeeds is a run of
    the transition system that leaves no channel identifier pending: whatever the
    theorems on runs say holds of chains that process messages, for all
    applications whose callbacks are such runs. *)
Theorem handlers_refine_steps ctx s s' :
  (∀ m cbs, GetRoute rtr m = Some cbs → well_behaved cbs) →
  reachable (s, ∅) → localhost_ok s → delivered rtr bech32 ctx s s' →
  rtc step (s, ∅) (s', ∅) ∧ reachable (s', ∅) ∧ localhost_ok s'.
Proof.
  intros Hr Hreach Hl Hd.
  destruct (delivered_runs rtr bech32 Hr ctx s s' ∅ (reachable_inv _ Hreach) Hl Hd) as [Hs Hl'].
  split_and!; [done|by eapply reachable_steps|done].
Qed.

Lemma routed_noop e o p c (f : Address → IBCModule * Capability → M ResponseResultType) s s' :
  (∀ rel cbs cap s', f rel (cbs, cap) s = (Ok NOOP, s') → same_stores s s') →
  (rel ← orErr e o; x ← route_channel rtr p c; f rel x) s = (Ok NOOP, s') → same_stores s s'.
Proof.
  intros Hf (rel & s0 & [_ ->]%orErr_ok & ([cbs cap] & s1 & Hroute & H)%bind_ok)%bind_ok.
  assert (s1 = s) as ->; [|by eapply Hf].
  eapply readonly_ok; [|exact Hroute]. unfold route_channel, LookupModuleByChannel. ro.
Qed.

Ltac noop_tac H :=
  eapply routed_noop in H; [exact H|];
  intros rel cbs cap s1 [_ Hn]%unless_redundant_noop; [exact Hn|intros; try apply bind_success].

(** A packet message that is answered NOOP changed no store, for all four
    packet handlers. *)
Theorem noop_changes_nothing ctx s s' :
  (∃ msg, Msg_RecvPacket rtr bech32 ctx msg s = (Ok NOOP, s')) ∨
  (∃ msg, Msg_Acknowledgement rtr bech32 ctx msg s = (Ok NOOP, s')) ∨
  (∃ msg, Msg_Timeout rtr bech32 ctx msg s = (Ok NOOP, s')) ∨
  (∃ msg, Msg_TimeoutOnClose rtr bech32 ctx msg s = (Ok NOOP, s')) →
  same_stores s s'.
Proof.
  intros [[msg H]|[[msg H]|[[msg H]|[msg H]]]]; noop_tac H;
    apply bind_never; intros ? ? ?; apply bind_success.
Qed.

(** [C40] When an application answers a packet with an acknowledgement that does
    not report success, the writes of its callback are dropped: after the message
    the stores are those RecvPacket left, with the acknowledgement added. *)
Theorem failed_receive_keeps_only_ack ctx msg s cbs cap s1 rel a s2 r s' :
  bech32 (mrp_Signer msg) = Some rel →
  route_channel rtr (DestinationPort (mrp_Packet msg)) (DestinationChannel (mrp_Packet msg)) s
    = (Ok (cbs, cap), s) →
  RecvPacket ctx (Some cap) (mrp_Packet msg) (mrp_ProofCommitment msg) (mrp_ProofHeight msg) s
    = (Ok tt, s1) →
  OnRecvPacket cbs ctx (mrp_Packet msg) rel s1 = (Ok (Some a), s2) → app_Success a = false →
  Msg_RecvPacket rtr bech32 ctx msg s = (Ok r, s') →
  r = SUCCESS ∧ same_stores (ack_effect (mrp_Packet msg) (app_Acknowledgement a) s1) s'.
Proof.
  intros Hb Hroute Hrecv Hcb Hfail. unfold Msg_RecvPacket. rewrite Hb.
  intros (rel' & s0 & [[= <-] ->]%orErr_ok & H)%bind_ok.
  rewrite (bind_run _ _ _ _ _ Hroute) in H.
  apply unless_redundant_ok in H as [(s3 & H3 & H)|(s3 & H3 & _)]; rewrite Hrecv in H3; [|done].
  injection H3 as <-. apply bind_ok in H as (ack & s4 & H4 & H).
  unfold run_OnRecvPacket in H4. rewrite Hcb in H4. injection H4 as <- <-. simpl in H.
  rewrite Hfail in H. apply bind_ok in H as ([] & s5 & H5 & [-> ->]%ret_ok).
  apply WriteAcknowledgement_ok in H5 as (ch & b & _ & _ & _ & _ & [= <-] & _ & ->). done.
Qed.

End guarantees.

(** ** The ante decorator *)

Section ante.
Context {E : IbcEnv}.
Variables (rtr : Router IBCModule) (bech32 : string → option Address).

(** The relay messages of a transaction are handled one after the other; the
    responses of the packet messages, in order. *)
Inductive relayed (ctx : Context) : list TxMsg → Chain → list ResponseResultType → Chain → Prop :=
| relayed_nil s : relayed ctx [] s [] s
| relayed_packet m handle l s r s1 rs s2 :
    ante_msg rtr bech32 ctx m = Some handle → handle s = (Ok (Some r), s1) →
    relayed ctx l s1 rs s2 → relayed ctx (m :: l) s (r :: rs) s2
| relayed_update m handle l s s1 rs s2 :
    ante_msg rtr bech32 ctx m = Some handle → handle s = (Ok None, s1) →
    relayed ctx l s1 rs s2 → relayed ctx (m :: l) s rs s2.

Definition noops (rs : list ResponseResultType) : Z :=
  Z.of_nat (length (filter (λ r, r = NOOP) rs)).

Lemma noops_le rs : 0 <= noops rs <= Z.of_nat (length rs).
Proof. unfold noops. pose proof (length_filter (λ r, r = NOOP) rs). lia. Qed.

Lemma noops_all rs : noops rs = Z.of_nat (length rs) ↔ Forall (λ r, r = NOOP) rs.
Proof.
  induction rs as [|r rs IH]; [done|]. pose proof (noops_le rs) as Hle.
  unfold noops in *. rewrite filter_cons, Forall_cons, <- IH. case_decide; cbn [length].
  - split; [intros; split; [done|lia]|intros [_ ?]; lia].
  - split; [lia|tauto].
Qed.

Lemma ante_loop_relayed ctx msgs s rs s1 redundancies packetMsgs next :
  relayed ctx msgs s rs s1 →
  ante_loop rtr bech32 ctx msgs redundancies packetMsgs next s =
  if (redundancies + noops rs =? packetMsgs + Z.of_nat (length rs)) && (0 <? packetMsgs + Z.of_nat (length rs))
  then (Err ErrRedundantTx, s1) else next s1.
Proof.
  intros Hr. revert redundancies packetMsgs.
  induction Hr as [s|m handle l s r s1 rs s2 Hm Hh Hr IH|m handle l s s1 rs s2 Hm Hh Hr IH]; intros red pm; simpl.
  - rewrite !Z.add_0_r. by case_match.
  - rewrite Hm, (bind_run _ _ _ _ _ Hh), IH. unfold noops. rewrite filter_cons.
    replace (pm + Z.of_nat (S (length rs))) with (pm + 1 + Z.of_nat (length rs)) by lia.
    case_bool_decide; [rewrite decide_True by done|by rewrite decide_False by done]. cbn [length].
    by replace (red + Z.of_nat (S (length (filter (λ r, r = NOOP) rs))))
      with (red + 1 + Z.of_nat (length (filter (λ r, r = NOOP) rs))) by lia.
  - by rewrite Hm, (bind_run _ _ _ _ _ Hh), IH.
Qed.

(** The ante decorator, when a transaction is checked.  If all messages of a
    transaction are relay messages and their handlers succeed, the transaction is
    rejected with ErrRedundantTx exactly when it has packet messages and all of them
    are redundant; otherwise the next handler runs on what the messages left.  When
    a transaction is delivered or simulated the decorator does nothing. *)
Theorem redundant_transactions_rejected ctx msgs s rs s1 next :
  relayed ctx msgs s rs s1 →
  (rs ≠ [] ∧ Forall (λ r, r = NOOP) rs →
   AnteHandle rtr bech32 ctx true false msgs next s = (Err ErrRedundantTx, s1)) ∧
  (¬ (rs ≠ [] ∧ Forall (λ r, r = NOOP) rs) →
   AnteHandle rtr bech32 ctx true false msgs next s = next s1) ∧
  (∀ simulate, AnteHandle rtr bech32 ctx false simulate msgs next s = next s) ∧
  AnteHandle rtr bech32 ctx true true msgs next s = next s.
Proof.
  intros Hr. unfold AnteHandle. simpl. rewrite (ante_loop_relayed _ _ _ _ _ 0 0 next Hr), !Z.add_0_l.
  pose proof (noops_all rs) as Hall. split_and!; [| |done|done].
  - intros [Hne Hno]. rewrite (proj2 (Z.eqb_eq _ _)) by by apply Hall. simpl.
    rewrite (proj2 (Z.ltb_lt _ _)); [done|]. destruct rs; [done|]. simpl. lia.
  - intros Hno. destruct (Z.eqb_spec (noops rs) (Z.of_nat (length rs))) as [Heq|]; [|done].
    destruct (Z.ltb_spec 0 (Z.of_nat (length rs))); [|done]. exfalso. apply Hno.
    split; [by intros ->|by apply Hall].
Qed.

End ante.
