(* ===== verification/TxProofs.v ===== *)
(** * Transactions refine the protocol

    A message of core IBC that a chain delivers (stateless check, signers, handler)
    is a run of the transition system of Protocol.v: the assumption of the system on
    received packets is what the stateless check ensures. *)

From stdpp Require Import gmap strings list relations.
From Stdlib Require Import ZArith Lia Ascii.
From S2P Require Import Prelude GoStd Host Chain Height Capability Port Commitment LightClient Client ConnTypes ChanTypes Env Connection Channel ChanHandshake Packet MsgServer CoreMsgs ChanProofs PacketProofs Frames HandshakeProofs Protocol Guarantees MsgProofs.

Section transactions.
Context {E : IbcEnv} {L : IbcLaws} {C : ClientChecks}.
Context (rtr : Router IBCModule) (authority : string) (bech32 : string → option Address).

(** What a sequence of checks that passed has checked. *)
Ltac outcome_inv :=
  repeat match goal with H : (_ ≫= _) = Ok _ |- _ => apply obind_ok in H as (? & ? & H) end.

Lemma valid_signer_ok str u : valid_signer bech32 str = Ok u → ∃ a, bech32 str = Some a.
Proof. intros [a Ha]%check_ok%bool_decide_eq_true_1. by exists a. Qed.

(** Every stateless check includes the signer. *)
Lemma validated_signer m : ValidateBasic bech32 m = Ok tt → ∃ a, bech32 (signer m) = Some a.
Proof.
  destruct m; intros H; cbn [ValidateBasic signer] in *;
    unfold MsgCreateClient_ValidateBasic, MsgUpdateClient_ValidateBasic, MsgUpgradeClient_ValidateBasic,
      MsgSubmitMisbehaviour_ValidateBasic, MsgUpdateClientParams_ValidateBasic,
      MsgConnectionOpenInit_ValidateBasic, MsgConnectionOpenTry_ValidateBasic,
      MsgConnectionOpenAck_ValidateBasic, MsgConnectionOpenConfirm_ValidateBasic,
      MsgUpdateConnectionParams_ValidateBasic, MsgChannelOpenInit_ValidateBasic,
      MsgChannelOpenTry_ValidateBasic, MsgChannelOpenAck_ValidateBasic, MsgChannelOpenConfirm_ValidateBasic,
      MsgChannelCloseInit_ValidateBasic, MsgChannelCloseConfirm_ValidateBasic, MsgRecvPacket_ValidateBasic,
      MsgTimeout_ValidateBasic, MsgTimeoutOnClose_ValidateBasic, MsgAcknowledgement_ValidateBasic in H;
    outcome_inv; match goal with H : valid_signer _ _ = Ok _ |- _ => by eapply valid_signer_ok end.
Qed.

Lemma valid_recv_packet msg : MsgRecvPacket_ValidateBasic bech32 msg = Ok tt → Packet_ValidateBasic (mrp_Packet msg) = Ok tt.
Proof. unfold MsgRecvPacket_ValidateBasic. intros H. by outcome_inv. Qed.

(** The messages that hand out a channel identifier. *)
Definition opens (m : CoreMsg) : bool :=
  match m with ChannelOpenInitMsg _ | ChannelOpenTryMsg _ => true | _ => false end.

(** A handler of clients, connections or parameters is one operation. *)
Lemma handle_op ctx m s s' :
  (match m with
   | CreateClientMsg _ | UpdateClientMsg _ | UpgradeClientMsg _ | SubmitMisbehaviourMsg _
   | UpdateClientParamsMsg _ _ | ConnectionOpenInitMsg _ | ConnectionOpenTryMsg _ | ConnectionOpenAckMsg _
   | ConnectionOpenConfirmMsg _ | UpdateConnectionParamsMsg _ _ => True
   | _ => False
   end) →
  handle bech32 rtr authority ctx m s = (Ok tt, s') → op_step s s'.
Proof.
  destruct m; intros Hm H; try done; cbn [handle] in H;
    unfold Msg_CreateClient, Msg_UpdateClient, Msg_UpgradeClient, Msg_SubmitMisbehaviour, Msg_UpdateClientParams,
      Msg_ConnectionOpenInit, Msg_ConnectionOpenTry, Msg_ConnectionOpenAck, Msg_ConnectionOpenConfirm,
      Msg_UpdateConnectionParams in H; minv.
  - by eapply op_create_client.
  - by eapply op_update_client.
  - by eapply op_upgrade_client.
  - by eapply op_update_client.
  - by eapply op_client_params.
  - by eapply op_conn_init.
  - by eapply op_conn_try.
  - by eapply op_conn_ack.
  - by eapply op_conn_confirm.
  - by eapply op_conn_params.
Qed.

(** The others are deliveries of channels and packets. *)
Lemma handle_delivered ctx m s s' :
  ValidateBasic bech32 m = Ok tt → (opens m = true → next_channel s ≠ Some MaxUint64) →
  handle bech32 rtr authority ctx m s = (Ok tt, s') → op_step s s' ∨ delivered rtr bech32 ctx s s'.
Proof.
  intros Hv Ho H. pose proof (λ X, handle_op ctx m s s' X H) as Hop.
  destruct m; try (left; exact (Hop I)); right; cbn [handle] in H;
    try (apply bind_ok in H as (r & s1 & H & [_ ->]%ret_ok)).
  - eapply delivered_open_init; [exact (Ho eq_refl)|done].
  - eapply delivered_open_try; [exact (Ho eq_refl)|done].
  - by eapply delivered_open_ack.
  - by eapply delivered_open_confirm.
  - by eapply delivered_close_init.
  - by eapply delivered_close_confirm.
  - eapply delivered_recv; [|done]. by apply valid_recv_packet.
  - by eapply delivered_timeout.
  - by eapply delivered_timeout_on_close.
  - by eapply delivered_ack.
Qed.

(** [C26] Refinement of transactions: whatever message of core IBC a chain delivers, with
    its stateless check, its signers and its handler, is a run of the transition
    system, for all applications whose callbacks are such runs; so every theorem on
    runs holds of chains that process transactions. The signers of a message that
    passes its check can always be read (reading them panics otherwise), and a
    message that fails its check leaves the chain as it is. *)
Theorem transactions_refine_protocol ctx m s :
  (∀ name cbs, GetRoute rtr name = Some cbs → well_behaved cbs) →
  reachable (s, ∅) → localhost_ok s → (opens m = true → next_channel s ≠ Some MaxUint64) →
  (∀ s', deliver bech32 rtr authority ctx m s = (Ok tt, s') →
     rtc step (s, ∅) (s', ∅) ∧ reachable (s', ∅) ∧ ∃ a, GetSigners bech32 m = Ok [a]) ∧
  (ValidateBasic bech32 m = Ok tt → GetSigners bech32 m ≠ Panic) ∧
  (∀ e, ValidateBasic bech32 m = Err e → deliver bech32 rtr authority ctx m s = (Err e, s)).
Proof.
  intros Hr Hreach Hl Ho. split_and!.
  - intros s' ([] & ? & [Hv ->]%lift_ok & (l & ? & [Hg ->]%lift_ok & H)%bind_ok)%bind_ok.
    assert (rtc step (s, ∅) (s', ∅)) as Hs.
    { destruct (handle_delivered ctx m s s' Hv Ho H) as [Hop|Hd]; [by apply op_run|].
      by apply (delivered_runs rtr bech32 Hr ctx s s' ∅ (reachable_inv _ Hreach) Hl Hd). }
    split_and!; [done|by eapply reachable_steps|]. destruct (validated_signer m Hv) as [a Ha]. exists a.
    unfold GetSigners, signers_of. by rewrite Ha.
  - intros [a Ha]%validated_signer. unfold GetSigners, signers_of. by rewrite Ha.
  - intros e He. unfold deliver, lift, mbind, M_bind. by rewrite He.
Qed.

End transactions.
