(* ===== verification/Security.v ===== *)
(** * End-to-end guarantees

    What one chain may conclude about its counterparty.  A light client is sound
    when the values it accepts are those of the counterparty's IBC store at the
    proof height; this is what the client types promise, and what the localhost
    client has by construction.  Under it, a packet that is received was sent, an
    acknowledgement that is processed was written, and a packet that times out
    was not, and will not be, received. *)

From stdpp Require Import gmap strings list relations.
From Stdlib Require Import ZArith Lia Ascii.
From S2P Require Import Prelude GoStd Sha256 Host Chain Height Capability Port Commitment LightClient Client ConnTypes ChanTypes Env Connection Channel ChanHandshake Packet ChanProofs PacketProofs Frames HandshakeProofs Protocol Guarantees.

(** ** Sound clients *)

Section clients.
Context {E : IbcEnv}.

Definition verification_store (i : string) : Store :=
  if bool_decide (i = LocalhostClientID) then "" else ClientStore i.

(** [remote pre h] is the IBC store of the counterparty, committed to under the
    prefix [pre], at height [h], for chain [s].  Clients may unescape the
    keys they are given, so only plain keys are spoken of. *)
Record attests (i : string) (s : Chain) (remote : bytes → Height → KVStore) : Prop := {
  att_member ctx cs h dt db proof pre key v kv' :
    plain key → client_at i s = Some cs →
    VerifyMembership ctx (verification_store i) cs h dt db proof (NewMerklePath [pre; key]) v (ibc s)
      = (Ok tt, kv') →
    remote pre h !! key = Some v;
  att_absent ctx cs h dt db proof pre key kv' :
    plain key → client_at i s = Some cs →
    VerifyNonMembership ctx (verification_store i) cs h dt db proof (NewMerklePath [pre; key]) (ibc s)
      = (Ok tt, kv') →
    remote pre h !! key = None
}.

(** The counterparty's IBC store as seen through a connection. *)
Definition seen (remote : bytes → Height → KVStore) (conn : ConnectionEnd) (h : Height) : KVStore :=
  remote (KeyPrefix (cpc_Prefix (conn_Counterparty conn))) h.

Context {L : IbcLaws}.

Lemma verify_through_ok ctx conn delays path verify s s' :
  readonly delays → verify_through ctx conn delays path verify s = (Ok tt, s') →
  ∃ cs dt db kv', client_at (conn_ClientId conn) s = Some cs ∧ delays s = (Ok (dt, db), s) ∧ s' = set_ibc kv' s ∧
    verify cs (verification_store (conn_ClientId conn)) dt db
      (NewMerklePath [KeyPrefix (cpc_Prefix (conn_Counterparty conn)); path]) (ibc s) = (Ok tt, kv').
Proof.
  intros Hd. unfold verify_through. intros ([cs st] & s1 & H1 & H)%bind_ok.
  assert (s1 = s) as -> by (eapply readonly_ok; [|exact H1]; ro).
  apply verification_store_ok in H1 as [Hcs ->].
  apply bind_ok in H as (status & s1 & H1 & H).
  assert (s1 = s) as -> by (eapply readonly_ok; [|exact H1]; ro). clear H1.
  apply bind_ok in H as (u & s1 & [_ ->]%require_ok & H).
  apply bind_ok in H as ([dt db] & s1 & H1 & H). pose proof (readonly_ok _ _ _ _ Hd H1) as ->.
  apply bind_ok in H as (mp & s1 & [Hmp ->]%lift_ok & H).
  unfold ApplyPrefix in Hmp. apply obind_ok in Hmp as ([] & _ & [= <-]).
  unfold on_ibc in H. destruct (verify _ _ _ _ _ _) as [o kv'] eqn:Hv. injection H as -> <-.
  by exists cs, dt, db, kv'.
Qed.

Lemma attested_member remote ctx conn delays path h proof v s s' :
  attests (conn_ClientId conn) s remote → plain path → readonly delays →
  verify_through ctx conn delays path (verify_member ctx h proof v) s = (Ok tt, s') →
  seen remote conn h !! path = Some v.
Proof.
  intros Ha Hp Hd (cs & dt & db & kv' & Hcs & _ & _ & Hv)%verify_through_ok; [|done]. by eapply att_member.
Qed.

Lemma attested_absent remote ctx conn delays path h proof s s' :
  attests (conn_ClientId conn) s remote → plain path → readonly delays →
  verify_through ctx conn delays path
    (λ cs st dt db mp, VerifyNonMembership ctx st cs h dt db proof mp) s = (Ok tt, s') →
  seen remote conn h !! path = None.
Proof.
  intros Ha Hp Hd (cs & dt & db & kv' & Hcs & _ & _ & Hv)%verify_through_ok; [|done]. by eapply att_absent.
Qed.

End clients.

(** ** Where commitments and acknowledgements come from *)

Section provenance.
Context {E : IbcEnv} {L : IbcLaws}.

(** Somewhere in the run from [w0] to [w] packet [n] of the channel was sent, with
    the commitment [v]. *)
Definition sent_in (w0 w : World) (p c : string) (n : Z) (v : bytes) : Prop :=
  ∃ w1 w2 ctx cap th ts data ch, rtc step w0 w1 ∧ rtc step w2 w ∧
    SendPacket ctx cap p c th ts data w1.1 = (Ok n, w2.1) ∧ channel_at p c w1.1 = Some ch ∧
    v = CommitPacket (packet_of ch p c th ts data n).

Lemma sent_in_extend w0 w w' p c n v : sent_in w0 w p c n v → step w w' → sent_in w0 w' p c n v.
Proof.
  intros (w1 & w2 & ctx & cap & th & ts & data & ch & H0 & H2 & H) Hs.
  exists w1, w2, ctx, cap, th, ts, data, ch. split_and!; try apply H; [done|by eapply rtc_r].
Qed.

Lemma commitment_step w w' p c n v :
  step w w' → no_slash p → no_slash c → is_u64 n → commitment_at p c n w'.1 = Some v →
  commitment_at p c n w.1 = Some v ∨ sends p c n w.1 w'.1.
Proof.
  intros Hs Hp Hc Hn Hk. unfold commitment_at in *.
  destruct (step_cases w w' Hs) as [He|[Hsame|(q & i & ch & Hin & Hcr & _)]].
  - destruct (eff_send _ _ He p c Hp Hc) as [[_ Hall]|(m & _ & _ & _ & _ & Hall & Hsend)].
    + left. destruct (Hall n Hn) as [Heq|Hnone]; unfold commitment_at, same_at in *; congruence.
    + destruct (decide (n = m)) as [->|Hne]; [by right|left].
      specialize (Hall n Hn Hne). unfold same_at in Hall. congruence.
  - left. rewrite <- Hk. symmetry. apply Hsame; [done|key_ne].
  - left. destruct Hcr as (_ & _ & _ & _ & _ & Hsame). rewrite <- Hk. symmetry. apply Hsame; key_ne.
Qed.

Lemma commitment_provenance w0 w p c n v :
  rtc step w0 w → commitment_at p c n w0.1 = None → no_slash p → no_slash c → is_u64 n →
  commitment_at p c n w.1 = Some v → sent_in w0 w p c n v.
Proof.
  intros Hr Habs Hp Hc Hn. revert v. revert w Hr.
  apply (rtc_ind_r (λ w, ∀ v, commitment_at p c n w.1 = Some v → sent_in w0 w p c n v) w0);
    [intros v Hk; congruence|intros w w' Hr Hs IH v Hk].
  destruct (commitment_step w w' p c n v Hs Hp Hc Hn Hk) as [Hold|(ctx & cap & th & ts & data & Hsend)].
  - eapply sent_in_extend; [by apply IH|done].
  - pose proof Hsend as (ch & Hcs & Heq)%SendPacket_ok.
    exists w, w', ctx, cap, th, ts, data, ch. split_and!; [done|done|done|apply Hcs|].
    rewrite Heq in Hk. unfold commitment_at, send_effect in Hk. simpl in Hk.
    rewrite lookup_insert_eq in Hk. congruence.
Qed.

(** The counterparty is a chain of this system: [w] is its state at height [h]. *)
Definition counterparty_state remote conn h (w : World) : Prop := ibc w.1 = seen remote conn h.

(** On the counterparty, whose run from [s0] has reached [w], SendPacket was executed
    with [data], and committed to the packet [pk], up to collisions. *)
Definition was_sent (pk : Packet) (s0 : Chain) (w : World) : Prop :=
  ∃ w1 w2 ctx' cap' th ts data ch', rtc step (s0, ∅) w1 ∧ rtc step w2 w ∧
    channel_at (SourcePort pk) (SourceChannel pk) w1.1 = Some ch' ∧
    SendPacket ctx' cap' (SourcePort pk) (SourceChannel pk) th ts data w1.1 = (Ok (Sequence pk), w2.1) ∧
    let sent := packet_of ch' (SourcePort pk) (SourceChannel pk) th ts data (Sequence pk) in
    CommitPacket sent = CommitPacket pk ∧
    (timeouts_u64 sent → timeouts_u64 pk →
     commit_fields sent = commit_fields pk ∨ collides (Data sent) (Data pk) ∨
     collides (commit_preimage sent) (commit_preimage pk)).

Lemma receive_provenance remote ctx cap pk proof h s s' ch conn s0 w :
  localhost_ok s → Packet_ValidateBasic pk = Ok tt → is_u64 (Sequence pk) →
  RecvPacket ctx cap pk proof h s = (Ok tt, s') →
  channel_at (DestinationPort pk) (DestinationChannel pk) s = Some ch → connection_of ch conn s →
  attests (conn_ClientId conn) s remote → no_channels s0 → rtc step (s0, ∅) w →
  counterparty_state remote conn h w →
  was_sent pk s0 w.
Proof.
  intros Hl Hvb Hn Hrecv Hch Hconn Ha H0 Hrun Hw.
  pose proof Hvb as (Hpp & _ & Hcp & _)%Packet_ValidateBasic_plain. apply Packet_ValidateBasic_ok in Hvb as (Hp & _ & Hc & _).
  apply RecvPacket_ok in Hrecv as (ch1 & conn1 & s1 & Hcr & Hv & _); [|done].
  pose proof (cr_channel _ _ _ _ _ _ Hcr) as Hch1. rewrite Hch in Hch1. injection Hch1 as <-.
  assert (conn1 = conn) as ->.
  { destruct (cr_conn _ _ _ _ _ _ Hcr) as (hop & Hh & Hk), Hconn as (hop' & Hh' & Hk'). congruence. }
  apply (attested_member remote) in Hv; [|done|exact (proj1 (packet_paths_plain _ _ _ Hpp Hcp))|ro]. rewrite <- Hw in Hv.
  destruct (commitment_provenance (s0, ∅) w (SourcePort pk) (SourceChannel pk) (Sequence pk) (CommitPacket pk))
    as (w1 & w2 & ctx' & cap' & th & ts & data & ch' & Hr1 & Hr2 & Hsend & Hch' & Heq); [done| |done..|].
  { unfold commitment_at. apply H0; [done|key_ne]. }
  exists w1, w2, ctx', cap', th, ts, data, ch'. split_and!; [done..|].
  simpl. split; [done|]. intros Ht Ht'. by apply commit_binding.
Qed.

(** [C1] A packet that is received was sent.  If RecvPacket accepts a packet over a
    connection whose client is sound, and the counterparty's state at the proof
    height was reached from a chain without channels, then on that chain SendPacket
    was executed on the source port and channel, it returned the packet's sequence,
    and the packet it committed to has the received packet's timeout and data, or
    the two packets exhibit a hash collision. *)
Theorem received_was_sent remote ctx cap pk proof h s s' ch conn s0 w :
  localhost_ok s → Packet_ValidateBasic pk = Ok tt → is_u64 (Sequence pk) →
  RecvPacket ctx cap pk proof h s = (Ok tt, s') →
  channel_at (DestinationPort pk) (DestinationChannel pk) s = Some ch → connection_of ch conn s →
  attests (conn_ClientId conn) s remote → no_channels s0 → rtc step (s0, ∅) w →
  counterparty_state remote conn h w →
  ∃ w1 w2 ctx' cap' th ts data ch', rtc step (s0, ∅) w1 ∧ rtc step w2 w ∧
    channel_at (SourcePort pk) (SourceChannel pk) w1.1 = Some ch' ∧
    SendPacket ctx' cap' (SourcePort pk) (SourceChannel pk) th ts data w1.1 = (Ok (Sequence pk), w2.1) ∧
    let sent := packet_of ch' (SourcePort pk) (SourceChannel pk) th ts data (Sequence pk) in
    CommitPacket sent = CommitPacket pk ∧
    (timeouts_u64 sent → timeouts_u64 pk →
     commit_fields sent = commit_fields pk ∨ collides (Data sent) (Data pk) ∨
     collides (commit_preimage sent) (commit_preimage pk)).
Proof. exact (receive_provenance remote ctx cap pk proof h s s' ch conn s0 w). Qed.

(** ** Acknowledgements *)

(** Somewhere in the run the acknowledgement was written, for a packet with the
    destination and sequence of the key. *)
Definition acked_in (w0 w : World) (p c : string) (n : Z) (v : bytes) : Prop :=
  ∃ w1 w2 cap pk a, rtc step w0 w1 ∧ rtc step w2 w ∧
    WriteAcknowledgement cap pk (Some a) w1.1 = (Ok tt, w2.1) ∧
    PacketAcknowledgementPath (DestinationPort pk) (DestinationChannel pk) (Sequence pk) =
      PacketAcknowledgementPath p c n ∧
    v = CommitAcknowledgement (app_Acknowledgement a).

Lemma acked_in_extend w0 w w' p c n v : acked_in w0 w p c n v → step w w' → acked_in w0 w' p c n v.
Proof.
  intros (w1 & w2 & cap & pk & a & H0 & H2 & H) Hs.
  exists w1, w2, cap, pk, a. split_and!; try apply H; [done|by eapply rtc_r].
Qed.

Lemma acknowledgement_step w w' p c n v :
  step w w' → ack_at p c n w'.1 = Some v →
  ack_at p c n w.1 = Some v ∨ acknowledges (PacketAcknowledgementPath p c n) w.1 w'.1.
Proof.
  intros Hs Hk. unfold ack_at in *.
  destruct (step_cases w w' Hs) as [He|[Hsame|(q & i & ch & Hin & Hcr & _)]].
  - destruct (eff_ack _ _ He (PacketAcknowledgementPath p c n)) as [Heq|[_ Ha]]; [done| |by right].
    left. unfold same_at in Heq. congruence.
  - left. rewrite <- Hk. symmetry. apply Hsame; [done|key_ne].
  - left. destruct Hcr as (_ & _ & _ & _ & _ & Hsame). rewrite <- Hk. symmetry. apply Hsame; key_ne.
Qed.

Lemma acknowledgement_provenance w0 w p c n v :
  rtc step w0 w → ack_at p c n w0.1 = None → ack_at p c n w.1 = Some v → acked_in w0 w p c n v.
Proof.
  intros Hr Habs. revert v. revert w Hr.
  apply (rtc_ind_r (λ w, ∀ v, ack_at p c n w.1 = Some v → acked_in w0 w p c n v) w0);
    [intros v Hk; congruence|intros w w' Hr Hs IH v Hk].
  destruct (acknowledgement_step w w' p c n v Hs Hk) as [Hold|(cap & pk & ack & Hw & Hkey)].
  - eapply acked_in_extend; [by apply IH|done].
  - pose proof Hw as (ch & a & _ & _ & _ & _ & -> & _ & Heq)%WriteAcknowledgement_ok.
    exists w, w', cap, pk, a. split_and!; [done|done|done|done|].
    rewrite Heq in Hk. unfold ack_at, ack_effect in Hk. simpl in Hk.
    rewrite <- Hkey, lookup_insert_eq in Hk. congruence.
Qed.

Lemma connection_of_unique ch conn conn' s : connection_of ch conn s → connection_of ch conn' s → conn' = conn.
Proof. intros (hop & Hh & Hk) (hop' & Hh' & Hk'). congruence. Qed.

(** [C3] An acknowledgement that is processed was written.  If AcknowledgePacket
    accepts an acknowledgement over a connection whose client is sound, and the
    counterparty's state at the proof height was reached from a chain without
    channels, then on that chain WriteAcknowledgement was executed for a packet
    with this destination and sequence, with the same bytes or bytes that collide
    with them under SHA-256. *)
Theorem acknowledged_was_written remote ctx cap pk ack proof h s s' ch conn s0 w :
  localhost_ok s → Packet_ValidateBasic pk = Ok tt →
  AcknowledgePacket ctx cap pk ack proof h s = (Ok tt, s') →
  channel_at (SourcePort pk) (SourceChannel pk) s = Some ch → connection_of ch conn s →
  attests (conn_ClientId conn) s remote → no_channels s0 → rtc step (s0, ∅) w →
  counterparty_state remote conn h w →
  ∃ w1 w2 cap' pk' a, rtc step (s0, ∅) w1 ∧ rtc step w2 w ∧
    WriteAcknowledgement cap' pk' (Some a) w1.1 = (Ok tt, w2.1) ∧
    PacketAcknowledgementPath (DestinationPort pk') (DestinationChannel pk') (Sequence pk') =
      PacketAcknowledgementPath (DestinationPort pk) (DestinationChannel pk) (Sequence pk) ∧
    (app_Acknowledgement a = ack ∨ collides (app_Acknowledgement a) ack).
Proof.
  intros Hl (_ & Hpp & _ & Hcp)%Packet_ValidateBasic_plain Hack Hch Hconn Ha H0 Hrun Hw.
  apply AcknowledgePacket_ok in Hack as (ch1 & conn1 & s1 & Hsp & _ & _ & _ & Hver & _); [|done].
  pose proof (sp_channel _ _ _ _ Hsp) as Hch1. rewrite Hch in Hch1. injection Hch1 as <-.
  pose proof (connection_of_unique _ _ _ _ Hconn (sp_conn _ _ _ _ Hsp)) as ->.
  apply (attested_member remote) in Hver; [|done|exact (proj1 (proj2 (packet_paths_plain _ _ _ Hpp Hcp)))|ro]. rewrite <- Hw in Hver.
  destruct (acknowledgement_provenance (s0, ∅) w (DestinationPort pk) (DestinationChannel pk) (Sequence pk)
    (CommitAcknowledgement ack)) as (w1 & w2 & cap' & pk' & a & Hr1 & Hr2 & Hwr & Hkey & Heq); [done| |done|].
  { unfold ack_at. apply H0; [done|key_ne]. }
  exists w1, w2, cap', pk', a. split_and!; [done..|].
  unfold CommitAcknowledgement in Heq. symmetry in Heq. by apply Sum256_inj_or in Heq.
Qed.

(** ** Timeouts *)

Lemma timed_out_cannot_recv ctx cap pk s ch conn h t hh :
  timed_out pk h t → GetSelfHeight ctx = Ok hh → GTE hh h = true → t <= ctx_time ctx →
  ¬ can_recv ctx cap pk s ch conn.
Proof.
  intros Hto Hself Hge Ht Hcr. destruct Hto as [[Hnz Hto]|[Hnz Hto]].
  - destruct (cr_height _ _ _ _ _ _ Hcr) as (h' & Hself' & [Hz|Hlt]); [done|].
    rewrite Hself in Hself'. injection Hself' as <-.
    apply GTE_spec in Hge, Hto. apply LT_spec in Hlt. revert Hge Hto Hlt. unfold height_lt.
    intros [->|?] [->|?]; lia.
  - destruct (cr_time _ _ _ _ _ _ Hcr); lia.
Qed.

(** The counterparty's state shows that a packet was not received. *)
Lemma unreceived_unmarked remote ctx ch conn pk proof h n e s s' (w : World) :
  attests (conn_ClientId conn) s remote → Packet_ValidateBasic pk = Ok tt → is_u64 n → n ≠ 0 →
  verify_not_received ctx ch conn pk proof h n e s = (Ok tt, s') →
  counterparty_state remote conn h w → ¬ marked ch pk w.1.
Proof.
  unfold verify_not_received, marked. intros Ha (_ & Hpp & _ & Hcp)%Packet_ValidateBasic_plain Hn Hn0 Hv Hw. destruct (ch_Ordering ch); [tauto| |].
  - apply (attested_absent remote) in Hv; [|done|exact (proj1 (proj2 (proj2 (packet_paths_plain _ _ _ Hpp Hcp))))|ro]. rewrite <- Hw in Hv.
    unfold receipt_at. rewrite Hv. simpl. tauto.
  - apply bind_ok in Hv as (u & s1 & [Hle ->]%require_ok & Hv).
    rewrite negb_true_iff, Z.ltb_ge in Hle.
    apply (attested_member remote) in Hv; [|done|exact (proj2 (proj2 (proj2 (packet_paths_plain _ _ n Hpp Hcp))))|ro]. rewrite <- Hw in Hv.
    unfold next_recv. rewrite (counter_lookup _ n) by done. intros (m & [= <-] & [?|?]); lia.
Qed.

(** [C2] A packet that times out was not received and will not be.  If TimeoutPacket
    accepts the proof that a packet timed out, over a connection whose client is
    sound, and the counterparty's channel has the ordering of this one, then no run
    of the counterparty receives a packet with this destination and sequence and
    then reaches its state at the proof height; and from the proof height and time
    on, RecvPacket rejects the packet in every state of the counterparty. *)
Theorem timed_out_never_received remote ctx pk proof h n s s' ch conn t w rch :
  localhost_ok s → Packet_ValidateBasic pk = Ok tt → is_u64 (Sequence pk) → is_u64 n → n ≠ 0 →
  TimeoutPacket ctx pk proof h n s = (Ok tt, s') →
  channel_at (SourcePort pk) (SourceChannel pk) s = Some ch → connection_of ch conn s →
  Conn_GetTimestampAtHeight ctx conn h s = (Ok t, s) →
  attests (conn_ClientId conn) s remote → counterparty_state remote conn h w →
  channel_at (DestinationPort pk) (DestinationChannel pk) w.1 = Some rch →
  ch_Ordering rch = ch_Ordering ch →
  (∀ w1 ctx1 cap1 pk1 proof1 h1 s2, reachable w1 → localhost_ok w1.1 →
     Packet_ValidateBasic pk1 = Ok tt → DestinationPort pk1 = DestinationPort pk →
     DestinationChannel pk1 = DestinationChannel pk → Sequence pk1 = Sequence pk →
     RecvPacket ctx1 cap1 pk1 proof1 h1 w1.1 = (Ok tt, s2) → ¬ rtc step (s2, w1.2) w) ∧
  (∀ ctx2 cap2 proof2 h2 s2 s3 hh, localhost_ok s2 → GetSelfHeight ctx2 = Ok hh → GTE hh h = true →
     t <= ctx_time ctx2 → RecvPacket ctx2 cap2 pk proof2 h2 s2 ≠ (Ok tt, s3)).
Proof.
  intros Hl Hv Hn Hnu Hn0 Hto Hch Hconn Ht Ha Hw Hrch Hord.
  pose proof Hv as (_ & Hp & _ & Hc & _)%Packet_ValidateBasic_ok.
  apply TimeoutPacket_ok in Hto as (ch1 & conn1 & t1 & Hsp & _ & HnN & Ht1 & Hto & Hver & _); [|done].
  pose proof (sp_channel _ _ _ _ Hsp) as Hch1. rewrite Hch in Hch1. injection Hch1 as <-.
  pose proof (connection_of_unique _ _ _ _ Hconn (sp_conn _ _ _ _ Hsp)) as ->.
  rewrite Ht in Ht1. injection Ht1 as <-. split.
  - intros w1 ctx1 cap1 pk1 proof1 h1 s2 HI%reachable_inv Hl1 Hv1 Ep Ec En Hrecv Hrun.
    eapply unreceived_unmarked; [done|exact Hv|exact Hnu|done|exact Hver|exact Hw|].
    assert (rtc step w1 w) as Hrun1.
    { etrans; [|exact Hrun]. destruct w1. apply op_run; [done|by eapply op_recv]. }
    pose proof (recv_effects _ _ _ _ _ _ _ Hl1 Hv1 Hrecv) as He.
    apply RecvPacket_ok in Hrecv as (ch1 & conn1 & s4 & Hcr & _ & _ & _ & ->); [|done].
    pose proof (cr_channel _ _ _ _ _ _ Hcr) as Hch1. rewrite Ep, Ec in Hch1.
    destruct (channel_steps _ _ _ _ _ HI Hrun1 Hp Hc Hch1) as (ch2 & Hch2 & Hev).
    rewrite Hrch in Hch2. injection Hch2 as <-. pose proof (ev_ordering _ _ Hev) as Ho.
    assert (∀ s, marked ch1 pk1 s ↔ marked ch pk s) as Hsame.
    { intros s5. unfold marked. rewrite Ep, Ec, En. by replace (ch_Ordering ch1) with (ch_Ordering ch) by congruence. }
    rewrite <- Hsame. eapply (marked_steps (_, w1.2)); [eapply op_inv; [exact He|by destruct w1]|exact Hrun|..].
    + by rewrite Ep.
    + by rewrite Ec.
    + apply recv_marks; [by rewrite En|congruence].
  - intros ctx2 cap2 proof2 h2 s2 s3 hh Hl2 Hself Hge Hle Hrecv.
    apply RecvPacket_ok in Hrecv as (ch2 & conn2 & s4 & Hcr & _); [|done].
    by eapply timed_out_cannot_recv.
Qed.

End provenance.
