(* ===== verification/TmSpecs.v ===== *)
(** * What a chain gets from its Tendermint clients

    The properties of the 07-tendermint client as the client keeper runs it: the
    invariant of a client over its life, when an update freezes it, the delay periods
    of packets, recovery by governance, and what a verified proof says about the
    counterparty, which discharges the hypothesis of Security.v. *)

From stdpp Require Import gmap strings list.
From Stdlib Require Import ZArith Lia Ascii.
From S2P Require Import Prelude GoStd Sha256 Host Chain Height Capability Port Commitment LightClient Merkle Client Localhost ClientTypes TmStore Tendermint TmStoreProofs Solomachine Clients TmProofs ConnTypes ChanTypes Env ClientChain Connection Channel ChanHandshake Packet ChanProofs PacketProofs Frames ClientProofs Security.

(** ** The keeper's update, for any client *)

Section keeper.
Context {E : IbcEnv}.

Lemma on_ibc_ok {A} (m : SM A) a s s' :
  on_ibc m s = (Ok a, s') ↔ ∃ kv, m (ibc s) = (Ok a, kv) ∧ s' = set_ibc kv s.
Proof.
  unfold on_ibc. destruct (m (ibc s)) as [o kv]. split; [intros [= -> <-]; eauto|].
  by intros (? & [= -> ->] & ->).
Qed.

Lemma GetClientStatus_ok ctx cs i st s s' :
  GetClientStatus ctx cs i s = (Ok st, s') → s' = s ∧ (st = Unauthorized ∨ Status ctx (ibc s) (ClientStore i) cs = Ok st).
Proof.
  intros H. assert (s' = s) as -> by (by eapply readonly_ok; [apply GetClientStatus_ro|]). split; [done|].
  unfold GetClientStatus in H. apply bind_ok in H as (params & s1 & Hp & H).
  assert (s1 = s) as -> by (by eapply readonly_ok; [apply GetClientParams_ro|]).
  case_match; [apply ret_ok in H as [-> _]; by left|apply reads_ok in H as [-> _]; by right].
Qed.

Lemma UpdateClient_ok ctx i msg s s' :
  UpdateClient ctx i msg s = (Ok tt, s') →
  ∃ cs kv1 found kv2, client_at i s = Some cs ∧ Status ctx (ibc s) (ClientStore i) cs = Ok Active ∧
    VerifyClientMessage ctx (ClientStore i) cs msg (ibc s) = (Ok tt, kv1) ∧
    CheckForMisbehaviour ctx (ClientStore i) cs msg kv1 = (Ok found, kv2) ∧
    if found : bool then UpdateStateOnMisbehaviour ctx (ClientStore i) cs msg kv2 = (Ok tt, ibc s')
    else ∃ hs, UpdateState ctx (ClientStore i) cs msg kv2 = (Ok hs, ibc s').
Proof.
  unfold UpdateClient. intros (o & s1 & Hg & H)%bind_ok. apply stored_ok in Hg as [-> Hcs].
  apply bind_ok in H as (cs & s1 & [-> ->]%orErr_ok & H).
  apply bind_ok in H as (st & s1 & [-> Hst]%GetClientStatus_ok & H).
  apply bind_ok in H as (u & s1 & [->%bool_decide_eq_true ->]%require_ok & H).
  destruct Hst as [|Hst]; [done|].
  apply bind_ok in H as ([] & s1 & (kv1 & Hv & ->)%on_ibc_ok & H).
  apply bind_ok in H as (found & s1 & (kv2 & Hc & ->)%on_ibc_ok & H).
  exists cs, kv1, found, kv2. split_and!; [done|done|done|done|].
  destruct found.
  - by apply on_ibc_ok in H as (kv3 & Hu & ->).
  - apply bind_ok in H as (hs & s1 & (kv3 & Hu & ->)%on_ibc_ok & [_ ->]%ret_ok). by exists hs.
Qed.

Lemma ClientUpdateProposal_ok ctx i j s s' :
  ClientUpdateProposal ctx i j s = (Ok tt, s') →
  ∃ cs sub kv, client_at i s = Some cs ∧ client_at j s = Some sub ∧ (GetClientStatus ctx cs i s).1 ≠ Ok Active ∧
    negb (GTE (GetLatestHeight cs) (GetLatestHeight sub)) = true ∧ GetClientStatus ctx sub j s = (Ok Active, s) ∧
    CheckSubstituteAndUpdateState ctx (ClientStore i) (ClientStore j) cs sub (ibc s) = (Ok tt, kv) ∧ s' = set_ibc kv s.
Proof.
  unfold ClientUpdateProposal. intros (o & s1 & Hg & H)%bind_ok. apply stored_ok in Hg as [-> Hcs].
  apply bind_ok in H as (cs & s1 & [-> ->]%orErr_ok & H). apply bind_ok in H as (st & s1 & Hst & H).
  pose proof Hst as [-> _]%GetClientStatus_ok.
  apply bind_ok in H as ([] & s1 & [Hna ->]%require_ok & H). rewrite negb_true_iff, bool_decide_eq_false in Hna.
  apply bind_ok in H as (o & s1 & Hg & H). apply stored_ok in Hg as [-> Hsub].
  apply bind_ok in H as (sub & s1 & [-> ->]%orErr_ok & H). apply bind_ok in H as ([] & s1 & [Hgt ->]%require_ok & H).
  apply bind_ok in H as (st' & s1 & Hst' & H). pose proof Hst' as [-> _]%GetClientStatus_ok.
  apply bind_ok in H as ([] & s1 & [->%bool_decide_eq_true ->]%require_ok & (kv & Hrun & ->)%on_ibc_ok).
  exists cs, sub, kv. split_and!; try done. rewrite Hst. simpl. congruence.
Qed.

(** Whether clients of a type are allowed depends on the parameters only. *)
Lemma status_transfer ctx i j cs cs' kv s :
  GetClientStatus ctx cs i s = (Ok Active, s) → ClientType cs' = ClientType cs →
  kv !! ClientParamsKey = ibc s !! ClientParamsKey → Status ctx kv (ClientStore j) cs' = Ok Active →
  GetClientStatus ctx cs' j (set_ibc kv s) = (Ok Active, set_ibc kv s).
Proof.
  intros Hst Ht Hp Ha. unfold GetClientStatus in *. apply bind_ok in Hst as (params & s1 & Hpar & Hst).
  assert (s1 = s) as -> by (by eapply readonly_ok; [apply GetClientParams_ro|]).
  assert (GetClientParams (set_ibc kv s) = (Ok params, set_ibc kv s)) as Hpar'.
  { unfold GetClientParams, ibc_get in *. apply bind_ok in Hpar as (o & s1 & Hget & Hpar). injection Hget as Hget Hs1. subst o s1.
    apply bind_ok in Hpar as (bz & s1 & Hbz & [Hu _]%lift_ok). erewrite bind_run by done. simpl. rewrite Hp.
    destruct (ibc s !! ClientParamsKey) as [b|]; [|done]. apply lift_ok in Hbz as [[= ->] _].
    erewrite bind_run by done. by apply lift_ok. }
  erewrite bind_run by exact Hpar'. rewrite Ht.
  destruct (negb _); [done|]. unfold reads. simpl. by rewrite Ha.
Qed.

End keeper.

Section tendermint.
Context {CE : ClientEnv} {HE : HostEnv} {CL : ClientEnvLaws} {HL : HostLaws}.

(** The consensus states of client [i]. *)
Definition consensus_at (i : string) (s : Chain) (h : Height) : option TmConsensusState :=
  cons_at (ibc s) (ClientStore i) h.

Lemma GTE_LT h k : GTE h k = false → LT h k = true.
Proof. height_cases. Qed.

Lemma LTE_spec h k : LTE h k = true ↔ ¬ height_lt k h.
Proof. height_cases. Qed.

(** The life of a client: it is created under an identifier that was not in use, the
    keeper updates it, and the rest of the chain does not write to its store. *)
Inductive tm_history (i : string) : Chain → Prop :=
| hist_create ctx cs c s s' :
    (∀ x, ibc s !! prefixed (ClientStore i) x = None) → height_ok (tm_LatestHeight cs) →
    CreateClient ctx (AnyTendermint cs) (Some (AnyTmConsensus c)) s = (Ok i, s') → tm_history i s'
| hist_update ctx msg s s' :
    tm_history i s → UpdateClient ctx i msg s = (Ok tt, s') → tm_history i s'
| hist_other s s' :
    tm_history i s → (∀ x, ibc s' !! prefixed (ClientStore i) x = ibc s !! prefixed (ClientStore i) x) →
    tm_history i s'.

(** The whole life of a client: also upgrades to a client its chain has committed to,
    and recoveries by governance, which take over the state of another client. *)
Inductive tm_life (i : string) : Chain → Prop :=
| life_history s : tm_history i s → tm_life i s
| life_update ctx msg s s' :
    tm_life i s → UpdateClient ctx i msg s = (Ok tt, s') → tm_life i s'
| life_upgrade ctx new cons p1 p2 s s' :
    tm_life i s → height_ok (Any_GetLatestHeight new) →
    UpgradeClient ctx i new cons p1 p2 s = (Ok tt, s') → tm_life i s'
| life_recover ctx j sub s s' :
    tm_life i s → client_at j s = Some (AnyTendermint sub) → height_ok (tm_LatestHeight sub) →
    ClientUpdateProposal ctx i j s = (Ok tt, s') → tm_life i s'
| life_other s s' :
    tm_life i s → (∀ x, ibc s' !! prefixed (ClientStore i) x = ibc s !! prefixed (ClientStore i) x) →
    tm_life i s'.

Lemma client_at_lookup i s x : ibc s !! tkey (ClientStore i) KClient = Some (Marshal x) → client_at i s = Some x.
Proof.
  unfold tkey, key_of. intros Hk. unfold client_at, stored. rewrite Hk. simpl.
  rewrite bool_decide_eq_false_2 by apply marshal_nonempty. simpl. by rewrite unmarshal_marshal.
Qed.

Lemma inv_client_at {P} i s cs :
  tm_inv_if P (ibc s) (ClientStore i) cs → client_at i s = Some (AnyTendermint cs).
Proof. intros HI. apply client_at_lookup, HI. Qed.

(** The parts of the invariant that only read the store of the client. *)
Lemma tm_inv_same {P} kv kv' st cs :
  (∀ x, kv' !! prefixed st x = kv !! prefixed st x) → tm_inv_if P kv st cs → tm_inv_if P kv' st cs.
Proof.
  intros Hsame HI. assert (∀ h, cons_at kv' st h = cons_at kv st h) as Hc.
  { intros h. apply cons_at_lookup. apply Hsame. }
  destruct HI as [H1 H2 H3 H4 H5 H6 H7]. split.
  - unfold tkey. by rewrite Hsame.
  - split.
    + intros k v. unfold tkey. rewrite Hsame. intros Hk. destruct (wf_iter _ _ H2 k v Hk) as (h & ? & ? & ? & ?).
      exists h. by rewrite Hc.
    + intros h Hh. unfold tkey. rewrite !Hsame, Hc. by apply (wf_cons _ _ H2).
  - done.
  - by rewrite Hc.
  - intros h. rewrite Hc. apply H5.
  - intros h k c d. rewrite !Hc. apply H6.
  - intros h. rewrite Hc. intros Hh Hs. apply (metadata_lookup kv); [apply Hsame|apply Hsame|by apply H7].
Qed.

Lemma freeze_inv {P} st cs cs' kv :
  tm_inv_if P kv st cs → tm_LatestHeight cs' = tm_LatestHeight cs →
  tm_inv_if P (<[tkey st KClient := Marshal (AnyTendermint cs')]> kv) st cs'.
Proof.
  intros HI Hl. assert (∀ a, key_height_ok a → a ≠ KClient →
    <[tkey st KClient := Marshal (AnyTendermint cs')]> kv !! tkey st a = kv !! tkey st a) as Hsame.
  { intros a Ha Hne. rewrite lookup_tkey_insert by done. by rewrite decide_False by congruence. }
  assert (∀ h, height_ok h → cons_at (<[tkey st KClient := Marshal (AnyTendermint cs')]> kv) st h = cons_at kv st h) as Hc.
  { intros h Hh. by apply cons_at_lookup, Hsame. }
  destruct HI as [H1 H2 H3 H4 H5 H6 H7]. split; rewrite ?Hl.
  - apply lookup_insert_eq.
  - split.
    + intros k v. rewrite Hsame by done. intros Hk. destruct (wf_iter _ _ H2 k v Hk) as (h & ? & ? & ? & ?).
      exists h. by rewrite Hc.
    + intros h Hh. rewrite !Hsame, Hc by done. by apply (wf_cons _ _ H2).
  - done.
  - by rewrite Hc.
  - intros h Hh. rewrite Hc by done. by apply H5.
  - intros h k c d HP Hh Hk. rewrite !Hc by done. by apply H6.
  - intros h Hh. rewrite Hc by done. intros Hs. apply (metadata_lookup kv); [by apply Hsame|by apply Hsame|by apply H7].
Qed.

(** What an update of a Tendermint client does. *)
Lemma tm_update_cases {P} ctx i msg s s' cs :
  tm_inv_if P (ibc s) (ClientStore i) cs → UpdateClient ctx i msg s = (Ok tt, s') →
  let st := ClientStore i in
  Tm_Status ctx (ibc s) st cs = Ok Active ∧ Tm_VerifyClientMessage ctx st cs msg (ibc s) = (Ok tt, ibc s) ∧
  ((Tm_CheckForMisbehaviour ctx st cs msg (ibc s) = (Ok true, ibc s) ∧
    ibc s' = <[tkey st KClient := Marshal (AnyTendermint (set_FrozenHeight FrozenHeight cs))]> (ibc s)) ∨
   ∃ hd hs, msg = Some (AnyTmHeader hd) ∧ header_misbehaviour (ibc s) st hd = Ok false ∧
     Tm_UpdateState ctx st cs msg (ibc s) = (Ok hs, ibc s')).
Proof.
  intros HI (cs0 & kv1 & found & kv2 & Hcs & Hst & Hv & Hm & Hu)%UpdateClient_ok st.
  rewrite (inv_client_at i s cs HI) in Hcs. injection Hcs as <-. simpl in Hst, Hv, Hm, Hu.
  fold st in Hst, Hv, Hm, Hu. split; [done|].
  unfold Tm_VerifyClientMessage in Hv. pose proof Hv as [_ ->]%sm_reads_ok.
  unfold Tm_CheckForMisbehaviour in Hm. pose proof Hm as [Hm' ->]%sm_reads_ok. split; [done|].
  destruct found; [left|right].
  - split; [done|]. by injection Hu as <-.
  - destruct Hu as [hs Hu]. destruct msg as [[hd| | |]|]; try done. by exists hd, hs.
Qed.

(** An update, whether or not the times of the client are in order. *)
Lemma UpdateClient_inv {P} ctx i msg s s' cs :
  tm_inv_if P (ibc s) (ClientStore i) cs → UpdateClient ctx i msg s = (Ok tt, s') →
  ∃ cs', tm_inv_if P (ibc s') (ClientStore i) cs'.
Proof.
  intros HI Hu. destruct (tm_update_cases ctx i msg s s' cs HI Hu) as (Ha & _ & [[_ ->]|(hd & hs & -> & Hm & Hup)]).
  - eexists. by apply freeze_inv with (cs := cs).
  - destruct (UpdateState_inv ctx _ cs hd _ hs _ HI Ha Hm Hup) as (cs' & HI' & _). by exists cs'.
Qed.

Lemma tm_history_inv i s : tm_history i s → ∃ cs, tm_inv (ibc s) (ClientStore i) cs.
Proof.
  induction 1 as [ctx cs c s s' Hnew Hok Hcr|ctx msg s s' _ [cs HI] Hu|s s' _ [cs HI] Hsame].
  - exists cs. unfold CreateClient in Hcr.
    apply bind_ok in Hcr as ([] & s1 & [_ ->]%require_ok & Hcr). apply bind_ok in Hcr as (params & s1 & Hp & Hcr).
    assert (s1 = s) as -> by (by eapply readonly_ok; [apply GetClientParams_ro|]).
    apply bind_ok in Hcr as ([] & s1 & [_ ->]%require_ok & Hcr). apply bind_ok in Hcr as (j & s1 & Hg & Hcr).
    apply bind_ok in Hcr as ([] & s2 & (kv & Hi & ->)%on_ibc_ok & Hcr).
    apply bind_ok in Hcr as (st & s3 & [-> _]%GetClientStatus_ok & Hcr).
    apply bind_ok in Hcr as ([] & s3 & [_ ->]%require_ok & [-> ->]%ret_ok). simpl.
    apply (initialize_inv ctx _ cs c (ibc s1)); [|done|done].
    intros a. unfold tkey. rewrite <- (Hnew (key_of a)).
    unfold GenerateClientIdentifier, GetNextClientSequence, SetNextClientSequence, ibc_get, ibc_set in Hg. minv.
    apply lookup_insert_ne. intros E'. by cbv [KeyNextClientSequence prefixed ClientStore KeyClientStorePrefix] in E'.
  - by eapply UpdateClient_inv.
  - exists cs. by apply (tm_inv_same (ibc s)).
Qed.

Lemma tm_inv_weaken {P Q : Prop} kv st cs : (Q → P) → tm_inv_if P kv st cs → tm_inv_if Q kv st cs.
Proof. intros HPQ []. split; auto. eauto. Qed.

Lemma UpgradeClient_ok ctx i new cons p1 p2 s s' :
  UpgradeClient ctx i new cons p1 p2 s = (Ok tt, s') →
  ∃ cs kv, client_at i s = Some cs ∧ VerifyUpgradeAndUpdateState ctx (ClientStore i) cs new cons p1 p2 (ibc s) = (Ok tt, kv) ∧
    s' = set_ibc kv s.
Proof.
  unfold UpgradeClient. intros (o & s1 & Hg & H)%bind_ok. apply stored_ok in Hg as [-> Hcs].
  apply bind_ok in H as (cs & s1 & [-> ->]%orErr_ok & H). apply bind_ok in H as (st & s1 & [-> _]%GetClientStatus_ok & H).
  apply bind_ok in H as ([] & s1 & [_ ->]%require_ok & (kv & Hrun & ->)%on_ibc_ok). by exists cs, kv.
Qed.

(** A client that moves up, to a consensus state that is not compared with the others. *)
Lemma moved_up_inv st cs cs' c h ph pt kv :
  tm_inv_if False kv st cs → height_ok h → height_ok ph → is_u64 pt → tm_LatestHeight cs' = h →
  height_lt (tm_LatestHeight cs) h → tm_inv_if False (with_consensus st cs' c h ph pt kv) st cs'.
Proof.
  intros HI Hh Hph Hpt Hl Hlt. apply (with_consensus_inv _ cs); [done|done|done|done| |done].
  unfold at_height. by rewrite (proj2 (GT_spec _ _) Hlt).
Qed.

Lemma tm_life_inv i s : tm_life i s → ∃ cs, tm_inv_if False (ibc s) (ClientStore i) cs.
Proof.
  induction 1 as [s [cs HI]%tm_history_inv|ctx msg s s' _ [cs HI] Hu|ctx new cons p1 p2 s s' _ [cs HI] Hok Hu|
    ctx j sub s s' _ [cs HI] Hj Hok Hu|s s' _ [cs HI] Hsame].
  - exists cs. by apply (tm_inv_weaken (P := True)).
  - by eapply UpdateClient_inv.
  - apply UpgradeClient_ok in Hu as (cs0 & kv & Hcs0 & Hrun & ->).
    rewrite (inv_client_at _ _ _ HI) in Hcs0. injection Hcs0 as <-.
    apply upgrade_run in Hrun as (Hlt & cs' & c & self & Hl & Hself & ->). exists cs'.
    by apply (moved_up_inv _ cs); [| |eapply GetSelfHeight_ok|apply u64_range| |].
  - apply ClientUpdateProposal_ok in Hu as (cs0 & sub0 & kv & Hcs0 & Hsub0 & _ & Hgt & _ & Hrun & ->).
    rewrite (inv_client_at _ _ _ HI) in Hcs0. injection Hcs0 as <-. rewrite Hj in Hsub0. injection Hsub0 as <-.
    apply substitute_run in Hrun as (c & ph & pt & _ & _ & Hph & Hpt & ->); [|done]. exists (recovered cs sub).
    apply (moved_up_inv _ cs); try done. rewrite negb_true_iff in Hgt.
    by apply LT_spec, GTE_LT.
  - exists cs. by apply (tm_inv_same (ibc s)).
Qed.

(** ** Conflicting headers *)

(** The client has a consensus state that a header with height [h] and consensus
    state [c] contradicts: another one at the height, or one whose time is not on
    its side. *)
Definition conflicts (kv : KVStore) (st : Store) (h : Height) (c : TmConsensusState) : Prop :=
  ∃ k d, height_ok k ∧ cons_at kv st k = Some d ∧
    ((k = h ∧ d ≠ c) ∨ (height_lt k h ∧ tm_Timestamp c <= tm_Timestamp d) ∨
     (height_lt h k ∧ tm_Timestamp d <= tm_Timestamp c)).

Lemma header_misbehaviour_iff st cs kv hd h c b :
  tm_inv kv st cs → Header_GetHeight hd = Ok h → Header_ConsensusState hd = Ok c →
  header_misbehaviour kv st hd = Ok b → b = true ↔ conflicts kv st h c.
Proof.
  intros HI Hh Hc Hm. pose proof (Header_GetHeight_ok _ _ Hh) as Hok. pose proof (inv_wf _ _ _ HI) as Hwf.
  destruct b; (split; [intros E'; try done|intros Hconf; try done]).
  - unfold header_misbehaviour in Hm. rewrite Hc, Hh in Hm. simpl in Hm.
    rewrite wf_GetConsensusState in Hm by done. simpl in Hm. destruct (cons_at kv st h) as [c0|] eqn:Hc0.
    + injection Hm as Hm. rewrite negb_true_iff, bool_decide_eq_false in Hm. exists h, c0. eauto.
    + injection Hm as [Hp|Hn]%orb_true_iff.
      * pose proof (GetPreviousConsensusState_spec kv st h Hwf Hok) as Hs.
        destruct (GetPreviousConsensusState kv st h) as [d|]; [|done]. destruct Hs as (p & Hpo & Hd & Hlt & _).
        rewrite negb_true_iff, Z.ltb_ge in Hp. exists p, d. eauto 7.
      * pose proof (GetNextConsensusState_spec kv st h Hwf Hok) as Hs.
        destruct (GetNextConsensusState kv st h) as [d|]; [|done]. destruct Hs as (n & Hno & Hd & Hlt & _).
        rewrite negb_true_iff, Z.ltb_ge in Hn. exists n, d. eauto 7.
  - destruct (no_misbehaviour_times st cs kv hd h HI Hh Hm) as (c' & Hc' & Heq & Ht). specialize (Ht I).
    assert (c' = c) as -> by congruence. destruct Hconf as (k & d & Hk & Hd & Hcase).
    destruct Hcase as [[-> Hne]|[[Hlt Hle]|[Hlt Hle]]]; [by destruct Hne; apply Heq| |];
      destruct (Ht k d Hk Hd) as [H1 H2]; [specialize (H1 Hlt)|specialize (H2 Hlt)]; lia.
Qed.

(** A frozen client is not updated. *)
Lemma frozen_not_updated i s cs ctx msg s' :
  client_at i s = Some (AnyTendermint cs) → IsZero (tm_FrozenHeight cs) = false →
  UpdateClient ctx i msg s ≠ (Ok tt, s').
Proof.
  intros Hcs Hf (cs0 & kv1 & found & kv2 & Hcs' & Hst & _)%UpdateClient_ok. rewrite Hcs in Hcs'. injection Hcs' as <-.
  change (Tm_Status ctx (ibc s) (ClientStore i) cs = Ok Active) in Hst. unfold Tm_Status in Hst. by rewrite Hf in Hst.
Qed.

Lemma active_not_frozen ctx kv st cs : Tm_Status ctx kv st cs = Ok Active → IsZero (tm_FrozenHeight cs) = true.
Proof. unfold Tm_Status. by destruct (IsZero _). Qed.

Lemma at_height_is h cs :
  tm_LatestHeight (at_height h cs) = if GT h (tm_LatestHeight cs) then h else tm_LatestHeight cs.
Proof. unfold at_height. by destruct (GT _ _). Qed.

Lemma at_height_frozen h cs : tm_FrozenHeight (at_height h cs) = tm_FrozenHeight cs.
Proof. unfold at_height. by destruct (GT _ _). Qed.

(** Of the consensus states, pruning takes the earliest, exactly when it had expired. *)
Lemma pruned_iff ctx st cs kv kv1 k d :
  pruned ctx st cs kv kv1 → height_ok k → cons_at kv st k = Some d →
  (cons_at kv1 st k = None ↔ earliest kv st k d ∧ IsExpired cs (tm_Timestamp d) (BlockTime ctx) = true).
Proof.
  intros [[-> Hno]|(h & c & Hf & He & ->)] Hk Hd.
  - rewrite Hd. split; [done|]. intros [Hf He]. rewrite (Hno _ _ Hf) in He. done.
  - rewrite cons_at_without by (done || apply Hf). case_decide as E.
    + subst k. rewrite (ea_here _ _ _ _ Hf) in Hd. injection Hd as ->. done.
    + rewrite Hd. split; [done|]. intros [Hf' _]. by destruct E, (earliest_unique _ _ _ _ _ _ Hf Hf').
Qed.

Lemma pruned_keep ctx st cs kv kv1 k :
  pruned ctx st cs kv kv1 → height_ok k → cons_at kv1 st k = cons_at kv st k ∨ cons_at kv1 st k = None.
Proof.
  intros [[-> _]|(h & c & Hf & _ & ->)] Hk; [by left|]. rewrite cons_at_without by (done || apply Hf).
  case_decide; [by right|by left].
Qed.

(** The store after an update with a header that is not misbehaviour. *)
Lemma updated_store ctx i s s' cs hd hs h c :
  tm_inv (ibc s) (ClientStore i) cs → Tm_Status ctx (ibc s) (ClientStore i) cs = Ok Active →
  Header_GetHeight hd = Ok h → Header_ConsensusState hd = Ok c → header_misbehaviour (ibc s) (ClientStore i) hd = Ok false →
  Tm_UpdateState ctx (ClientStore i) cs (Some (AnyTmHeader hd)) (ibc s) = (Ok hs, ibc s') →
  ∃ kv1, pruned ctx (ClientStore i) cs (ibc s) kv1 ∧ client_at i s' = Some (AnyTendermint (at_height h cs)) ∧
    consensus_at i s' h = Some c ∧
    ∀ k, height_ok k → k ≠ h → consensus_at i s' k = cons_at kv1 (ClientStore i) k.
Proof.
  intros HI Ha Hh Hc Hm Hup. pose proof (Header_GetHeight_ok _ _ Hh) as Hok.
  apply UpdateState_run in Hup as (h' & c' & kv1 & Hh' & Hc' & -> & Hp & Hres); [|apply HI].
  assert (h' = h) as -> by congruence. assert (c' = c) as -> by congruence.
  destruct (no_misbehaviour_times _ _ _ _ _ HI Hh Hm) as (c' & Hc'' & Heq & _).
  assert (c' = c) as -> by congruence. exists kv1. split; [done|].
  pose proof (pruned_inv ctx _ cs _ kv1 HI Ha Hp) as HI1. unfold consensus_at.
  destruct Hres as [[[c1 Hc1] Heq']|(Hnone & self & Hself & Heq')]; rewrite Heq'; (split; [|split]).
  - replace (at_height h cs) with cs; [eapply inv_client_at; by rewrite Heq'|].
    unfold at_height. destruct (GT h (tm_LatestHeight cs)) eqn:HG; [|done]. apply GT_spec in HG.
    by destruct (inv_max _ _ _ HI1 h Hok ltac:(eauto)).
  - rewrite Hc1. f_equal. apply Heq. by eapply pruned_cons_at.
  - done.
  - apply client_at_lookup. rewrite Heq'. unfold with_consensus.
    repeat (rewrite lookup_tkey_insert by done; rewrite decide_False by done).
    by rewrite lookup_tkey_insert, decide_True by done.
  - by rewrite cons_at_with, decide_True by done.
  - intros k Hk Hne. by rewrite cons_at_with, decide_False by done.
Qed.



(** ** Delay periods *)

(** The connection [conn] has verified something about a packet at the proof height
    [h] of the counterparty. *)
Inductive packet_verified (ctx : Context) (conn : ConnectionEnd) (h : Height) (s s' : Chain) : Prop :=
| pv_commitment proof p c n bz :
    VerifyPacketCommitment ctx conn h proof p c n bz s = (Ok tt, s') → packet_verified ctx conn h s s'
| pv_acknowledgement proof p c n bz :
    VerifyPacketAcknowledgement ctx conn h proof p c n bz s = (Ok tt, s') → packet_verified ctx conn h s s'
| pv_absence proof p c n :
    VerifyPacketReceiptAbsence ctx conn h proof p c n s = (Ok tt, s') → packet_verified ctx conn h s s'
| pv_next proof p c n :
    VerifyNextSequenceRecv ctx conn h proof p c n s = (Ok tt, s') → packet_verified ctx conn h s s'.

Lemma packet_delay_ok conn s dt db :
  packet_delay conn s = (Ok (dt, db), s) → dt = conn_DelayPeriod conn ∧ getBlockDelay conn s = (Ok db, s).
Proof.
  unfold packet_delay. intros (b & s1 & Hb & [[= -> ->] ->]%ret_ok)%bind_ok. done.
Qed.

Lemma delay_passed ctx kv st h dt db :
  verifyDelayPeriodPassed ctx kv st h dt db = Ok tt →
  (dt ≠ 0 → ∃ pt, GetProcessedTime kv st h = Some pt ∧ u64 (pt + dt) <= ctx_time ctx) ∧
  (db ≠ 0 → ∃ ph self, GetProcessedHeight kv st h = Some ph ∧ GetSelfHeight ctx = Ok self ∧
     LTE (NewHeight (RevisionNumber ph) (u64 (RevisionHeight ph + db))) self = true).
Proof.
  unfold verifyDelayPeriodPassed. intros ([] & H1 & H2)%obind_ok. split; intros Hne.
  - rewrite (proj2 (Z.eqb_neq dt 0) Hne) in H1. apply obind_ok in H1 as (pt & Hpt & H1).
    destruct (GetProcessedTime kv st h) as [pt'|]; [|done]. injection Hpt as ->. exists pt. split; [done|].
    apply check_ok in H1. by rewrite negb_true_iff, Z.ltb_ge in H1.
  - rewrite (proj2 (Z.eqb_neq db 0) Hne) in H2. apply obind_ok in H2 as (ph & Hph & H2).
    destruct (GetProcessedHeight kv st h) as [ph'|]; [|done]. injection Hph as ->.
    apply obind_ok in H2 as (self & Hself & H2). exists ph, self. split_and!; [done|done|].
    apply check_ok in H2. rewrite negb_true_iff in H2. apply LTE_spec. intros Hlt%LT_spec. congruence.
Qed.

Lemma Tm_GetConsensusState_some kv st h c : Tm_GetConsensusState kv st h = Ok (Some c) → cons_at kv st h = Some c.
Proof.
  unfold Tm_GetConsensusState, cons_at, getTmConsensusState. destruct (non_empty _) as [bz|]; [|done].
  destruct (Unmarshal bz) as [[]|]; by intros [= ->].
Qed.

(** What a Tendermint client has checked before it looks at the proof. *)
Lemma verification_args_ok ctx kv st cs h dt db proof mp c :
  verification_args ctx kv st cs h dt db proof = Ok (mp, c) →
  LTE h (tm_LatestHeight cs) = true ∧ verifyDelayPeriodPassed ctx kv st h dt db = Ok tt ∧ cons_at kv st h = Some c.
Proof.
  unfold verification_args. intros ([] & Hle%check_ok & Hv)%obind_ok.
  apply obind_ok in Hv as ([] & Hd & Hv). apply obind_ok in Hv as (mp' & _ & Hv).
  apply obind_ok in Hv as (o & Hg & Hv). apply obind_ok in Hv as (c' & Ho & [= <- <-]).
  split_and!; [|done|].
  - rewrite negb_true_iff in Hle. apply LTE_spec. intros Hlt%LT_spec. congruence.
  - destruct o as [c''|]; [|done]. injection Ho as ->. by apply Tm_GetConsensusState_some.
Qed.

Lemma Tm_VerifyMembership_ok ctx st cs h dt db proof path v kv kv' :
  Tm_VerifyMembership ctx st cs h dt db proof path v kv = (Ok tt, kv') →
  kv' = kv ∧ ∃ mp c, verification_args ctx kv st cs h dt db proof = Ok (mp, c) ∧
    MerkleProof_VerifyMembership mp (tm_ProofSpecs cs) (tm_Root c) path v = Ok tt.
Proof. intros [Hv ->]%sm_reads_ok. split; [done|]. apply obind_ok in Hv as ([mp c] & Hv & H). by exists mp, c. Qed.

Lemma Tm_VerifyNonMembership_ok ctx st cs h dt db proof path kv kv' :
  Tm_VerifyNonMembership ctx st cs h dt db proof path kv = (Ok tt, kv') →
  kv' = kv ∧ ∃ mp c, verification_args ctx kv st cs h dt db proof = Ok (mp, c) ∧
    MerkleProof_VerifyNonMembership mp (tm_ProofSpecs cs) (tm_Root c) path = Ok tt.
Proof. intros [Hv ->]%sm_reads_ok. split; [done|]. apply obind_ok in Hv as ([mp c] & Hv & H). by exists mp, c. Qed.

Lemma verified_delays ctx conn h s s' cs :
  client_at (conn_ClientId conn) s = Some (AnyTendermint cs) → packet_verified ctx conn h s s' →
  ∃ db mp c proof, s' = s ∧ getBlockDelay conn s = (Ok db, s) ∧
    verification_args ctx (ibc s) (verification_store (conn_ClientId conn)) cs h (conn_DelayPeriod conn) db proof = Ok (mp, c).
Proof.
  intros Hcs Hv. destruct Hv as [proof p c n bz Hv|proof p c n bz Hv|proof p c n Hv|proof p c n Hv];
    apply verify_through_ok in Hv as (cs' & dt & db & kv' & Hcs' & [-> Hb]%packet_delay_ok & -> & Hv); try (ro; fail);
    rewrite Hcs in Hcs'; injection Hcs' as <-;
    (apply Tm_VerifyMembership_ok in Hv || apply Tm_VerifyNonMembership_ok in Hv);
    destruct Hv as [-> (mp & co & Ha & _)]; exists db, mp, co, proof; by destruct s.
Qed.

(** [C8] The delay period of a connection over a Tendermint client that is not stored as
    the localhost one (solo machines do not check delay periods).  Nothing about a
    packet is verified at a height before the client has a consensus state there, and
    then only once the time at which that consensus state was submitted is the delay
    period ago, and the block delay computed from it has passed as well, as long as
    the sums do not leave 64 bits.  Verification changes nothing. *)
Theorem delay_period_enforced ctx conn h s s' cs :
  conn_ClientId conn ≠ LocalhostClientID → client_at (conn_ClientId conn) s = Some (AnyTendermint cs) →
  packet_verified ctx conn h s s' →
  let i := conn_ClientId conn in let dt := conn_DelayPeriod conn in
  s' = s ∧ LTE h (tm_LatestHeight cs) = true ∧ is_Some (consensus_at i s h) ∧
  (dt ≠ 0 → ∃ pt, GetProcessedTime (ibc s) (ClientStore i) h = Some pt ∧
     (is_u64 (pt + dt) → pt + dt <= ctx_time ctx)) ∧
  ∃ db, getBlockDelay conn s = (Ok db, s) ∧
    (db ≠ 0 → ∃ ph self, GetProcessedHeight (ibc s) (ClientStore i) h = Some ph ∧ GetSelfHeight ctx = Ok self ∧
       (is_u64 (RevisionHeight ph + db) → LTE (NewHeight (RevisionNumber ph) (RevisionHeight ph + db)) self = true)).
Proof.
  intros Hne Hcs Hv i dt. destruct (verified_delays _ _ _ _ _ _ Hcs Hv) as (db & mp & c & proof & -> & Hb & Ha).
  apply verification_args_ok in Ha as (Hle & Hd & Hc).
  unfold verification_store in Hd, Hc. rewrite bool_decide_eq_false_2 in Hd, Hc by done.
  apply delay_passed in Hd as [Ht Hh]. split_and!; [done|done|by exists c| |].
  - intros Hdt. destruct (Ht Hdt) as (pt & Hpt & Hle'). exists pt. split; [done|]. intros Hu. by rewrite u64_id in Hle'.
  - exists db. split; [done|]. intros Hdb. destruct (Hh Hdb) as (ph & self & Hph & Hs & Hl). exists ph, self.
    split_and!; [done|done|]. intros Hu. by rewrite u64_id in Hl.
Qed.

(** ** What a verified proof says about the counterparty *)

(** [C4] A Tendermint client that checks proofs of two trees and whose consensus states
    hold the roots of the counterparty's multistore at their heights tells the truth:
    what it verifies at a height is in the counterparty's store of that height, and
    what it verifies to be absent is not.  This is the soundness of clients that the
    security theorems of the packet protocol assume. *)
Theorem tendermint_attests i s cs low high (counterparty : Height → string → KVStore) :
  i ≠ LocalhostClientID → client_at i s = Some (AnyTendermint cs) → tm_ProofSpecs cs = [Some low; Some high] →
  (∀ h c, consensus_at i s h = Some c → multistore_root low high (Hash (tm_Root c)) (counterparty h)) →
  attests i s (λ pre h, default ∅ (counterparty h <$> PathUnescape pre)).
Proof.
  intros Hne Hcs Hspecs Hroots. change (@tm_ProofSpecs ce_ics23 cs = [Some low; Some high]) in Hspecs.
  assert (verification_store i = ClientStore i) as Hst by (unfold verification_store; by rewrite bool_decide_eq_false_2).
  split.
  - intros ctx cs' h dt db proof pre key v kv' Hp Hcs' Hv. rewrite Hcs in Hcs'. injection Hcs' as <-. rewrite Hst in Hv.
    apply Tm_VerifyMembership_ok in Hv as (_ & mp & c & (_ & _ & Hc)%verification_args_ok & Hv). rewrite Hspecs in Hv.
    destruct (multistore_sound low high (tm_Root c) (counterparty h) mp pre key v) as [Hm _]; [by apply Hroots|].
    destruct (Hm Hv) as (name & k & -> & Hk & Hval). rewrite PathUnescape_free in Hk by done. by injection Hk as ->.
  - intros ctx cs' h dt db proof pre key kv' Hp Hcs' Hv. rewrite Hcs in Hcs'. injection Hcs' as <-. rewrite Hst in Hv.
    apply Tm_VerifyNonMembership_ok in Hv as (_ & mp & c & (_ & _ & Hc)%verification_args_ok & Hv). rewrite Hspecs in Hv.
    destruct (multistore_sound low high (tm_Root c) (counterparty h) mp pre key "") as [_ Hm]; [by apply Hroots|].
    destruct (Hm Hv) as (name & k & -> & Hk & Hval). rewrite PathUnescape_free in Hk by done. by injection Hk as ->.
Qed.

(** ** Recovery *)

(** Parameters are not below the store of a client. *)
Lemma with_consensus_params i cs c h ph pt kv :
  with_consensus (ClientStore i) cs c h ph pt kv !! ClientParamsKey = kv !! ClientParamsKey.
Proof. unfold with_consensus. by rewrite !lookup_insert_ne by (intros E'; by cbv [tkey prefixed ClientStore KeyClientStorePrefix] in E'). Qed.


End tendermint.
