(* ===== verification/SmSpecs.v ===== *)
(** * What a chain gets from its solo machine clients

    A proof of a solo machine is a signature, and nothing but the sequence in the
    signed bytes keeps it from being used again.  A client is followed through the
    signatures it accepts as proofs and as headers: each one is for the sequence the
    client has, by the key it has, and moves the sequence. *)

From stdpp Require Import gmap strings list sorting.
From Stdlib Require Import ZArith Lia Ascii.
From S2P Require Import Prelude GoStd Sha256 Host Chain Height Capability Port Commitment LightClient Merkle Client Localhost ClientTypes TmStore Tendermint TmStoreProofs Solomachine Clients TmProofs ConnTypes ChanTypes Env ClientChain Connection Channel ChanHandshake Packet ChanProofs PacketProofs Frames ClientProofs Security TmSpecs.

(** ** One signature *)

Section signature.
Context {CE : ClientEnv} {CL : ClientEnvLaws}.

(** The key of client [cs] has signed [b]. *)
Definition signed_by (cs : SmClientState) (b : SignBytes) : Prop :=
  ∃ c key sig, sm_ConsensusState cs = Some c ∧ Sm_GetPubKey c = Ok key ∧ VerifySignature key (Marshal b) sig = Ok tt.

(** The client [cs'] follows [cs] after a signature of [b]. *)
Record follows (cs cs' : SmClientState) (b : SignBytes) : Prop := {
  fo_signed : signed_by cs b;
  fo_sequence : sb_Sequence b = sm_Sequence cs;
  fo_time c : sm_ConsensusState cs = Some c → sm_Timestamp c <= sb_Timestamp b;
  fo_next : sm_Sequence cs' = u64 (sm_Sequence cs + 1);
  fo_frozen : sm_IsFrozen cs' = sm_IsFrozen cs;
  fo_stamped : ∃ c, sm_ConsensusState cs' = Some c ∧ sm_Timestamp c = sb_Timestamp b
}.

Lemma verify_signed_ok st cs proof chk path data kv kv' :
  verify_signed st cs proof chk path data kv = (Ok tt, kv') →
  ∃ tsd c cs', Unmarshal proof = Some tsd ∧ sm_ConsensusState cs = Some c ∧ chk = Ok tt ∧
    follows cs cs' (mkSignBytes (sm_Sequence cs) (tsd_Timestamp tsd) (sm_Diversifier c) (MerklePath_String path) data) ∧
    kv' = <[tkey st KClient := Marshal (AnySolomachine cs')]> kv.
Proof.
  unfold verify_signed. intros ([[[key sig] ts] seq] & k1 & [Ha ->]%sm_lift_ok & H)%sm_bind_ok.
  apply sm_bind_ok in H as ([] & k1 & [Hp ->]%sm_lift_ok & H).
  apply sm_bind_ok in H as (c & k1 & [Hc ->]%sm_lift_ok & H).
  apply sm_bind_ok in H as ([] & k1 & [Hv ->]%sm_lift_ok & H). injection H as <-.
  unfold produceVerificationArgs in Ha. apply obind_ok in Ha as ([] & _ & Ha).
  apply obind_ok in Ha as (tsd & Htsd & Ha). destruct (Unmarshal proof) as [tsd'|]; [|done]. injection Htsd as ->.
  apply obind_ok in Ha as ([] & _ & Ha). apply obind_ok in Ha as (sig' & Hsig & Ha).
  apply obind_ok in Ha as (c' & Hc' & Ha). apply obind_ok in Ha as ([] & Ht%check_ok & Ha).
  apply obind_ok in Ha as (key' & Hkey & [= <- <- <- <-]).
  unfold deref in Hc, Hc'. destruct (sm_ConsensusState cs) as [c0|] eqn:Hcs; [|done].
  injection Hc as ->. injection Hc' as <-. rewrite negb_true_iff, Z.ltb_ge in Ht.
  exists tsd, c, (advance cs c (tsd_Timestamp tsd)). split_and!; [done|done|done| |done]. split; simpl.
  - by exists c, key', sig'.
  - done.
  - intros c' Hc'. rewrite Hcs in Hc'. by injection Hc' as <-.
  - done.
  - done.
  - by eexists.
Qed.

(** The bytes a header has to be a signature of. *)
Definition header_bytes (cs : SmClientState) (c : SmConsensusState) (hd : SmHeader) : SignBytes :=
  mkSignBytes (sm_Sequence cs) (smh_Timestamp hd) (sm_Diversifier c) SentinelHeaderPath
    (Marshal (mkHeaderData (smh_NewPublicKey hd) (smh_NewDiversifier hd))).

Lemma Sm_verifyHeader_ok cs hd :
  Sm_verifyHeader cs hd = Ok tt →
  ∃ c, sm_ConsensusState cs = Some c ∧ sm_Timestamp c <= smh_Timestamp hd ∧ signed_by cs (header_bytes cs c hd).
Proof.
  unfold Sm_verifyHeader. intros (c & Hc & H)%obind_ok. apply obind_ok in H as ([] & Ht%check_ok & H).
  apply obind_ok in H as (sig & Hsig & H). apply obind_ok in H as (key & Hkey & H).
  unfold deref in Hc. destruct (sm_ConsensusState cs) as [c0|] eqn:Hcs; [|done]. injection Hc as ->.
  rewrite negb_true_iff, Z.ltb_ge in Ht. exists c. split_and!; [done|done|]. exists c, key, sig. split_and!; [done|done|].
  unfold header_bytes. by destruct (VerifySignature _ _ _) as [[]| |].
Qed.

Lemma Sm_UpdateState_ok ctx st cs hd kv hs kv' :
  Sm_UpdateState ctx st cs (Some (AnySmHeader hd)) kv = (Ok hs, kv') →
  ∃ cs', kv' = <[tkey st KClient := Marshal (AnySolomachine cs')]> kv ∧ sm_Sequence cs' = u64 (sm_Sequence cs + 1) ∧
    sm_IsFrozen cs' = sm_IsFrozen cs ∧ sm_ConsensusState cs' =
      Some (mkSmConsensusState (smh_NewPublicKey hd) (smh_NewDiversifier hd) (smh_Timestamp hd)).
Proof. intros [= _ <-]. by eexists. Qed.

End signature.

(** ** The life of a client *)

Section solo.
Context {CE : ClientEnv} {HE : HostEnv} {CL : ClientEnvLaws} {HL : HostLaws}.

(** Chain [s] accepts a signature of [b] for its client [i], now [cs]: as a proof that
    a value is at a path, as a proof that none is, or as a header. *)
Inductive accepts (i : string) (s : Chain) (cs : SmClientState) : SignBytes → Chain → Prop :=
| accepts_member ctx h dt db proof path v (tsd : TimestampedSignatureData) c s' :
    sm_ConsensusState cs = Some c → Unmarshal proof = Some tsd →
    on_ibc (VerifyMembership ctx (ClientStore i) (AnySolomachine cs) h dt db proof path v) s = (Ok tt, s') →
    accepts i s cs (mkSignBytes (sm_Sequence cs) (tsd_Timestamp tsd) (sm_Diversifier c) (MerklePath_String path) v) s'
| accepts_absent ctx h dt db proof path (tsd : TimestampedSignatureData) c s' :
    sm_ConsensusState cs = Some c → Unmarshal proof = Some tsd →
    on_ibc (VerifyNonMembership ctx (ClientStore i) (AnySolomachine cs) h dt db proof path) s = (Ok tt, s') →
    accepts i s cs (mkSignBytes (sm_Sequence cs) (tsd_Timestamp tsd) (sm_Diversifier c) (MerklePath_String path) "") s'
| accepts_header ctx hd c s' :
    sm_ConsensusState cs = Some c → UpdateClient ctx i (Some (AnySmHeader hd)) s = (Ok tt, s') →
    accepts i s cs (header_bytes cs c hd) s'.

(** The signatures the chain accepts for client [i], in order; in between, the rest of
    the chain does not write to the store of the client. *)
Inductive sm_run (i : string) : Chain → list SignBytes → Chain → Prop :=
| run_nil s : sm_run i s [] s
| run_accept s cs b s1 bs s' :
    client_at i s = Some (AnySolomachine cs) → accepts i s cs b s1 → sm_run i s1 bs s' → sm_run i s (b :: bs) s'
| run_other s s1 bs s' :
    (∀ x, ibc s1 !! prefixed (ClientStore i) x = ibc s !! prefixed (ClientStore i) x) → sm_run i s1 bs s' →
    sm_run i s bs s'.

Lemma client_at_written i kv s x :
  client_at i (set_ibc (<[tkey (ClientStore i) KClient := Marshal x]> kv) s) = Some x.
Proof. apply client_at_lookup, lookup_insert_eq. Qed.

Lemma accepts_follows i s cs b s' :
  client_at i s = Some (AnySolomachine cs) → accepts i s cs b s' →
  ∃ cs', client_at i s' = Some (AnySolomachine cs') ∧ follows cs cs' b.
Proof.
  intros Hcs [ctx h dt db proof path v tsd c s1 Hc Ht (kv & H & ->)%on_ibc_ok|
    ctx h dt db proof path tsd c s1 Hc Ht (kv & H & ->)%on_ibc_ok|ctx hd c s1 Hc H].
  1,2: apply verify_signed_ok in H as (tsd' & c' & cs' & Ht' & Hc' & _ & Hf & ->);
    exists cs'; (split; [apply client_at_written|congruence]).
  apply UpdateClient_ok in H as (cs0 & kv1 & found & kv2 & Hcs0 & _ & Hv & Hm & Hu).
  rewrite Hcs in Hcs0. injection Hcs0 as <-.
  apply sm_lift_ok in Hv as [(c' & Hc' & Hle & Hsig)%Sm_verifyHeader_ok ->]. apply sm_lift_ok in Hm as [[= <-] ->].
  destruct Hu as [hs Hu]. apply (Sm_UpdateState_ok ctx) in Hu as (cs' & Hkv & Hn & Hfr & Hcons). assert (c' = c) as -> by congruence.
  exists cs'. split; [apply client_at_lookup; rewrite Hkv; apply lookup_insert_eq|]. split; try done.
  - intros c' Hc''. assert (c' = c) as -> by congruence. done.
  - rewrite Hcons. by eexists.
Qed.

Lemma client_at_same i s s' :
  (∀ x, ibc s' !! prefixed (ClientStore i) x = ibc s !! prefixed (ClientStore i) x) → client_at i s' = client_at i s.
Proof.
  intros Hs. unfold client_at, stored. by rewrite Hs.
Qed.

(** The [k]-th signature of a run from [s] to [s'], of [b]: the chain is [s1] when it is
    accepted and [s2] after, and the key of the client [cs1] of [s1] made it, for the
    sequence [n] of that client. *)
Record accepted_at (i : string) (s : Chain) (bs : list SignBytes) (s' : Chain) (k : nat) (b : SignBytes)
    (n : Z) (s1 s2 : Chain) (cs1 : SmClientState) : Prop := {
  aa_before : sm_run i s (take k bs) s1;
  aa_client : client_at i s1 = Some (AnySolomachine cs1);
  aa_accepts : accepts i s1 cs1 b s2;
  aa_after : sm_run i s2 (drop (S k) bs) s';
  aa_signed : signed_by cs1 b;
  aa_sequence : sm_Sequence cs1 = n ∧ sb_Sequence b = n
}.

Lemma accepted_later i s cs b0 s0 bs s' k b n s1 s2 cs1 :
  client_at i s = Some (AnySolomachine cs) → accepts i s cs b0 s0 → accepted_at i s0 bs s' k b n s1 s2 cs1 →
  accepted_at i s (b0 :: bs) s' (S k) b n s1 s2 cs1.
Proof. intros Hcs Ha []. split; try done. simpl. by eapply run_accept. Qed.

Lemma accepted_other i s s0 bs s' k b n s1 s2 cs1 :
  (∀ x, ibc s0 !! prefixed (ClientStore i) x = ibc s !! prefixed (ClientStore i) x) →
  accepted_at i s0 bs s' k b n s1 s2 cs1 → accepted_at i s bs s' k b n s1 s2 cs1.
Proof. intros Hsame []. split; try done. by eapply run_other. Qed.

Lemma sm_run_inv i s bs s' :
  sm_run i s bs s' → ∀ cs, client_at i s = Some (AnySolomachine cs) →
  0 <= sm_Sequence cs → is_u64 (sm_Sequence cs + Z.of_nat (length bs)) →
  (∀ k b, bs !! k = Some b → ∃ s1 s2 cs1, accepted_at i s bs s' k b (sm_Sequence cs + Z.of_nat k) s1 s2 cs1) ∧
  (∀ c, sm_ConsensusState cs = Some c → Forall (λ b, sm_Timestamp c <= sb_Timestamp b) bs) ∧
  StronglySorted (λ a b, sb_Timestamp a <= sb_Timestamp b) bs ∧
  ∃ cs', client_at i s' = Some (AnySolomachine cs') ∧ sm_IsFrozen cs' = sm_IsFrozen cs ∧
    sm_Sequence cs' = sm_Sequence cs + Z.of_nat (length bs).
Proof.
  induction 1 as [s|s cs0 b s1 bs s' Hcs0 Ha Hrun IH|s s1 bs s' Hsame Hrun IH]; intros cs Hcs H0 Hu.
  - split_and!; [done| |constructor|]; [constructor|]. exists cs. split_and!; [done|done|simpl; lia].
  - rewrite Hcs in Hcs0. injection Hcs0 as <-. destruct (accepts_follows i s cs b s1 Hcs Ha) as (cs1 & Hcs1 & Hf).
    simpl length in Hu. pose proof (fo_next _ _ _ Hf) as Hn. rewrite u64_id in Hn by (unfold is_u64 in *; lia).
    destruct (IH cs1 Hcs1) as (Hseq & Htime & Hsort & cs' & Hcs' & Hfr & Hlast); [lia|rewrite Hn; unfold is_u64 in *; lia|].
    destruct (fo_stamped _ _ _ Hf) as (c1 & Hc1 & Hts). specialize (Htime c1 Hc1). rewrite Hts in Htime. split_and!.
    + intros [|k] b' Hk; simpl in Hk.
      * injection Hk as <-. exists s, s1, cs. rewrite Z.add_0_r. split; try done; [constructor|apply Hf|].
        by rewrite (fo_sequence _ _ _ Hf).
      * destruct (Hseq k b' Hk) as (t1 & t2 & cs2 & Hat). exists t1, t2, cs2.
        replace (sm_Sequence cs + Z.of_nat (S k)) with (sm_Sequence cs1 + Z.of_nat k) by lia. by eapply accepted_later.
    + intros c Hc. pose proof (fo_time _ _ _ Hf c Hc) as Hle. constructor; [done|].
      eapply Forall_impl; [exact Htime|]. simpl. lia.
    + by constructor.
    + exists cs'. split_and!; [done|by rewrite Hfr, (fo_frozen _ _ _ Hf)|simpl length; lia].
  - rewrite <- (client_at_same i s s1) in Hcs by done. destruct (IH cs Hcs H0 Hu) as (Hseq & Hrest). split; [|done].
    intros k b Hk. destruct (Hseq k b Hk) as (t1 & t2 & cs2 & Hat). exists t1, t2, cs2. by eapply accepted_other.
Qed.

(** [C7] Signatures of a solo machine are not replayed.  Along any sequence of
    signatures a chain accepts for a solo machine, as proofs of membership, of
    absence, or as headers, with no other write to the store of the client in between
    (misbehaviour and recovery are such writes), the n-th is by the key the client
    has in store when it is accepted, for the sequence it has then, which is the
    sequence the client began with plus n; timestamps never decrease; so no signed
    message is accepted twice, as long as the sequence does not leave 64 bits. *)
Theorem solomachine_no_replay i s bs s' cs :
  client_at i s = Some (AnySolomachine cs) → sm_run i s bs s' →
  0 <= sm_Sequence cs → is_u64 (sm_Sequence cs + Z.of_nat (length bs)) →
  (∀ k b, bs !! k = Some b → ∃ s1 s2 cs1, accepted_at i s bs s' k b (sm_Sequence cs + Z.of_nat k) s1 s2 cs1) ∧
  StronglySorted (λ a b, sb_Timestamp a <= sb_Timestamp b) bs ∧ NoDup bs ∧
  ∃ cs', client_at i s' = Some (AnySolomachine cs') ∧ sm_IsFrozen cs' = sm_IsFrozen cs ∧
    sm_Sequence cs' = sm_Sequence cs + Z.of_nat (length bs).
Proof.
  intros Hcs Hrun H0 Hu. destruct (sm_run_inv i s bs s' Hrun cs Hcs H0 Hu) as (Hseq & _ & Hsort & Hlast).
  split_and!; [done|done| |done]. apply NoDup_alt. intros k l b Hk Hl.
  destruct (Hseq k b Hk) as (? & ? & ? & [? ? ? ? ? [_ E1]]), (Hseq l b Hl) as (? & ? & ? & [? ? ? ? ? [_ E2]]). lia.
Qed.

End solo.
