(* ===== verification/TransferTypes.v ===== *)
(** * ICS 20: denominations and packet data of token transfers

    Models src/modules/apps/transfer/types: denomination traces (trace.go), the
    rule that tells which side of a channel a token comes from (coin.go), the
    data of a transfer packet (packet.go), escrow addresses and store keys
    (keys.go), messages (msgs.go) and genesis (genesis.go).  The theorems show
    when the trace of a denomination gives the denomination back, that a
    denomination sent over a channel and returned is the one that was sent, and
    what an escrow address identifies. *)

From stdpp Require Import gmap strings list.
From Stdlib Require Import ZArith Lia Ascii.
From S2P Require Import Prelude GoStd Sha256 Host Chain Height LightClient ConnTypes ChanTypes.

(** ** errors.go *)

Definition ErrInvalidDenomForTransfer : error := mkError "transfer" 3.
Definition Transfer_ErrInvalidVersion : error := mkError "transfer" 4.
Definition ErrInvalidAmount : error := mkError "transfer" 5.
Definition ErrTraceNotFound : error := mkError "transfer" 6.
Definition ErrSendDisabled : error := mkError "transfer" 7.
Definition ErrReceiveDisabled : error := mkError "transfer" 8.
Definition ErrMaxTransferChannels : error := mkError "transfer" 9.

(** core/errors/errors.go *)
Definition ErrInsufficientFunds : error := mkError "ibc" 3.
Definition ErrUnknownRequest : error := mkError "ibc" 4.
Definition ErrInvalidCoins : error := mkError "ibc" 6.
Definition ErrInvalidRequest : error := mkError "ibc" 8.

(** ** keys.go *)

Definition Transfer_ModuleName : string := "transfer".
Definition Transfer_Version : string := "ics20-1".
Definition Transfer_PortID : string := "transfer".
Definition DenomPrefix : string := "ibc".
Definition KeyTotalEscrowPrefix : string := "totalEscrowForDenom".
Definition Transfer_ParamsKey : string := "params".
Definition PortKey : bytes := String (byte_of 1) "".
Definition DenomTraceKey : bytes := String (byte_of 2) "".

Definition escrow_preimage (portID channelID : string) : bytes :=
  Transfer_Version +:+ String (byte_of 0) (portID +:+ "/" +:+ channelID).

Definition GetEscrowAddress (portID channelID : string) : bytes :=
  let hash := Sum256 (escrow_preimage portID channelID) in
  String.substring 0 20 hash.

Definition TotalEscrowForDenomKey (denom : string) : bytes :=
  KeyTotalEscrowPrefix +:+ "/" +:+ denom.

(** ** Coins

    [sdk.Coin]; an [sdkmath.Int] is an integer of [Z]. *)

Record Coin := mkCoin { Denom : string; Amount : Z }.

#[export] Instance Coin_eq_dec : EqDecision Coin.
Proof. solve_decision. Defined.

(** What the module uses of the types of the SDK and of CometBFT: the parsing and
    printing of integers, the rules for denominations, coins and hashes, and the
    codec of the packet data.  Operations that panic on bad input are partial. *)
Class SdkTypes := {
  NewIntFromString : string → option Z;
  Int_String : Z → string;
  ValidateDenom : string → Outcome ();
  HexBytes_String : bytes → string;
  ValidateHash : bytes → bool;
  NewCoin : string → Z → Outcome Coin;
  Coin_IsValid : Coin → bool;
  Coin_Add : Coin → Coin → Outcome Coin;
  Coin_Sub : Coin → Coin → Outcome Coin;
  NewCoins : list Coin → Outcome (list Coin);
  Coins_Add : list Coin → list Coin → Outcome (list Coin);
  Coins_Validate : list Coin → Outcome ();
  IsAllGTE : list Coin → list Coin → bool
}.

(** The amount of a denomination in a set of coins. *)
Fixpoint amount_of (d : string) (cs : list Coin) : Z :=
  match cs with
  | [] => 0
  | c :: cs' => (if bool_decide (Denom c = d) then Amount c else 0) + amount_of d cs'
  end.

Class SdkTypesLaws `{SdkTypes} := {
  int_roundtrip n : 0 <= n < 2 ^ 256 → NewIntFromString (Int_String n) = Some n;
  hex_string_decode h : DecodeString (HexBytes_String h) = Some h;
  validate_hash_32 h : String.length h = 32%nat → ValidateHash h = true;
  new_coin_ok d a c : NewCoin d a = Ok c → c = mkCoin d a ∧ 0 <= a ∧ ValidateDenom d = Ok tt;
  coin_add_ok a b c : Coin_Add a b = Ok c → c = mkCoin (Denom a) (Amount a + Amount b);
  coin_sub_ok a b c :
    Coin_Sub a b = Ok c → c = mkCoin (Denom a) (Amount a - Amount b) ∧ Amount b <= Amount a;
  new_coins_ok c cs : NewCoins [c] = Ok cs → ∀ d, amount_of d cs = amount_of d [c];
  coins_nil_valid : Coins_Validate [] = Ok tt;
  coins_one_valid c :
    ValidateDenom (Denom c) = Ok tt → 0 < Amount c → Coins_Validate [c] = Ok tt;
  coins_add_ok a b cs :
    Coins_Validate a = Ok tt → Coins_Validate b = Ok tt → Coins_Add a b = Ok cs →
    Coins_Validate cs = Ok tt ∧ ∀ d, amount_of d cs = amount_of d a + amount_of d b;
  is_all_gte_ok a b :
    Coins_Validate a = Ok tt → Coins_Validate b = Ok tt →
    (∀ d, amount_of d b <= amount_of d a) → IsAllGTE a b = true
}.

(** [sdk.AccAddressFromBech32] and [AccAddress.String]; an address is a byte string. *)
Class AccountTypes := {
  AccAddressFromBech32 : string → option string;
  AccAddress_String : string → string
}.

(** ** trace.go *)

Record DenomTrace := mkDenomTrace { Path : string; BaseDenom : string }.

#[export] Instance DenomTrace_eq_dec : EqDecision DenomTrace.
Proof. solve_decision. Defined.

(** The loop over the items, two at a time: pairs whose second item is a channel
    identifier go to the path, what is left is the base denomination. *)
Fixpoint extract_items (long : bool) (items : list string) : list string * list string :=
  match items with
  | port :: channel :: rest =>
      if long && IsValidChannelID channel then
        let '(path, baseDenom) := extract_items long rest in (port :: channel :: path, baseDenom)
      else ([], items)
  | _ => ([], items)
  end.

Definition extractPathAndBaseFromFullDenom (fullDenomItems : list string) : string * string :=
  let '(path, baseDenom) := extract_items (2 <? length fullDenomItems)%nat fullDenomItems in
  (Join path "/", Join baseDenom "/").

Definition ParseDenomTrace (rawDenom : string) : DenomTrace :=
  let denomSplit := Split rawDenom "/" in
  if bool_decide (head denomSplit = Some rawDenom) then mkDenomTrace "" rawDenom
  else let '(path, baseDenom) := extractPathAndBaseFromFullDenom denomSplit in
       mkDenomTrace path baseDenom.

Definition GetPrefix (dt : DenomTrace) : string := Path dt +:+ "/".

Definition GetFullDenomPath (dt : DenomTrace) : string :=
  if bool_decide (Path dt = "") then BaseDenom dt else GetPrefix dt +:+ BaseDenom dt.

Definition DenomTrace_Hash (dt : DenomTrace) : bytes := Sum256 (GetFullDenomPath dt).

Definition IsNativeDenom (dt : DenomTrace) : bool := bool_decide (Path dt = "").

(** The loop over pairs of [validateTraceIdentifiers]. *)
Fixpoint validate_pairs (identifiers : list string) : Outcome () :=
  match identifiers with
  | port :: channel :: rest =>
      PortIdentifierValidator port;;
      ChannelIdentifierValidator channel;;
      validate_pairs rest
  | _ => Ok tt
  end.

Definition validateTraceIdentifiers (identifiers : list string) : Outcome () :=
  check (negb (bool_decide (length identifiers = 0%nat) || negb (Nat.even (length identifiers))))
    errUnregistered;;
  validate_pairs identifiers.

Definition DenomTrace_Validate (dt : DenomTrace) : Outcome () :=
  if bool_decide (Path dt = "") && negb (bool_decide (BaseDenom dt = "")) then Ok tt
  else if is_blank (BaseDenom dt) then Err errUnregistered
  else validateTraceIdentifiers (Split (Path dt) "/").

Definition ValidatePrefixedDenom (denom : string) : Outcome () :=
  let denomSplit := Split denom "/" in
  if bool_decide (head denomSplit = Some denom) && negb (is_blank denom) then Ok tt
  else
    check (negb (is_blank (default "" (last denomSplit)))) ErrInvalidDenomForTransfer;;
    let '(path, _) := extractPathAndBaseFromFullDenom denomSplit in
    if bool_decide (path = "") then Ok tt
    else validateTraceIdentifiers (Split path "/").

(** ** coin.go *)

Definition GetDenomPrefix (portID channelID : string) : string :=
  portID +:+ "/" +:+ channelID +:+ "/".

Definition GetPrefixedDenom (portID channelID baseDenom : string) : string :=
  portID +:+ "/" +:+ channelID +:+ "/" +:+ baseDenom.

Definition ReceiverChainIsSource (sourcePort sourceChannel denom : string) : bool :=
  HasPrefix denom (GetDenomPrefix sourcePort sourceChannel).

Definition SenderChainIsSource (sourcePort sourceChannel denom : string) : bool :=
  negb (ReceiverChainIsSource sourcePort sourceChannel denom).

Section sdk.
Context `{SdkTypes}.

Definition IBCDenom (dt : DenomTrace) : string :=
  if negb (bool_decide (Path dt = "")) then
    DenomPrefix +:+ "/" +:+ HexBytes_String (DenomTrace_Hash dt)
  else BaseDenom dt.

Definition GetTransferCoin (portID channelID baseDenom : string) (amount : Z) : Outcome Coin :=
  let denomTrace := ParseDenomTrace (GetPrefixedDenom portID channelID baseDenom) in
  NewCoin (IBCDenom denomTrace) amount.

Definition ParseHexHash (hexHash : string) : Outcome bytes :=
  hash ← of_option errUnregistered (DecodeString hexHash);
  check (ValidateHash hash) errUnregistered;;
  Ok hash.

Definition ValidateIBCDenom (denom : string) : Outcome () :=
  ValidateDenom denom;;
  if bool_decide (denom = DenomPrefix) then Err ErrInvalidDenomForTransfer
  else match SplitN2 "/" denom with
       | [p; h] =>
           if bool_decide (p = DenomPrefix) then
             check (negb (is_blank h)) ErrInvalidDenomForTransfer;;
             ParseHexHash h;;
             Ok tt
           else Ok tt
       | _ => Ok tt
       end.

(** The loop of [Traces.Validate] with the hashes seen so far. *)
Fixpoint validate_traces (seenTraces : gset string) (t : list DenomTrace) : Outcome () :=
  match t with
  | [] => Ok tt
  | trace :: t' =>
      let hash := HexBytes_String (DenomTrace_Hash trace) in
      check (negb (bool_decide (hash ∈ seenTraces))) errUnregistered;;
      DenomTrace_Validate trace;;
      validate_traces ({[hash]} ∪ seenTraces) t'
  end.

Definition Traces_Validate (t : list DenomTrace) : Outcome () := validate_traces ∅ t.

(** ** packet.go *)

Record FungibleTokenPacketData := mkPacketData {
  ft_Denom : string; ft_Amount : string; ft_Sender : string; ft_Receiver : string; ft_Memo : string }.

Definition NewFungibleTokenPacketData (denom amount sender receiver memo : string) :
    FungibleTokenPacketData := mkPacketData denom amount sender receiver memo.

Definition PacketData_ValidateBasic (d : FungibleTokenPacketData) : Outcome () :=
  amount ← of_option ErrInvalidAmount (NewIntFromString (ft_Amount d));
  check (0 <? amount) ErrInvalidAmount;;
  check (negb (is_blank (ft_Sender d))) ErrInvalidAddress;;
  check (negb (is_blank (ft_Receiver d))) ErrInvalidAddress;;
  ValidatePrefixedDenom (ft_Denom d).

(** ** params.go, genesis.go *)

Record TransferParams := mkTransferParams { SendEnabled : bool; ReceiveEnabled : bool }.

Definition NewParams (enableSend enableReceive : bool) : TransferParams :=
  mkTransferParams enableSend enableReceive.
Definition DefaultParams : TransferParams := NewParams true true.

Record TransferGenesis := mkTransferGenesis {
  tg_PortId : string; tg_DenomTraces : list DenomTrace; tg_Params : TransferParams;
  tg_TotalEscrowed : list Coin }.

Definition DefaultGenesisState : TransferGenesis :=
  mkTransferGenesis Transfer_PortID [] DefaultParams [].

Definition TransferGenesis_Validate (gs : TransferGenesis) : Outcome () :=
  PortIdentifierValidator (tg_PortId gs);;
  Traces_Validate (tg_DenomTraces gs);;
  Coins_Validate (tg_TotalEscrowed gs).

End sdk.

(** ** msgs.go *)

Record MsgTransfer := mkMsgTransfer {
  mt_SourcePort : string; mt_SourceChannel : string; mt_Token : Coin; mt_Sender : string;
  mt_Receiver : string; mt_TimeoutHeight : Height; mt_TimeoutTimestamp : Z; mt_Memo : string }.

Definition MsgTransfer_ValidateBasic `{SdkTypes} (AccAddressFromBech32 : string → option bytes)
    (msg : MsgTransfer) : Outcome () :=
  PortIdentifierValidator (mt_SourcePort msg);;
  ChannelIdentifierValidator (mt_SourceChannel msg);;
  check (Coin_IsValid (mt_Token msg)) ErrInvalidCoins;;
  check (0 <? Amount (mt_Token msg)) ErrInsufficientFunds;;
  of_option ErrInvalidAddress (AccAddressFromBech32 (mt_Sender msg));;
  check (negb (is_blank (mt_Receiver msg))) ErrInvalidAddress;;
  ValidateIBCDenom (Denom (mt_Token msg)).

(** * Lemmas *)

Lemma Join_app (a b : list string) sep :
  a ≠ [] → b ≠ [] → Join (a ++ b) sep = Join a sep +:+ sep +:+ Join b sep.
Proof.
  intros Ha Hb. induction a as [|x a IH]; [done|]. destruct a as [|y a].
  - simpl. by destruct b.
  - change (Join ((x :: y :: a) ++ b) sep) with (x +:+ sep +:+ Join ((y :: a) ++ b) sep).
    change (Join (x :: y :: a) sep) with (x +:+ sep +:+ Join (y :: a) sep).
    rewrite IH by done. by rewrite !string_app_assoc.
Qed.

(** The items of a path: ports and channel identifiers in turn. *)
Inductive hop_items : list string → Prop :=
| hop_items_nil : hop_items []
| hop_items_cons port channel rest :
    IsValidChannelID channel = true → hop_items rest → hop_items (port :: channel :: rest).

Lemma extract_items_spec long items :
  let '(path, base) := extract_items long items in items = path ++ base ∧ hop_items path.
Proof.
  remember (length items) as n eqn:Hn. revert items Hn.
  induction (lt_wf n) as [n _ IH]. intros [|p [|c rest]] ->; [by split; [|constructor]..|].
  simpl. destruct (long && IsValidChannelID c) eqn:Hc; [|by split; [|constructor]].
  specialize (IH (length rest) ltac:(simpl; lia) rest eq_refl). destruct (extract_items long rest) as [path base].
  destruct IH as [-> Hp]. apply andb_true_iff in Hc as [_ Hc]. by split; [|constructor].
Qed.

Lemma Join_hops_nonempty port channel rest : Join (port :: channel :: rest) "/" ≠ "".
Proof. simpl. destruct port; [|done]. by destruct rest. Qed.

Lemma head_Split s : head (Split s "/") = Some s → Split s "/" = [s].
Proof.
  intros Hs. pose proof (Join_Split "/" s) as Hj.
  destruct (Split s "/") as [|x [|y l]]; simpl in *; [done|by injection Hs as ->|].
  injection Hs as ->. apply (f_equal String.length) in Hj.
  rewrite string_length_app in Hj. simpl in Hj. lia.
Qed.

Lemma ParseDenomTrace_spec raw :
  ∃ path base, Split raw "/" = path ++ base ∧ hop_items path ∧
    ParseDenomTrace raw = mkDenomTrace (Join path "/") (Join base "/").
Proof.
  unfold ParseDenomTrace, extractPathAndBaseFromFullDenom. case_bool_decide as Hh.
  - exists [], [raw]. split_and!; [by rewrite (head_Split _ Hh)|constructor|done].
  - pose proof (extract_items_spec (2 <? length (Split raw "/"))%nat (Split raw "/")) as Hx.
    destruct (extract_items _ _) as [path base]. destruct Hx as [Hs Hp]. by exists path, base.
Qed.

(** The denomination of a trace is the text it was read from, but for a text made
    of hops alone, which comes back with a slash at its end. *)
Lemma full_denom_path_parse raw :
  let dt := ParseDenomTrace raw in
  GetFullDenomPath dt = raw ∨
  (BaseDenom dt = "" ∧ GetFullDenomPath dt = raw +:+ "/" ∧ hop_items (Split raw "/")).
Proof.
  destruct (ParseDenomTrace_spec raw) as (path & base & Hs & Hp & ->).
  pose proof (Join_Split "/" raw) as Hj. rewrite Hs in Hj.
  unfold GetFullDenomPath, GetPrefix. simpl. destruct Hp as [|p c rest Hc Hp].
  - left. done.
  - rewrite bool_decide_eq_false_2 by apply Join_hops_nonempty.
    destruct base as [|b base].
    + right. rewrite app_nil_r in Hj, Hs. rewrite Hj, string_app_nil_r.
      split_and!; [done|done|]. rewrite Hs. by constructor.
    + left. rewrite Join_app in Hj by done. by rewrite string_app_assoc.
Qed.

Lemma parse_full_denom_path raw :
  BaseDenom (ParseDenomTrace raw) ≠ "" → GetFullDenomPath (ParseDenomTrace raw) = raw.
Proof. intros Hb. by destruct (full_denom_path_parse raw) as [|[? _]]. Qed.

(** Denomination traces are read back: parsing a denomination and printing the
    trace gives the denomination, and parsing the printed trace gives the trace,
    whenever the trace has a base denomination; the path of a trace is a list of
    hops whose channel identifiers are valid.  A denomination made of hops alone
    has no base denomination and comes back with a slash at its end. *)
Theorem denom_trace_roundtrip raw :
  let dt := ParseDenomTrace raw in
  (BaseDenom dt ≠ "" → GetFullDenomPath dt = raw ∧ ParseDenomTrace (GetFullDenomPath dt) = dt) ∧
  (GetFullDenomPath dt ≠ raw →
     hop_items (Split raw "/") ∧ BaseDenom dt = "" ∧ GetFullDenomPath dt = raw +:+ "/") ∧
  (∃ path, Path dt = Join path "/" ∧ hop_items path).
Proof.
  intros dt. split_and!.
  - intros Hb. unfold dt in *. rewrite parse_full_denom_path by done. done.
  - intros Hne. by destruct (full_denom_path_parse raw) as [|(? & ? & ?)].
  - unfold dt. destruct (ParseDenomTrace_spec raw) as (path & base & _ & Hp & ->). by exists path.
Qed.

(** Such a denomination passes validation, although its base denomination is
    blank. *)
Example blank_base_accepted :
  ValidatePrefixedDenom "transfer/channel-0/transfer/channel-1" = Ok tt ∧
  ParseDenomTrace "transfer/channel-0/transfer/channel-1" =
    mkDenomTrace "transfer/channel-0/transfer/channel-1" "" ∧
  ParseDenomTrace "transfer/channel-0" = mkDenomTrace "" "transfer/channel-0".
Proof. by vm_compute. Qed.

(** ** Prefixes *)

Lemma Split_prefixed p c d :
  no_slash p → no_slash c → Split (GetPrefixedDenom p c d) "/" = p :: c :: Split d "/".
Proof.
  intros Hp Hc. unfold GetPrefixedDenom.
  change ("/" +:+ c +:+ "/" +:+ d) with (String "/" (c +:+ String "/" d)).
  by rewrite !Split_app.
Qed.

Lemma GetPrefixedDenom_prefix p c d : GetPrefixedDenom p c d = GetDenomPrefix p c +:+ d.
Proof. unfold GetPrefixedDenom, GetDenomPrefix. by rewrite !string_app_assoc. Qed.

(** A prefixed denomination is not native. *)
Lemma prefixed_path p c d :
  no_slash p → no_slash c → IsValidChannelID c = true →
  Path (ParseDenomTrace (GetPrefixedDenom p c d)) ≠ "".
Proof.
  intros Hp Hc Hv. unfold ParseDenomTrace. pose proof (Split_nonempty "/" d) as Hne.
  rewrite bool_decide_eq_false_2.
  - unfold extractPathAndBaseFromFullDenom. rewrite Split_prefixed by done.
    assert ((2 <? length (p :: c :: Split d "/"))%nat = true) as Hlong.
    { apply Nat.ltb_lt. destruct (Split d "/"); [done|]. simpl. lia. }
    rewrite Hlong. cbn [extract_items andb]. rewrite Hv.
    destruct (extract_items true (Split d "/")) as [path base]. apply Join_hops_nonempty.
  - intros Hh%head_Split. rewrite Split_prefixed in Hh by done. done.
Qed.

Lemma receiver_is_source_prefixed p c d : ReceiverChainIsSource p c (GetPrefixedDenom p c d) = true.
Proof. unfold ReceiverChainIsSource, HasPrefix. rewrite GetPrefixedDenom_prefix. apply prefix_app. Qed.

Lemma receiver_is_source_inv p c d :
  ReceiverChainIsSource p c d = true → ∃ d', d = GetPrefixedDenom p c d'.
Proof. intros [d' ->]%prefix_inv. exists d'. by rewrite GetPrefixedDenom_prefix. Qed.

(** Removing the prefix of a channel undoes adding it. *)
Lemma drop_prefixed p c d :
  str_drop (String.length (GetDenomPrefix p c)) (GetPrefixedDenom p c d) = d.
Proof. unfold str_drop. rewrite GetPrefixedDenom_prefix. apply substring_suffix. Qed.

(** ** Escrow addresses *)

Lemma channel_text_inj p c p' c' :
  no_slash p → no_slash p' → p +:+ "/" +:+ c = p' +:+ "/" +:+ c' → p = p' ∧ c = c'.
Proof.
  intros Hp Hp' He. apply (f_equal (λ s, Split s "/")) in He.
  change ("/" +:+ c) with (String "/" c) in He. change ("/" +:+ c') with (String "/" c') in He.
  rewrite !Split_app in He by done. injection He as -> He. split; [done|].
  apply (f_equal (λ l, Join l "/")) in He. by rewrite !Join_Split in He.
Qed.

(** Channels with one escrow address are the same channel, or two different texts
    whose hashes agree on 20 bytes. *)
Lemma escrow_address_binding p c p' c' :
  no_slash p → no_slash p' → GetEscrowAddress p c = GetEscrowAddress p' c' →
  (p = p' ∧ c = c') ∨
  (escrow_preimage p c ≠ escrow_preimage p' c' ∧
   String.substring 0 20 (Sum256 (escrow_preimage p c)) =
   String.substring 0 20 (Sum256 (escrow_preimage p' c'))).
Proof.
  intros Hp Hp' He. destruct (decide (p = p' ∧ c = c')) as [|Hne]; [by left|right].
  split; [|exact He]. intros Hpre. apply Hne. apply string_app_inj_l in Hpre.
  injection Hpre as Hpre. by apply channel_text_inj.
Qed.
