(* ===== verification/FeeTypes.v ===== *)
(** * ICS 29: the types of the fee middleware

    Models src/modules/apps/29-fee/types: fees and their validation (fee.go), the
    incentivised acknowledgement (ack.go), the store keys and their parsers
    (keys.go), messages (msgs.go) and genesis (genesis.go). *)

From stdpp Require Import gmap strings list.
From Stdlib Require Import ZArith Lia Ascii.
From S2P Require Import Prelude GoStd Host Chain LightClient ChanTypes TransferTypes.

(** ** errors.go *)

Definition Fee_ErrInvalidVersion : error := mkError "feeibc" 2.
Definition ErrRefundAccNotFound : error := mkError "feeibc" 3.
Definition ErrRelayersNotEmpty : error := mkError "feeibc" 6.
Definition ErrCounterpartyPayeeEmpty : error := mkError "feeibc" 7.
Definition ErrFeeNotEnabled : error := mkError "feeibc" 9.
Definition ErrRelayerNotFoundForAsyncAck : error := mkError "feeibc" 10.
Definition ErrFeeModuleLocked : error := mkError "feeibc" 11.
(** 04-channel/types/errors.go *)
Definition ErrPacketCommitmentNotFound : error := mkError "channel" 20.
(** core/errors *)
Definition ErrLogic : error := mkError "ibc" 15.

(** ** keys.go *)

Definition Fee_ModuleName : string := "feeibc".
Definition Fee_Version : string := "ics29-1".
Definition FeeEnabledKeyPrefix : string := "feeEnabled".
Definition PayeeKeyPrefix : string := "payee".
Definition CounterpartyPayeeKeyPrefix : string := "counterpartyPayee".
Definition FeesInEscrowPrefix : string := "feesInEscrow".
Definition ForwardRelayerPrefix : string := "forwardRelayer".

Definition KeyLocked : bytes := "locked".

Definition KeyFeeEnabled (portID channelID : string) : bytes :=
  FeeEnabledKeyPrefix +:+ "/" +:+ portID +:+ "/" +:+ channelID.

Definition ParseKeyFeeEnabled (key : string) : Outcome (string * string) :=
  match Split key "/" with
  | [prefix; portID; channelID] =>
      check (bool_decide (prefix = FeeEnabledKeyPrefix)) ErrLogic;;
      Ok (portID, channelID)
  | _ => Err ErrLogic
  end.

Definition KeyPayee (relayerAddr channelID : string) : bytes :=
  PayeeKeyPrefix +:+ "/" +:+ relayerAddr +:+ "/" +:+ channelID.

Definition ParseKeyPayeeAddress (key : string) : Outcome (string * string) :=
  match Split key "/" with
  | [_; relayerAddr; channelID] => Ok (relayerAddr, channelID)
  | _ => Err ErrLogic
  end.

Definition KeyCounterpartyPayee (address channelID : string) : bytes :=
  CounterpartyPayeeKeyPrefix +:+ "/" +:+ address +:+ "/" +:+ channelID.

Definition ParseKeyCounterpartyPayee (key : string) : Outcome (string * string) :=
  match Split key "/" with
  | [_; address; channelID] => Ok (address, channelID)
  | _ => Err ErrLogic
  end.

Definition KeyRelayerAddressForAsyncAck (packetID : PacketId) : bytes :=
  ForwardRelayerPrefix +:+ "/" +:+ pid_PortId packetID +:+ "/" +:+ pid_ChannelId packetID +:+ "/" +:+
  FormatUint (pid_Sequence packetID).

Definition ParseKeyRelayerAddressForAsyncAck (key : string) : Outcome PacketId :=
  match Split key "/" with
  | [_; portID; channelID; sequence] =>
      seq ← of_option errUnregistered (ParseUint sequence);
      Ok (NewPacketID portID channelID seq)
  | _ => Err ErrLogic
  end.

Definition KeyFeesInEscrowChannelPrefix (portID channelID : string) : bytes :=
  FeesInEscrowPrefix +:+ "/" +:+ portID +:+ "/" +:+ channelID.

Definition KeyFeesInEscrow (packetID : PacketId) : bytes :=
  KeyFeesInEscrowChannelPrefix (pid_PortId packetID) (pid_ChannelId packetID) +:+ "/" +:+
  FormatUint (pid_Sequence packetID).

Definition ParseKeyFeesInEscrow (key : string) : Outcome PacketId :=
  match Split key "/" with
  | [_; portID; channelID; sequence] =>
      seq ← of_option errUnregistered (ParseUint sequence);
      Ok (NewPacketID portID channelID seq)
  | _ => Err ErrLogic
  end.

(** ** fee.go *)

Record Fee := mkFee { RecvFee : list Coin; AckFee : list Coin; TimeoutFee : list Coin }.
Record PacketFee := mkPacketFee { pf_Fee : Fee; RefundAddress : string; Relayers : list string }.
Record PacketFees := mkPacketFees { pf_PacketFees : list PacketFee }.
Record IdentifiedPacketFees := mkIdentifiedPacketFees {
  ipf_PacketId : PacketId; ipf_PacketFees : list PacketFee }.

Definition NewPacketFee (fee : Fee) (refundAddr : string) (relayers : list string) : PacketFee :=
  mkPacketFee fee refundAddr relayers.
Definition NewPacketFees (packetFees : list PacketFee) : PacketFees := mkPacketFees packetFees.
Definition NewIdentifiedPacketFees (packetID : PacketId) (packetFees : list PacketFee) :
  IdentifiedPacketFees := mkIdentifiedPacketFees packetID packetFees.
Definition NewFee (recvFee ackFee timeoutFee : list Coin) : Fee := mkFee recvFee ackFee timeoutFee.

(** [Coins.IsValid] and [Coins.IsZero] of the SDK. *)
Class CoinsChecks := {
  Coins_IsValid : list Coin → bool;
  Coins_IsZero : list Coin → bool
}.

Section fee.
Context `{SdkTypes, CoinsChecks, AccountTypes}.

Definition Fee_Total (f : Fee) : Outcome (list Coin) :=
  cs ← Coins_Add (RecvFee f) (AckFee f);
  Coins_Add cs (TimeoutFee f).

Definition Fee_Validate (f : Fee) : Outcome () :=
  check (Coins_IsValid (AckFee f) && Coins_IsValid (RecvFee f) && Coins_IsValid (TimeoutFee f))
    ErrInvalidCoins;;
  check (negb (Coins_IsZero (AckFee f) && Coins_IsZero (RecvFee f) && Coins_IsZero (TimeoutFee f)))
    ErrInvalidCoins.

(** The address check of the stateless validations. *)
Definition valid_address (addr : string) : Outcome () :=
  check (bool_decide (is_Some (AccAddressFromBech32 addr))) errUnregistered.

Definition PacketFee_Validate (p : PacketFee) : Outcome () :=
  valid_address (RefundAddress p);;
  check (bool_decide (Relayers p = [])) ErrRelayersNotEmpty;;
  Fee_Validate (pf_Fee p).

(** ** msgs.go *)

Record MsgRegisterPayee := mkMsgRegisterPayee {
  rp_PortId : string; rp_ChannelId : string; rp_Relayer : string; rp_Payee : string }.
Record MsgRegisterCounterpartyPayee := mkMsgRegisterCounterpartyPayee {
  rcp_PortId : string; rcp_ChannelId : string; rcp_Relayer : string; rcp_CounterpartyPayee : string }.
Record MsgPayPacketFee := mkMsgPayPacketFee {
  ppf_Fee : Fee; ppf_SourcePortId : string; ppf_SourceChannelId : string; ppf_Signer : string;
  ppf_Relayers : list string }.
Record MsgPayPacketFeeAsync := mkMsgPayPacketFeeAsync {
  ppfa_PacketId : PacketId; ppfa_PacketFee : PacketFee }.

Definition MsgRegisterPayee_ValidateBasic (msg : MsgRegisterPayee) : Outcome () :=
  PortIdentifierValidator (rp_PortId msg);;
  ChannelIdentifierValidator (rp_ChannelId msg);;
  check (negb (bool_decide (rp_Relayer msg = rp_Payee msg))) ErrInvalidRequest;;
  valid_address (rp_Relayer msg);;
  valid_address (rp_Payee msg).

Definition MsgRegisterCounterpartyPayee_ValidateBasic (msg : MsgRegisterCounterpartyPayee) : Outcome () :=
  PortIdentifierValidator (rcp_PortId msg);;
  ChannelIdentifierValidator (rcp_ChannelId msg);;
  valid_address (rcp_Relayer msg);;
  check (negb (is_blank (rcp_CounterpartyPayee msg))) ErrCounterpartyPayeeEmpty.

Definition MsgPayPacketFee_ValidateBasic (msg : MsgPayPacketFee) : Outcome () :=
  ChannelIdentifierValidator (ppf_SourceChannelId msg);;
  PortIdentifierValidator (ppf_SourcePortId msg);;
  valid_address (ppf_Signer msg);;
  check (bool_decide (ppf_Relayers msg = [])) ErrRelayersNotEmpty;;
  Fee_Validate (ppf_Fee msg).

Definition MsgPayPacketFeeAsync_ValidateBasic (msg : MsgPayPacketFeeAsync) : Outcome () :=
  PacketId_Validate (ppfa_PacketId msg);;
  PacketFee_Validate (ppfa_PacketFee msg).

(** ** genesis.go *)

Record FeeEnabledChannel := mkFeeEnabledChannel { fec_PortId : string; fec_ChannelId : string }.
Record RegisteredPayee := mkRegisteredPayee {
  reg_ChannelId : string; reg_Relayer : string; reg_Payee : string }.
Record RegisteredCounterpartyPayee := mkRegisteredCounterpartyPayee {
  regc_ChannelId : string; regc_Relayer : string; regc_CounterpartyPayee : string }.
Record ForwardRelayerAddress := mkForwardRelayerAddress { fra_Address : string; fra_PacketId : PacketId }.

Record FeeGenesis := mkFeeGenesis {
  IdentifiedFees : list IdentifiedPacketFees;
  FeeEnabledChannels : list FeeEnabledChannel;
  RegisteredPayees : list RegisteredPayee;
  RegisteredCounterpartyPayees : list RegisteredCounterpartyPayee;
  ForwardRelayers : list ForwardRelayerAddress
}.

Definition Fee_NewGenesisState (identifiedFees : list IdentifiedPacketFees)
    (feeEnabledChannels : list FeeEnabledChannel) (registeredPayees : list RegisteredPayee)
    (registeredCounterpartyPayees : list RegisteredCounterpartyPayee)
    (forwardRelayers : list ForwardRelayerAddress) : FeeGenesis :=
  mkFeeGenesis identifiedFees feeEnabledChannels registeredPayees registeredCounterpartyPayees
    forwardRelayers.

Definition Fee_DefaultGenesisState : FeeGenesis := mkFeeGenesis [] [] [] [] [].

Definition FeeGenesis_Validate (gs : FeeGenesis) : Outcome () :=
  check_each (λ identifiedFees,
    PacketId_Validate (ipf_PacketId identifiedFees);;
    check_each PacketFee_Validate (ipf_PacketFees identifiedFees)) (IdentifiedFees gs);;
  check_each (λ feeCh,
    PortIdentifierValidator (fec_PortId feeCh);;
    ChannelIdentifierValidator (fec_ChannelId feeCh)) (FeeEnabledChannels gs);;
  check_each (λ r,
    check (negb (bool_decide (reg_Relayer r = reg_Payee r))) ErrInvalidAddress;;
    valid_address (reg_Relayer r);;
    valid_address (reg_Payee r);;
    ChannelIdentifierValidator (reg_ChannelId r)) (RegisteredPayees gs);;
  check_each (λ r,
    valid_address (regc_Relayer r);;
    check (negb (is_blank (regc_CounterpartyPayee r))) ErrCounterpartyPayeeEmpty;;
    ChannelIdentifierValidator (regc_ChannelId r)) (RegisteredCounterpartyPayees gs);;
  check_each (λ rel,
    valid_address (fra_Address rel);;
    PacketId_Validate (fra_PacketId rel)) (ForwardRelayers gs).

End fee.

(** ** ack.go and the version metadata *)

Record IncentivizedAcknowledgement := mkIncentivizedAcknowledgement {
  AppAcknowledgement : bytes; ForwardRelayerAddr : string; UnderlyingAppSuccess : bool }.

Definition NewIncentivizedAcknowledgement (relayer : string) (ack : bytes) (success : bool) :
  IncentivizedAcknowledgement := mkIncentivizedAcknowledgement ack relayer success.

Definition Incentivized_Success (ack : IncentivizedAcknowledgement) : bool := UnderlyingAppSuccess ack.

Record Metadata := mkMetadata { FeeVersion : string; AppVersion : string }.
