(* ===== verification/TransferAuthz.v ===== *)
(** * ICS 20: authorizations to transfer

    Models src/modules/apps/transfer/types/transfer_authorization.go: a grant by which
    one account lets another transfer its tokens, up to a limit per channel.  x/authz
    asks the authorization whether it accepts a message and keeps what the answer says.

    The theorems show that a grant is never overspent: whatever messages are accepted
    one after the other, what they transfer over a channel and what is left of its
    limit add up to the limit the grant started with. *)

From stdpp Require Import gmap strings list.
From Stdlib Require Import ZArith Lia Ascii.
From S2P Require Import Prelude GoStd Host Chain Height ConnTypes ChanTypes LightClient TransferTypes FeeTypes.

Definition ErrInvalidAuthorization : error := mkError "transfer" 10.
Definition ErrInvalidChannel : error := mkError "channel" 4.

(** A nil spend limit is told from an empty one. *)
Record Allocation := mkAllocation {
  al_SourcePort : string;
  al_SourceChannel : string;
  al_SpendLimit : option (list Coin);
  al_AllowList : list string
}.

Record TransferAuthorization := mkTransferAuthorization { Allocations : list Allocation }.

(** [authz.AcceptResponse] *)
Record AcceptResponse := mkAcceptResponse {
  ar_Accept : bool;
  ar_Delete : bool;
  ar_Updated : option TransferAuthorization
}.

Definition NewTransferAuthorization (allocations : list Allocation) : TransferAuthorization :=
  mkTransferAuthorization allocations.

Definition maxUint256 : Z := Z.shiftl 1 256 - 1.
Definition UnboundedSpendLimit : Z := maxUint256.

(** [Coins.AmountOf] and [Coins.SafeSub] of the SDK; both panic on coins that are not
    valid. *)
Class CoinsLimits := {
  Coins_AmountOf : list Coin → string → Outcome Z;
  Coins_SafeSub : list Coin → Coin → Outcome (list Coin * bool)
}.

Class CoinsLimitsLaws `{SdkTypes, CoinsChecks, CoinsLimits} := {
  amount_of_ok cs d n : Coins_Validate cs = Ok tt → Coins_AmountOf cs d = Ok n → n = amount_of d cs;
  safe_sub_ok cs c r negative :
    Coins_Validate cs = Ok tt → Coins_SafeSub cs c = Ok (r, negative) →
    negative = false →
    0 <= Amount c ∧ Coins_Validate r = Ok tt ∧ ∀ d, amount_of d r = amount_of d cs - amount_of d [c];
  coins_zero_ok cs : Coins_Validate cs = Ok tt → Coins_IsZero cs = true → ∀ d, amount_of d cs = 0;
  valid_nonneg cs d : Coins_Validate cs = Ok tt → 0 <= amount_of d cs
}.

Section authorization.
Context `{SdkTypes, CoinsChecks, CoinsLimits}.

Definition spend_limit (a : Allocation) : list Coin := default [] (al_SpendLimit a).

(** An empty list allows every receiver. *)
Definition isAllowedAddress (receiver : string) (allowedAddrs : list string) : bool :=
  match allowedAddrs with
  | [] => true
  | _ => existsb (λ addr, bool_decide (addr = receiver)) allowedAddrs
  end.

Definition set_limit (limitLeft : list Coin) (a : Allocation) : Allocation :=
  mkAllocation (al_SourcePort a) (al_SourceChannel a) (Some limitLeft) (al_AllowList a).

(** The allocation of the channel was found between [before] and [after]. *)
Definition accept_allocation (before : list Allocation) (allocation : Allocation) (after : list Allocation)
    (msg : MsgTransfer) : Outcome AcceptResponse :=
  check (isAllowedAddress (mt_Receiver msg) (al_AllowList allocation)) ErrInvalidAddress;;
  limit ← Coins_AmountOf (spend_limit allocation) (Denom (mt_Token msg));
  if limit =? UnboundedSpendLimit then Ok (mkAcceptResponse true false None)
  else
    '(limitLeft, isNegative) ← Coins_SafeSub (spend_limit allocation) (mt_Token msg);
    check (negb isNegative) ErrInsufficientFunds;;
    if Coins_IsZero limitLeft then
      let allocations := before ++ after in
      match allocations with
      | [] => Ok (mkAcceptResponse true true None)
      | _ => Ok (mkAcceptResponse true false (Some (mkTransferAuthorization allocations)))
      end
    else Ok (mkAcceptResponse true false
               (Some (mkTransferAuthorization (before ++ set_limit limitLeft allocation :: after)))).

Definition of_channel (p c : string) (a : Allocation) : bool :=
  bool_decide (al_SourceChannel a = c) && bool_decide (al_SourcePort a = p).

(** The loop over the allocations. *)
Fixpoint accept_loop (before rest : list Allocation) (msg : MsgTransfer) : Outcome AcceptResponse :=
  match rest with
  | [] => Err ErrNotFound
  | allocation :: after =>
      if of_channel (mt_SourcePort msg) (mt_SourceChannel msg) allocation
      then accept_allocation before allocation after msg
      else accept_loop (before ++ [allocation]) after msg
  end.

(** A message of another type is [None]. *)
Definition Accept (a : TransferAuthorization) (msg : option MsgTransfer) : Outcome AcceptResponse :=
  match msg with
  | None => Err ErrInvalidType
  | Some msg => accept_loop [] (Allocations a) msg
  end.

(** The loop of the validation, with the channels seen so far. *)
Fixpoint validate_allocations (foundChannels : list string) (l : list Allocation) : Outcome () :=
  match l with
  | [] => Ok tt
  | a :: l' =>
      check (negb (bool_decide (al_SourceChannel a ∈ foundChannels))) ErrInvalidChannel;;
      check (bool_decide (is_Some (al_SpendLimit a))) ErrInvalidCoins;;
      match Coins_Validate (spend_limit a) with
      | Ok _ => Ok tt
      | Err _ => Err ErrInvalidCoins
      | Panic => Panic
      end;;
      PortIdentifierValidator (al_SourcePort a);;
      ChannelIdentifierValidator (al_SourceChannel a);;
      check (bool_decide (NoDup (al_AllowList a))) ErrInvalidAuthorization;;
      validate_allocations (al_SourceChannel a :: foundChannels) l'
  end.

Definition TransferAuthorization_ValidateBasic (a : TransferAuthorization) : Outcome () :=
  check (negb (bool_decide (Allocations a = []))) ErrInvalidAuthorization;;
  validate_allocations [] (Allocations a).

(** ** What a grant lets its grantee do

    x/authz stores the updated authorization, deletes the grant, or leaves it as it
    is, as the answer says. *)

Definition grant_after (a : TransferAuthorization) (r : AcceptResponse) : option TransferAuthorization :=
  if ar_Delete r then None else Some (default a (ar_Updated r)).

(** The messages the grantee gets accepted one after the other. *)
Inductive spends : TransferAuthorization → list MsgTransfer → option TransferAuthorization → Prop :=
| spends_none a : spends a [] (Some a)
| spends_last a msg r : Accept a (Some msg) = Ok r → grant_after a r = None → spends a [msg] None
| spends_more a msg r a' l o :
    Accept a (Some msg) = Ok r → grant_after a r = Some a' → spends a' l o → spends a (msg :: l) o.

(** What is left for a channel, and what messages transfer over it. *)
Fixpoint limit_in (p c d : string) (l : list Allocation) : Z :=
  match l with
  | [] => 0
  | a :: l' => if of_channel p c a then amount_of d (spend_limit a) else limit_in p c d l'
  end.
Definition limit_left (p c d : string) (o : option TransferAuthorization) : Z :=
  match o with None => 0 | Some a => limit_in p c d (Allocations a) end.
Definition transferred (p c d : string) (l : list MsgTransfer) : Z :=
  foldr (λ m n, (if bool_decide (mt_SourcePort m = p ∧ mt_SourceChannel m = c) then amount_of d [mt_Token m] else 0) + n) 0 l.

(** Limits are valid coins and channels are listed once. *)
Definition sound_grant (a : TransferAuthorization) : Prop :=
  Forall (λ al, Coins_Validate (spend_limit al) = Ok tt) (Allocations a) ∧ NoDup (al_SourceChannel <$> Allocations a).

Lemma validate_allocations_ok found l :
  validate_allocations found l = Ok tt →
  Forall (λ al, Coins_Validate (spend_limit al) = Ok tt) l ∧ NoDup (al_SourceChannel <$> l) ∧
  ∀ c, c ∈ found → c ∉ (al_SourceChannel <$> l).
Proof.
  revert found. induction l as [|a l IH]; intros found; simpl.
  { intros _. split_and!; [constructor|constructor|intros c _; apply not_elem_of_nil]. }
  intros ([] & Hf%check_ok & ([] & _ & ([] & Hv & ([] & _ & ([] & _ & ([] & _ & Hl)%obind_ok)%obind_ok)%obind_ok)%obind_ok)%obind_ok)%obind_ok.
  apply IH in Hl as (Hall & Hnd & Hout). apply negb_true_iff, bool_decide_eq_false in Hf.
  split_and!.
  - constructor; [|done]. by destruct (Coins_Validate (spend_limit a)) as [[]| |].
  - apply NoDup_cons. split; [apply Hout; set_solver|done].
  - intros c Hc [->|Hin]%elem_of_cons; [done|]. apply (Hout c); set_solver.
Qed.

Lemma validated_sound a : TransferAuthorization_ValidateBasic a = Ok tt → sound_grant a.
Proof. intros ([] & _ & (Hall & Hnd & _)%validate_allocations_ok)%obind_ok. by split. Qed.

Context {CL : CoinsLimitsLaws}.

(** Splitting at the allocation of a channel. *)
Lemma limit_in_app p c d l1 l2 :
  Forall (λ al, of_channel p c al = false) l1 → limit_in p c d (l1 ++ l2) = limit_in p c d l2.
Proof. induction 1 as [|al l1 Hal _ IH]; [done|]. simpl. by rewrite Hal. Qed.

Lemma limit_in_absent p c d l : c ∉ (al_SourceChannel <$> l) → limit_in p c d l = 0.
Proof.
  induction l as [|al l IH]; [done|]. rewrite fmap_cons, not_elem_of_cons. intros [Hc Hl]. simpl.
  unfold of_channel. rewrite bool_decide_eq_false_2 by done. by apply IH.
Qed.

Lemma of_channel_true p c al : of_channel p c al = true ↔ al_SourcePort al = p ∧ al_SourceChannel al = c.
Proof. unfold of_channel. rewrite andb_true_iff, !bool_decide_eq_true. tauto. Qed.

(** Replacing or removing an allocation leaves what other channels have. *)
Lemma limit_in_other p c d l1 al l2 l3 :
  of_channel p c al = false → (∀ al', al' ∈ l3 → of_channel p c al' = false) →
  limit_in p c d (l1 ++ l3 ++ l2) = limit_in p c d (l1 ++ al :: l2).
Proof.
  intros Hal Hl3. induction l1 as [|x l1 IH]; simpl.
  - rewrite Hal. apply limit_in_app. by apply Forall_forall.
  - by rewrite IH.
Qed.

(** The allocations of [l'] are allocations of [l] but for their limits. *)
Definition same_terms (al al' : Allocation) : Prop :=
  al_SourcePort al = al_SourcePort al' ∧ al_SourceChannel al = al_SourceChannel al' ∧ al_AllowList al = al_AllowList al'.
Definition allows (a : TransferAuthorization) (msg : MsgTransfer) : Prop :=
  ∃ al, al ∈ Allocations a ∧ al_SourcePort al = mt_SourcePort msg ∧ al_SourceChannel al = mt_SourceChannel msg ∧
    (al_AllowList al = [] ∨ mt_Receiver msg ∈ al_AllowList al).

(** What accepting a message means for a sound grant. *)
Record accepted (a : TransferAuthorization) (msg : MsgTransfer) (o : option TransferAuthorization) : Prop := {
  acc_allows : allows a msg;
  acc_kept a' al' : o = Some a' → al' ∈ Allocations a' → ∃ al, al ∈ Allocations a ∧ same_terms al al';
  acc_sound a' : o = Some a' → sound_grant a';
  acc_limits p c d : limit_in p c d (Allocations a) < UnboundedSpendLimit →
    limit_left p c d o = limit_in p c d (Allocations a) -
      (if bool_decide (mt_SourcePort msg = p ∧ mt_SourceChannel msg = c) then amount_of d [mt_Token msg] else 0) ∧
    0 <= limit_left p c d o <= limit_in p c d (Allocations a)
}.

Lemma isAllowedAddress_ok r l : isAllowedAddress r l = true → l = [] ∨ r ∈ l.
Proof.
  destruct l as [|x l]; [by left|]. unfold isAllowedAddress. rewrite existsb_exists. intros (y & Hy & ->%bool_decide_eq_true).
  right. by apply list_elem_of_In.
Qed.

Lemma limit_in_nonneg p c d l :
  Forall (λ al, Coins_Validate (spend_limit al) = Ok tt) l → 0 <= limit_in p c d l.
Proof. induction 1 as [|al l Hal _ IH]; simpl; [lia|]. case_match; [by apply valid_nonneg|done]. Qed.

Section one.
Context (msg : MsgTransfer) (before after : list Allocation) (al : Allocation).
Let p := mt_SourcePort msg.
Let c := mt_SourceChannel msg.
Hypothesis sound : sound_grant (mkTransferAuthorization (before ++ al :: after)).
Hypothesis found : of_channel p c al = true.

Lemma others_not_of_channel : Forall (λ x, of_channel p c x = false) (before ++ after).
Proof.
  destruct sound as [_ Hnd]. cbn [Allocations] in Hnd. rewrite fmap_app, fmap_cons in Hnd. apply of_channel_true in found as [_ Hc].
  apply NoDup_app in Hnd as (_ & Hb & [Ha _]%NoDup_cons). apply Forall_forall. intros x Hx.
  destruct (of_channel p c x) eqn:E; [|done]. apply of_channel_true in E as [_ Ex]. exfalso.
  assert (al_SourceChannel x = al_SourceChannel al) as Heq by congruence.
  apply elem_of_app in Hx as [Hx|Hx]; [|apply Ha; rewrite <- Heq; by apply list_elem_of_fmap_2].
  eapply (Hb (al_SourceChannel x)); [by apply list_elem_of_fmap_2|rewrite Heq; apply elem_of_cons; by left].
Qed.

Lemma limit_here d : limit_in p c d (before ++ al :: after) = amount_of d (spend_limit al).
Proof.
  rewrite limit_in_app; [simpl; by rewrite found|]. pose proof others_not_of_channel as H3. by apply Forall_app in H3 as [? _].
Qed.

(** The limit of the channel becomes that of [kept], those of other channels stay. *)
Lemma limits_after (kept : list Allocation) (n : Z) p' c' d :
  (∀ x, x ∈ kept → al_SourcePort x = p ∧ al_SourceChannel x = c) → limit_in p c d kept = amount_of d (spend_limit al) - n →
  limit_in p' c' d (before ++ kept ++ after) = limit_in p' c' d (before ++ al :: after) -
    (if bool_decide (p = p' ∧ c = c') then n else 0).
Proof.
  intros Hkept Hn. case_bool_decide as Hpc.
  - destruct Hpc as [<- <-]. rewrite limit_here. pose proof others_not_of_channel as [Hb Ha]%Forall_app.
    rewrite limit_in_app by done. rewrite <- Hn. clear Hn. destruct kept as [|x kept]; simpl.
    + rewrite <- (app_nil_r after). by rewrite limit_in_app.
    + destruct (Hkept x) as [H3 H4]; [apply list_elem_of_here|]. by rewrite (proj2 (of_channel_true p c x)).
  - rewrite Z.sub_0_r. assert (∀ x, al_SourcePort x = p ∧ al_SourceChannel x = c → of_channel p' c' x = false) as Hne.
    { intros x [Hxp Hxc]. destruct (of_channel p' c' x) eqn:Hx; [|done]. apply of_channel_true in Hx as [? ?].
      exfalso. apply Hpc. split; congruence. }
    apply limit_in_other; [by apply Hne, of_channel_true|]. intros x Hx. by apply Hne, Hkept.
Qed.
End one.

(** Adding up accepted messages. *)
Lemma accept_loop_found before rest msg r :
  accept_loop before rest msg = Ok r →
  ∃ before' al after, before ++ rest = before' ++ al :: after ∧
    of_channel (mt_SourcePort msg) (mt_SourceChannel msg) al = true ∧ accept_allocation before' al after msg = Ok r.
Proof.
  revert before. induction rest as [|al rest IH]; intros before; simpl; [done|].
  destruct (of_channel _ _ al) eqn:Hal; [intros Hr; by exists before, al, rest|].
  intros (b & x & l & Heq & Hx)%IH. exists b, x, l. split; [|done]. by rewrite <- Heq, <- app_assoc.
Qed.

Lemma sound_keep before al after :
  sound_grant (mkTransferAuthorization (before ++ al :: after)) →
  sound_grant (mkTransferAuthorization (before ++ after)).
Proof.
  intros [Hv Hn]. cbn [Allocations] in *. split; cbn [Allocations].
  - apply Forall_app in Hv as [? [_ ?]%Forall_cons]. by apply Forall_app.
  - rewrite fmap_app in *. rewrite fmap_cons in Hn. apply NoDup_app in Hn as (? & Hb & [_ ?]%NoDup_cons).
    apply NoDup_app. split_and!; [done| |done]. intros x Hx Hx'. apply (Hb x Hx). apply elem_of_cons. by right.
Qed.

Lemma sound_replace before al al' after :
  sound_grant (mkTransferAuthorization (before ++ al :: after)) → Coins_Validate (spend_limit al') = Ok tt →
  al_SourceChannel al' = al_SourceChannel al → sound_grant (mkTransferAuthorization (before ++ al' :: after)).
Proof.
  intros [Hv Hn] Hal Hc. cbn [Allocations] in *. split; cbn [Allocations].
  - apply Forall_app in Hv as [? [_ ?]%Forall_cons]. apply Forall_app. split; [done|]. by constructor.
  - rewrite fmap_app, fmap_cons in *. by rewrite Hc.
Qed.

Lemma fewer msg p c d n n' :
  0 <= n' → 0 <= Amount (mt_Token msg) →
  n' = n - (if bool_decide (mt_SourcePort msg = p ∧ mt_SourceChannel msg = c) then amount_of d [mt_Token msg] else 0) →
  n' = n - (if bool_decide (mt_SourcePort msg = p ∧ mt_SourceChannel msg = c) then amount_of d [mt_Token msg] else 0) ∧
  0 <= n' <= n.
Proof. intros Hn Hm Heq. split; [done|]. simpl in Heq. repeat case_bool_decide; lia. Qed.

(** The grant with no allocations is deleted. *)
Definition grant_of (l : list Allocation) : option TransferAuthorization :=
  match l with [] => None | _ => Some (mkTransferAuthorization l) end.

Lemma limit_left_of p c d l : limit_left p c d (grant_of l) = limit_in p c d l.
Proof. by destruct l. Qed.

Section accepting.
Context (before after : list Allocation) (al : Allocation) (msg : MsgTransfer).
Let a := mkTransferAuthorization (before ++ al :: after).
Hypothesis sound : sound_grant a.
Hypothesis found : of_channel (mt_SourcePort msg) (mt_SourceChannel msg) al = true.
Hypothesis allowed : allows a msg.

(** With an unbounded limit the grant stays. *)
Lemma accepted_unbounded :
  amount_of (Denom (mt_Token msg)) (spend_limit al) = UnboundedSpendLimit → accepted a msg (Some a).
Proof.
  intros Hu. split; [done|intros a' al' [= <-] ?; by exists al'|by intros a' [= <-]|]. intros p c d Hlt.
  cbn [limit_left]. split; [|split; [apply limit_in_nonneg, sound|done]].
  case_bool_decide as Hpc; [|lia]. destruct Hpc as [<- <-]. subst a. cbn [Allocations] in *.
  rewrite (limit_here msg) in Hlt by done. cbn [amount_of]. case_bool_decide as Hd; [|lia]. rewrite <- Hd in Hlt. lia.
Qed.

(** Otherwise the allocation is replaced by [kept], its rest or nothing. *)
Lemma accepted_less kept :
  0 <= Amount (mt_Token msg) → Forall (same_terms al) kept →
  sound_grant (mkTransferAuthorization (before ++ kept ++ after)) →
  (∀ d, limit_in (mt_SourcePort msg) (mt_SourceChannel msg) d kept = amount_of d (spend_limit al) - amount_of d [mt_Token msg]) →
  accepted a msg (grant_of (before ++ kept ++ after)).
Proof.
  intros Hpos Hkept Hs Hlim. rewrite Forall_forall in Hkept.
  assert (∀ a', grant_of (before ++ kept ++ after) = Some a' → a' = mkTransferAuthorization (before ++ kept ++ after)) as Hg.
  { intros a'. by destruct (before ++ kept ++ after); intros [= <-]. }
  split; [done| |by intros a' ->%Hg|].
  - intros a' al' ->%Hg. subst a. cbn [Allocations]. rewrite !elem_of_app. setoid_rewrite elem_of_app. setoid_rewrite elem_of_cons.
    intros [?|[?|?]]; [exists al'|exists al|exists al']; (split; [by auto|first [done|by apply Hkept]]).
  - intros p c d _. rewrite limit_left_of. apply fewer; [apply limit_in_nonneg, Hs|done|].
    apply (limits_after msg before after al sound found kept); [|done]. apply of_channel_true in found as [Hp Hc].
    intros x (? & ? & _)%Hkept. split; congruence.
Qed.
End accepting.

Lemma accept_ok a msg r :
  sound_grant a → Accept a (Some msg) = Ok r → accepted a msg (grant_after a r).
Proof.
  destruct a as [l]. intros Hs (before & al & after & Heq & Hal & Hr)%accept_loop_found. cbn [app Allocations] in Heq. subst l.
  pose proof (proj1 (of_channel_true _ _ _) Hal) as [Hp Hc].
  assert (Coins_Validate (spend_limit al) = Ok tt) as Hv.
  { destruct Hs as [Hs _]. cbn [Allocations] in Hs. by apply Forall_app in Hs as [_ [? _]%Forall_cons]. }
  apply obind_ok in Hr as ([] & Hallow%check_ok & (limit & Hlim & Hr)%obind_ok).
  apply amount_of_ok in Hlim; [|done]. subst limit.
  assert (allows (mkTransferAuthorization (before ++ al :: after)) msg) as Hex.
  { exists al. split_and!; [apply elem_of_app; right; apply list_elem_of_here|done|done|by apply isAllowedAddress_ok]. }
  destruct (Z.eqb_spec (amount_of (Denom (mt_Token msg)) (spend_limit al)) UnboundedSpendLimit) as [Hu|Hu].
  { injection Hr as <-. by apply accepted_unbounded. }
  apply obind_ok in Hr as ([left neg] & Hsub & ([] & Hneg%check_ok & Hr)%obind_ok). apply negb_true_iff in Hneg.
  destruct (safe_sub_ok _ _ _ _ Hv Hsub Hneg) as (Hpos & Hvl & Hleft). destruct (Coins_IsZero left) eqn:Hz.
  - replace (grant_after _ r) with (grant_of (before ++ [] ++ after)) by (simpl; destruct (before ++ after); by injection Hr as <-).
    apply accepted_less; [done..|by constructor|by eapply sound_keep|]. intros d. pose proof (coins_zero_ok _ Hvl Hz d) as Hd.
    rewrite Hleft in Hd. simpl in *. lia.
  - injection Hr as <-. replace (grant_after _ _) with (grant_of (before ++ [set_limit left al] ++ after)) by (by destruct before).
    apply accepted_less; [done..|by repeat constructor|by eapply sound_replace|]. intros d. cbn [limit_in].
    rewrite (proj2 (of_channel_true _ _ _)) by (by split). apply Hleft.
Qed.

(** [C20] A grant is never overspent.  Start with an authorization that passed its
    validation, and let its grantee get any messages accepted, one after the other, x/authz
    keeping what each answer says.  For every channel and denomination whose limit is
    not the unbounded one, what the messages transferred and what is left of the limit
    add up to the limit at the start, and what is left is never negative; and every
    message went to a receiver the allocation of its channel allows. *)
Theorem grant_never_overspent a l o :
  TransferAuthorization_ValidateBasic a = Ok tt → spends a l o →
  (∀ p c d, limit_in p c d (Allocations a) < UnboundedSpendLimit →
     transferred p c d l + limit_left p c d o = limit_in p c d (Allocations a) ∧ 0 <= limit_left p c d o) ∧
  ∀ msg, msg ∈ l → allows a msg.
Proof.
  intros Hs%validated_sound Hrun. induction Hrun as [a|a msg r Hr Hg|a msg r a' l o Hr Hg _ IH].
  - split; [|by intros msg ?%not_elem_of_nil]. intros p c d _. split; [done|]. apply limit_in_nonneg, Hs.
  - apply accept_ok in Hr; [|done]. rewrite Hg in Hr. destruct Hr as [Hal _ _ Hlim]. split.
    + intros p c d Hlt. destruct (Hlim p c d Hlt) as [Heq Hpos]. simpl in *. lia.
    + by intros m ->%list_elem_of_singleton.
  - apply accept_ok in Hr; [|done]. rewrite Hg in Hr. destruct Hr as [Hal Hkept Hs' Hlim].
    destruct (IH (Hs' a' eq_refl)) as [IH1 IH2]. split.
    + intros p c d Hlt. destruct (Hlim p c d Hlt) as [Heq Hpos]. cbn [limit_left] in *.
      destruct (IH1 p c d) as [? ?]; [lia|]. simpl in *. lia.
    + intros m [->|Hm]%elem_of_cons; [done|]. destruct (IH2 m Hm) as (al' & Hin & Hp & Hc & Hr).
      destruct (Hkept a' al' eq_refl Hin) as (al & Hal' & Hap & Hac & Hl). exists al. rewrite Hap, Hac, Hl. auto.
Qed.

End authorization.
