(* ===== verification/Transfer.v ===== *)
(** * ICS 20: the token transfer application

    Models src/modules/apps/transfer: the keeper (keeper.go, relay.go,
    msg_server.go, invariants.go, genesis.go) and the callbacks it registers with
    the IBC router (ibc_module.go).  Tokens move by calls on the bank keeper of
    the SDK, an interface: the operations the module calls, and what they do to
    balances and supplies. *)

From stdpp Require Import gmap strings list sorting.
From Stdlib Require Import ZArith Lia Ascii.
From S2P Require Import Prelude GoStd Sha256 Host Chain ModuleStore Sums Height Capability Port Commitment LightClient Client ConnTypes ChanTypes Env Connection Channel ChanHandshake Packet MsgServer TransferTypes.

(** ** The interfaces of expected_keepers.go *)

(** x/bank keeps its balances in a store of its own.  [GetBalance] and
    [GetSupply] read it; a set of coins is a list. *)
Class BankKeeper := {
  bank_storeKey : string;
  GetModuleAddress : string → Address;
  GetBalance : Chain → Address → string → Z;
  GetSupply : Chain → string → Z;
  GetAllBalances : Chain → Address → list Coin;
  BlockedAddr : Address → bool;
  IsSendEnabledCoin : Chain → Coin → bool;
  SendCoins : Context → Address → Address → list Coin → M ();
  MintCoins : Context → string → list Coin → M ();
  BurnCoins : Context → string → list Coin → M ();
  SendCoinsFromModuleToAccount : Context → string → Address → list Coin → M ();
  SendCoinsFromAccountToModule : Context → Address → string → list Coin → M ()
}.

(** What is moved from one account to another, what is created, what is burnt. *)

Section bank.
Context `{BankKeeper}.

Definition moved (from to : Address) (cs : list Coin) (s s' : Chain) : Prop :=
  (∀ a d, GetBalance s' a d = GetBalance s a d - delta (bool_decide (a = from)) (amount_of d cs)
                              + delta (bool_decide (a = to)) (amount_of d cs)) ∧
  (∀ d, GetSupply s' d = GetSupply s d).

Definition minted (to : Address) (cs : list Coin) (s s' : Chain) : Prop :=
  (∀ a d, GetBalance s' a d = GetBalance s a d + delta (bool_decide (a = to)) (amount_of d cs)) ∧
  (∀ d, GetSupply s' d = GetSupply s d + amount_of d cs).

Definition burnt (from : Address) (cs : list Coin) (s s' : Chain) : Prop :=
  (∀ a d, GetBalance s' a d = GetBalance s a d - delta (bool_decide (a = from)) (amount_of d cs)) ∧
  (∀ d, GetSupply s' d = GetSupply s d - amount_of d cs).

End bank.

Class BankLaws `{BankKeeper, SdkTypes} := {
  bank_local s s' :
    stores s' !! bank_storeKey = stores s !! bank_storeKey →
    (∀ a d, GetBalance s' a d = GetBalance s a d) ∧ (∀ d, GetSupply s' d = GetSupply s d);
  send_frame ctx a b cs s : only_store bank_storeKey s (snd (SendCoins ctx a b cs s));
  mint_frame ctx m cs s : only_store bank_storeKey s (snd (MintCoins ctx m cs s));
  burn_frame ctx m cs s : only_store bank_storeKey s (snd (BurnCoins ctx m cs s));
  to_account_frame ctx m a cs s :
    only_store bank_storeKey s (snd (SendCoinsFromModuleToAccount ctx m a cs s));
  to_module_frame ctx a m cs s :
    only_store bank_storeKey s (snd (SendCoinsFromAccountToModule ctx a m cs s));
  send_ok ctx a b cs s s' : SendCoins ctx a b cs s = (Ok tt, s') → moved a b cs s s';
  mint_ok ctx m cs s s' : MintCoins ctx m cs s = (Ok tt, s') → minted (GetModuleAddress m) cs s s';
  burn_ok ctx m cs s s' : BurnCoins ctx m cs s = (Ok tt, s') → burnt (GetModuleAddress m) cs s s';
  to_account_ok ctx m a cs s s' :
    SendCoinsFromModuleToAccount ctx m a cs s = (Ok tt, s') → moved (GetModuleAddress m) a cs s s';
  to_module_ok ctx a m cs s s' :
    SendCoinsFromAccountToModule ctx a m cs s = (Ok tt, s') → moved a (GetModuleAddress m) cs s s';
  balance_nonneg s a d : 0 <= GetBalance s a d;
  all_balances_ok s a :
    Coins_Validate (GetAllBalances s a) = Ok tt ∧ ∀ d, amount_of d (GetAllBalances s a) = GetBalance s a d
}.

(** [porttypes.ICS4Wrapper]: what an application sends packets through, the
    channel keeper or a middleware above it. *)
Record ICS4Wrapper := mkICS4Wrapper {
  ics4_SendPacket : Context → option Capability → string → string → Height → Z → bytes → M Z;
  ics4_WriteAcknowledgement : Context → option Capability → Packet → option AppAck → M ();
  ics4_GetAppVersion : string → string → M (option string)
}.

(** The channel keeper as one. *)
Definition channel_ics4 `{IbcEnv} : ICS4Wrapper := {|
  ics4_SendPacket := SendPacket;
  ics4_WriteAcknowledgement _ := WriteAcknowledgement;
  ics4_GetAppVersion := GetAppVersion
|}.

(** What else the module is built on: its store key, the codecs of what it stores
    and of its packets, and the addresses of the SDK. *)
Class TransferEnv := {
  tr_sdk :: SdkTypes;
  tr_bank :: BankKeeper;
  tr_accounts :: AccountTypes;
  tr_storeKey : string;
  tr_params :: Proto TransferParams;
  tr_trace :: Proto DenomTrace;
  tr_int :: Proto Z;
  PacketData_GetBytes : FungibleTokenPacketData → bytes;
  PacketData_UnmarshalJSON : bytes → option FungibleTokenPacketData;
  Ack_GetBytes : Acknowledgement → bytes;
  Ack_UnmarshalJSON : bytes → option Acknowledgement
}.

Class TransferLaws `{TransferEnv} := {
  tr_sdk_laws :: SdkTypesLaws;
  tr_bank_laws :: BankLaws;
  tr_stores : tr_storeKey ≠ bank_storeKey;
  tr_params_laws :: ProtoLaws TransferParams;
  tr_trace_laws :: ProtoLaws DenomTrace;
  (** Protobuf leaves out empty strings: only the empty trace has no bytes. *)
  tr_trace_nonempty dt : Path dt ≠ "" → Marshal dt ≠ "";
  tr_int_laws :: ProtoLaws Z;
  tr_int_nonempty :: ProtoNonEmpty Z;
  (** An address that was read can be printed and read again. *)
  bech32_roundtrip str a :
    AccAddressFromBech32 str = Some a → AccAddressFromBech32 (AccAddress_String a) = Some a
}.

Section transfer.
Context {E : IbcEnv} {T : TransferEnv}.
(** The wrapper packets are sent through, and the authority of the keeper. *)
Context (ics4 : ICS4Wrapper) (authority : string).

(** *** The store of the module *)

Definition tr_store (s : Chain) : KVStore := mod_store tr_storeKey s.
Definition set_tr_store (kv : KVStore) (s : Chain) : Chain := set_mod_store tr_storeKey kv s.

Definition tr_get (k : string) : M (option bytes) := mod_get tr_storeKey k.
Definition tr_has (k : string) : M bool := mod_has tr_storeKey k.
Definition tr_set (k : string) (v : bytes) : M () := mod_set tr_storeKey k v.
Definition tr_delete (k : string) : M () := mod_delete tr_storeKey k.

(** ** keeper.go *)

Definition Transfer_hasCapability (portID : string) : M bool :=
  cap ← GetCapability Transfer_ModuleName (PortPath portID);
  mret (bool_decide (is_Some cap)).

Definition Transfer_ClaimCapability (cap : option Capability) (name : string) : M () :=
  ClaimCapability Transfer_ModuleName cap name.

Definition Transfer_AuthenticateCapability (cap : option Capability) (name : string) : M bool :=
  AuthenticateCapability Transfer_ModuleName cap name.

Definition Transfer_BindPort (portID : string) : M () :=
  capability ← BindPort portID;
  Transfer_ClaimCapability (Some capability) (PortPath portID).

Definition GetPort : M string := bz ← tr_get PortKey; mret (default "" bz).
Definition SetPort (portID : string) : M () := tr_set PortKey portID.

Definition Transfer_GetParams : M TransferParams :=
  bz ← tr_get Transfer_ParamsKey;
  bz ← orPanic bz;
  lift (MustUnmarshal bz).
Definition Transfer_SetParams (params : TransferParams) : M () :=
  tr_set Transfer_ParamsKey (Marshal params).

Definition GetDenomTrace (denomTraceHash : bytes) : M (option DenomTrace) :=
  bz ← tr_get (prefixed DenomTraceKey denomTraceHash);
  match non_empty bz with
  | None => mret None
  | Some bz => denomTrace ← lift (MustUnmarshal bz); mret (Some denomTrace)
  end.

Definition HasDenomTrace (denomTraceHash : bytes) : M bool :=
  tr_has (prefixed DenomTraceKey denomTraceHash).

Definition SetDenomTrace (denomTrace : DenomTrace) : M () :=
  tr_set (prefixed DenomTraceKey (DenomTrace_Hash denomTrace)) (Marshal denomTrace).

(** The loop of the iterations over the store, which stops when [cb] says so. *)
Fixpoint iterate_values {A X} (decode : string * bytes → Outcome (option A))
    (entries : list (string * bytes)) (cb : A → X → Outcome (X * bool)) (acc : X) : Outcome X :=
  match entries with
  | [] => Ok acc
  | e :: l =>
      a ← decode e;
      match a with
      | None => iterate_values decode l cb acc
      | Some a => '(acc', stop) ← cb a acc; if (stop : bool) then Ok acc' else iterate_values decode l cb acc'
      end
  end.

Definition IterateDenomTraces {X} (cb : DenomTrace → X → Outcome (X * bool)) (acc : X) : M X :=
  kv ← gets tr_store;
  lift (iterate_values (λ e, t ← MustUnmarshal e.2; Ok (Some t)) (KVStorePrefixIterator kv DenomTraceKey)
    cb acc).

(** [Traces.Sort]. *)
Definition trace_le (a b : DenomTrace) : Prop :=
  String.leb (GetFullDenomPath a) (GetFullDenomPath b) = true.
#[local] Instance trace_le_dec : RelDecision trace_le.
Proof. intros x y. unfold trace_le. apply _. Defined.
Definition Traces_Sort (t : list DenomTrace) : list DenomTrace := merge_sort trace_le t.

Definition GetAllDenomTraces : M (list DenomTrace) :=
  traces ← IterateDenomTraces (λ t l, Ok (l ++ [t], false)) [];
  mret (Traces_Sort traces).

Definition GetTotalEscrowForDenom (denom : string) : M Coin :=
  bz ← tr_get (TotalEscrowForDenomKey denom);
  match non_empty bz with
  | None => lift (NewCoin denom 0)
  | Some bz => amount ← lift (MustUnmarshal bz); lift (NewCoin denom amount)
  end.

Definition SetTotalEscrowForDenom (coin : Coin) : M () :=
  if Amount coin <? 0 then panic
  else
    let key := TotalEscrowForDenomKey (Denom coin) in
    if Amount coin =? 0 then tr_delete key else tr_set key (Marshal (Amount coin)).

(** [strings.TrimPrefix] *)
Definition TrimPrefix (s p : string) : string :=
  if HasPrefix s p then str_drop (String.length p) s else s.

Definition escrow_entry (e : string * bytes) : Outcome (option Coin) :=
  let denom := TrimPrefix e.1 (KeyTotalEscrowPrefix +:+ "/") in
  if is_blank denom then Ok None
  else match Unmarshal e.2 with
       | None => Ok None
       | Some amount => c ← NewCoin denom amount; Ok (Some c)
       end.

Definition IterateTokensInEscrow {X} (prefix : bytes) (cb : Coin → X → Outcome (X * bool)) (acc : X) : M X :=
  kv ← gets tr_store;
  lift (iterate_values escrow_entry (KVStorePrefixIterator kv prefix) cb acc).

Definition GetAllTotalEscrowed : M (list Coin) :=
  IterateTokensInEscrow KeyTotalEscrowPrefix
    (λ denomEscrow escrows, cs ← Coins_Add escrows [denomEscrow]; Ok (cs, false)) [].

(** ** relay.go *)

Definition DenomPathFromHash (denom : string) : M string :=
  let hexHash := str_drop (String.length (DenomPrefix +:+ "/")) denom in
  match ParseHexHash hexHash with
  | Ok hash =>
      denomTrace ← GetDenomTrace hash;
      denomTrace ← orErr ErrTraceNotFound denomTrace;
      mret (GetFullDenomPath denomTrace)
  | Err _ => fail ErrInvalidDenomForTransfer
  | Panic => panic
  end.

Definition escrowToken (ctx : Context) (sender escrowAddress : Address) (token : Coin) : M () :=
  coins ← lift (NewCoins [token]);
  SendCoins ctx sender escrowAddress coins;;
  currentTotalEscrow ← GetTotalEscrowForDenom (Denom token);
  newTotalEscrow ← lift (Coin_Add currentTotalEscrow token);
  SetTotalEscrowForDenom newTotalEscrow.

Definition unescrowToken (ctx : Context) (escrowAddress receiver : Address) (token : Coin) : M () :=
  coins ← lift (NewCoins [token]);
  SendCoins ctx escrowAddress receiver coins;;
  currentTotalEscrow ← GetTotalEscrowForDenom (Denom token);
  newTotalEscrow ← lift (Coin_Sub currentTotalEscrow token);
  SetTotalEscrowForDenom newTotalEscrow.

Definition sendTransfer (ctx : Context) (sourcePort sourceChannel : string) (token : Coin)
    (sender : Address) (receiver : string) (timeoutHeight : Height) (timeoutTimestamp : Z)
    (memo : string) : M Z :=
  channel ← GetChannel sourcePort sourceChannel;
  channel ← orErr ErrChannelNotFound channel;
  channelCap ← GetCapability Transfer_ModuleName (ChannelCapabilityPath sourcePort sourceChannel);
  channelCap ← orErr ErrChannelCapabilityNotFound channelCap;
  fullDenomPath ← (if HasPrefix (Denom token) "ibc/" then DenomPathFromHash (Denom token)
                   else mret (Denom token));
  (if SenderChainIsSource sourcePort sourceChannel fullDenomPath then
     let escrowAddress := GetEscrowAddress sourcePort sourceChannel in
     escrowToken ctx sender escrowAddress token
   else
     coins ← lift (NewCoins [token]);
     SendCoinsFromAccountToModule ctx sender Transfer_ModuleName coins;;
     coins ← lift (NewCoins [token]);
     orPanics (BurnCoins ctx Transfer_ModuleName coins));;
  let packetData := NewFungibleTokenPacketData fullDenomPath (Int_String (Amount token))
    (AccAddress_String sender) receiver memo in
  ics4_SendPacket ics4 ctx (Some channelCap) sourcePort sourceChannel timeoutHeight timeoutTimestamp
    (PacketData_GetBytes packetData).

(** The denomination a token has on this chain once the prefix of the sending
    channel is removed. *)
Definition unescrow_denom (unprefixedDenom : string) : string :=
  let denomTrace := ParseDenomTrace unprefixedDenom in
  if negb (IsNativeDenom denomTrace) then IBCDenom denomTrace else unprefixedDenom.

Definition Transfer_OnRecvPacket (ctx : Context) (packet : Packet) (data : FungibleTokenPacketData) :
    M () :=
  lift (PacketData_ValidateBasic data);;
  params ← Transfer_GetParams;
  require (ReceiveEnabled params) ErrReceiveDisabled;;
  receiver ← orErr errUnregistered (AccAddressFromBech32 (ft_Receiver data));
  transferAmount ← orErr ErrInvalidAmount (NewIntFromString (ft_Amount data));
  if ReceiverChainIsSource (SourcePort packet) (SourceChannel packet) (ft_Denom data) then
    let voucherPrefix := GetDenomPrefix (SourcePort packet) (SourceChannel packet) in
    let unprefixedDenom := str_drop (String.length voucherPrefix) (ft_Denom data) in
    token ← lift (NewCoin (unescrow_denom unprefixedDenom) transferAmount);
    require (negb (BlockedAddr receiver)) ErrUnauthorized;;
    let escrowAddress := GetEscrowAddress (DestinationPort packet) (DestinationChannel packet) in
    unescrowToken ctx escrowAddress receiver token
  else
    let sourcePrefix := GetDenomPrefix (DestinationPort packet) (DestinationChannel packet) in
    let prefixedDenom := sourcePrefix +:+ ft_Denom data in
    let denomTrace := ParseDenomTrace prefixedDenom in
    let traceHash := DenomTrace_Hash denomTrace in
    known ← HasDenomTrace traceHash;
    (if negb known then SetDenomTrace denomTrace else mret tt);;
    let voucherDenom := IBCDenom denomTrace in
    voucher ← lift (NewCoin voucherDenom transferAmount);
    coins ← lift (NewCoins [voucher]);
    MintCoins ctx Transfer_ModuleName coins;;
    coins ← lift (NewCoins [voucher]);
    SendCoinsFromModuleToAccount ctx Transfer_ModuleName receiver coins.

Definition refundPacketToken (ctx : Context) (packet : Packet) (data : FungibleTokenPacketData) : M () :=
  let trace := ParseDenomTrace (ft_Denom data) in
  transferAmount ← orErr ErrInvalidAmount (NewIntFromString (ft_Amount data));
  token ← lift (NewCoin (IBCDenom trace) transferAmount);
  sender ← orErr errUnregistered (AccAddressFromBech32 (ft_Sender data));
  if SenderChainIsSource (SourcePort packet) (SourceChannel packet) (ft_Denom data) then
    let escrowAddress := GetEscrowAddress (SourcePort packet) (SourceChannel packet) in
    unescrowToken ctx escrowAddress sender token
  else
    coins ← lift (NewCoins [token]);
    MintCoins ctx Transfer_ModuleName coins;;
    coins ← lift (NewCoins [token]);
    orPanics (SendCoinsFromModuleToAccount ctx Transfer_ModuleName sender coins).

Definition Transfer_OnAcknowledgementPacket (ctx : Context) (packet : Packet)
    (data : FungibleTokenPacketData) (ack : Acknowledgement) : M () :=
  match ack_Response ack with
  | Some (Error_ _) => refundPacketToken ctx packet data
  | _ => mret tt
  end.

Definition Transfer_OnTimeoutPacket (ctx : Context) (packet : Packet) (data : FungibleTokenPacketData) :
    M () := refundPacketToken ctx packet data.

(** ** msg_server.go *)

Definition Transfer (ctx : Context) (msg : MsgTransfer) : M Z :=
  params ← Transfer_GetParams;
  require (SendEnabled params) ErrSendDisabled;;
  sender ← orErr errUnregistered (AccAddressFromBech32 (mt_Sender msg));
  enabled ← gets (λ s, IsSendEnabledCoin s (mt_Token msg));
  require enabled ErrSendDisabled;;
  require (negb (BlockedAddr sender)) ErrUnauthorized;;
  sendTransfer ctx (mt_SourcePort msg) (mt_SourceChannel msg) (mt_Token msg) sender (mt_Receiver msg)
    (mt_TimeoutHeight msg) (mt_TimeoutTimestamp msg) (mt_Memo msg).

Definition Transfer_UpdateParams (msgAuthority : string) (params : TransferParams) : M () :=
  require (bool_decide (authority = msgAuthority)) ErrUnauthorized;;
  Transfer_SetParams params.

(** ** genesis.go *)

Definition Transfer_InitGenesis (state : TransferGenesis) : M () :=
  SetPort (tg_PortId state);;
  for_each (tg_DenomTraces state) SetDenomTrace;;
  has ← Transfer_hasCapability (tg_PortId state);
  (if negb has then orPanics (Transfer_BindPort (tg_PortId state)) else mret tt);;
  Transfer_SetParams (tg_Params state);;
  for_each (tg_TotalEscrowed state) SetTotalEscrowForDenom.

Definition Transfer_ExportGenesis : M TransferGenesis :=
  portID ← GetPort;
  traces ← GetAllDenomTraces;
  params ← Transfer_GetParams;
  escrowed ← GetAllTotalEscrowed;
  mret (mkTransferGenesis portID traces params escrowed).

(** ** invariants.go *)

(** The loop over the transfer channels. *)
Fixpoint actual_escrowed (portID : string) (channels : list IdentifiedChannel) (total : list Coin) :
    M (list Coin) :=
  match channels with
  | [] => mret total
  | channel :: l =>
      let escrowAddress := GetEscrowAddress portID (ich_ChannelId channel) in
      escrowBalances ← gets (λ s, GetAllBalances s escrowAddress);
      total ← lift (Coins_Add total escrowBalances);
      actual_escrowed portID l total
  end.

(** Whether the invariant is broken. *)
Definition TotalEscrowPerDenomInvariants : M bool :=
  expectedTotalEscrowed ← GetAllTotalEscrowed;
  portID ← GetPort;
  transferChannels ← GetAllChannelsWithPortPrefix portID;
  actualTotalEscrowed ← actual_escrowed portID transferChannels [];
  mret (negb (IsAllGTE actualTotalEscrowed expectedTotalEscrowed)).

(** ** ibc_module.go *)

Definition ValidateTransferChannelParams (order : Order) (portID channelID : string) : M () :=
  channelSequence ← lift (ParseChannelSequence channelID);
  require (negb (2 ^ 32 - 1 <? channelSequence)) ErrMaxTransferChannels;;
  require (bool_decide (order = UNORDERED)) ErrInvalidChannelOrdering;;
  boundPort ← GetPort;
  require (bool_decide (boundPort = portID)) ErrInvalidPort.

Definition Transfer_OnChanOpenInit (ctx : Context) (order : Order) (connectionHops : list string)
    (portID channelID : string) (chanCap : option Capability) (counterparty : Counterparty)
    (version : string) : M string :=
  ValidateTransferChannelParams order portID channelID;;
  let version := if is_blank version then Transfer_Version else version in
  require (bool_decide (version = Transfer_Version)) Transfer_ErrInvalidVersion;;
  Transfer_ClaimCapability chanCap (ChannelCapabilityPath portID channelID);;
  mret version.

Definition Transfer_OnChanOpenTry (ctx : Context) (order : Order) (connectionHops : list string)
    (portID channelID : string) (chanCap : option Capability) (counterparty : Counterparty)
    (counterpartyVersion : string) : M string :=
  ValidateTransferChannelParams order portID channelID;;
  require (bool_decide (counterpartyVersion = Transfer_Version)) Transfer_ErrInvalidVersion;;
  Transfer_ClaimCapability chanCap (ChannelCapabilityPath portID channelID);;
  mret Transfer_Version.

Definition Transfer_OnChanOpenAck (ctx : Context) (portID channelID counterpartyChannelID : string)
    (counterpartyVersion : string) : M () :=
  require (bool_decide (counterpartyVersion = Transfer_Version)) Transfer_ErrInvalidVersion.

(** The acknowledgement as the interface [exported.Acknowledgement]. *)
Definition app_ack (ack : Acknowledgement) : AppAck :=
  mkAppAck (Acknowledgement_Success ack) (Ack_GetBytes ack).

Definition IBCModule_OnRecvPacket (ctx : Context) (packet : Packet) (relayer : Address) :
    M (option AppAck) := λ s,
  let ack := NewResultAcknowledgement (String (byte_of 1) "") in
  match PacketData_UnmarshalJSON (Data packet) with
  | None => (Ok (Some (app_ack (NewErrorAcknowledgement ErrInvalidType))), s)
  | Some data =>
      match Transfer_OnRecvPacket ctx packet data s with
      | (Ok _, s') => (Ok (Some (app_ack ack)), s')
      | (Err err, s') => (Ok (Some (app_ack (NewErrorAcknowledgement err))), s')
      | (Panic, s') => (Panic, s')
      end
  end.

Definition IBCModule_OnAcknowledgementPacket (ctx : Context) (packet : Packet) (acknowledgement : bytes)
    (relayer : Address) : M () :=
  ack ← orErr ErrUnknownRequest (Ack_UnmarshalJSON acknowledgement);
  data ← orErr ErrUnknownRequest (PacketData_UnmarshalJSON (Data packet));
  Transfer_OnAcknowledgementPacket ctx packet data ack.

Definition IBCModule_OnTimeoutPacket (ctx : Context) (packet : Packet) (relayer : Address) : M () :=
  data ← orErr ErrUnknownRequest (PacketData_UnmarshalJSON (Data packet));
  Transfer_OnTimeoutPacket ctx packet data.

Definition transfer_module : IBCModule := {|
  OnChanOpenInit := Transfer_OnChanOpenInit;
  OnChanOpenTry := Transfer_OnChanOpenTry;
  OnChanOpenAck := Transfer_OnChanOpenAck;
  OnChanOpenConfirm _ _ _ := mret tt;
  OnChanCloseInit _ _ _ := fail ErrInvalidRequest;
  OnChanCloseConfirm _ _ _ := mret tt;
  OnRecvPacket := IBCModule_OnRecvPacket;
  OnAcknowledgementPacket := IBCModule_OnAcknowledgementPacket;
  OnTimeoutPacket := IBCModule_OnTimeoutPacket
|}.

End transfer.
