(* ===== verification/Fee.v ===== *)
(** * ICS 29: the fee middleware

    Models src/modules/apps/29-fee: the keeper (keeper.go), the escrow and the
    distribution of fees (escrow.go), the message handlers (msg_server.go), the
    wrapper of packet sending (relay.go), genesis, and the middleware that stands
    between the IBC router and an application (ibc_middleware.go), a function from
    the callbacks of the application to callbacks.

    Fees are distributed on a cached context: [ctx.CacheContext] is the chain the
    code works on, and returning without calling [writeFn] is [rollback]. *)

From stdpp Require Import gmap strings list.
From Stdlib Require Import ZArith Lia Ascii.
From S2P Require Import Prelude GoStd Host Chain ModuleStore Sums Height Capability Port Commitment LightClient Client ConnTypes ChanTypes Env Connection Channel ChanHandshake Packet MsgServer TransferTypes FeeTypes Transfer.

(** What the module is built on: the SDK's coins and addresses, the bank, the
    accounts, its store key and its codecs.  [GetAccount] is nil for an unknown
    address. *)
Class FeeEnv := {
  fee_sdk :: SdkTypes;
  fee_bank :: BankKeeper;
  fee_accounts :: AccountTypes;
  fee_coins :: CoinsChecks;
  fee_storeKey : string;
  fee_fees :: Proto PacketFees;
  HasBalance : Chain → Address → Coin → bool;
  IsSendEnabledCoins : Chain → list Coin → Outcome ();
  Account : Type;
  GetAccount : Chain → Address → option Account;
  Metadata_MarshalJSON : Metadata → Outcome bytes;
  Metadata_UnmarshalJSON : bytes → option Metadata;
  Incentivized_MarshalJSON : IncentivizedAcknowledgement → bytes;
  Incentivized_UnmarshalJSON : bytes → option IncentivizedAcknowledgement
}.

(** The documented behaviour the theorems use.  Valid coins are positive and hold
    a denomination once; a module pays any account that is not blocked whatever its
    balance covers, and refuses a blocked one; the account of the module is blocked
    for outside payments, as module accounts are. *)
Class FeeLaws `{FeeEnv} := {
  fee_sdk_laws :: SdkTypesLaws;
  fee_bank_laws :: BankLaws;
  fee_stores : fee_storeKey ≠ bank_storeKey;
  fee_fees_laws :: ProtoLaws PacketFees;
  (** Protobuf leaves out empty lists: only they have no bytes. *)
  fee_fees_nonempty l : l ≠ [] → Marshal (mkPacketFees l) ≠ "";
  coins_valid_ok cs c :
    Coins_Validate cs = Ok tt → c ∈ cs → 0 < Amount c ∧ amount_of (Denom c) cs = Amount c;
  coins_is_valid_ok cs : Coins_IsValid cs = true → Coins_Validate cs = Ok tt;
  has_balance_ok s a c : HasBalance s a c = true ↔ Amount c <= GetBalance s a (Denom c);
  to_account_blocked ctx m a cs s :
    BlockedAddr a = true → ∃ e, SendCoinsFromModuleToAccount ctx m a cs s = (Err e, s);
  to_account_covered ctx m a cs s :
    BlockedAddr a = false → Coins_Validate cs = Ok tt →
    (∀ d, amount_of d cs <= GetBalance s (GetModuleAddress m) d) →
    ∃ s', SendCoinsFromModuleToAccount ctx m a cs s = (Ok tt, s');
  fee_account_blocked : BlockedAddr (GetModuleAddress Fee_ModuleName) = true;
  metadata_roundtrip m bz : Metadata_MarshalJSON m = Ok bz → Metadata_UnmarshalJSON bz = Some m;
  incentivized_roundtrip a : Incentivized_UnmarshalJSON (Incentivized_MarshalJSON a) = Some a
}.

Section fee.
Context {E : IbcEnv} {F : FeeEnv}.
(** The wrapper packets are sent through: core IBC or another middleware. *)
Context (ics4 : ICS4Wrapper).

(** ** keeper.go *)

Definition fee_store (s : Chain) : KVStore := mod_store fee_storeKey s.
Definition fee_get (k : string) : M (option bytes) := mod_get fee_storeKey k.
Definition fee_has (k : string) : M bool := mod_has fee_storeKey k.
Definition fee_set (k : string) (v : bytes) : M () := mod_set fee_storeKey k v.
Definition fee_delete (k : string) : M () := mod_delete fee_storeKey k.

(** The value of a flag that is set. *)
Definition flag : bytes := String (byte_of 1) "".

Definition GetFeeModuleAddress : Address := GetModuleAddress Fee_ModuleName.

Definition EscrowAccountHasBalance (coins : list Coin) : M bool :=
  gets (λ s, forallb (HasBalance s GetFeeModuleAddress) coins).

Definition lockFeeModule : M () := fee_set KeyLocked flag.
Definition IsLocked : M bool := fee_has KeyLocked.

Definition SetFeeEnabled (portID channelID : string) : M () :=
  fee_set (KeyFeeEnabled portID channelID) flag.
Definition DeleteFeeEnabled (portID channelID : string) : M () :=
  fee_delete (KeyFeeEnabled portID channelID).
Definition IsFeeEnabled (portID channelID : string) : M bool :=
  fee_has (KeyFeeEnabled portID channelID).

(** The iterations: every entry under a prefix, decoded; a key that does not parse
    panics. *)
Definition or_panic {A} (o : Outcome A) : Outcome A :=
  match o with Err _ => Panic | o => o end.
Definition collect {A} (prefix : bytes) (decode : string * bytes → Outcome A) : M (list A) :=
  kv ← gets fee_store;
  lift (mapM decode (KVStorePrefixIterator kv prefix)).

Definition GetAllFeeEnabledChannels : M (list FeeEnabledChannel) :=
  collect FeeEnabledKeyPrefix (λ e,
    '(portID, channelID) ← or_panic (ParseKeyFeeEnabled e.1);
    Ok (mkFeeEnabledChannel portID channelID)).

Definition GetPayeeAddress (relayerAddr channelID : string) : M (option string) :=
  fee_get (KeyPayee relayerAddr channelID).
Definition SetPayeeAddress (relayerAddr payeeAddr channelID : string) : M () :=
  fee_set (KeyPayee relayerAddr channelID) payeeAddr.
Definition GetAllPayees : M (list RegisteredPayee) :=
  collect PayeeKeyPrefix (λ e,
    '(relayerAddr, channelID) ← or_panic (ParseKeyPayeeAddress e.1);
    Ok (mkRegisteredPayee channelID relayerAddr e.2)).

Definition SetCounterpartyPayeeAddress (address counterpartyAddress channelID : string) : M () :=
  fee_set (KeyCounterpartyPayee address channelID) counterpartyAddress.
Definition GetCounterpartyPayeeAddress (address channelID : string) : M (option string) :=
  fee_get (KeyCounterpartyPayee address channelID).
Definition GetAllCounterpartyPayees : M (list RegisteredCounterpartyPayee) :=
  collect CounterpartyPayeeKeyPrefix (λ e,
    '(relayerAddr, channelID) ← or_panic (ParseKeyCounterpartyPayee e.1);
    Ok (mkRegisteredCounterpartyPayee channelID relayerAddr e.2)).

Definition SetRelayerAddressForAsyncAck (packetID : PacketId) (address : string) : M () :=
  fee_set (KeyRelayerAddressForAsyncAck packetID) address.
Definition GetRelayerAddressForAsyncAck (packetID : PacketId) : M (option string) :=
  fee_get (KeyRelayerAddressForAsyncAck packetID).
Definition GetAllForwardRelayerAddresses : M (list ForwardRelayerAddress) :=
  collect ForwardRelayerPrefix (λ e,
    packetID ← or_panic (ParseKeyRelayerAddressForAsyncAck e.1);
    Ok (mkForwardRelayerAddress e.2 packetID)).
Definition DeleteForwardRelayerAddress (packetID : PacketId) : M () :=
  fee_delete (KeyRelayerAddressForAsyncAck packetID).

Definition GetFeesInEscrow (packetID : PacketId) : M (option PacketFees) :=
  bz ← fee_get (KeyFeesInEscrow packetID);
  match non_empty bz with
  | None => mret None
  | Some bz => fees ← lift (MustUnmarshal bz); mret (Some fees)
  end.
Definition HasFeesInEscrow (packetID : PacketId) : M bool := fee_has (KeyFeesInEscrow packetID).
Definition SetFeesInEscrow (packetID : PacketId) (fees : PacketFees) : M () :=
  fee_set (KeyFeesInEscrow packetID) (Marshal fees).
Definition DeleteFeesInEscrow (packetID : PacketId) : M () := fee_delete (KeyFeesInEscrow packetID).

(** The entry of an escrowed packet: the packet of its key, the fees of its value. *)
Definition identified_fees (e : string * bytes) : Outcome IdentifiedPacketFees :=
  packetID ← or_panic (ParseKeyFeesInEscrow e.1);
  packetFees ← MustUnmarshal e.2;
  Ok (NewIdentifiedPacketFees packetID (pf_PacketFees packetFees)).

Definition GetIdentifiedPacketFeesForChannel (portID channelID : string) : M (list IdentifiedPacketFees) :=
  collect (KeyFeesInEscrowChannelPrefix portID channelID) identified_fees.
Definition GetAllIdentifiedPacketFees : M (list IdentifiedPacketFees) :=
  collect FeesInEscrowPrefix identified_fees.

(** ** escrow.go *)

Definition escrowPacketFee (ctx : Context) (packetID : PacketId) (packetFee : PacketFee) : M () :=
  refundAddr ← orErr errUnregistered (AccAddressFromBech32 (RefundAddress packetFee));
  refundAcc ← gets (λ s, GetAccount s refundAddr);
  require (bool_decide (is_Some (refundAcc))) ErrRefundAccNotFound;;
  coins ← lift (Fee_Total (pf_Fee packetFee));
  SendCoinsFromAccountToModule ctx refundAddr Fee_ModuleName coins;;
  feesInEscrow ← GetFeesInEscrow packetID;
  let fees := packetFee :: match feesInEscrow with Some f => pf_PacketFees f | None => [] end in
  SetFeesInEscrow packetID (NewPacketFees fees).

(** The second attempt runs on the cached context of the first. *)
Definition distributeFee (ctx : Context) (receiver refundAccAddress : Address) (fee : list Coin) : M () :=
  λ s,
  match SendCoinsFromModuleToAccount ctx Fee_ModuleName receiver fee s with
  | (Ok _, s1) => (Ok tt, s1)
  | (Panic, s1) => (Panic, rollback s s1)
  | (Err _, s1) =>
      if bool_decide (receiver = refundAccAddress) then (Ok tt, rollback s s1)
      else match SendCoinsFromModuleToAccount ctx Fee_ModuleName refundAccAddress fee s1 with
           | (Ok _, s2) => (Ok tt, s2)
           | (Panic, s2) => (Panic, rollback s s2)
           | (Err _, s2) => (Ok tt, rollback s s2)
           end
  end.

Definition distributePacketFeeOnAcknowledgement (ctx : Context)
    (refundAddr forwardRelayer reverseRelayer : Address) (packetFee : PacketFee) : M () :=
  (if negb (bool_decide (forwardRelayer = "")) && negb (BlockedAddr forwardRelayer)
   then distributeFee ctx forwardRelayer refundAddr (RecvFee (pf_Fee packetFee))
   else distributeFee ctx refundAddr refundAddr (RecvFee (pf_Fee packetFee)));;
  distributeFee ctx reverseRelayer refundAddr (AckFee (pf_Fee packetFee));;
  distributeFee ctx refundAddr refundAddr (TimeoutFee (pf_Fee packetFee)).

Definition distributePacketFeeOnTimeout (ctx : Context) (refundAddr timeoutRelayer : Address)
    (packetFee : PacketFee) : M () :=
  distributeFee ctx refundAddr refundAddr (RecvFee (pf_Fee packetFee));;
  distributeFee ctx refundAddr refundAddr (AckFee (pf_Fee packetFee));;
  distributeFee ctx timeoutRelayer refundAddr (TimeoutFee (pf_Fee packetFee)).

(** The loop of both distributions: [false] when the escrow account cannot cover a
    fee; a refund address that does not parse panics. *)
Fixpoint distribute_all (distribute : Address → PacketFee → M ()) (packetFees : list PacketFee) : M bool :=
  match packetFees with
  | [] => mret true
  | packetFee :: rest =>
      total ← lift (Fee_Total (pf_Fee packetFee));
      has ← EscrowAccountHasBalance total;
      if negb has then mret false
      else
        refundAddr ← orPanic (AccAddressFromBech32 (RefundAddress packetFee));
        distribute refundAddr packetFee;;
        distribute_all distribute rest
  end.

(** Run on a cached context that is written back only when the loop went through;
    otherwise the module is locked on the context itself. *)
Definition or_lock (loop : M bool) (continue : M ()) : M () := λ s,
  match loop s with
  | (Ok true, s1) => continue s1
  | (Ok false, s1) => lockFeeModule (rollback s s1)
  | (Err e, s1) => (Err e, rollback s s1)
  | (Panic, s1) => (Panic, rollback s s1)
  end.

Definition DistributePacketFeesOnAcknowledgement (ctx : Context) (forwardRelayer : string)
    (reverseRelayer : Address) (packetFees : list PacketFee) (packetID : PacketId) : M () :=
  let forwardAddr := default "" (AccAddressFromBech32 forwardRelayer) in
  or_lock (distribute_all (λ refundAddr, distributePacketFeeOnAcknowledgement ctx refundAddr forwardAddr
             reverseRelayer) packetFees)
    (DeleteFeesInEscrow packetID).

Definition DistributePacketFeesOnTimeout (ctx : Context) (timeoutRelayer : Address)
    (packetFees : list PacketFee) (packetID : PacketId) : M () :=
  or_lock (distribute_all (λ refundAddr, distributePacketFeeOnTimeout ctx refundAddr timeoutRelayer)
             packetFees)
    (DeleteFeesInEscrow packetID).

(** A call whose error is noted and otherwise ignored: its writes stay. *)
Definition attempt {A} (m : M A) : M bool := λ s,
  match m s with
  | (Ok _, s1) => (Ok true, s1)
  | (Err _, s1) => (Ok false, s1)
  | (Panic, s1) => (Panic, s1)
  end.

(** The inner loop of the refund: [None] when the account cannot cover a fee,
    otherwise whether a refund failed.  A send that fails leaves its writes on the
    cached context. *)
Fixpoint refund_fees (ctx : Context) (packetFees : list PacketFee) (failedToSendCoins : bool) :
    M (option bool) :=
  match packetFees with
  | [] => mret (Some failedToSendCoins)
  | packetFee :: rest =>
      total ← lift (Fee_Total (pf_Fee packetFee));
      has ← EscrowAccountHasBalance total;
      if negb has then mret None
      else match AccAddressFromBech32 (RefundAddress packetFee) with
           | None => refund_fees ctx rest true
           | Some refundAddr =>
               sent ← attempt (SendCoinsFromModuleToAccount ctx Fee_ModuleName refundAddr total);
               refund_fees ctx rest (failedToSendCoins || negb sent)
           end
  end.

Fixpoint refund_all (ctx : Context) (identified : list IdentifiedPacketFees) : M bool :=
  match identified with
  | [] => mret true
  | identifiedPacketFee :: rest =>
      failed ← refund_fees ctx (ipf_PacketFees identifiedPacketFee) false;
      match failed with
      | None => mret false
      | Some failedToSendCoins =>
          (if negb failedToSendCoins then DeleteFeesInEscrow (ipf_PacketId identifiedPacketFee)
           else mret tt);;
          refund_all ctx rest
      end
  end.

Definition RefundFeesOnChannelClosure (ctx : Context) (portID channelID : string) : M () :=
  identifiedPacketFees ← GetIdentifiedPacketFeesForChannel portID channelID;
  or_lock (refund_all ctx identifiedPacketFees) (mret tt).

(** ** relay.go *)

Definition incentivized_ack (ack : IncentivizedAcknowledgement) : AppAck :=
  mkAppAck (Incentivized_Success ack) (Incentivized_MarshalJSON ack).

Definition Fee_SendPacket : Context → option Capability → string → string → Height → Z → bytes → M Z :=
  ics4_SendPacket ics4.

Definition Fee_WriteAcknowledgement (ctx : Context) (chanCap : option Capability) (packet : Packet)
    (acknowledgement : option AppAck) : M () :=
  enabled ← IsFeeEnabled (DestinationPort packet) (DestinationChannel packet);
  if negb enabled then ics4_WriteAcknowledgement ics4 ctx chanCap packet acknowledgement
  else
    let packetID := NewPacketID (DestinationPort packet) (DestinationChannel packet) (Sequence packet) in
    relayer ← GetRelayerAddressForAsyncAck packetID;
    relayer ← orErr ErrRelayerNotFoundForAsyncAck relayer;
    forwardRelayer ← GetCounterpartyPayeeAddress relayer (DestinationChannel packet);
    acknowledgement ← orPanic acknowledgement;
    let ack := NewIncentivizedAcknowledgement (default "" forwardRelayer)
      (app_Acknowledgement acknowledgement) (app_Success acknowledgement) in
    DeleteForwardRelayerAddress packetID;;
    ics4_WriteAcknowledgement ics4 ctx chanCap packet (Some (incentivized_ack ack)).

Definition Fee_GetAppVersion (portID channelID : string) : M (option string) :=
  version ← ics4_GetAppVersion ics4 portID channelID;
  match version with
  | None => mret None
  | Some version =>
      enabled ← IsFeeEnabled portID channelID;
      if negb enabled then mret (Some version)
      else
        metadata ← orPanic (Metadata_UnmarshalJSON version);
        mret (Some (AppVersion metadata))
  end.

(** The middleware as the wrapper of the applications below it. *)
Definition fee_ics4 : ICS4Wrapper := {|
  ics4_SendPacket := Fee_SendPacket;
  ics4_WriteAcknowledgement := Fee_WriteAcknowledgement;
  ics4_GetAppVersion := Fee_GetAppVersion
|}.

(** ** msg_server.go *)

(** The channel exists and takes fees. *)
Definition require_fee_channel (portID channelID : string) : M () :=
  channel ← GetChannel portID channelID;
  require (bool_decide (is_Some (channel))) ErrChannelNotFound;;
  enabled ← IsFeeEnabled portID channelID;
  require enabled ErrFeeNotEnabled.

Definition RegisterPayee (msg : MsgRegisterPayee) : M () :=
  payee ← orErr errUnregistered (AccAddressFromBech32 (rp_Payee msg));
  require (negb (BlockedAddr payee)) ErrUnauthorized;;
  require_fee_channel (rp_PortId msg) (rp_ChannelId msg);;
  SetPayeeAddress (rp_Relayer msg) (rp_Payee msg) (rp_ChannelId msg).

Definition RegisterCounterpartyPayee (msg : MsgRegisterCounterpartyPayee) : M () :=
  require_fee_channel (rcp_PortId msg) (rcp_ChannelId msg);;
  SetCounterpartyPayeeAddress (rcp_Relayer msg) (rcp_CounterpartyPayee msg) (rcp_ChannelId msg).

(** What both payments check first: the channel takes fees, the module is not
    locked, the payer may pay. *)
Definition require_payer (portID channelID : string) (fee : Fee) (payer : string) : M () :=
  enabled ← IsFeeEnabled portID channelID;
  require enabled ErrFeeNotEnabled;;
  locked ← IsLocked;
  require (negb locked) ErrFeeModuleLocked;;
  refundAcc ← orErr errUnregistered (AccAddressFromBech32 payer);
  total ← lift (Fee_Total fee);
  enabledCoins ← gets (λ s, IsSendEnabledCoins s total);
  lift enabledCoins;;
  require (negb (BlockedAddr refundAcc)) ErrUnauthorized.

Definition PayPacketFee (ctx : Context) (msg : MsgPayPacketFee) : M () :=
  require_payer (ppf_SourcePortId msg) (ppf_SourceChannelId msg) (ppf_Fee msg) (ppf_Signer msg);;
  sequence ← GetNextSequenceSend (ppf_SourcePortId msg) (ppf_SourceChannelId msg);
  sequence ← orErr ErrSequenceSendNotFound sequence;
  let packetID := NewPacketID (ppf_SourcePortId msg) (ppf_SourceChannelId msg) sequence in
  let packetFee := NewPacketFee (ppf_Fee msg) (ppf_Signer msg) (ppf_Relayers msg) in
  escrowPacketFee ctx packetID packetFee.

Definition PayPacketFeeAsync (ctx : Context) (msg : MsgPayPacketFeeAsync) : M () :=
  let packetID := ppfa_PacketId msg in
  let packetFee := ppfa_PacketFee msg in
  require_payer (pid_PortId packetID) (pid_ChannelId packetID) (pf_Fee packetFee)
    (RefundAddress packetFee);;
  nextSeqSend ← GetNextSequenceSend (pid_PortId packetID) (pid_ChannelId packetID);
  nextSeqSend ← orErr ErrSequenceSendNotFound nextSeqSend;
  require (pid_Sequence packetID <? nextSeqSend) ErrPacketNotSent;;
  bz ← GetPacketCommitment (pid_PortId packetID) (pid_ChannelId packetID) (pid_Sequence packetID);
  require (bool_decide (is_Some (non_empty bz))) ErrPacketCommitmentNotFound;;
  escrowPacketFee ctx packetID packetFee.

(** ** genesis.go *)

Definition Fee_InitGenesis (state : FeeGenesis) : M () :=
  for_each (IdentifiedFees state) (λ f,
    SetFeesInEscrow (ipf_PacketId f) (NewPacketFees (ipf_PacketFees f)));;
  for_each (RegisteredPayees state) (λ r,
    SetPayeeAddress (reg_Relayer r) (reg_Payee r) (reg_ChannelId r));;
  for_each (RegisteredCounterpartyPayees state) (λ r,
    SetCounterpartyPayeeAddress (regc_Relayer r) (regc_CounterpartyPayee r) (regc_ChannelId r));;
  for_each (ForwardRelayers state) (λ f,
    SetRelayerAddressForAsyncAck (fra_PacketId f) (fra_Address f));;
  for_each (FeeEnabledChannels state) (λ c, SetFeeEnabled (fec_PortId c) (fec_ChannelId c)).

Definition Fee_ExportGenesis : M FeeGenesis :=
  identifiedFees ← GetAllIdentifiedPacketFees;
  feeEnabledChannels ← GetAllFeeEnabledChannels;
  registeredPayees ← GetAllPayees;
  registeredCounterpartyPayees ← GetAllCounterpartyPayees;
  forwardRelayers ← GetAllForwardRelayerAddresses;
  mret (mkFeeGenesis identifiedFees feeEnabledChannels registeredPayees registeredCounterpartyPayees
    forwardRelayers).

(** ** ibc_middleware.go *)

Section middleware.
Context (app : IBCModule).

Definition Fee_OnChanOpenInit (ctx : Context) (order : Order) (connectionHops : list string)
    (portID channelID : string) (chanCap : option Capability) (counterparty : Counterparty) (version : string) :
    M string :=
  let open v := OnChanOpenInit app ctx order connectionHops portID channelID chanCap counterparty v in
  match (if is_blank version then Some (mkMetadata Fee_Version "") else Metadata_UnmarshalJSON version) with
  | None => open version
  | Some versionMetadata =>
      require (bool_decide (FeeVersion versionMetadata = Fee_Version)) Fee_ErrInvalidVersion;;
      appVersion ← open (AppVersion versionMetadata);
      versionBytes ← lift (Metadata_MarshalJSON (mkMetadata (FeeVersion versionMetadata) appVersion));
      SetFeeEnabled portID channelID;;
      mret versionBytes
  end.

Definition Fee_OnChanOpenTry (ctx : Context) (order : Order) (connectionHops : list string)
    (portID channelID : string) (chanCap : option Capability) (counterparty : Counterparty)
    (counterpartyVersion : string) : M string :=
  let open v := OnChanOpenTry app ctx order connectionHops portID channelID chanCap counterparty v in
  match Metadata_UnmarshalJSON counterpartyVersion with
  | None => open counterpartyVersion
  | Some versionMetadata =>
      require (bool_decide (FeeVersion versionMetadata = Fee_Version)) Fee_ErrInvalidVersion;;
      SetFeeEnabled portID channelID;;
      appVersion ← open (AppVersion versionMetadata);
      lift (Metadata_MarshalJSON (mkMetadata (FeeVersion versionMetadata) appVersion))
  end.

Definition Fee_OnChanOpenAck (ctx : Context) (portID channelID counterpartyChannelID : string)
    (counterpartyVersion : string) : M () :=
  enabled ← IsFeeEnabled portID channelID;
  if (enabled : bool) then
    versionMetadata ← orErr errUnregistered (Metadata_UnmarshalJSON counterpartyVersion);
    require (bool_decide (FeeVersion versionMetadata = Fee_Version)) Fee_ErrInvalidVersion;;
    OnChanOpenAck app ctx portID channelID counterpartyChannelID (AppVersion versionMetadata)
  else OnChanOpenAck app ctx portID channelID counterpartyChannelID counterpartyVersion.

(** Both closing callbacks end alike. *)
Definition refund_on_close (ctx : Context) (portID channelID : string) : M () :=
  enabled ← IsFeeEnabled portID channelID;
  if negb enabled then mret tt
  else
    locked ← IsLocked;
    require (negb locked) ErrFeeModuleLocked;;
    RefundFeesOnChannelClosure ctx portID channelID.

Definition Fee_OnChanCloseInit (ctx : Context) (portID channelID : string) : M () :=
  OnChanCloseInit app ctx portID channelID;;
  refund_on_close ctx portID channelID.

Definition Fee_OnChanCloseConfirm (ctx : Context) (portID channelID : string) : M () :=
  OnChanCloseConfirm app ctx portID channelID;;
  refund_on_close ctx portID channelID.

Definition Fee_OnRecvPacket (ctx : Context) (packet : Packet) (relayer : Address) : M (option AppAck) :=
  enabled ← IsFeeEnabled (DestinationPort packet) (DestinationChannel packet);
  if negb enabled then OnRecvPacket app ctx packet relayer
  else
    ack ← OnRecvPacket app ctx packet relayer;
    match ack with
    | None =>
        SetRelayerAddressForAsyncAck
          (NewPacketID (DestinationPort packet) (DestinationChannel packet) (Sequence packet))
          (AccAddress_String relayer);;
        mret None
    | Some ack =>
        forwardRelayer ← GetCounterpartyPayeeAddress (AccAddress_String relayer) (DestinationChannel packet);
        mret (Some (incentivized_ack (NewIncentivizedAcknowledgement (default "" forwardRelayer)
          (app_Acknowledgement ack) (app_Success ack))))
    end.

(** The address fees are paid to for a relayer: the payee it registered, or itself. *)
Definition payee_of (relayer : Address) (channelID : string) : M Address :=
  payee ← GetPayeeAddress (AccAddress_String relayer) channelID;
  orErr errUnregistered (AccAddressFromBech32 (default (AccAddress_String relayer) payee)).

Definition Fee_OnAcknowledgementPacket (ctx : Context) (packet : Packet) (acknowledgement : bytes)
    (relayer : Address) : M () :=
  enabled ← IsFeeEnabled (SourcePort packet) (SourceChannel packet);
  if negb enabled then OnAcknowledgementPacket app ctx packet acknowledgement relayer
  else
    ack ← orErr errUnregistered (Incentivized_UnmarshalJSON acknowledgement);
    locked ← IsLocked;
    if (locked : bool) then OnAcknowledgementPacket app ctx packet (AppAcknowledgement ack) relayer
    else
      let packetID := NewPacketID (SourcePort packet) (SourceChannel packet) (Sequence packet) in
      feesInEscrow ← GetFeesInEscrow packetID;
      match feesInEscrow with
      | None => OnAcknowledgementPacket app ctx packet (AppAcknowledgement ack) relayer
      | Some fees =>
          payeeAddr ← payee_of relayer (SourceChannel packet);
          DistributePacketFeesOnAcknowledgement ctx (ForwardRelayerAddr ack) payeeAddr
            (pf_PacketFees fees) packetID;;
          OnAcknowledgementPacket app ctx packet (AppAcknowledgement ack) relayer
      end.

Definition Fee_OnTimeoutPacket (ctx : Context) (packet : Packet) (relayer : Address) : M () :=
  enabled ← IsFeeEnabled (SourcePort packet) (SourceChannel packet);
  if negb enabled then OnTimeoutPacket app ctx packet relayer
  else
    locked ← IsLocked;
    if (locked : bool) then OnTimeoutPacket app ctx packet relayer
    else
      let packetID := NewPacketID (SourcePort packet) (SourceChannel packet) (Sequence packet) in
      feesInEscrow ← GetFeesInEscrow packetID;
      match feesInEscrow with
      | None => OnTimeoutPacket app ctx packet relayer
      | Some fees =>
          payeeAddr ← payee_of relayer (SourceChannel packet);
          DistributePacketFeesOnTimeout ctx payeeAddr (pf_PacketFees fees) packetID;;
          OnTimeoutPacket app ctx packet relayer
      end.

Definition fee_middleware : IBCModule := {|
  OnChanOpenInit := Fee_OnChanOpenInit;
  OnChanOpenTry := Fee_OnChanOpenTry;
  OnChanOpenAck := Fee_OnChanOpenAck;
  OnChanOpenConfirm := OnChanOpenConfirm app;
  OnChanCloseInit := Fee_OnChanCloseInit;
  OnChanCloseConfirm := Fee_OnChanCloseConfirm;
  OnRecvPacket := Fee_OnRecvPacket;
  OnAcknowledgementPacket := Fee_OnAcknowledgementPacket;
  OnTimeoutPacket := Fee_OnTimeoutPacket
|}.

End middleware.

End fee.
