(* ===== verification/FeeProofs.v ===== *)
(** * What the fee middleware pays

    Payments out of the account of the module, as lists of an account and the coins
    it gets; each routine of escrow.go pays what its specification says whenever the
    account covers it. *)

From stdpp Require Import gmap strings list relations sorting.
From Stdlib Require Import ZArith Lia Ascii.
From S2P Require Import Prelude GoStd Host Chain ModuleStore Sums Height Capability Port Commitment LightClient Client ConnTypes ChanTypes Env Connection Channel ChanHandshake Packet MsgServer ChanProofs PacketProofs Frames HandshakeProofs TransferTypes FeeTypes Transfer Fee.

(** ** Payments *)

Section payments.
Context {F : FeeEnv} {FL : FeeLaws}.

Abbreviation payment := (Address * list Coin)%type.

Definition amount_to (a : Address) (d : string) (p : payment) : Z :=
  delta (bool_decide (p.1 = a)) (amount_of d p.2).
(** What the payments take of a denomination. *)
Definition outlay (d : string) (ps : list payment) : Z := sum_over (λ p, amount_of d p.2) ps.

(** The payments were made, out of the account of the module, and nothing else
    happened. *)
Record paid (ps : list payment) (s s' : Chain) : Prop := {
  paid_only : only_store bank_storeKey s s';
  paid_balance a d : GetBalance s' a d =
    GetBalance s a d + sum_over (amount_to a d) ps - delta (bool_decide (a = GetFeeModuleAddress)) (outlay d ps);
  paid_supply d : GetSupply s' d = GetSupply s d
}.

Definition payable (p : payment) : Prop := BlockedAddr p.1 = false ∧ Coins_Validate p.2 = Ok tt.
Definition covers (s : Chain) (ps : list payment) : Prop :=
  ∀ d, outlay d ps <= GetBalance s GetFeeModuleAddress d.

Lemma amount_of_nonneg d cs : Coins_Validate cs = Ok tt → 0 <= amount_of d cs.
Proof.
  intros Hv. assert (∀ c, c ∈ cs → 0 < Amount c) as H by (intros c Hc; by eapply coins_valid_ok).
  clear Hv. induction cs as [|c cs IH]; simpl; [done|].
  assert (0 <= amount_of d cs) by (apply IH; intros; apply H; set_solver).
  assert (0 < Amount c) by (apply H; set_solver). case_bool_decide; lia.
Qed.

Lemma outlay_nonneg d ps : Forall payable ps → 0 <= outlay d ps.
Proof.
  unfold outlay. induction 1 as [|p ps [_ Hp] Hps IH]; simpl; [done|].
  pose proof (amount_of_nonneg d p.2 Hp). lia.
Qed.

Lemma outlay_app d ps qs : outlay d (ps ++ qs) = outlay d ps + outlay d qs.
Proof. apply sum_over_app. Qed.

(** Nobody that can be paid is the account of the module. *)
Lemma payable_not_module a : BlockedAddr a = false → a ≠ GetFeeModuleAddress.
Proof. intros Ha ->. pose proof fee_account_blocked as Hf. unfold GetFeeModuleAddress in Ha. congruence. Qed.

Lemma payable_own ps d : Forall payable ps → sum_over (amount_to GetFeeModuleAddress d) ps = 0.
Proof.
  intros H. apply sum_over_zero. intros p Hp. eapply Forall_forall in H as [Hb _]; [|done].
  unfold amount_to. by rewrite bool_decide_eq_false_2 by by apply payable_not_module.
Qed.

Lemma paid_module ps s s' d :
  Forall payable ps → paid ps s s' →
  GetBalance s' GetFeeModuleAddress d = GetBalance s GetFeeModuleAddress d - outlay d ps.
Proof.
  intros Hp H. rewrite (paid_balance _ _ _ H), payable_own, bool_decide_eq_true_2 by done. simpl. lia.
Qed.

Lemma paid_nil s : paid [] s s.
Proof. split; [done| |done]. intros. simpl. destruct (bool_decide _); simpl; lia. Qed.

Lemma paid_app ps qs s s1 s' : paid ps s s1 → paid qs s1 s' → paid (ps ++ qs) s s'.
Proof.
  intros [O1 B1 S1] [O2 B2 S2]. split; [by eapply only_store_trans| |].
  - intros a d. rewrite B2, B1, sum_over_app, outlay_app. destruct (bool_decide _); simpl; lia.
  - intros d. by rewrite S2.
Qed.

(** A computation that makes payments when the account covers them. *)
Definition pays {A} (m : M A) (a : A) (ps : list payment) : Prop :=
  ∀ s, covers s ps → ∃ s', m s = (Ok a, s') ∧ paid ps s s'.

Lemma pays_bind {A B} (m : M A) (f : A → M B) a b ps qs :
  Forall payable ps → Forall payable qs → pays m a ps → pays (f a) b qs → pays (m ≫= f) b (ps ++ qs).
Proof.
  intros Hps Hqs Hm Hf s Hc. destruct (Hm s) as (s1 & H1 & P1).
  { intros d. specialize (Hc d). rewrite outlay_app in Hc. pose proof (outlay_nonneg d qs Hqs). lia. }
  destruct (Hf s1) as (s2 & H2 & P2).
  { intros d. specialize (Hc d). rewrite outlay_app in Hc. rewrite (paid_module ps s s1) by done. lia. }
  exists s2. split; [|by eapply paid_app]. by rewrite (bind_run _ _ _ _ _ H1).
Qed.

Lemma pays_ret {A} (a : A) : pays (mret a) a [].
Proof. intros s _. exists s. split; [done|apply paid_nil]. Qed.

(** The bank pays. *)
Lemma send_pays ctx a cs :
  payable (a, cs) → pays (SendCoinsFromModuleToAccount ctx Fee_ModuleName a cs) tt [(a, cs)].
Proof.
  intros [Hb Hv] s Hc.
  destruct (to_account_covered ctx Fee_ModuleName a cs s Hb Hv) as [s' Hs].
  { intros d. specialize (Hc d). unfold outlay in Hc. simpl in Hc. unfold GetFeeModuleAddress in Hc. lia. }
  exists s'. split; [done|]. pose proof (to_account_ok _ _ _ _ _ _ Hs) as [Hm Hsup].
  split; [|intros a' d|done].
  - pose proof (to_account_frame ctx Fee_ModuleName a cs s) as Hf. by rewrite Hs in Hf.
  - rewrite Hm. unfold outlay, amount_to. cbn [sum_over foldr fst snd].
    rewrite (bool_decide_ext (a = a') (a' = a)) by done. unfold GetFeeModuleAddress.
    destruct (bool_decide (a' = _)), (bool_decide (a' = a)); simpl; lia.
Qed.

(** The receiver of a fee: whoever it is meant for, unless blocked. *)
Definition payee_or (receiver refund : Address) : Address :=
  if BlockedAddr receiver then refund else receiver.

Lemma payee_or_unblocked a b : BlockedAddr b = false → BlockedAddr (payee_or a b) = false.
Proof. intros H. unfold payee_or. by destruct (BlockedAddr a) eqn:?. Qed.

Lemma distributeFee_pays ctx receiver refund fee :
  BlockedAddr refund = false → Coins_Validate fee = Ok tt →
  pays (distributeFee ctx receiver refund fee) tt [(payee_or receiver refund, fee)].
Proof.
  intros Hr Hv s Hc. unfold distributeFee, payee_or in *.
  destruct (BlockedAddr receiver) eqn:Hb.
  - destruct (to_account_blocked ctx Fee_ModuleName receiver fee s Hb) as [e ->].
    rewrite bool_decide_eq_false_2 by congruence.
    destruct (send_pays ctx refund fee (conj Hr Hv) s Hc) as (s' & -> & Hp). by exists s'.
  - destruct (send_pays ctx receiver fee (conj Hb Hv) s Hc) as (s' & -> & Hp). by exists s'.
Qed.

Lemma payee_or_self a : payee_or a a = a.
Proof. unfold payee_or. by destruct (BlockedAddr a). Qed.

Lemma distributeFee_refunds ctx a fee :
  BlockedAddr a = false → Coins_Validate fee = Ok tt → pays (distributeFee ctx a a fee) tt [(a, fee)].
Proof. intros. rewrite <- (payee_or_self a) at 3. by apply distributeFee_pays. Qed.

(** ** Fees that were checked when they were paid in *)

Record good_fee (pf : PacketFee) (refund : Address) (total : list Coin) : Prop := {
  gf_refund : AccAddressFromBech32 (RefundAddress pf) = Some refund;
  gf_unblocked : BlockedAddr refund = false;
  gf_recv : Coins_Validate (RecvFee (pf_Fee pf)) = Ok tt;
  gf_ack : Coins_Validate (AckFee (pf_Fee pf)) = Ok tt;
  gf_timeout : Coins_Validate (TimeoutFee (pf_Fee pf)) = Ok tt;
  gf_total : Fee_Total (pf_Fee pf) = Ok total
}.

(** The coins of a fee, in all. *)
Definition fee_amount (d : string) (pf : PacketFee) : Z :=
  amount_of d (RecvFee (pf_Fee pf)) + amount_of d (AckFee (pf_Fee pf)) + amount_of d (TimeoutFee (pf_Fee pf)).
Definition fees_amount (d : string) (l : list PacketFee) : Z := sum_over (fee_amount d) l.

Lemma good_fee_total pf a cs d :
  good_fee pf a cs → Coins_Validate cs = Ok tt ∧ amount_of d cs = fee_amount d pf.
Proof.
  intros [_ _ Hr Ha Ht H]. unfold Fee_Total in H. apply obind_ok in H as (cs1 & H1 & H2).
  apply coins_add_ok in H1 as [Hv1 H1]; [|done|done].
  apply coins_add_ok in H2 as [Hv2 H2]; [|done|done].
  split; [done|]. unfold fee_amount. by rewrite H2, H1.
Qed.

Lemma fee_amount_nonneg d pf a cs : good_fee pf a cs → 0 <= fee_amount d pf.
Proof.
  intros [_ _ Hr Ha Ht _]. unfold fee_amount.
  pose proof (amount_of_nonneg d _ Hr). pose proof (amount_of_nonneg d _ Ha).
  pose proof (amount_of_nonneg d _ Ht). lia.
Qed.

Definition refund_address (pf : PacketFee) : Address :=
  default "" (AccAddressFromBech32 (RefundAddress pf)).

(** Who gets what when a packet was acknowledged, and when it timed out. *)
Definition ack_payments (forward reverse : Address) (pf : PacketFee) : list payment :=
  [ (if bool_decide (forward = "") then refund_address pf else payee_or forward (refund_address pf),
     RecvFee (pf_Fee pf));
    (payee_or reverse (refund_address pf), AckFee (pf_Fee pf));
    (refund_address pf, TimeoutFee (pf_Fee pf)) ].
Definition timeout_payments (relayer : Address) (pf : PacketFee) : list payment :=
  [ (refund_address pf, RecvFee (pf_Fee pf));
    (refund_address pf, AckFee (pf_Fee pf));
    (payee_or relayer (refund_address pf), TimeoutFee (pf_Fee pf)) ].
Definition refund_payments (pf : PacketFee) : list payment :=
  [ (refund_address pf, match Fee_Total (pf_Fee pf) with Ok cs => cs | _ => [] end) ].

Lemma good_refund pf a cs : good_fee pf a cs → refund_address pf = a.
Proof. intros H. unfold refund_address. by rewrite (gf_refund _ _ _ H). Qed.

Lemma ack_payments_payable fwd rev pf a cs :
  good_fee pf a cs → Forall payable (ack_payments fwd rev pf).
Proof.
  intros Hg. unfold ack_payments. rewrite (good_refund _ _ _ Hg). destruct Hg.
  repeat constructor; simpl; try done; [case_bool_decide; [done|]|]; by apply payee_or_unblocked.
Qed.

Lemma timeout_payments_payable rel pf a cs :
  good_fee pf a cs → Forall payable (timeout_payments rel pf).
Proof.
  intros Hg. unfold timeout_payments. rewrite (good_refund _ _ _ Hg). destruct Hg.
  repeat constructor; simpl; try done. by apply payee_or_unblocked.
Qed.

Lemma refund_payments_payable pf a cs : good_fee pf a cs → Forall payable (refund_payments pf).
Proof.
  intros Hg. unfold refund_payments. rewrite (good_refund _ _ _ Hg), (gf_total _ _ _ Hg).
  destruct (good_fee_total pf a cs "" Hg) as [Hv _]. destruct Hg. by repeat constructor.
Qed.

(** Every distribution takes the whole fee. *)
Lemma ack_outlay d fwd rev pf : outlay d (ack_payments fwd rev pf) = fee_amount d pf.
Proof. unfold outlay, fee_amount. simpl. lia. Qed.
Lemma timeout_outlay d rel pf : outlay d (timeout_payments rel pf) = fee_amount d pf.
Proof. unfold outlay, fee_amount. simpl. lia. Qed.
Lemma refund_outlay d pf a cs : good_fee pf a cs → outlay d (refund_payments pf) = fee_amount d pf.
Proof.
  intros Hg. unfold refund_payments. rewrite (gf_total _ _ _ Hg).
  destruct (good_fee_total pf a cs d Hg) as [_ H]. unfold outlay. simpl. lia.
Qed.

(** Three payments in sequence. *)
Lemma pays_three (m1 m2 m3 : M ()) p1 p2 p3 :
  Forall payable [p1; p2; p3] → pays m1 tt [p1] → pays m2 tt [p2] → pays m3 tt [p3] →
  pays (m1;; m2;; m3) tt [p1; p2; p3].
Proof.
  intros H H1 H2 H3. inversion_clear H as [|? ? P1 H']. inversion_clear H' as [|? ? P2 H].
  apply (pays_bind m1 (λ _, m2;; m3) tt tt [p1] [p2; p3]); [by constructor|by constructor|done|].
  by apply (pays_bind m2 (λ _, m3) tt tt [p2] [p3]); [constructor|..].
Qed.

Lemma distribute_ack_pays ctx fwd rev pf a cs :
  good_fee pf a cs →
  pays (distributePacketFeeOnAcknowledgement ctx a fwd rev pf) tt (ack_payments fwd rev pf).
Proof.
  intros Hg. pose proof (ack_payments_payable fwd rev pf a cs Hg) as Hp.
  unfold ack_payments in *. rewrite (good_refund _ _ _ Hg) in *. destruct Hg.
  apply pays_three; [done| | |].
  - case_bool_decide; simpl; [by apply distributeFee_refunds|].
    destruct (BlockedAddr fwd) eqn:Hb; simpl; [|by apply distributeFee_pays].
    unfold payee_or. rewrite Hb. by apply distributeFee_refunds.
  - by apply distributeFee_pays.
  - by apply distributeFee_refunds.
Qed.

Lemma distribute_timeout_pays ctx rel pf a cs :
  good_fee pf a cs → pays (distributePacketFeeOnTimeout ctx a rel pf) tt (timeout_payments rel pf).
Proof.
  intros Hg. pose proof (timeout_payments_payable rel pf a cs Hg) as Hp.
  unfold timeout_payments in *. rewrite (good_refund _ _ _ Hg) in *. destruct Hg.
  apply pays_three; [done| | |]; [by apply distributeFee_refunds..|by apply distributeFee_pays].
Qed.

(** ** The loops *)

Definition good (pf : PacketFee) : Prop := ∃ a cs, good_fee pf a cs.

Lemma has_covered pf a cs s :
  good_fee pf a cs → (∀ d, fee_amount d pf <= GetBalance s GetFeeModuleAddress d) →
  EscrowAccountHasBalance cs s = (Ok true, s).
Proof.
  intros Hg Hc. unfold EscrowAccountHasBalance, gets.
  rewrite (proj2 (forallb_forall (HasBalance s GetFeeModuleAddress) cs)); [done|].
  intros c Hin%list_elem_of_In. apply has_balance_ok.
  destruct (good_fee_total pf a cs (Denom c) Hg) as [Hv Ha].
  destruct (coins_valid_ok cs c Hv Hin) as [_ <-]. rewrite Ha. apply Hc.
Qed.

(** The payments of a list of fees. *)
Section loop.
Context (pay : PacketFee → list payment).
Hypothesis pay_payable : ∀ pf, good pf → Forall payable (pay pf).
Hypothesis pay_outlay : ∀ pf d, good pf → outlay d (pay pf) = fee_amount d pf.

Lemma payments_payable l : Forall good l → Forall payable (l ≫= pay).
Proof using pay_payable. induction 1; [done|]. rewrite bind_cons. apply Forall_app; auto. Qed.

Lemma payments_outlay l d : Forall good l → outlay d (l ≫= pay) = fees_amount d l.
Proof using pay_outlay.
  unfold fees_amount. induction 1 as [|pf l Hp Hl IH]; [done|].
  by rewrite bind_cons, outlay_app, pay_outlay, IH.
Qed.

Lemma covers_head pf l s d :
  good pf → Forall good l → covers s (pay pf ++ (l ≫= pay)) →
  fee_amount d pf <= GetBalance s GetFeeModuleAddress d.
Proof using pay_payable pay_outlay FL.
  intros Hp Hl Hc. specialize (Hc d). rewrite outlay_app, pay_outlay in Hc by done.
  pose proof (outlay_nonneg d _ (payments_payable l Hl)). lia.
Qed.

Lemma distribute_all_pays (distribute : Address → PacketFee → M ()) l :
  (∀ pf a cs, good_fee pf a cs → pays (distribute a pf) tt (pay pf)) →
  Forall good l → pays (distribute_all distribute l) true (l ≫= pay).
Proof using pay_payable pay_outlay FL.
  intros Hd. induction 1 as [|pf l (a & cs & Hg) Hl IH]; [apply pays_ret|]. intros s Hc.
  rewrite bind_cons in *. cbn [distribute_all]. erewrite bind_run by (unfold lift; by rewrite (gf_total _ _ _ Hg)).
  assert (good pf) as Hgood by (by exists a, cs).
  erewrite bind_run by (eapply has_covered; [done|intros; by eapply covers_head]). cbn [negb].
  erewrite bind_run by (unfold orPanic, lift; by rewrite (gf_refund _ _ _ Hg)).
  eapply (pays_bind _ (λ _, _) tt true); [by apply pay_payable|by apply payments_payable|by eapply Hd|done|done].
Qed.

End loop.

Lemma refund_fees_pays ctx l failed :
  Forall good l → pays (refund_fees ctx l failed) (Some failed) (l ≫= refund_payments).
Proof.
  induction 1 as [|pf l (a & cs & Hg) Hl IH]; [apply pays_ret|]. intros s Hc.
  assert (∀ pf, good pf → Forall payable (refund_payments pf)) as Hp.
  { intros ? (? & ? & ?). by eapply refund_payments_payable. }
  assert (∀ pf d, good pf → outlay d (refund_payments pf) = fee_amount d pf) as Ho.
  { intros ? ? (? & ? & ?). by eapply refund_outlay. }
  assert (good pf) as Hgood by (by exists a, cs).
  rewrite bind_cons in *. cbn [refund_fees]. erewrite bind_run by (unfold lift; by rewrite (gf_total _ _ _ Hg)).
  erewrite bind_run by (eapply has_covered; [done|intros; by eapply (covers_head refund_payments)]).
  cbn [negb]. rewrite (gf_refund _ _ _ Hg).
  eapply (pays_bind _ (λ sent, refund_fees ctx l (failed || negb sent)) true (Some failed));
    [by apply Hp|by apply payments_payable| | |done].
  - intros s0 Hc0. pose proof (refund_payments_payable _ _ _ Hg) as Hpay. revert Hc0 Hpay.
    unfold refund_payments. rewrite (good_refund _ _ _ Hg), (gf_total _ _ _ Hg). intros Hc0 Hpay.
    inversion_clear Hpay as [|? ? Hpay1 _]. unfold attempt.
    destruct (send_pays ctx a cs Hpay1 s0 Hc0) as (s' & -> & Hs). by exists s'.
  - by rewrite orb_false_r.
Qed.

End payments.
