(* ===== verification/FeeInvariant.v ===== *)
(** * The escrow of the fee middleware

    The account of the module holds at least the fees that are recorded for packets
    in flight, whatever messages and callbacks run; so the check that would lock the
    module never fires, and every distribution pays in full. *)

From stdpp Require Import gmap strings list relations sorting.
From Stdlib Require Import ZArith Lia Ascii.
From S2P Require Import Prelude GoStd Host Chain ModuleStore Sums Height Capability Port Commitment LightClient Client ConnTypes ChanTypes Env Connection Channel ChanHandshake Packet MsgServer ChanProofs PacketProofs Frames HandshakeProofs TransferTypes FeeTypes Transfer Fee FeeProofs.

(** ** Keys *)

Definition valid_pid (pid : PacketId) : Prop :=
  no_slash (pid_PortId pid) ∧ no_slash (pid_ChannelId pid) ∧ is_u64 (pid_Sequence pid).

Lemma Split_packet_key pre pid :
  no_slash pre → valid_pid pid →
  Split (pre +:+ "/" +:+ pid_PortId pid +:+ "/" +:+ pid_ChannelId pid +:+ "/" +:+ FormatUint (pid_Sequence pid)) "/" =
    [pre; pid_PortId pid; pid_ChannelId pid; FormatUint (pid_Sequence pid)].
Proof.
  intros Hpre (Hp & Hc & _). rewrite !Split_slash by done. by rewrite Split_one by by apply FormatUint_free.
Qed.

Lemma KeyFeesInEscrow_eq pid :
  KeyFeesInEscrow pid = FeesInEscrowPrefix +:+ "/" +:+ pid_PortId pid +:+ "/" +:+ pid_ChannelId pid +:+ "/" +:+
    FormatUint (pid_Sequence pid).
Proof. unfold KeyFeesInEscrow, KeyFeesInEscrowChannelPrefix. by rewrite !string_app_assoc. Qed.

(** Both keys of packets read back. *)
Lemma ParseKeyFeesInEscrow_key pid : valid_pid pid → ParseKeyFeesInEscrow (KeyFeesInEscrow pid) = Ok pid.
Proof.
  intros Hv. unfold ParseKeyFeesInEscrow. rewrite KeyFeesInEscrow_eq, Split_packet_key by done.
  destruct Hv as (_ & _ & Hs). rewrite ParseUint_FormatUint by done. by destruct pid.
Qed.

Lemma ParseKeyRelayerAddressForAsyncAck_key pid :
  valid_pid pid → ParseKeyRelayerAddressForAsyncAck (KeyRelayerAddressForAsyncAck pid) = Ok pid.
Proof.
  intros Hv. unfold ParseKeyRelayerAddressForAsyncAck, KeyRelayerAddressForAsyncAck.
  rewrite Split_packet_key by done.
  destruct Hv as (_ & _ & Hs). rewrite ParseUint_FormatUint by done. by destruct pid.
Qed.

Lemma KeyFeesInEscrow_inj pid pid' :
  valid_pid pid → valid_pid pid' → KeyFeesInEscrow pid = KeyFeesInEscrow pid' → pid = pid'.
Proof.
  intros H H' Hk. apply ParseKeyFeesInEscrow_key in H, H'. rewrite Hk in H. congruence.
Qed.

Lemma KeyFeesInEscrow_prefix pid : HasPrefix (KeyFeesInEscrow pid) FeesInEscrowPrefix = true.
Proof. rewrite KeyFeesInEscrow_eq. apply prefix_app. Qed.

(** The prefix of a channel is also one of longer channel identifiers. *)
Lemma KeyFeesInEscrow_channel_prefix p c t n :
  HasPrefix (KeyFeesInEscrow (NewPacketID p (c +:+ t) n)) (KeyFeesInEscrowChannelPrefix p c) = true.
Proof.
  assert (KeyFeesInEscrow (NewPacketID p (c +:+ t) n) =
    KeyFeesInEscrowChannelPrefix p c +:+ (t +:+ "/" +:+ FormatUint n)) as ->; [|apply prefix_app].
  unfold KeyFeesInEscrow, KeyFeesInEscrowChannelPrefix. cbn [pid_PortId pid_ChannelId pid_Sequence NewPacketID].
  by rewrite !string_app_assoc.
Qed.

(** ** The invariant *)

Section invariant.
Context {F : FeeEnv} {FL : FeeLaws}.

Definition fees_of (v : bytes) : list PacketFee :=
  match Unmarshal v with Some f => pf_PacketFees f | None => [] end.

Lemma fees_of_marshal l : fees_of (Marshal (mkPacketFees l)) = l.
Proof. unfold fees_of. by rewrite unmarshal_marshal. Qed.

(** What is recorded, of a denomination, for all packets. *)
Definition owed (d : string) (kv : KVStore) : Z :=
  sum_over (λ e, fees_amount d (fees_of e.2)) (KVStorePrefixIterator kv FeesInEscrowPrefix).

(** An entry of the escrow: a packet, and the fees paid in for it. *)
Definition escrow_record (k : string) (v : bytes) : Prop :=
  ∃ pid l, valid_pid pid ∧ k = KeyFeesInEscrow pid ∧ v = Marshal (mkPacketFees l) ∧ l ≠ [] ∧ Forall good l.

Record fee_inv (s : Chain) : Prop := {
  fi_records k v :
    fee_store s !! k = Some v → HasPrefix k FeesInEscrowPrefix = true → escrow_record k v;
  fi_covered d : owed d (fee_store s) <= GetBalance s GetFeeModuleAddress d;
  fi_unlocked : fee_store s !! KeyLocked = None
}.

Lemma fees_amount_nonneg d l : Forall good l → 0 <= fees_amount d l.
Proof.
  unfold fees_amount. induction 1 as [|pf l (a & cs & Hg) Hl IH]; simpl; [done|].
  pose proof (fee_amount_nonneg d pf a cs Hg). lia.
Qed.

Lemma owed_insert d kv k v :
  kv !! k = None → HasPrefix k FeesInEscrowPrefix = true →
  owed d (<[k := v]> kv) = fees_amount d (fees_of v) + owed d kv.
Proof.
  intros Hk Hp. unfold owed. rewrite (sum_over_perm _ _ _ (KVStorePrefixIterator_insert kv _ k v Hk)).
  by rewrite Hp.
Qed.

Lemma owed_delete d kv k v :
  kv !! k = Some v → HasPrefix k FeesInEscrowPrefix = true →
  owed d kv = fees_amount d (fees_of v) + owed d (delete k kv).
Proof.
  intros Hk Hp. unfold owed. rewrite (sum_over_perm _ _ _ (KVStorePrefixIterator_delete kv _ k v Hk)).
  by rewrite Hp.
Qed.

Lemma owed_delete_other d kv k : HasPrefix k FeesInEscrowPrefix = false → owed d (delete k kv) = owed d kv.
Proof.
  intros Hp. destruct (kv !! k) as [v|] eqn:Hk; [|by rewrite delete_id].
  unfold owed. rewrite (sum_over_perm _ _ _ (KVStorePrefixIterator_delete kv _ k v Hk)). by rewrite Hp.
Qed.

Lemma owed_insert_other d kv k v : HasPrefix k FeesInEscrowPrefix = false → owed d (<[k := v]> kv) = owed d kv.
Proof.
  intros Hp. rewrite <- insert_delete_eq, <- (owed_delete_other d kv k Hp). unfold owed.
  rewrite (sum_over_perm _ _ _ (KVStorePrefixIterator_insert (delete k kv) _ k v (lookup_delete_eq _ _))).
  by rewrite Hp.
Qed.

(** The invariant is about the two stores only. *)
Lemma fee_inv_frame s s' :
  fee_store s' = fee_store s →
  (∀ d, GetBalance s GetFeeModuleAddress d <= GetBalance s' GetFeeModuleAddress d) → fee_inv s → fee_inv s'.
Proof.
  intros Hs Hb [H1 H2 H3]. split; rewrite Hs; [done| |done]. intros d. specialize (H2 d). specialize (Hb d). lia.
Qed.

Lemma fee_inv_stores s s' : stores s' = stores s → fee_inv s → fee_inv s'.
Proof.
  intros Hs. destruct (bank_local s s') as [Hb _]; [by rewrite Hs|].
  apply fee_inv_frame; [unfold fee_store, mod_store; by rewrite Hs|]. intros d. by rewrite Hb.
Qed.

Lemma fee_store_bank s s' : only_store bank_storeKey s s' → fee_store s' = fee_store s.
Proof. intros H. apply (only_store_mod _ _ _ _ H), fee_stores. Qed.

Lemma bank_fee_store kv s a d : GetBalance (set_mod_store fee_storeKey kv s) a d = GetBalance s a d.
Proof.
  apply bank_local. apply mod_store_set_ne. intros H. by destruct fee_stores.
Qed.

(** Writing to the store under other keys. *)
Lemma fee_inv_write kv s :
  (∀ k v, kv !! k = Some v → HasPrefix k FeesInEscrowPrefix = true → escrow_record k v) →
  (∀ d, owed d kv <= GetBalance s GetFeeModuleAddress d) → kv !! KeyLocked = None →
  fee_inv (set_mod_store fee_storeKey kv s).
Proof.
  intros H1 H2 H3. split; unfold fee_store; rewrite mod_store_set; [done| |done].
  intros d. by rewrite bank_fee_store.
Qed.

Lemma fee_inv_set k v s :
  HasPrefix k FeesInEscrowPrefix = false → k ≠ KeyLocked → fee_inv s →
  fee_inv (set_mod_store fee_storeKey (<[k := v]> (fee_store s)) s).
Proof.
  intros Hk Hl [H1 H2 H3]. apply fee_inv_write.
  - intros k' v' [[<- <-]|[_ H]]%lookup_insert_Some Hp; [congruence|by eapply H1].
  - intros d. by rewrite owed_insert_other.
  - by rewrite lookup_insert_ne.
Qed.

Lemma fee_inv_delete k s :
  HasPrefix k FeesInEscrowPrefix = false → fee_inv s →
  fee_inv (set_mod_store fee_storeKey (delete k (fee_store s)) s).
Proof.
  intros Hk [H1 H2 H3]. apply fee_inv_write.
  - intros k' v' [_ H]%lookup_delete_Some Hp. by eapply H1.
  - intros d. by rewrite owed_delete_other.
  - apply lookup_delete_None. by right.
Qed.

(** Paying out the fees of a packet and removing its record. *)
Lemma fee_inv_settle pid l ps s s1 :
  fee_inv s → fee_store s !! KeyFeesInEscrow pid = Some (Marshal (mkPacketFees l)) →
  Forall payable ps → (∀ d, outlay d ps = fees_amount d l) → paid ps s s1 →
  fee_inv (set_mod_store fee_storeKey (delete (KeyFeesInEscrow pid) (fee_store s1)) s1).
Proof.
  intros [H1 H2 H3] Hk Hp Ho Hs. rewrite (fee_store_bank _ _ (paid_only _ _ _ Hs)). apply fee_inv_write.
  - intros k' v' [_ H]%lookup_delete_Some Hpre. by eapply H1.
  - intros d. rewrite (paid_module ps s s1), Ho by done. specialize (H2 d).
    rewrite (owed_delete d _ _ _ Hk), fees_of_marshal in H2 by apply KeyFeesInEscrow_prefix. lia.
  - apply lookup_delete_None. by right.
Qed.

(** The record of a packet is covered. *)
Lemma record_covered s pid l d :
  fee_inv s → fee_store s !! KeyFeesInEscrow pid = Some (Marshal (mkPacketFees l)) →
  fees_amount d l <= GetBalance s GetFeeModuleAddress d.
Proof.
  intros [H1 H2 H3] Hk. specialize (H2 d). rewrite (owed_delete d _ _ _ Hk), fees_of_marshal in H2
    by apply KeyFeesInEscrow_prefix.
  assert (0 <= owed d (delete (KeyFeesInEscrow pid) (fee_store s))); [|lia].
  unfold owed. transitivity (sum_over (λ _ : string * bytes, 0)
    (KVStorePrefixIterator (delete (KeyFeesInEscrow pid) (fee_store s)) FeesInEscrowPrefix)).
  - by rewrite sum_over_zero.
  - apply sum_over_le. intros [k v] [[_ Hk']%lookup_delete_Some Hp]%KVStorePrefixIterator_elem.
    destruct (H1 k v Hk' Hp) as (pid' & l' & _ & _ & -> & _ & Hg). simpl. rewrite fees_of_marshal.
    by apply fees_amount_nonneg.
Qed.

(** ** Reading the records *)

Lemma GetFeesInEscrow_ok pid o s s' :
  fee_inv s → GetFeesInEscrow pid s = (Ok o, s') →
  s' = s ∧
  match o with
  | None => fee_store s !! KeyFeesInEscrow pid = None
  | Some f => fee_store s !! KeyFeesInEscrow pid = Some (Marshal f) ∧ Forall good (pf_PacketFees f)
  end.
Proof.
  intros HI (bz & ? & [-> ->]%gets_ok & H)%bind_ok. fold (fee_store s) in *.
  destruct (fee_store s !! KeyFeesInEscrow pid) as [v|] eqn:Hk; [|by apply ret_ok in H as [-> ->]].
  destruct (fi_records s HI _ _ Hk (KeyFeesInEscrow_prefix pid)) as (pid' & l & _ & _ & -> & Hl & Hg).
  simpl in H. rewrite bool_decide_eq_false_2 in H by by apply fee_fees_nonempty.
  apply bind_ok in H as (f & ? & [Hf ->]%lift_ok & [-> ->]%ret_ok).
  unfold MustUnmarshal in Hf. rewrite unmarshal_marshal in Hf. by injection Hf as <-.
Qed.

Lemma mapM_total {A B} (f : A → Outcome B) (P : A → B → Prop) l :
  (∀ a, a ∈ l → ∃ b, f a = Ok b ∧ P a b) → ∃ k, mapM f l = Ok k ∧ Forall2 P l k.
Proof.
  induction l as [|a l IH]; intros H; [by exists []|].
  destruct (H a) as (b & Hb & Pb); [set_solver|]. destruct IH as (k & Hk & Hf); [intros; apply H; set_solver|].
  exists (b :: k). split; [|by constructor]. simpl. by rewrite Hb, Hk.
Qed.

Lemma identified_fees_record k v :
  escrow_record k v →
  ∃ i, identified_fees (k, v) = Ok i ∧ valid_pid (ipf_PacketId i) ∧ k = KeyFeesInEscrow (ipf_PacketId i) ∧
    v = Marshal (mkPacketFees (ipf_PacketFees i)) ∧ Forall good (ipf_PacketFees i).
Proof.
  intros (pid & l & Hv & -> & -> & _ & Hg). exists (mkIdentifiedPacketFees pid l). split_and!; try done.
  unfold identified_fees. cbn [fst snd]. rewrite ParseKeyFeesInEscrow_key by done.
  unfold MustUnmarshal. by rewrite unmarshal_marshal.
Qed.

(** An entry of the iteration and what it decodes to. *)
Definition is_record (kv : KVStore) (i : IdentifiedPacketFees) : Prop :=
  kv !! KeyFeesInEscrow (ipf_PacketId i) = Some (Marshal (mkPacketFees (ipf_PacketFees i))) ∧
  valid_pid (ipf_PacketId i) ∧ Forall good (ipf_PacketFees i).

Lemma records_distinct (kv : KVStore) (entries : list (string * bytes)) (ids : list IdentifiedPacketFees) :
  NoDup entries → (∀ e, e ∈ entries → kv !! e.1 = Some e.2) →
  Forall2 (λ e i, e.1 = KeyFeesInEscrow (ipf_PacketId i)) entries ids → NoDup (ipf_PacketId <$> ids).
Proof.
  intros Hn Hin Hf. induction Hf as [|[k v] i entries ids Hk Hf IH]; [constructor|]. simpl in Hk.
  apply NoDup_cons in Hn as [He Hn]. rewrite fmap_cons. apply NoDup_cons.
  split; [|apply IH; [done|intros; apply Hin; set_solver]].
  intros (j & Hj & Hjin)%list_elem_of_fmap. apply He.
  apply list_elem_of_lookup in Hjin as [n Hn']. destruct (Forall2_lookup_r _ _ _ _ _ Hf Hn') as ([k' v'] & Hl & Hk').
  simpl in Hk'. assert (k' = k) as -> by congruence.
  assert ((k, v') ∈ entries) as Hin' by by eapply list_elem_of_lookup_2.
  pose proof (Hin (k, v')) as H1. pose proof (Hin (k, v)) as H2. simpl in *.
  rewrite H2 in H1 by set_solver. assert (v = v') as -> by (assert (Some v = Some v') by (apply H1; set_solver); congruence).
  done.
Qed.

Lemma Forall2_sum_over {A B} (f : A → Z) (g : B → Z) l k :
  Forall2 (λ a b, f a = g b) l k → sum_over f l = sum_over g k.
Proof. induction 1; simpl; lia. Qed.

Lemma collect_records p s :
  fee_inv s → (∀ k, HasPrefix k p = true → HasPrefix k FeesInEscrowPrefix = true) →
  ∃ ids, collect p identified_fees s = (Ok ids, s) ∧ NoDup (ipf_PacketId <$> ids) ∧
    Forall (is_record (fee_store s)) ids ∧
    (∀ pid, HasPrefix (KeyFeesInEscrow pid) p = true → is_Some (fee_store s !! KeyFeesInEscrow pid) →
       valid_pid pid → pid ∈ (ipf_PacketId <$> ids)) ∧
    ∀ d, sum_over (λ i, fees_amount d (ipf_PacketFees i)) ids =
      sum_over (λ e, fees_amount d (fees_of e.2)) (KVStorePrefixIterator (fee_store s) p).
Proof.
  intros HI Hsub. set (entries := KVStorePrefixIterator (fee_store s) p).
  assert (∀ e, e ∈ entries → fee_store s !! e.1 = Some e.2 ∧ escrow_record e.1 e.2) as Hin.
  { intros [k v] [Hk Hp]%KVStorePrefixIterator_elem. split; [done|]. eapply fi_records; eauto. }
  destruct (mapM_total identified_fees (λ e i, is_record (fee_store s) i ∧
      e.1 = KeyFeesInEscrow (ipf_PacketId i) ∧ fees_of e.2 = ipf_PacketFees i) entries) as (ids & Hm & Hf').
  { intros [k v] [Hk Hr]%Hin. simpl in *.
    destruct (identified_fees_record k v Hr) as (i & Hi & Hv & -> & -> & Hg).
    exists i. split_and!; [done|done|done|apply fees_of_marshal]. }
  exists ids. split_and!.
  - unfold collect, gets, lift, mbind, M_bind. unfold entries in Hm. by rewrite Hm.
  - eapply records_distinct; [apply KVStorePrefixIterator_NoDup|by intros e [? _]%Hin|].
    eapply Forall2_impl; [exact Hf'|]. by intros ? ? (_ & ? & _).
  - apply Forall_forall. intros i Hi. apply list_elem_of_lookup in Hi as [n Hi].
    by destruct (Forall2_lookup_r _ _ _ _ _ Hf' Hi) as (e & _ & ? & _).
  - intros pid Hp [v Hv] Hvp.
    assert ((KeyFeesInEscrow pid, v) ∈ entries) as [n He]%list_elem_of_lookup
      by by apply KVStorePrefixIterator_elem.
    destruct (Forall2_lookup_l _ _ _ _ _ Hf' He) as (i & Hi & (_ & Hvi & _) & Hk & _).
    apply list_elem_of_fmap. exists i. split; [|by eapply list_elem_of_lookup_2]. by apply KeyFeesInEscrow_inj.
  - intros d. symmetry. apply Forall2_sum_over. eapply Forall2_impl; [exact Hf'|].
    by intros ? ? (_ & _ & ->).
Qed.

(** ** Settling packets *)

(** The records of some packets are gone, all others are as before. *)
Definition settled (pids : list PacketId) (s s' : Chain) : Prop :=
  ∀ k, fee_store s' !! k = if bool_decide (k ∈ (KeyFeesInEscrow <$> pids)) then None else fee_store s !! k.

(** Payments out of the escrow for some packets: what was paid, which records went,
    and that nothing but the stores of the bank and of the module changed. *)
Record pays_out (ps : list (Address * list Coin)) (pids : list PacketId) (s s' : Chain) : Prop := {
  po_balance a d : GetBalance s' a d = GetBalance s a d + sum_over (amount_to a d) ps -
    delta (bool_decide (a = GetFeeModuleAddress)) (outlay d ps);
  po_supply d : GetSupply s' d = GetSupply s d;
  po_records : settled pids s s';
  po_ibc : ibc s' = ibc s;
  po_stores k : k ≠ bank_storeKey → k ≠ fee_storeKey → stores s' !! k = stores s !! k
}.

Lemma pays_out_nil s : pays_out [] [] s s.
Proof. split; try done. intros. simpl. destruct (bool_decide _); simpl; lia. Qed.

Lemma pays_out_app ps qs pids qids s s1 s' :
  pays_out ps pids s s1 → pays_out qs qids s1 s' → pays_out (ps ++ qs) (pids ++ qids) s s'.
Proof.
  intros [B1 S1 R1 I1 T1] [B2 S2 R2 I2 T2]. split.
  - intros a d. rewrite B2, B1, sum_over_app, outlay_app. destruct (bool_decide _); simpl; lia.
  - intros d. by rewrite S2.
  - intros k. rewrite R2, R1, fmap_app. repeat case_bool_decide; set_solver.
  - congruence.
  - intros k Hb Hk. by rewrite T2, T1.
Qed.

Lemma delete_pays_out pid ps s s1 :
  paid ps s s1 →
  pays_out ps [pid] s (set_mod_store fee_storeKey (delete (KeyFeesInEscrow pid) (fee_store s1)) s1).
Proof.
  intros [O B S]. rewrite (fee_store_bank _ _ O). destruct O as (Oi & _ & _ & _ & _ & O). split.
  - intros a d. by rewrite bank_fee_store.
  - intros d. destruct (bank_local s1 (set_mod_store fee_storeKey (delete (KeyFeesInEscrow pid) (fee_store s)) s1))
      as [_ ->]; [|done]. apply mod_store_set_ne. intros H. by destruct fee_stores.
  - intros k. unfold fee_store at 1. rewrite mod_store_set. simpl.
    case_bool_decide as Hk; [|by rewrite lookup_delete_ne by set_solver].
    assert (k = KeyFeesInEscrow pid) as -> by set_solver. apply lookup_delete_eq.
  - done.
  - intros k Hb Hk. rewrite mod_store_set_ne by done. by apply O.
Qed.

(** The two distributions: they pay the fees of the packet and never lock. *)
Lemma or_lock_settles (loop : M bool) pid l ps s :
  fee_inv s → fee_store s !! KeyFeesInEscrow pid = Some (Marshal (mkPacketFees l)) →
  Forall payable ps → (∀ d, outlay d ps = fees_amount d l) → pays loop true ps →
  ∃ s', or_lock loop (DeleteFeesInEscrow pid) s = (Ok tt, s') ∧ pays_out ps [pid] s s' ∧ fee_inv s'.
Proof.
  intros HI Hk Hp Ho Hl. destruct (Hl s) as (s1 & H1 & P1).
  { intros d. rewrite Ho. by eapply record_covered. }
  eexists. split_and!; [unfold or_lock; rewrite H1; reflexivity|by apply delete_pays_out|by eapply fee_inv_settle].
Qed.

Lemma DistributeOnAcknowledgement_settles ctx fwd rev pid l s :
  fee_inv s → fee_store s !! KeyFeesInEscrow pid = Some (Marshal (mkPacketFees l)) → Forall good l →
  ∃ s', DistributePacketFeesOnAcknowledgement ctx fwd rev l pid s = (Ok tt, s') ∧
    pays_out (l ≫= ack_payments (default "" (AccAddressFromBech32 fwd)) rev) [pid] s s' ∧ fee_inv s'.
Proof.
  intros HI Hk Hg. set (pay := ack_payments _ rev).
  assert (∀ pf, good pf → Forall payable (pay pf)) by (intros ? (? & ? & ?); by eapply ack_payments_payable).
  assert (∀ pf d, good pf → outlay d (pay pf) = fee_amount d pf) by (intros; apply ack_outlay).
  eapply or_lock_settles; [done|done|by apply payments_payable|intros; by apply payments_outlay|].
  apply distribute_all_pays; [done|done| |done]. intros. by eapply distribute_ack_pays.
Qed.

Lemma DistributeOnTimeout_settles ctx rel pid l s :
  fee_inv s → fee_store s !! KeyFeesInEscrow pid = Some (Marshal (mkPacketFees l)) → Forall good l →
  ∃ s', DistributePacketFeesOnTimeout ctx rel l pid s = (Ok tt, s') ∧
    pays_out (l ≫= timeout_payments rel) [pid] s s' ∧ fee_inv s'.
Proof.
  intros HI Hk Hg. set (pay := timeout_payments rel).
  assert (∀ pf, good pf → Forall payable (pay pf)) by (intros ? (? & ? & ?); by eapply timeout_payments_payable).
  assert (∀ pf d, good pf → outlay d (pay pf) = fee_amount d pf) by (intros; apply timeout_outlay).
  eapply or_lock_settles; [done|done|by apply payments_payable|intros; by apply payments_outlay|].
  apply distribute_all_pays; [done|done| |done]. intros. by eapply distribute_timeout_pays.
Qed.

(** The refund of all packets of a list. *)
Lemma refund_all_settles ctx ids s :
  fee_inv s → NoDup (ipf_PacketId <$> ids) → Forall (is_record (fee_store s)) ids →
  ∃ s', refund_all ctx ids s = (Ok true, s') ∧ fee_inv s' ∧
    pays_out (ids ≫= λ i, ipf_PacketFees i ≫= refund_payments) (ipf_PacketId <$> ids) s s'.
Proof.
  assert (∀ pf, good pf → Forall payable (refund_payments pf)) as Hp.
  { intros ? (? & ? & ?). by eapply refund_payments_payable. }
  assert (∀ pf d, good pf → outlay d (refund_payments pf) = fee_amount d pf) as Ho.
  { intros ? ? (? & ? & ?). by eapply refund_outlay. }
  revert s. induction ids as [|i ids IH]; intros s HI Hn Hr.
  { exists s. split_and!; [done|done|apply pays_out_nil]. }
  rewrite fmap_cons in *. apply NoDup_cons in Hn as [Hi Hn].
  apply Forall_cons in Hr as [(Hk & Hv & Hg) Hr].
  destruct (refund_fees_pays ctx (ipf_PacketFees i) false Hg s) as (s1 & H1 & P1).
  { intros d. rewrite payments_outlay by done. by eapply record_covered. }
  set (s2 := set_mod_store fee_storeKey (delete (KeyFeesInEscrow (ipf_PacketId i)) (fee_store s1)) s1).
  assert (fee_inv s2) as HI2.
  { eapply fee_inv_settle; [exact HI|done|by apply payments_payable| |done]. intros. by apply payments_outlay. }
  pose proof (delete_pays_out (ipf_PacketId i) _ _ _ P1) as P2. fold s2 in P2.
  destruct (IH s2 HI2 Hn) as (s' & H' & HI' & P').
  { apply Forall_forall. intros j Hj. eapply Forall_forall in Hr as (Hkj & Hvj & Hgj); [|exact Hj].
    split; [|done]. rewrite (po_records _ _ _ _ P2). rewrite bool_decide_eq_false_2; [done|]. simpl.
    intros [Heq|Hno]%elem_of_cons; [|by apply not_elem_of_nil in Hno].
    apply KeyFeesInEscrow_inj in Heq; [|done|done]. apply Hi. rewrite <- Heq. by apply list_elem_of_fmap_2. }
  exists s'. split_and!; [|done|].
  - cbn [refund_all]. erewrite bind_run by exact H1. cbn [negb]. erewrite bind_run; [exact H'|].
    reflexivity.
  - rewrite bind_cons. by eapply (pays_out_app _ _ [ipf_PacketId i]).
Qed.

End invariant.
