(* ===== verification/FeeSpecs.v ===== *)
(** * The fee middleware in its chain

    Fees that are paid in are recorded and covered; relayers are paid when a packet
    completes; over all messages and callbacks the escrow stays solvent and the
    module is never locked; the middleware changes nothing the application sees and
    turns an application whose callbacks are runs of the protocol into another. *)

From stdpp Require Import gmap strings list relations sorting.
From Stdlib Require Import ZArith Lia Ascii.
From S2P Require Import Prelude GoStd Host Chain ModuleStore Sums Height Capability Port Commitment LightClient Client ConnTypes ChanTypes Env Connection Channel ChanHandshake Packet MsgServer ChanProofs PacketProofs Frames HandshakeProofs Protocol Guarantees MsgProofs TransferTypes FeeTypes Transfer Fee FeeProofs FeeInvariant.

(** ** Paying fees in *)

Section pay.
Context {E : IbcEnv} {L : IbcLaws} {F : FeeEnv} {FL : FeeLaws}.

Lemma valid_fee_coins f :
  Fee_Validate f = Ok tt →
  Coins_Validate (RecvFee f) = Ok tt ∧ Coins_Validate (AckFee f) = Ok tt ∧ Coins_Validate (TimeoutFee f) = Ok tt.
Proof.
  intros ([] & [[Ha Hr]%andb_true_iff Ht]%check_ok%andb_true_iff & _)%obind_ok.
  split_and!; by apply coins_is_valid_ok.
Qed.

(** The record of a packet after one more fee. *)
Lemma fee_inv_escrow pid pf a cs l s s1 :
  fee_inv s → valid_pid pid → good_fee pf a cs →
  moved a GetFeeModuleAddress cs s s1 → only_store bank_storeKey s s1 →
  (fee_store s !! KeyFeesInEscrow pid = None ∧ l = [] ∨
   fee_store s !! KeyFeesInEscrow pid = Some (Marshal (mkPacketFees l)) ∧ Forall good l) →
  fee_inv (set_mod_store fee_storeKey
    (<[KeyFeesInEscrow pid := Marshal (mkPacketFees (pf :: l))]> (fee_store s1)) s1).
Proof.
  intros HI Hv Hg [Hm _] Ho Hl. rewrite (fee_store_bank _ _ Ho).
  assert (Forall good l) as Hgl by (destruct Hl as [[_ ->]|[_ ?]]; [constructor|done]).
  assert (∀ d, GetBalance s1 GetFeeModuleAddress d = GetBalance s GetFeeModuleAddress d + fee_amount d pf) as Hb.
  { intros d. rewrite Hm. destruct (good_fee_total pf a cs d Hg) as [_ <-].
    rewrite bool_decide_eq_false_2, bool_decide_eq_true_2; [simpl; lia|done|].
    intros Heq. by apply (payable_not_module a (gf_unblocked _ _ _ Hg)). }
  destruct HI as [H1 H2 H3]. apply fee_inv_write.
  - intros k v [[<- <-]|[_ Hk]]%lookup_insert_Some Hp; [|by eapply H1].
    exists pid, (pf :: l). split_and!; try done. constructor; [by exists a, cs|done].
  - intros d. rewrite Hb, <- insert_delete_eq, owed_insert
      by (apply lookup_delete_eq || apply KeyFeesInEscrow_prefix).
    rewrite fees_of_marshal. specialize (H2 d). change (fees_amount d (pf :: l)) with (fee_amount d pf + fees_amount d l).
    destruct Hl as [[Hk ->]|[Hk _]].
    + rewrite delete_id by done. change (fees_amount d []) with 0. lia.
    + rewrite (owed_delete d _ _ _ Hk), fees_of_marshal in H2 by apply KeyFeesInEscrow_prefix. lia.
  - rewrite lookup_insert_ne; [done|]. rewrite KeyFeesInEscrow_eq. discriminate.
Qed.

Lemma escrowPacketFee_ok ctx pid pf a s s' :
  fee_inv s → valid_pid pid → Fee_Validate (pf_Fee pf) = Ok tt →
  AccAddressFromBech32 (RefundAddress pf) = Some a → BlockedAddr a = false →
  escrowPacketFee ctx pid pf s = (Ok tt, s') →
  fee_inv s' ∧ ∃ cs l, good_fee pf a cs ∧
    fee_store s' = <[KeyFeesInEscrow pid := Marshal (mkPacketFees (pf :: l))]> (fee_store s) ∧
    (∀ b d, GetBalance s' b d = GetBalance s b d - delta (bool_decide (b = a)) (fee_amount d pf) +
       delta (bool_decide (b = GetFeeModuleAddress)) (fee_amount d pf)).
Proof.
  intros HI Hv (Hr & Hk & Ht)%valid_fee_coins Ha Hb H. unfold escrowPacketFee in H.
  apply bind_ok in H as (a' & ? & [Ha' ->]%orErr_ok & H). assert (a' = a) as -> by congruence.
  apply bind_ok in H as (acc & ? & [_ ->]%gets_ok & ([] & ? & [_ ->]%require_ok & H)%bind_ok).
  apply bind_ok in H as (cs & ? & [Hcs ->]%lift_ok & ([] & s1 & Hs & H)%bind_ok).
  assert (good_fee pf a cs) as Hg by done.
  pose proof (to_module_ok _ _ _ _ _ _ Hs) as Hm. fold GetFeeModuleAddress in Hm.
  pose proof (to_module_frame ctx a Fee_ModuleName cs s) as Ho. rewrite Hs in Ho. simpl in Ho.
  assert (fee_inv s1) as HI1.
  { eapply fee_inv_frame; [by apply fee_store_bank| |exact HI]. intros d. destruct Hm as [-> _].
    rewrite bool_decide_eq_false_2, bool_decide_eq_true_2; [|done|].
    - simpl. destruct (good_fee_total pf a cs d Hg) as [_ ->]. pose proof (fee_amount_nonneg d pf a cs Hg). lia.
    - intros Heq. by apply (payable_not_module a Hb). }
  apply bind_ok in H as (o & ? & [-> Hold]%GetFeesInEscrow_ok & H); [|done].
  rewrite (fee_store_bank _ _ Ho) in Hold. apply modify_ok in H as ->. fold (fee_store s1).
  set (l := match o with Some f => pf_PacketFees f | None => [] end).
  assert (fee_store s !! KeyFeesInEscrow pid = None ∧ l = [] ∨
    fee_store s !! KeyFeesInEscrow pid = Some (Marshal (mkPacketFees l)) ∧ Forall good l) as Hl.
  { destruct o as [[f]|]; [right|left]; done. }
  split; [by apply (fee_inv_escrow pid pf a cs l s s1)|]. exists cs, l. split_and!; [done| |].
  - unfold fee_store at 1. rewrite mod_store_set. by rewrite (fee_store_bank _ _ Ho).
  - intros b d. rewrite bank_fee_store. destruct Hm as [-> _].
    by destruct (good_fee_total pf a cs d Hg) as [_ ->].
Qed.

Lemma validators_no_slash p c :
  PortIdentifierValidator p = Ok tt → ChannelIdentifierValidator c = Ok tt → no_slash p ∧ no_slash c.
Proof. intros (_ & Hp & _)%defaultIdentifierValidator_ok (_ & Hc & _)%defaultIdentifierValidator_ok. done. Qed.

Lemma require_payer_ok p c f payer s s' :
  require_payer p c f payer s = (Ok tt, s') →
  s' = s ∧ ∃ a, AccAddressFromBech32 payer = Some a ∧ BlockedAddr a = false.
Proof.
  intros (en & ? & [-> ->]%gets_ok & ([] & ? & [_ ->]%require_ok & (lk & ? & [-> ->]%gets_ok &
    ([] & ? & [_ ->]%require_ok & (a & ? & [Ha ->]%orErr_ok & (t & ? & [_ ->]%lift_ok & (ec & ? & [-> ->]%gets_ok &
    ([] & ? & [_ ->]%lift_ok & [Hb%negb_true_iff ->]%require_ok)%bind_ok)%bind_ok)%bind_ok)%bind_ok)%bind_ok)%bind_ok)%bind_ok)%bind_ok.
  eauto.
Qed.

Lemma PayPacketFee_keeps ctx msg s s' :
  fee_inv s → MsgPayPacketFee_ValidateBasic msg = Ok tt → PayPacketFee ctx msg s = (Ok tt, s') → fee_inv s'.
Proof.
  intros HI ([] & Hc & ([] & Hp & ([] & _ & ([] & _ & Hf)%obind_ok)%obind_ok)%obind_ok)%obind_ok H.
  apply bind_ok in H as ([] & ? & (-> & a & Ha & Hb)%require_payer_ok & H).
  apply bind_ok in H as (o & ? & Hn & (n & ? & [-> ->]%orErr_ok & H)%bind_ok).
  unfold GetNextSequenceSend in Hn. rewrite get_counter_run in Hn. injection Hn as Hn <-.
  eapply escrowPacketFee_ok in H as [? _]; [done|done| |done|done|done].
  destruct (validators_no_slash _ _ Hp Hc). split_and!; [done|done|by eapply counter_range].
Qed.

Lemma PayPacketFeeAsync_keeps ctx msg s s' :
  fee_inv s → MsgPayPacketFeeAsync_ValidateBasic msg = Ok tt → is_u64 (pid_Sequence (ppfa_PacketId msg)) →
  PayPacketFeeAsync ctx msg s = (Ok tt, s') → fee_inv s'.
Proof.
  intros HI ([] & ([] & Hp & ([] & Hc & _)%obind_ok)%obind_ok & ([] & _ & ([] & _ & Hf)%obind_ok)%obind_ok)%obind_ok Hu H.
  apply bind_ok in H as ([] & ? & (-> & a & Ha & Hb)%require_payer_ok & H).
  apply bind_ok in H as (o & ? & Hn & (n & ? & [-> ->]%orErr_ok & ([] & ? & [_ ->]%require_ok & H)%bind_ok)%bind_ok).
  unfold GetNextSequenceSend in Hn. rewrite get_counter_run in Hn. injection Hn as Hn <-.
  apply bind_ok in H as (bz & ? & [-> ->]%gets_ok & ([] & ? & [_ ->]%require_ok & H)%bind_ok).
  eapply escrowPacketFee_ok in H as [? _]; [done|done| |done|done|done].
  by destruct (validators_no_slash _ _ Hp Hc).
Qed.

End pay.

(** ** The callbacks keep the escrow solvent *)

Section keeps.
Context {E : IbcEnv} {L : IbcLaws} {F : FeeEnv} {FL : FeeLaws}.

Definition keeps {A} (m : M A) : Prop := ∀ s a s', fee_inv s → m s = (Ok a, s') → fee_inv s'.

(** The applications and wrappers below and above the middleware. *)
Record keeps_fees (cbs : IBCModule) : Prop := {
  kf_open_init ctx o hops p c cap cp v : keeps (OnChanOpenInit cbs ctx o hops p c cap cp v);
  kf_open_try ctx o hops p c cap cp v : keeps (OnChanOpenTry cbs ctx o hops p c cap cp v);
  kf_open_ack ctx p c i v : keeps (OnChanOpenAck cbs ctx p c i v);
  kf_open_confirm ctx p c : keeps (OnChanOpenConfirm cbs ctx p c);
  kf_close_init ctx p c : keeps (OnChanCloseInit cbs ctx p c);
  kf_close_confirm ctx p c : keeps (OnChanCloseConfirm cbs ctx p c);
  kf_recv ctx pk rel : keeps (OnRecvPacket cbs ctx pk rel);
  kf_ack ctx pk ack rel : keeps (OnAcknowledgementPacket cbs ctx pk ack rel);
  kf_timeout ctx pk rel : keeps (OnTimeoutPacket cbs ctx pk rel)
}.

Lemma keeps_fees_bind {A B} (m : M A) (f : A → M B) : keeps m → (∀ a, keeps (f a)) → keeps (m ≫= f).
Proof. intros Hm Hf s b s' HI (a & s1 & H1 & H2)%bind_ok. eapply Hf, H2. by eapply Hm. Qed.

Lemma keeps_fees_readonly {A} (m : M A) : readonly m → keeps m.
Proof. intros Hm s a s' HI H. apply readonly_ok in H; [|done]. by subst. Qed.

Lemma keeps_set k v :
  HasPrefix k FeesInEscrowPrefix = false → k ≠ KeyLocked → keeps (fee_set k v).
Proof. intros Hk Hl s a s' HI ->%modify_ok. by apply fee_inv_set. Qed.

Lemma keeps_delete k : HasPrefix k FeesInEscrowPrefix = false → keeps (fee_delete k).
Proof. intros Hk s a s' HI ->%modify_ok. by apply fee_inv_delete. Qed.

Lemma SetFeeEnabled_keeps p c : keeps (SetFeeEnabled p c).
Proof. by apply keeps_set. Qed.
Lemma SetPayeeAddress_keeps a b c : keeps (SetPayeeAddress a b c).
Proof. by apply keeps_set. Qed.
Lemma SetCounterpartyPayeeAddress_keeps a b c : keeps (SetCounterpartyPayeeAddress a b c).
Proof. by apply keeps_set. Qed.
Lemma SetRelayerAddressForAsyncAck_keeps pid a : keeps (SetRelayerAddressForAsyncAck pid a).
Proof. by apply keeps_set. Qed.
Lemma DeleteForwardRelayerAddress_keeps pid : keeps (DeleteForwardRelayerAddress pid).
Proof. by apply keeps_delete. Qed.

Lemma RefundFeesOnChannelClosure_settles ctx p c s :
  fee_inv s →
  ∃ ids s', GetIdentifiedPacketFeesForChannel p c s = (Ok ids, s) ∧
    RefundFeesOnChannelClosure ctx p c s = (Ok tt, s') ∧ fee_inv s' ∧
    pays_out (ids ≫= λ i, ipf_PacketFees i ≫= refund_payments) (ipf_PacketId <$> ids) s s' ∧
    ∀ pid, valid_pid pid → is_Some (fee_store s !! KeyFeesInEscrow pid) →
      HasPrefix (KeyFeesInEscrow pid) (KeyFeesInEscrowChannelPrefix p c) = true →
      pid ∈ (ipf_PacketId <$> ids).
Proof.
  intros HI. destruct (collect_records (KeyFeesInEscrowChannelPrefix p c) s HI) as (ids & Hc & Hn & Hr & Hin & _).
  { intros k [t ->]%prefix_inv. unfold HasPrefix, KeyFeesInEscrowChannelPrefix.
    rewrite !string_app_assoc. apply prefix_app. }
  destruct (refund_all_settles ctx ids s HI Hn Hr) as (s' & H' & HI' & HP).
  exists ids, s'. split_and!; [done| |done|done|by eauto].
  unfold RefundFeesOnChannelClosure, GetIdentifiedPacketFeesForChannel. erewrite bind_run by exact Hc.
  unfold or_lock. by rewrite H'.
Qed.

Lemma RefundFeesOnChannelClosure_keeps ctx p c : keeps (RefundFeesOnChannelClosure ctx p c).
Proof.
  intros s u s' HI H. destruct (RefundFeesOnChannelClosure_settles ctx p c s HI) as (ids & s1 & _ & H1 & HI1 & _).
  congruence.
Qed.

Lemma payee_of_ro a c : readonly (payee_of a c).
Proof. unfold payee_of, GetPayeeAddress, fee_get. ro. Qed.

#[local] Hint Resolve SetFeeEnabled_keeps SetPayeeAddress_keeps SetCounterpartyPayeeAddress_keeps
  SetRelayerAddressForAsyncAck_keeps DeleteForwardRelayerAddress_keeps RefundFeesOnChannelClosure_keeps : keeps.

Ltac keeps :=
  intros; repeat first
    [ match goal with |- keeps (_ ≫= _) => apply keeps_fees_bind; [|intros] end
    | solve [auto 2 with keeps]
    | solve [apply keeps_fees_readonly; unfold IsFeeEnabled, IsLocked, fee_has, GetCounterpartyPayeeAddress,
        GetRelayerAddressForAsyncAck, fee_get in *; ro]
    | case_match ].

Lemma refund_on_close_keeps ctx p c : keeps (refund_on_close ctx p c).
Proof. unfold refund_on_close. keeps. Qed.
#[local] Hint Resolve refund_on_close_keeps : keeps.

Lemma RegisterPayee_keeps msg : keeps (RegisterPayee msg).
Proof. unfold RegisterPayee, require_fee_channel. keeps. Qed.
Lemma RegisterCounterpartyPayee_keeps msg : keeps (RegisterCounterpartyPayee msg).
Proof. unfold RegisterCounterpartyPayee, require_fee_channel. keeps. Qed.

(** The module reads as unlocked. *)
Lemma IsLocked_run s : fee_inv s → IsLocked s = (Ok false, s).
Proof.
  intros HI. unfold IsLocked, fee_has, mod_has, gets. fold (fee_store s).
  by rewrite (fi_unlocked s HI), bool_decide_eq_false_2 by by intros [].
Qed.

Section app.
Context (app : IBCModule).

(** An acknowledgement or a timeout on a channel that takes fees: the fees of the
    packet are paid, its record is removed and the application is called. *)
Lemma on_acknowledgement_runs ctx pk bz ack rel payee l s :
  let pid := NewPacketID (SourcePort pk) (SourceChannel pk) (Sequence pk) in
  fee_inv s → IsFeeEnabled (SourcePort pk) (SourceChannel pk) s = (Ok true, s) →
  Incentivized_UnmarshalJSON bz = Some ack → GetFeesInEscrow pid s = (Ok (Some (mkPacketFees l)), s) →
  payee_of rel (SourceChannel pk) s = (Ok payee, s) →
  ∃ s1, fee_inv s1 ∧
    pays_out (l ≫= ack_payments (default "" (AccAddressFromBech32 (ForwardRelayerAddr ack))) payee) [pid] s s1 ∧
    Fee_OnAcknowledgementPacket app ctx pk bz rel s =
      OnAcknowledgementPacket app ctx pk (AppAcknowledgement ack) rel s1.
Proof.
  intros pid HI He Ha Hf Hp. destruct (GetFeesInEscrow_ok _ _ _ _ HI Hf) as [_ [Hk Hg]].
  destruct (DistributeOnAcknowledgement_settles ctx (ForwardRelayerAddr ack) payee pid l s HI Hk Hg)
    as (s1 & H1 & HP & HI1).
  exists s1. split_and!; [done|done|]. unfold Fee_OnAcknowledgementPacket.
  erewrite bind_run by exact He. cbn [negb].
  erewrite bind_run by (unfold orErr, lift; by rewrite Ha).
  erewrite bind_run by by apply IsLocked_run. cbv beta iota zeta. fold pid. erewrite bind_run by exact Hf. cbv beta iota.
  erewrite bind_run by exact Hp. by erewrite bind_run by exact H1.
Qed.

Lemma on_timeout_runs ctx pk rel payee l s :
  let pid := NewPacketID (SourcePort pk) (SourceChannel pk) (Sequence pk) in
  fee_inv s → IsFeeEnabled (SourcePort pk) (SourceChannel pk) s = (Ok true, s) →
  GetFeesInEscrow pid s = (Ok (Some (mkPacketFees l)), s) →
  payee_of rel (SourceChannel pk) s = (Ok payee, s) →
  ∃ s1, fee_inv s1 ∧ pays_out (l ≫= timeout_payments payee) [pid] s s1 ∧
    Fee_OnTimeoutPacket app ctx pk rel s = OnTimeoutPacket app ctx pk rel s1.
Proof.
  intros pid HI He Hf Hp. destruct (GetFeesInEscrow_ok _ _ _ _ HI Hf) as [_ [Hk Hg]].
  destruct (DistributeOnTimeout_settles ctx payee pid l s HI Hk Hg) as (s1 & H1 & HP & HI1).
  exists s1. split_and!; [done|done|]. unfold Fee_OnTimeoutPacket.
  erewrite bind_run by exact He. cbn [negb]. erewrite bind_run by by apply IsLocked_run. cbv beta iota zeta. fold pid.
  erewrite bind_run by exact Hf. cbv beta iota. erewrite bind_run by exact Hp. by erewrite bind_run by exact H1.
Qed.

Hypothesis Happ : keeps_fees app.

Lemma Fee_OnAcknowledgementPacket_keeps ctx pk bz rel : keeps (Fee_OnAcknowledgementPacket app ctx pk bz rel).
Proof using Happ FL.
  intros s u s' HI H. pose proof H as H0. unfold Fee_OnAcknowledgementPacket in H.
  apply bind_ok in H as (en & ? & [-> ->]%gets_ok & H). destruct (bool_decide _) eqn:Hen; [|exact (kf_ack app Happ _ _ _ _ s _ _ HI H)].
  cbn [negb] in H. apply bind_ok in H as (ack & ? & [Ha ->]%orErr_ok & H).
  erewrite bind_run in H by by apply IsLocked_run.
  apply bind_ok in H as (o & ? & Hf & H). pose proof Hf as [-> _]%GetFeesInEscrow_ok; [|done].
  destruct o as [[l]|]; [|exact (kf_ack app Happ _ _ _ _ s _ _ HI H)].
  apply bind_ok in H as (payee & ? & Hp & _). pose proof (readonly_ok _ _ _ _ (payee_of_ro _ _) Hp) as ->.
  destruct (on_acknowledgement_runs ctx pk bz ack rel payee l s HI) as (s1 & HI1 & _ & Heq); try done.
  { unfold IsFeeEnabled, fee_has, mod_has, gets. by rewrite Hen. }
  rewrite Heq in H0. exact (kf_ack app Happ _ _ _ _ s1 _ _ HI1 H0).
Qed.

Lemma Fee_OnTimeoutPacket_keeps ctx pk rel : keeps (Fee_OnTimeoutPacket app ctx pk rel).
Proof using Happ FL.
  intros s u s' HI H. pose proof H as H0. unfold Fee_OnTimeoutPacket in H.
  apply bind_ok in H as (en & ? & [-> ->]%gets_ok & H). destruct (bool_decide _) eqn:Hen; [|exact (kf_timeout app Happ _ _ _ s _ _ HI H)].
  cbn [negb] in H. erewrite bind_run in H by by apply IsLocked_run.
  apply bind_ok in H as (o & ? & Hf & H). pose proof Hf as [-> _]%GetFeesInEscrow_ok; [|done].
  destruct o as [[l]|]; [|exact (kf_timeout app Happ _ _ _ s _ _ HI H)].
  apply bind_ok in H as (payee & ? & Hp & _). pose proof (readonly_ok _ _ _ _ (payee_of_ro _ _) Hp) as ->.
  destruct (on_timeout_runs ctx pk rel payee l s HI) as (s1 & HI1 & _ & Heq); try done.
  { unfold IsFeeEnabled, fee_has, mod_has, gets. by rewrite Hen. }
  rewrite Heq in H0. exact (kf_timeout app Happ _ _ _ s1 _ _ HI1 H0).
Qed.

(** The middleware keeps the escrow solvent when the application does. *)
Lemma fee_middleware_keeps : keeps_fees (fee_middleware app).
Proof using Happ FL.
  split; simpl; try apply Fee_OnAcknowledgementPacket_keeps; try apply Fee_OnTimeoutPacket_keeps;
    destruct Happ; unfold Fee_OnChanOpenInit, Fee_OnChanOpenTry, Fee_OnChanOpenAck, Fee_OnChanCloseInit,
      Fee_OnChanCloseConfirm, Fee_OnRecvPacket; keeps.
Qed.

End app.

End keeps.

(** ** The chain as the middleware sees it *)

Section chain.
Context {E : IbcEnv} {L : IbcLaws} {F : FeeEnv} {FL : FeeLaws}.

(** A callback of the router that succeeded. *)
Inductive called (cbs : IBCModule) (s s' : Chain) : Prop :=
| called_open_init ctx o hops p c cap cp v r :
    OnChanOpenInit cbs ctx o hops p c cap cp v s = (Ok r, s') → called cbs s s'
| called_open_try ctx o hops p c cap cp v r :
    OnChanOpenTry cbs ctx o hops p c cap cp v s = (Ok r, s') → called cbs s s'
| called_open_ack ctx p c i v : OnChanOpenAck cbs ctx p c i v s = (Ok tt, s') → called cbs s s'
| called_open_confirm ctx p c : OnChanOpenConfirm cbs ctx p c s = (Ok tt, s') → called cbs s s'
| called_close_init ctx p c : OnChanCloseInit cbs ctx p c s = (Ok tt, s') → called cbs s s'
| called_close_confirm ctx p c : OnChanCloseConfirm cbs ctx p c s = (Ok tt, s') → called cbs s s'
| called_recv ctx pk rel r : OnRecvPacket cbs ctx pk rel s = (Ok r, s') → called cbs s s'
| called_ack ctx pk ack rel : OnAcknowledgementPacket cbs ctx pk ack rel s = (Ok tt, s') → called cbs s s'
| called_timeout ctx pk rel : OnTimeoutPacket cbs ctx pk rel s = (Ok tt, s') → called cbs s s'.

Lemma called_keeps cbs s s' : keeps_fees cbs → called cbs s s' → fee_inv s → fee_inv s'.
Proof. intros [] Hc HI. destruct Hc; match goal with H : _ s = _, K : _ |- _ => solve [eapply K; eassumption] end. Qed.

(** The application below the middleware and the wrapper above it. *)
Context (app : IBCModule) (ics4 : ICS4Wrapper).

(** A message of the module, a callback, an asynchronous acknowledgement, or
    anything that leaves the store of the module and does not take coins from its
    account (which other modules cannot do). *)
Inductive fee_step (s s' : Chain) : Prop :=
| step_pay ctx msg :
    MsgPayPacketFee_ValidateBasic msg = Ok tt → PayPacketFee ctx msg s = (Ok tt, s') → fee_step s s'
| step_pay_async ctx msg :
    MsgPayPacketFeeAsync_ValidateBasic msg = Ok tt → is_u64 (pid_Sequence (ppfa_PacketId msg)) →
    PayPacketFeeAsync ctx msg s = (Ok tt, s') → fee_step s s'
| step_payee msg : RegisterPayee msg s = (Ok tt, s') → fee_step s s'
| step_counterparty msg : RegisterCounterpartyPayee msg s = (Ok tt, s') → fee_step s s'
| step_called : called (fee_middleware app) s s' → fee_step s s'
| step_write_ack ctx cap pk ack :
    Fee_WriteAcknowledgement ics4 ctx cap pk ack s = (Ok tt, s') → fee_step s s'
| step_other :
    fee_store s' = fee_store s →
    (∀ d, GetBalance s GetFeeModuleAddress d <= GetBalance s' GetFeeModuleAddress d) → fee_step s s'.

(** The states a chain reaches from one where the module has nothing stored. *)
Definition fee_reachable (s : Chain) : Prop := ∃ s0, fee_store s0 = ∅ ∧ rtc fee_step s0 s.

Lemma fee_inv_empty s : fee_store s = ∅ → fee_inv s.
Proof. intros Hs. split; rewrite Hs; [done| |done]. intros d. apply balance_nonneg. Qed.

Hypothesis app_keeps : keeps_fees app.
Hypothesis ics4_keeps : ∀ ctx cap pk ack, keeps (ics4_WriteAcknowledgement ics4 ctx cap pk ack).

Lemma Fee_WriteAcknowledgement_keeps ctx cap pk ack : keeps (Fee_WriteAcknowledgement ics4 ctx cap pk ack).
Proof using ics4_keeps FL.
  unfold Fee_WriteAcknowledgement. apply keeps_fees_bind; [by apply keeps_fees_readonly|intros en].
  destruct (negb en); [done|]. unfold GetRelayerAddressForAsyncAck, GetCounterpartyPayeeAddress, fee_get.
  repeat (apply keeps_fees_bind; [by apply keeps_fees_readonly|intros]).
  apply keeps_fees_bind; [apply DeleteForwardRelayerAddress_keeps|done].
Qed.

Lemma fee_step_keeps s s' : fee_step s s' → fee_inv s → fee_inv s'.
Proof using All.
  intros Hst HI. destruct Hst as [ctx msg Hv H|ctx msg Hv Hu H|msg H|msg H|H|ctx cap pk ack H|Hs Hb].
  - by eapply PayPacketFee_keeps.
  - by eapply PayPacketFeeAsync_keeps.
  - by eapply RegisterPayee_keeps.
  - by eapply RegisterCounterpartyPayee_keeps.
  - eapply called_keeps; [apply fee_middleware_keeps, app_keeps|done|done].
  - by eapply Fee_WriteAcknowledgement_keeps.
  - by eapply fee_inv_frame.
Qed.

Lemma fee_reachable_inv s : fee_reachable s → fee_inv s.
Proof using All.
  intros (s0 & H0 & Hr). apply fee_inv_empty in H0. induction Hr as [|s s1 s' H _ IH]; [done|].
  apply IH. by eapply fee_step_keeps.
Qed.

End chain.

Section theorems.
Context {E : IbcEnv} {L : IbcLaws} {F : FeeEnv} {FL : FeeLaws}.

(** [C12] The escrow of the fee module is solvent and its emergency lock is never
    taken: in every state the chain reaches, whatever payments, relays, timeouts,
    channel closures and application code ran, the account of the module holds at
    least the sum of all fees recorded for packets in flight, every record decodes,
    and the module is not locked. *)
Theorem fees_always_covered app ics4 s :
  keeps_fees app → (∀ ctx cap pk ack, keeps (ics4_WriteAcknowledgement ics4 ctx cap pk ack)) →
  fee_reachable app ics4 s →
  ∃ ids, GetAllIdentifiedPacketFees s = (Ok ids, s) ∧ IsLocked s = (Ok false, s) ∧
    ∀ d, sum_over (λ i, fees_amount d (ipf_PacketFees i)) ids <= GetBalance s GetFeeModuleAddress d.
Proof.
  intros Ha Hw HI%fee_reachable_inv; [|done|done].
  destruct (collect_records FeesInEscrowPrefix s HI) as (ids & Hc & _ & _ & _ & Hd); [done|].
  exists ids. split_and!; [done|by apply IsLocked_run|]. intros d. rewrite Hd. apply (fi_covered s HI).
Qed.

(** [C28] Relayers are paid, in full and always: when a packet with fees is
    acknowledged, the receive fees go to the forward relayer the acknowledgement
    names, the acknowledgement fees to the payee of the relayer who delivered it and
    the timeout fees back to the payers; on a timeout the relayer's payee gets the
    timeout fees and the payers the rest (a blocked payee's share goes back to the
    payer). The record of the packet is removed, nothing else of the chain changes,
    and the application is then called with its own acknowledgement. *)
Theorem relayers_are_paid app ics4 ctx pk rel payee l s :
  keeps_fees app → (∀ ctx cap pk ack, keeps (ics4_WriteAcknowledgement ics4 ctx cap pk ack)) →
  fee_reachable app ics4 s →
  let pid := NewPacketID (SourcePort pk) (SourceChannel pk) (Sequence pk) in
  IsFeeEnabled (SourcePort pk) (SourceChannel pk) s = (Ok true, s) →
  GetFeesInEscrow pid s = (Ok (Some (mkPacketFees l)), s) →
  payee_of rel (SourceChannel pk) s = (Ok payee, s) →
  (∀ bz ack, Incentivized_UnmarshalJSON bz = Some ack →
     ∃ s1, pays_out (l ≫= ack_payments (default "" (AccAddressFromBech32 (ForwardRelayerAddr ack))) payee)
             [pid] s s1 ∧
       Fee_OnAcknowledgementPacket app ctx pk bz rel s =
         OnAcknowledgementPacket app ctx pk (AppAcknowledgement ack) rel s1) ∧
  ∃ s1, pays_out (l ≫= timeout_payments payee) [pid] s s1 ∧
    Fee_OnTimeoutPacket app ctx pk rel s = OnTimeoutPacket app ctx pk rel s1.
Proof.
  intros Ha Hw HI%fee_reachable_inv pid He Hf Hp; [|done|done]. split.
  - intros bz ack Hack.
    destruct (on_acknowledgement_runs app ctx pk bz ack rel payee l s HI He Hack Hf Hp) as (s1 & _ & ? & ?).
    by exists s1.
  - destruct (on_timeout_runs app ctx pk rel payee l s HI He Hf Hp) as (s1 & _ & ? & ?). by exists s1.
Qed.

(** [C29] Closing a channel refunds the fees of its packets: every fee recorded for a
    packet of the channel goes back to the account that paid it, and no record is
    left. (The prefix of the store keys has no separator at its end: the packets of
    a channel whose identifier merely begins with the closed one's are refunded
    too.) *)
Theorem closing_refunds_fees app ics4 ctx p c s :
  keeps_fees app → (∀ ctx cap pk ack, keeps (ics4_WriteAcknowledgement ics4 ctx cap pk ack)) →
  fee_reachable app ics4 s → no_slash p →
  ∃ ids s', RefundFeesOnChannelClosure ctx p c s = (Ok tt, s') ∧
    GetIdentifiedPacketFeesForChannel p c s = (Ok ids, s) ∧
    pays_out (ids ≫= λ i, ipf_PacketFees i ≫= refund_payments) (ipf_PacketId <$> ids) s s' ∧
    ∀ t n, no_slash (c +:+ t) → is_u64 n → fee_store s' !! KeyFeesInEscrow (NewPacketID p (c +:+ t) n) = None.
Proof.
  intros Ha Hw HI%fee_reachable_inv Hp; [|done|done].
  destruct (RefundFeesOnChannelClosure_settles ctx p c s HI) as (ids & s' & Hg & Hr & HI' & HP & Hin).
  exists ids, s'. split_and!; [done|done|done|]. intros t n Hc Hn.
  rewrite (po_records _ _ _ _ HP). case_bool_decide as Hk; [done|].
  destruct (fee_store s !! KeyFeesInEscrow (NewPacketID p (c +:+ t) n)) as [v|] eqn:Hv; [|done].
  destruct Hk. apply list_elem_of_fmap_2, Hin; [done|by rewrite Hv|].
  apply KeyFeesInEscrow_channel_prefix.
Qed.

(** The middleware is transparent: what the application answers is what the
    application at the other end is told. The version the handshake stores wraps the
    version the application chose, and reads back as it through the wrapper; the
    acknowledgement of a received packet wraps the application's bytes with the same
    success flag, leaves the state as the application left it, and unwraps to those
    bytes. *)
Theorem middleware_transparent app ics4 ctx p c s :
  (∀ o hops cap cp v bz s',
     Fee_OnChanOpenInit app ctx o hops p c cap cp v s = (Ok bz, s') →
     IsFeeEnabled p c s' = (Ok true, s') → ics4_GetAppVersion ics4 p c s' = (Ok (Some bz), s') →
     (is_blank v = true ∨ is_Some (Metadata_UnmarshalJSON v)) →
     ∃ v' appVersion s1, OnChanOpenInit app ctx o hops p c cap cp v' s = (Ok appVersion, s1) ∧
       Fee_GetAppVersion ics4 p c s' = (Ok (Some appVersion), s')) ∧
  (∀ pk rel ack s1,
     IsFeeEnabled (DestinationPort pk) (DestinationChannel pk) s = (Ok true, s) →
     OnRecvPacket app ctx pk rel s = (Ok (Some ack), s1) →
     ∃ wrapped inc, Fee_OnRecvPacket app ctx pk rel s = (Ok (Some wrapped), s1) ∧
       app_Success wrapped = app_Success ack ∧
       Incentivized_UnmarshalJSON (app_Acknowledgement wrapped) = Some inc ∧
       AppAcknowledgement inc = app_Acknowledgement ack).
Proof.
  split.
  - intros o hops cap cp v bz s' H He Hv Hcase. unfold Fee_OnChanOpenInit in H.
    assert (∃ md, (if is_blank v then Some (mkMetadata Fee_Version "") else Metadata_UnmarshalJSON v) = Some md)
      as [md Hmd] by (destruct (is_blank v); [by eexists|by destruct Hcase as [|[md ?]]; [|exists md]]).
    rewrite Hmd in H. apply bind_ok in H as ([] & ? & [_ ->]%require_ok & H).
    apply bind_ok in H as (av & s1 & Hav & (bz' & ? & [Hbz ->]%lift_ok & ([] & s2 & _ & [-> ->]%ret_ok)%bind_ok)%bind_ok).
    exists (AppVersion md), av, s1. split; [done|]. unfold Fee_GetAppVersion.
    erewrite bind_run by exact Hv. cbv beta iota. erewrite bind_run by exact He. cbn [negb].
    apply metadata_roundtrip in Hbz. erewrite bind_run by (unfold orPanic, lift; by rewrite Hbz). done.
  - intros pk rel ack s1 He Hr. eexists _, _. split_and!.
    + unfold Fee_OnRecvPacket. erewrite bind_run by exact He. cbn [negb]. erewrite bind_run by exact Hr.
      cbv beta iota. reflexivity.
    + done.
    + apply incentivized_roundtrip.
    + done.
Qed.

End theorems.

(** ** The middleware and the protocol *)

Section protocol.
Context {E : IbcEnv} {L : IbcLaws} {F : FeeEnv} {FL : FeeLaws}.

Lemma fee_pay_same ctx a cs : same_ibc (SendCoinsFromModuleToAccount ctx Fee_ModuleName a cs).
Proof. intros s. by destruct (to_account_frame ctx Fee_ModuleName a cs s) as [? _]. Qed.

Lemma distributeFee_same ctx a b cs : same_ibc (distributeFee ctx a b cs).
Proof.
  intros s. unfold distributeFee. pose proof (fee_pay_same ctx a cs s) as H1.
  destruct (SendCoinsFromModuleToAccount _ _ a cs s) as [[|e|] s1]; [done| |done].
  case_bool_decide; [done|]. pose proof (fee_pay_same ctx b cs s1) as H2.
  destruct (SendCoinsFromModuleToAccount _ _ b cs s1) as [[|e'|] s2]; simpl in *; congruence.
Qed.

Lemma attempt_same {A} (m : M A) : same_ibc m → same_ibc (attempt m).
Proof. intros Hm s. specialize (Hm s). unfold attempt. by destruct (m s) as [[|e|] s1]. Qed.

Lemma or_lock_same loop continue : same_ibc loop → same_ibc continue → same_ibc (or_lock loop continue).
Proof.
  intros Hl Hc s. unfold or_lock. specialize (Hl s). destruct (loop s) as [[[]|e|] s1]; simpl in *; try done.
  by rewrite Hc.
Qed.

#[local] Hint Resolve fee_pay_same distributeFee_same attempt_same or_lock_same : same.

Lemma distribute_all_same d l : (∀ a pf, same_ibc (d a pf)) → same_ibc (distribute_all d l).
Proof. intros Hd. induction l; cbn [distribute_all]; unfold EscrowAccountHasBalance; same. Qed.

Lemma refund_fees_same ctx l b : same_ibc (refund_fees ctx l b).
Proof. revert b. induction l; intros b; cbn [refund_fees]; unfold EscrowAccountHasBalance; same. Qed.
#[local] Hint Resolve refund_fees_same : same.

Lemma refund_all_same ctx ids : same_ibc (refund_all ctx ids).
Proof. induction ids; cbn [refund_all]; same. Qed.

Lemma RefundFeesOnChannelClosure_same ctx p c : same_ibc (RefundFeesOnChannelClosure ctx p c).
Proof.
  unfold RefundFeesOnChannelClosure, GetIdentifiedPacketFeesForChannel, collect. same.
  apply or_lock_same; [apply refund_all_same|done].
Qed.

Lemma DistributeOnAcknowledgement_same ctx f r l pid :
  same_ibc (DistributePacketFeesOnAcknowledgement ctx f r l pid).
Proof.
  apply or_lock_same; [|done]. apply distribute_all_same. intros.
  unfold distributePacketFeeOnAcknowledgement. same.
Qed.

Lemma DistributeOnTimeout_same ctx r l pid : same_ibc (DistributePacketFeesOnTimeout ctx r l pid).
Proof.
  apply or_lock_same; [|done]. apply distribute_all_same. intros. unfold distributePacketFeeOnTimeout. same.
Qed.

Lemma GetFeesInEscrow_ro pid : readonly (GetFeesInEscrow pid).
Proof. unfold GetFeesInEscrow, fee_get. ro. Qed.
Lemma IsFeeEnabled_ro p c : readonly (IsFeeEnabled p c).
Proof. done. Qed.
Lemma IsLocked_ro : readonly IsLocked.
Proof. done. Qed.
Lemma GetCounterpartyPayeeAddress_ro a c : readonly (GetCounterpartyPayeeAddress a c).
Proof. done. Qed.
#[local] Hint Resolve GetFeesInEscrow_ro IsFeeEnabled_ro IsLocked_ro GetCounterpartyPayeeAddress_ro payee_of_ro : ro.

Ltac runs :=
  repeat first
    [ match goal with |- runs (_ ≫= _) => apply runs_bind; [|intros] end
    | match goal with H : well_behaved _ |- _ => solve [apply H] end
    | solve [apply runs_readonly; ro]
    | solve [apply runs_same; first [apply RefundFeesOnChannelClosure_same|apply DistributeOnAcknowledgement_same
        |apply DistributeOnTimeout_same|intros ?; reflexivity]]
    | case_match ].

(** [C30] The middleware refines the protocol: placed in front of any application whose
    callbacks are runs of the transition system, it is again such an application. So
    every guarantee on packets, acknowledgements and channels holds with fees
    enabled, through any stack of applications under the middleware. *)
Theorem fee_middleware_well_behaved app : well_behaved app → well_behaved (fee_middleware app).
Proof.
  intros Hwb. split; intros; simpl;
    unfold Fee_OnChanOpenInit, Fee_OnChanOpenTry, Fee_OnChanOpenAck, Fee_OnChanCloseInit,
      Fee_OnChanCloseConfirm, Fee_OnRecvPacket, Fee_OnAcknowledgementPacket, Fee_OnTimeoutPacket,
      refund_on_close; runs.
Qed.

End protocol.
