(* ===== verification/IcaTypes.v ===== *)
(** * ICS 27: the types of interchain accounts

    Models src/modules/apps/27-interchain-accounts/types (account.go, codec.go,
    errors.go, keys.go, metadata.go, packet.go, port.go), the types of the controller
    and host submodules (controller/types, host/types) and the checks of their
    genesis (genesis/types/genesis.go).

    An interchain account is an account on one chain, the host, that is controlled
    over a channel from a port of another chain, the controller. *)

From stdpp Require Import gmap strings list.
From Stdlib Require Import ZArith Lia Ascii.
From S2P Require Import Prelude GoStd Host Chain Height Capability Port Commitment LightClient Client ConnTypes ChanTypes Env Connection Channel ChanHandshake Packet MsgServer CoreMsgs TransferTypes.

(** ** errors.go *)

Definition Ica_ModuleName : string := "interchainaccounts".
Definition Ica_ErrUnknownDataType : error := mkError Ica_ModuleName 2.
Definition Ica_ErrAccountAlreadyExist : error := mkError Ica_ModuleName 3.
Definition Ica_ErrPortAlreadyBound : error := mkError Ica_ModuleName 4.
Definition Ica_ErrInvalidChannelFlow : error := mkError Ica_ModuleName 5.
Definition Ica_ErrInvalidOutgoingData : error := mkError Ica_ModuleName 6.
Definition Ica_ErrInvalidRoute : error := mkError Ica_ModuleName 7.
Definition Ica_ErrInterchainAccountNotFound : error := mkError Ica_ModuleName 8.
Definition Ica_ErrActiveChannelAlreadySet : error := mkError Ica_ModuleName 10.
Definition Ica_ErrActiveChannelNotFound : error := mkError Ica_ModuleName 11.
Definition Ica_ErrInvalidVersion : error := mkError Ica_ModuleName 12.
Definition Ica_ErrInvalidAccountAddress : error := mkError Ica_ModuleName 13.
Definition Ica_ErrUnsupported : error := mkError Ica_ModuleName 14.
Definition Ica_ErrInvalidControllerPort : error := mkError Ica_ModuleName 15.
Definition Ica_ErrInvalidHostPort : error := mkError Ica_ModuleName 16.
Definition Ica_ErrInvalidTimeoutTimestamp : error := mkError Ica_ModuleName 17.
Definition Ica_ErrInvalidCodec : error := mkError Ica_ModuleName 18.
Definition Ica_ErrInvalidAccountReopening : error := mkError Ica_ModuleName 19.
Definition ErrInvalidConnection : error := mkError "connection" 8.
Definition Controller_SubModuleName : string := "icacontroller".
Definition Host_SubModuleName : string := "icahost".
Definition ErrControllerSubModuleDisabled : error := mkError Controller_SubModuleName 2.
Definition ErrHostSubModuleDisabled : error := mkError Host_SubModuleName 2.

(** ** keys.go, port.go *)

Definition HostPortID : string := "icahost".
Definition ControllerPortPrefix : string := "icacontroller-".
Definition Ica_Version : string := "ics27-1".
Definition hostAccountsKey : string := "icahost-accounts".
Definition ActiveChannelKeyPrefix : string := "activeChannel".
Definition OwnerKeyPrefix : string := "owner".
Definition PortKeyPrefix : string := "port".
Definition IsMiddlewareEnabledPrefix : string := "isMiddlewareEnabled".
Definition MiddlewareEnabled : bytes := String (byte_of 1) "".
Definition MiddlewareDisabled : bytes := String (byte_of 2) "".
Definition Controller_ParamsKey : string := "params".
Definition Host_ParamsKey : string := "params".
Definition AllowAllHostMsgs : string := "*".

Definition KeyActiveChannel (portID connectionID : string) : string :=
  ActiveChannelKeyPrefix +:+ "/" +:+ portID +:+ "/" +:+ connectionID.
Definition KeyOwnerAccount (portID connectionID : string) : string :=
  OwnerKeyPrefix +:+ "/" +:+ portID +:+ "/" +:+ connectionID.
Definition KeyPort (portID : string) : string := PortKeyPrefix +:+ "/" +:+ portID.
Definition KeyIsMiddlewareEnabled (portID connectionID : string) : string :=
  IsMiddlewareEnabledPrefix +:+ "/" +:+ portID +:+ "/" +:+ connectionID.

Definition NewControllerPortID (owner : string) : Outcome string :=
  check (negb (is_blank owner)) Ica_ErrInvalidAccountAddress;;
  Ok (ControllerPortPrefix +:+ owner).

(** ** account.go *)

Definition DefaultMaxAddrLength : Z := 128.

(** [^[a-zA-Z0-9]+$] *)
Definition isValidAddr (s : string) : bool := negb (bool_decide (s = "")) && str_forall is_alnum s.

Definition ValidateAccountAddress (addr : string) : Outcome () :=
  check (isValidAddr addr && negb (DefaultMaxAddrLength <? Z.of_nat (String.length addr)))
    Ica_ErrInvalidAccountAddress.

(** What x/auth provides: base accounts, which an interchain account extends, and the
    accounts of the keeper, one kind of which are interchain accounts; the derivation
    of addresses. *)
Class AuthTypes := {
  BaseAccount : Type;
  ba_Address : BaseAccount → string;
  NewBaseAccountWithAddress : string → BaseAccount;
  BaseAccount_Validate : BaseAccount → Outcome ();
  address_Module : string → bytes → string;
  address_Derive : string → bytes → string;
  NewModuleAddress : string → string
}.

Record InterchainAccount `{AuthTypes} := mkInterchainAccount {
  ia_BaseAccount : BaseAccount;
  ia_AccountOwner : string
}.

Arguments mkInterchainAccount {_} _ _.

(** The address depends on the hashes of the block it is made in. *)
Definition GenerateAddress `{AuthTypes} (ctx : Context) (connectionID portID : string) : string :=
  let hostModuleAcc := address_Module Ica_ModuleName hostAccountsKey in
  address_Derive hostModuleAcc (connectionID +:+ portID +:+ BlockAppHash ctx +:+ BlockDataHash ctx).

Definition NewInterchainAccount `{AuthTypes} (ba : BaseAccount) (accountOwner : string) : InterchainAccount :=
  mkInterchainAccount ba accountOwner.

(** An interchain account has no key and no sequence. *)
Definition InterchainAccount_SetPubKey `{AuthTypes} (ia : InterchainAccount) (pubKey : bytes) : Outcome () :=
  Err Ica_ErrUnsupported.
Definition InterchainAccount_SetSequence `{AuthTypes} (ia : InterchainAccount) (seq : Z) : Outcome () :=
  Err Ica_ErrUnsupported.

Definition InterchainAccount_Validate `{AuthTypes} (ia : InterchainAccount) : Outcome () :=
  check (negb (is_blank (ia_AccountOwner ia))) Ica_ErrInvalidAccountAddress;;
  BaseAccount_Validate (ia_BaseAccount ia).

(** ** packet.go *)

(** A protobuf enumeration is an [int32]: the named values, and any other one. *)
Inductive IcaType := UNSPECIFIED | EXECUTE_TX | UnknownType (n : Z).

#[export] Instance IcaType_eq_dec : EqDecision IcaType.
Proof. solve_decision. Defined.

Record IcaPacketData := mkIcaPacketData {
  ip_Type : IcaType;
  ip_Data : bytes;
  ip_Memo : string
}.

Definition MaxMemoCharLength : Z := 256.

Definition IcaPacketData_ValidateBasic (iapd : IcaPacketData) : Outcome () :=
  check (negb (bool_decide (ip_Type iapd = UNSPECIFIED))) Ica_ErrInvalidOutgoingData;;
  check (negb (bool_decide (ip_Data iapd = ""))) Ica_ErrInvalidOutgoingData;;
  check (negb (MaxMemoCharLength <? Z.of_nat (String.length (ip_Memo iapd)))) Ica_ErrInvalidOutgoingData.

(** ** metadata.go *)

Record IcaMetadata := mkIcaMetadata {
  im_Version : string;
  im_ControllerConnectionId : string;
  im_HostConnectionId : string;
  im_Address : string;
  im_Encoding : string;
  im_TxType : string
}.

Definition EncodingProtobuf : string := "proto3".
Definition TxTypeSDKMultiMsg : string := "sdk_multi_msg".

Definition NewIcaMetadata (version controllerConnectionID hostConnectionID accAddress encoding txType : string) :
    IcaMetadata :=
  mkIcaMetadata version controllerConnectionID hostConnectionID accAddress encoding txType.

Definition NewDefaultMetadata (controllerConnectionID hostConnectionID : string) : IcaMetadata :=
  mkIcaMetadata Ica_Version controllerConnectionID hostConnectionID "" EncodingProtobuf TxTypeSDKMultiMsg.

(** Encodings of the module: metadata and packet data as JSON; the codec of the chain
    and the messages it knows; parameters. *)
Class IcaCodec := {
  IcaMetadata_MarshalJSON : IcaMetadata → bytes;
  IcaMetadata_UnmarshalJSON : bytes → option IcaMetadata;
  IcaPacketData_GetBytes : IcaPacketData → bytes;
  IcaPacketData_UnmarshalJSON : bytes → option IcaPacketData;
  IcaAck_GetBytes : Acknowledgement → bytes
}.

Definition NewDefaultMetadataString `{IcaCodec} (controllerConnectionID hostConnectionID : string) : string :=
  IcaMetadata_MarshalJSON (NewDefaultMetadata controllerConnectionID hostConnectionID).

Definition IsPreviousMetadataEqual `{IcaCodec} (previousVersion : string) (metadata : IcaMetadata) : bool :=
  match IcaMetadata_UnmarshalJSON previousVersion with
  | None => false
  | Some previousMetadata =>
      bool_decide (im_Version previousMetadata = im_Version metadata) &&
      bool_decide (im_ControllerConnectionId previousMetadata = im_ControllerConnectionId metadata) &&
      bool_decide (im_HostConnectionId previousMetadata = im_HostConnectionId metadata) &&
      bool_decide (im_Encoding previousMetadata = im_Encoding metadata) &&
      bool_decide (im_TxType previousMetadata = im_TxType metadata)
  end.

Definition getSupportedEncoding : list string := [EncodingProtobuf].
Definition isSupportedEncoding (encoding : string) : bool :=
  existsb (λ enc, bool_decide (enc = encoding)) getSupportedEncoding.
Definition getSupportedTxTypes : list string := [TxTypeSDKMultiMsg].
Definition isSupportedTxType (txType : string) : bool :=
  existsb (λ t, bool_decide (t = txType)) getSupportedTxTypes.

Definition validateConnectionParams (metadata : IcaMetadata) (controllerConnectionID hostConnectionID : string) :
    Outcome () :=
  check (bool_decide (im_ControllerConnectionId metadata = controllerConnectionID)) ErrInvalidConnection;;
  check (bool_decide (im_HostConnectionId metadata = hostConnectionID)) ErrInvalidConnection.

(** The two validations differ in which of the two connections is this chain's. *)
Definition validate_metadata `{IbcEnv} (connectionHops : list string) (metadata : IcaMetadata)
    (ends : string → string → string * string) : M () :=
  require (isSupportedEncoding (im_Encoding metadata)) Ica_ErrInvalidCodec;;
  require (isSupportedTxType (im_TxType metadata)) Ica_ErrUnknownDataType;;
  hop ← hop0 connectionHops;
  connection ← Channel_GetConnection hop;
  let '(controllerConnectionID, hostConnectionID) :=
    ends hop (cpc_ConnectionId (conn_Counterparty connection)) in
  lift (validateConnectionParams metadata controllerConnectionID hostConnectionID);;
  (if negb (bool_decide (im_Address metadata = "")) then lift (ValidateAccountAddress (im_Address metadata))
   else mret tt);;
  require (bool_decide (im_Version metadata = Ica_Version)) Ica_ErrInvalidVersion.

Definition ValidateControllerMetadata `{IbcEnv} (connectionHops : list string) (metadata : IcaMetadata) : M () :=
  validate_metadata connectionHops metadata (λ own counterparty, (own, counterparty)).
Definition ValidateHostMetadata `{IbcEnv} (connectionHops : list string) (metadata : IcaMetadata) : M () :=
  validate_metadata connectionHops metadata (λ own counterparty, (counterparty, own)).

(** ** Messages of the chain: codec.go, router.go *)

(** [sdk.Msg] with what the module asks of it, and the codec that unpacks messages
    from [Any] values.  The message that opens a channel is one of them. *)
Class SdkMessages := {
  SdkMsg : Type;
  AnyMsg : Type;
  MsgResponse : Type;
  MsgTypeURL : SdkMsg → string;
  Msg_ValidateBasic : SdkMsg → Outcome ();
  Msg_GetSigners : SdkMsg → Outcome (list string);
  cdc_is_proto : bool;
  NewAnyWithValue : SdkMsg → Outcome AnyMsg;
  CosmosTx_Marshal : list AnyMsg → Outcome bytes;
  CosmosTx_Unmarshal : bytes → option (list AnyMsg);
  UnpackAny : AnyMsg → option SdkMsg;
  TxMsgData_Marshal : list MsgResponse → Outcome bytes;
  open_init_msg : MsgChannelOpenInit → SdkMsg;
  open_init_response : MsgResponse → option string
}.

(** The router of the chain finds the handler of a message, which returns the responses
    of its result. *)
Class MessageRouter `{SdkMessages} := {
  Handler : SdkMsg → option (Context → M (list (option MsgResponse)))
}.

Section messages.
Context `{SdkMessages}.

Definition SerializeCosmosTx (msgs : list SdkMsg) : Outcome bytes :=
  check cdc_is_proto Ica_ErrInvalidCodec;;
  msgAnys ← mapM NewAnyWithValue msgs;
  CosmosTx_Marshal msgAnys.

Definition DeserializeCosmosTx (data : bytes) : Outcome (list SdkMsg) :=
  check cdc_is_proto Ica_ErrInvalidCodec;;
  messages ← of_option errUnregistered (CosmosTx_Unmarshal data);
  mapM (λ protoAny, of_option errUnregistered (UnpackAny protoAny)) messages.

(** ** host/types/keys.go *)

Definition ContainsMsgType (allowMsgs : list string) (msg : SdkMsg) : bool :=
  bool_decide (allowMsgs = [AllowAllHostMsgs]) ||
  existsb (λ v, bool_decide (v = MsgTypeURL msg)) allowMsgs.

End messages.

(** ** Parameters *)

Record ControllerParams := mkControllerParams { ControllerEnabled : bool }.
Record HostParams := mkHostParams { HostEnabled : bool; AllowMessages : list string }.

Definition Controller_DefaultParams : ControllerParams := mkControllerParams true.
Definition Host_DefaultParams : HostParams := mkHostParams true [AllowAllHostMsgs].

Fixpoint validateAllowlist (allowMsgs : list string) : Outcome () :=
  match allowMsgs with
  | [] => Ok tt
  | typeURL :: l => check (negb (is_blank typeURL)) errUnregistered;; validateAllowlist l
  end.

Definition HostParams_Validate (p : HostParams) : Outcome () := validateAllowlist (AllowMessages p).

(** ** controller/types/msgs.go, host/types/msgs.go *)

Record MsgRegisterInterchainAccount := mkMsgRegisterInterchainAccount {
  mri_Owner : string;
  mri_ConnectionId : string;
  mri_Version : string
}.
Record MsgSendTx := mkMsgSendTx {
  mst_Owner : string;
  mst_ConnectionId : string;
  mst_PacketData : IcaPacketData;
  mst_RelativeTimeout : Z
}.

Definition MsgRegisterInterchainAccount_ValidateBasic (msg : MsgRegisterInterchainAccount) : Outcome () :=
  ConnectionIdentifierValidator (mri_ConnectionId msg);;
  check (negb (is_blank (mri_Owner msg))) ErrInvalidAddress.

Definition MsgSendTx_ValidateBasic (msg : MsgSendTx) : Outcome () :=
  ConnectionIdentifierValidator (mst_ConnectionId msg);;
  check (negb (is_blank (mst_Owner msg))) ErrInvalidAddress;;
  IcaPacketData_ValidateBasic (mst_PacketData msg);;
  check (negb (mst_RelativeTimeout msg =? 0)) ErrInvalidRequest.

(** The signer of a message is its owner, or the authority; one that is not an address
    panics. *)
Definition ica_signers `{AccountTypes} (owner : string) : Outcome (list string) :=
  match AccAddressFromBech32 owner with Some a => Ok [a] | None => Panic end.

Definition MsgUpdateControllerParams_ValidateBasic `{AccountTypes} (msgAuthority : string) : Outcome () :=
  check (bool_decide (is_Some (AccAddressFromBech32 msgAuthority))) ErrInvalidAddress.
Definition MsgUpdateHostParams_ValidateBasic `{AccountTypes} (msgAuthority : string) (params : HostParams) : Outcome () :=
  check (bool_decide (is_Some (AccAddressFromBech32 msgAuthority))) ErrInvalidAddress;;
  HostParams_Validate params.

(** ** genesis/types/genesis.go *)

Record ActiveChannel := mkActiveChannel {
  ac_ConnectionId : string;
  ac_PortId : string;
  ac_ChannelId : string;
  ac_IsMiddlewareEnabled : bool
}.
Record RegisteredInterchainAccount := mkRegisteredInterchainAccount {
  ra_ConnectionId : string;
  ra_PortId : string;
  ra_AccountAddress : string
}.
Record ControllerGenesis := mkControllerGenesis {
  cg_ActiveChannels : list ActiveChannel;
  cg_InterchainAccounts : list RegisteredInterchainAccount;
  cg_Ports : list string;
  cg_Params : ControllerParams
}.
Record HostGenesis := mkHostGenesis {
  hg_ActiveChannels : list ActiveChannel;
  hg_InterchainAccounts : list RegisteredInterchainAccount;
  hg_Port : string;
  hg_Params : HostParams
}.

Definition DefaultControllerGenesis : ControllerGenesis := mkControllerGenesis [] [] [] Controller_DefaultParams.
Definition DefaultHostGenesis : HostGenesis := mkHostGenesis [] [] HostPortID Host_DefaultParams.

(** The loops of the two validations. *)
Fixpoint each_ok {A} (l : list A) (body : A → Outcome ()) : Outcome () :=
  match l with [] => Ok tt | x :: l' => body x;; each_ok l' body end.

Definition validate_channels (l : list ActiveChannel) : Outcome () :=
  each_ok l (λ ch, ChannelIdentifierValidator (ac_ChannelId ch);; PortIdentifierValidator (ac_PortId ch)).
Definition validate_accounts (l : list RegisteredInterchainAccount) : Outcome () :=
  each_ok l (λ acc, PortIdentifierValidator (ra_PortId acc);; ValidateAccountAddress (ra_AccountAddress acc)).

Definition ControllerGenesis_Validate (gs : ControllerGenesis) : Outcome () :=
  validate_channels (cg_ActiveChannels gs);;
  validate_accounts (cg_InterchainAccounts gs);;
  each_ok (cg_Ports gs) PortIdentifierValidator.

Definition HostGenesis_Validate (gs : HostGenesis) : Outcome () :=
  validate_channels (hg_ActiveChannels gs);;
  validate_accounts (hg_InterchainAccounts gs);;
  PortIdentifierValidator (hg_Port gs);;
  HostParams_Validate (hg_Params gs).

Definition IcaGenesis_Validate (controller : ControllerGenesis) (host : HostGenesis) : Outcome () :=
  ControllerGenesis_Validate controller;;
  HostGenesis_Validate host.
