(* ===== verification/Ica.v ===== *)
(** * ICS 27: interchain accounts

    Models src/modules/apps/27-interchain-accounts: the keeper of the controller
    submodule (controller/keeper) and the middleware it is (controller/ibc_middleware.go),
    the keeper of the host submodule (host/keeper) and its callbacks
    (host/ibc_module.go).  The controller opens a channel from a port that carries the
    name of the owner and sends transactions over it; the host creates the account
    that belongs to the port and the connection and executes the transactions for it,
    by the handlers of its message router, a parameter. *)

From stdpp Require Import gmap strings list.
From Stdlib Require Import ZArith Lia Ascii.
From S2P Require Import Prelude GoStd Host Chain ModuleStore Height Capability Port Commitment LightClient Client ConnTypes ChanTypes Env Connection Channel ChanHandshake Packet MsgServer CoreMsgs TransferTypes FeeTypes Transfer IcaTypes.

(** What the modules are built on: addresses, x/auth and its accounts, encodings, the
    messages of the chain and their handlers, their store keys.  [NewAccount] gives
    the account a number. *)
Class IcaEnv := {
  ica_accounts :: AccountTypes;
  ica_auth :: AuthTypes;
  ica_codec :: IcaCodec;
  ica_msgs :: SdkMessages;
  controller_storeKey : string;
  host_storeKey : string;
  ica_cparams :: Proto ControllerParams;
  ica_hparams :: Proto HostParams;
  auth_storeKey : string;
  AccountI : Type;
  acc_GetAddress : AccountI → string;
  of_interchain : InterchainAccount → AccountI;
  as_interchain : AccountI → option InterchainAccount;
  acc_GetAccount : Chain → string → option AccountI;
  acc_NewAccount : Context → AccountI → M AccountI;
  acc_SetAccount : Context → AccountI → M ()
}.

(** Their documented behaviour.  x/auth keeps accounts by address in its own store;
    numbering an account changes nothing else of it; addresses are printed so that they
    read back; the derivation of addresses is a hash and never empty. *)
Class IcaLaws `{IcaEnv} := {
  ica_stores : controller_storeKey ≠ host_storeKey;
  ica_auth_store : auth_storeKey ≠ host_storeKey;
  ica_cparams_laws :: ProtoLaws ControllerParams;
  ica_hparams_laws :: ProtoLaws HostParams;
  ica_metadata_roundtrip m : IcaMetadata_UnmarshalJSON (IcaMetadata_MarshalJSON m) = Some m;
  derive_nonempty a bz : address_Derive a bz ≠ "";
  ica_bech32 a : a ≠ "" → AccAddressFromBech32 (AccAddress_String a) = Some a;
  base_address a : ba_Address (NewBaseAccountWithAddress a) = AccAddress_String a;
  interchain_address a owner :
    acc_GetAddress (of_interchain (mkInterchainAccount (NewBaseAccountWithAddress a) owner)) = a;
  interchain_cast ia : as_interchain (of_interchain ia) = Some ia;
  accounts_local s s' a :
    stores s' !! auth_storeKey = stores s !! auth_storeKey → acc_GetAccount s' a = acc_GetAccount s a;
  new_account_frame ctx acc s : only_store auth_storeKey s (snd (acc_NewAccount ctx acc s));
  set_account_frame ctx acc s : only_store auth_storeKey s (snd (acc_SetAccount ctx acc s));
  new_account_ok ctx acc s acc' s' :
    acc_NewAccount ctx acc s = (Ok acc', s') →
    acc_GetAddress acc' = acc_GetAddress acc ∧
    ia_AccountOwner <$> as_interchain acc' = ia_AccountOwner <$> as_interchain acc ∧
    ∀ a, acc_GetAccount s' a = acc_GetAccount s a;
  set_account_ok ctx acc s s' a :
    acc_SetAccount ctx acc s = (Ok tt, s') →
    acc_GetAccount s' a = if bool_decide (a = acc_GetAddress acc) then Some acc else acc_GetAccount s a
}.

(** ** What the two keepers have in common

    Both keep active channels and account addresses by connection and port, in a store
    of their own, and a scoped capability keeper. *)

Section common.
Context {E : IbcEnv} {I : IcaEnv}.
Context (key : string) (module : string).

Definition ica_hasCapability (portID : string) : M bool :=
  cap ← GetCapability module (PortPath portID);
  mret (bool_decide (is_Some cap)).
Definition ica_ClaimCapability (cap : option Capability) (name : string) : M () :=
  ClaimCapability module cap name.
Definition ica_AuthenticateCapability (cap : option Capability) (name : string) : M bool :=
  AuthenticateCapability module cap name.

Definition ica_BindPort (portID : string) : M Capability :=
  mod_set key (KeyPort portID) (String (byte_of 1) "");;
  BindPort portID.

Definition ica_GetActiveChannelID (connectionID portID : string) : M (option string) :=
  mod_get key (KeyActiveChannel portID connectionID).
Definition ica_SetActiveChannelID (connectionID portID channelID : string) : M () :=
  mod_set key (KeyActiveChannel portID connectionID) channelID.
Definition ica_IsActiveChannel (connectionID portID : string) : M bool :=
  channelID ← ica_GetActiveChannelID connectionID portID;
  mret (bool_decide (is_Some channelID)).

Definition ica_GetOpenActiveChannel (connectionID portID : string) : M (option string) :=
  channelID ← ica_GetActiveChannelID connectionID portID;
  match channelID with
  | None => mret None
  | Some channelID =>
      channel ← GetChannel portID channelID;
      mret (match channel with
            | Some channel => if bool_decide (ch_State channel = OPEN) then Some channelID else None
            | None => None
            end)
  end.

Definition ica_GetInterchainAccountAddress (connectionID portID : string) : M (option string) :=
  mod_get key (KeyOwnerAccount portID connectionID).
Definition ica_SetInterchainAccountAddress (connectionID portID address : string) : M () :=
  mod_set key (KeyOwnerAccount portID connectionID) address.

(** [keySplit[i]] of a key: out of range panics. *)
Definition key_part (k : string) (i : nat) : Outcome string :=
  match Split k "/" !! i with Some x => Ok x | None => Panic end.

Definition ica_entries {A} (prefix : string) (decode : string * bytes → Outcome A) : M (list A) :=
  kv ← gets (mod_store key);
  lift (mapM decode (KVStorePrefixIterator kv prefix)).

Definition ica_GetAllInterchainAccounts : M (list RegisteredInterchainAccount) :=
  ica_entries OwnerKeyPrefix (λ e,
    connectionID ← key_part e.1 2;
    portID ← key_part e.1 1;
    Ok (mkRegisteredInterchainAccount connectionID portID e.2)).

End common.

(** ** The controller *)

Section controller.
Context {E : IbcEnv} {I : IcaEnv} {R : MessageRouter}.
(** The wrapper packets are sent through, and the authority of the keeper. *)
Context (ics4 : ICS4Wrapper) (authority : string).

(** *** keeper.go *)

Definition Controller_hasCapability := ica_hasCapability Controller_SubModuleName.
Definition Controller_ClaimCapability := ica_ClaimCapability Controller_SubModuleName.
Definition Controller_AuthenticateCapability := ica_AuthenticateCapability Controller_SubModuleName.
Definition Controller_BindPort := ica_BindPort controller_storeKey.
Definition Controller_GetActiveChannelID := ica_GetActiveChannelID controller_storeKey.
Definition Controller_SetActiveChannelID := ica_SetActiveChannelID controller_storeKey.
Definition Controller_IsActiveChannel := ica_IsActiveChannel controller_storeKey.
Definition Controller_GetOpenActiveChannel := ica_GetOpenActiveChannel controller_storeKey.
Definition Controller_GetInterchainAccountAddress := ica_GetInterchainAccountAddress controller_storeKey.
Definition Controller_SetInterchainAccountAddress := ica_SetInterchainAccountAddress controller_storeKey.
Definition Controller_GetAllInterchainAccounts := ica_GetAllInterchainAccounts controller_storeKey.
Definition Controller_GetAppVersion (portID channelID : string) : M (option string) :=
  ics4_GetAppVersion ics4 portID channelID.

Definition GetConnectionID (portID channelID : string) : M string :=
  channel ← GetChannel portID channelID;
  channel ← orErr ErrChannelNotFound channel;
  hop0 (ch_ConnectionHops channel).

Definition GetAllPorts : M (list string) :=
  ica_entries controller_storeKey PortKeyPrefix (λ e, key_part e.1 1).

Definition IsActiveChannelClosed (connectionID portID : string) : M bool :=
  channelID ← Controller_GetActiveChannelID connectionID portID;
  match channelID with
  | None => mret false
  | Some channelID =>
      channel ← GetChannel portID channelID;
      mret (match channel with Some channel => bool_decide (ch_State channel = CLOSED) | None => false end)
  end.

Definition IsMiddlewareEnabled (portID connectionID : string) : M bool :=
  bz ← mod_get controller_storeKey (KeyIsMiddlewareEnabled portID connectionID);
  mret (bool_decide (bz = Some MiddlewareEnabled)).
Definition IsMiddlewareDisabled (portID connectionID : string) : M bool :=
  bz ← mod_get controller_storeKey (KeyIsMiddlewareEnabled portID connectionID);
  mret (bool_decide (bz = Some MiddlewareDisabled)).
Definition SetMiddlewareEnabled (portID connectionID : string) : M () :=
  mod_set controller_storeKey (KeyIsMiddlewareEnabled portID connectionID) MiddlewareEnabled.
Definition SetMiddlewareDisabled (portID connectionID : string) : M () :=
  mod_set controller_storeKey (KeyIsMiddlewareEnabled portID connectionID) MiddlewareDisabled.
Definition DeleteMiddlewareEnabled (portID connectionID : string) : M () :=
  mod_delete controller_storeKey (KeyIsMiddlewareEnabled portID connectionID).

(** The flag is read while the iteration runs. *)
Definition Controller_GetAllActiveChannels : M (list ActiveChannel) :=
  kv ← gets (mod_store controller_storeKey);
  lift (mapM (λ e,
    portID ← key_part e.1 1;
    connectionID ← key_part e.1 2;
    Ok (mkActiveChannel connectionID portID e.2
          (bool_decide (kv !! KeyIsMiddlewareEnabled portID connectionID = Some MiddlewareEnabled))))
    (KVStorePrefixIterator kv ActiveChannelKeyPrefix)).

Definition Controller_GetParams : M ControllerParams :=
  bz ← mod_get controller_storeKey Controller_ParamsKey;
  bz ← orPanic bz;
  lift (MustUnmarshal bz).
Definition Controller_SetParams (params : ControllerParams) : M () :=
  mod_set controller_storeKey Controller_ParamsKey (Marshal params).

(** *** account.go *)

(** The response of the message that opened the channel. *)
Definition first_response (responses : list (option MsgResponse)) : M MsgResponse :=
  response ← orPanic (head responses);
  orPanic response.

Definition registerInterchainAccount (ctx : Context) (connectionID portID version : string) : M string :=
  activeChannelID ← Controller_GetOpenActiveChannel connectionID portID;
  require (bool_decide (activeChannelID = None)) Ica_ErrActiveChannelAlreadySet;;
  bound ← IsBound portID;
  (if bound : bool then
     has ← Controller_hasCapability portID;
     require has Ica_ErrPortAlreadyBound
   else
     capability ← Controller_BindPort portID;
     Controller_ClaimCapability (Some capability) (PortPath portID));;
  let msg := NewMsgChannelOpenInit portID version ORDERED [connectionID] HostPortID
               (AccAddress_String (NewModuleAddress Ica_ModuleName)) in
  handler ← orPanic (Handler (open_init_msg msg));
  responses ← handler ctx;
  firstMsgResponse ← first_response responses;
  orErr ErrInvalidType (open_init_response firstMsgResponse).

Definition RegisterInterchainAccount (ctx : Context) (connectionID owner version : string) : M () :=
  portID ← lift (NewControllerPortID owner);
  disabled ← IsMiddlewareDisabled portID connectionID;
  closed ← (if disabled : bool then IsActiveChannelClosed connectionID portID else mret true);
  require closed Ica_ErrInvalidChannelFlow;;
  SetMiddlewareEnabled portID connectionID;;
  registerInterchainAccount ctx connectionID portID version;;
  mret tt.

(** *** handshake.go *)

(** The part the two handshakes share: an active channel must not be open, and its
    metadata must be that of the channel being opened. *)
Definition check_previous (getAppVersion : string → string → M (option string))
    (activeChannelID : option string) (portID : string) (metadata : IcaMetadata) : M () :=
  match activeChannelID with
  | None => mret tt
  | Some activeChannelID =>
      channel ← GetChannel portID activeChannelID;
      channel ← orPanic channel;
      require (negb (bool_decide (ch_State channel = OPEN))) Ica_ErrActiveChannelAlreadySet;;
      appVersion ← getAppVersion portID activeChannelID;
      appVersion ← orPanic appVersion;
      require (IsPreviousMetadataEqual appVersion metadata) Ica_ErrInvalidVersion
  end.

Definition ControllerKeeper_OnChanOpenInit (ctx : Context) (order : Order) (connectionHops : list string)
    (portID channelID : string) (chanCap : option Capability) (counterparty : Counterparty)
    (version : string) : M string :=
  require (bool_decide (order = ORDERED)) ErrInvalidChannelOrdering;;
  require (HasPrefix portID ControllerPortPrefix) Ica_ErrInvalidControllerPort;;
  require (bool_decide (cp_PortId counterparty = HostPortID)) Ica_ErrInvalidHostPort;;
  metadata ← (if is_blank version then
                hop ← hop0 connectionHops;
                connection ← Channel_GetConnection hop;
                mret (NewDefaultMetadata hop (cpc_ConnectionId (conn_Counterparty connection)))
              else orErr Ica_ErrUnknownDataType (IcaMetadata_UnmarshalJSON version));
  ValidateControllerMetadata connectionHops metadata;;
  hop ← hop0 connectionHops;
  activeChannelID ← Controller_GetActiveChannelID hop portID;
  check_previous Controller_GetAppVersion activeChannelID portID metadata;;
  mret (IcaMetadata_MarshalJSON metadata).

Definition ControllerKeeper_OnChanOpenAck (ctx : Context) (portID channelID counterpartyVersion : string) : M () :=
  require (negb (bool_decide (portID = HostPortID))) Ica_ErrInvalidControllerPort;;
  require (HasPrefix portID ControllerPortPrefix) Ica_ErrInvalidControllerPort;;
  metadata ← orErr Ica_ErrUnknownDataType (IcaMetadata_UnmarshalJSON counterpartyVersion);
  activeChannelID ← Controller_GetOpenActiveChannel (im_ControllerConnectionId metadata) portID;
  require (bool_decide (activeChannelID = None)) Ica_ErrActiveChannelAlreadySet;;
  channel ← GetChannel portID channelID;
  channel ← orErr ErrChannelNotFound channel;
  ValidateControllerMetadata (ch_ConnectionHops channel) metadata;;
  require (negb (is_blank (im_Address metadata))) Ica_ErrInvalidAccountAddress;;
  Controller_SetActiveChannelID (im_ControllerConnectionId metadata) portID channelID;;
  Controller_SetInterchainAccountAddress (im_ControllerConnectionId metadata) portID (im_Address metadata).

(** The active channel stays set: it may be opened again. *)
Definition ControllerKeeper_OnChanCloseConfirm (ctx : Context) (portID channelID : string) : M () := mret tt.

(** *** relay.go, msg_server.go *)

Definition ControllerKeeper_OnTimeoutPacket (ctx : Context) (packet : Packet) : M () := mret tt.

Definition sendTx (ctx : Context) (connectionID portID : string) (icaPacketData : IcaPacketData)
    (timeoutTimestamp : Z) : M Z :=
  activeChannelID ← Controller_GetOpenActiveChannel connectionID portID;
  activeChannelID ← orErr Ica_ErrActiveChannelNotFound activeChannelID;
  chanCap ← GetCapability Controller_SubModuleName (ChannelCapabilityPath portID activeChannelID);
  chanCap ← orErr ErrCapabilityNotFound chanCap;
  require (negb (timeoutTimestamp <=? ctx_time ctx)) Ica_ErrInvalidTimeoutTimestamp;;
  lift (IcaPacketData_ValidateBasic icaPacketData);;
  ics4_SendPacket ics4 ctx (Some chanCap) portID activeChannelID ZeroHeight timeoutTimestamp
    (IcaPacketData_GetBytes icaPacketData).

Definition SendTx (ctx : Context) (cap : option Capability) (connectionID portID : string)
    (icaPacketData : IcaPacketData) (timeoutTimestamp : Z) : M Z :=
  sendTx ctx connectionID portID icaPacketData timeoutTimestamp.

Definition Msg_RegisterInterchainAccount (ctx : Context) (msg : MsgRegisterInterchainAccount) : M (string * string) :=
  portID ← lift (NewControllerPortID (mri_Owner msg));
  enabled ← IsMiddlewareEnabled portID (mri_ConnectionId msg);
  closed ← (if enabled : bool then IsActiveChannelClosed (mri_ConnectionId msg) portID else mret true);
  require closed Ica_ErrInvalidChannelFlow;;
  SetMiddlewareDisabled portID (mri_ConnectionId msg);;
  channelID ← registerInterchainAccount ctx (mri_ConnectionId msg) portID (mri_Version msg);
  mret (channelID, portID).

Definition Msg_SendTx (ctx : Context) (msg : MsgSendTx) : M Z :=
  portID ← lift (NewControllerPortID (mst_Owner msg));
  let absoluteTimeout := u64 (ctx_time ctx + mst_RelativeTimeout msg) in
  sendTx ctx (mst_ConnectionId msg) portID (mst_PacketData msg) absoluteTimeout.

Definition Controller_UpdateParams (msgAuthority : string) (params : ControllerParams) : M () :=
  require (bool_decide (authority = msgAuthority)) ErrUnauthorized;;
  Controller_SetParams params.

(** *** genesis.go *)

Definition Controller_InitGenesis (state : ControllerGenesis) : M () :=
  for_each (cg_Ports state) (λ portID,
    has ← Controller_hasCapability portID;
    if has : bool then mret tt
    else
      capability ← Controller_BindPort portID;
      orPanics (Controller_ClaimCapability (Some capability) (PortPath portID)));;
  for_each (cg_ActiveChannels state) (λ ch,
    Controller_SetActiveChannelID (ac_ConnectionId ch) (ac_PortId ch) (ac_ChannelId ch);;
    if ac_IsMiddlewareEnabled ch then SetMiddlewareEnabled (ac_PortId ch) (ac_ConnectionId ch)
    else SetMiddlewareDisabled (ac_PortId ch) (ac_ConnectionId ch));;
  for_each (cg_InterchainAccounts state) (λ acc,
    Controller_SetInterchainAccountAddress (ra_ConnectionId acc) (ra_PortId acc) (ra_AccountAddress acc));;
  Controller_SetParams (cg_Params state).

Definition Controller_ExportGenesis : M ControllerGenesis :=
  channels ← Controller_GetAllActiveChannels;
  accounts ← Controller_GetAllInterchainAccounts;
  ports ← GetAllPorts;
  params ← Controller_GetParams;
  mret (mkControllerGenesis channels accounts ports params).

(** *** ibc_middleware.go

    The application below is an authentication module, and may be missing. *)

Section middleware.
Context (app : option IBCModule).

(** Call the application where there is one and it is enabled. *)
Definition to_app (portID connectionID : string) (call : IBCModule → M ()) : M () :=
  match app with
  | None => mret tt
  | Some app =>
      enabled ← IsMiddlewareEnabled portID connectionID;
      if enabled : bool then call app else mret tt
  end.

Definition controller_enabled : M () :=
  params ← Controller_GetParams;
  require (ControllerEnabled params) ErrControllerSubModuleDisabled.

Definition Controller_OnChanOpenInit (ctx : Context) (order : Order) (connectionHops : list string)
    (portID channelID : string) (chanCap : option Capability) (counterparty : Counterparty)
    (version : string) : M string :=
  controller_enabled;;
  version ← ControllerKeeper_OnChanOpenInit ctx order connectionHops portID channelID chanCap counterparty version;
  Controller_ClaimCapability chanCap (ChannelCapabilityPath portID channelID);;
  match app with
  | None => mret version
  | Some app =>
      hop ← hop0 connectionHops;
      enabled ← IsMiddlewareEnabled portID hop;
      (if enabled : bool then
         OnChanOpenInit app ctx order connectionHops portID channelID None counterparty version;; mret tt
       else mret tt);;
      mret version
  end.

Definition Controller_OnChanOpenAck (ctx : Context) (portID channelID counterpartyChannelID : string)
    (counterpartyVersion : string) : M () :=
  controller_enabled;;
  ControllerKeeper_OnChanOpenAck ctx portID channelID counterpartyVersion;;
  connectionID ← GetConnectionID portID channelID;
  to_app portID connectionID (λ app,
    OnChanOpenAck app ctx portID channelID counterpartyChannelID counterpartyVersion).

Definition Controller_OnChanCloseConfirm (ctx : Context) (portID channelID : string) : M () :=
  ControllerKeeper_OnChanCloseConfirm ctx portID channelID;;
  connectionID ← GetConnectionID portID channelID;
  to_app portID connectionID (λ app, OnChanCloseConfirm app ctx portID channelID).

Definition Controller_OnRecvPacket (ctx : Context) (packet : Packet) (relayer : Address) : M (option AppAck) :=
  let ack := NewErrorAcknowledgement Ica_ErrInvalidChannelFlow in
  mret (Some (mkAppAck (Acknowledgement_Success ack) (IcaAck_GetBytes ack))).

Definition Controller_OnAcknowledgementPacket (ctx : Context) (packet : Packet) (acknowledgement : bytes)
    (relayer : Address) : M () :=
  controller_enabled;;
  connectionID ← GetConnectionID (SourcePort packet) (SourceChannel packet);
  to_app (SourcePort packet) connectionID (λ app, OnAcknowledgementPacket app ctx packet acknowledgement relayer).

Definition Controller_OnTimeoutPacket (ctx : Context) (packet : Packet) (relayer : Address) : M () :=
  controller_enabled;;
  ControllerKeeper_OnTimeoutPacket ctx packet;;
  connectionID ← GetConnectionID (SourcePort packet) (SourceChannel packet);
  to_app (SourcePort packet) connectionID (λ app, OnTimeoutPacket app ctx packet relayer).

Definition controller_middleware : IBCModule := {|
  OnChanOpenInit := Controller_OnChanOpenInit;
  OnChanOpenTry _ _ _ _ _ _ _ _ := fail Ica_ErrInvalidChannelFlow;
  OnChanOpenAck := Controller_OnChanOpenAck;
  OnChanOpenConfirm _ _ _ := fail Ica_ErrInvalidChannelFlow;
  OnChanCloseInit _ _ _ := fail ErrInvalidRequest;
  OnChanCloseConfirm := Controller_OnChanCloseConfirm;
  OnRecvPacket := Controller_OnRecvPacket;
  OnAcknowledgementPacket := Controller_OnAcknowledgementPacket;
  OnTimeoutPacket := Controller_OnTimeoutPacket
|}.

(** Applications cannot send packets through the controller. *)
Definition controller_ics4 : ICS4Wrapper := {|
  ics4_SendPacket _ _ _ _ _ _ _ := panic;
  ics4_WriteAcknowledgement _ _ _ _ := panic;
  ics4_GetAppVersion := Controller_GetAppVersion
|}.

End middleware.

End controller.

(** ** The host *)

Section host.
Context {E : IbcEnv} {I : IcaEnv} {R : MessageRouter}.
Context (ics4 : ICS4Wrapper) (authority : string).

(** *** keeper.go *)

Definition Host_hasCapability := ica_hasCapability Host_SubModuleName.
Definition Host_ClaimCapability := ica_ClaimCapability Host_SubModuleName.
Definition Host_AuthenticateCapability := ica_AuthenticateCapability Host_SubModuleName.
Definition Host_BindPort := ica_BindPort host_storeKey.
Definition Host_GetActiveChannelID := ica_GetActiveChannelID host_storeKey.
Definition Host_SetActiveChannelID := ica_SetActiveChannelID host_storeKey.
Definition Host_IsActiveChannel := ica_IsActiveChannel host_storeKey.
Definition Host_GetOpenActiveChannel := ica_GetOpenActiveChannel host_storeKey.
Definition Host_GetInterchainAccountAddress := ica_GetInterchainAccountAddress host_storeKey.
Definition Host_SetInterchainAccountAddress := ica_SetInterchainAccountAddress host_storeKey.
Definition Host_GetAllInterchainAccounts := ica_GetAllInterchainAccounts host_storeKey.
Definition Host_GetAppVersion (portID channelID : string) : M (option string) :=
  ics4_GetAppVersion ics4 portID channelID.

Definition Host_GetAllActiveChannels : M (list ActiveChannel) :=
  ica_entries host_storeKey ActiveChannelKeyPrefix (λ e,
    connectionID ← key_part e.1 2;
    portID ← key_part e.1 1;
    Ok (mkActiveChannel connectionID portID e.2 false)).

Definition Host_GetParams : M HostParams :=
  bz ← mod_get host_storeKey Host_ParamsKey;
  bz ← orPanic bz;
  lift (MustUnmarshal bz).
Definition Host_SetParams (params : HostParams) : M () :=
  mod_set host_storeKey Host_ParamsKey (Marshal params).

(** *** account.go *)

(** [NewAccount] sets the number of the account it is given, which is then stored. *)
Definition createInterchainAccount (ctx : Context) (connectionID controllerPortID : string) : M string :=
  let accAddress := GenerateAddress ctx connectionID controllerPortID in
  acc ← gets (λ s, acc_GetAccount s accAddress);
  require (match acc with None => true | Some _ => false end) Ica_ErrAccountAlreadyExist;;
  let interchainAccount := NewInterchainAccount (NewBaseAccountWithAddress accAddress) controllerPortID in
  account ← acc_NewAccount ctx (of_interchain interchainAccount);
  acc_SetAccount ctx account;;
  Host_SetInterchainAccountAddress connectionID controllerPortID (ba_Address (ia_BaseAccount interchainAccount));;
  mret accAddress.

(** *** handshake.go *)

(** The account of a port and a connection: the one there is, which has to be an
    interchain account, or a new one. *)
Definition open_account (ctx : Context) (connectionID controllerPortID : string) : M string :=
  interchainAccAddr ← Host_GetInterchainAccountAddress connectionID controllerPortID;
  match interchainAccAddr with
  | Some interchainAccAddr =>
      accAddress ← orPanic (AccAddressFromBech32 interchainAccAddr);
      acc ← gets (λ s, acc_GetAccount s accAddress);
      require (bool_decide (is_Some (acc ≫= as_interchain))) Ica_ErrInvalidAccountReopening;;
      mret accAddress
  | None => createInterchainAccount ctx connectionID controllerPortID
  end.

Definition set_Address (a : string) (m : IcaMetadata) : IcaMetadata :=
  mkIcaMetadata (im_Version m) (im_ControllerConnectionId m) (im_HostConnectionId m) a (im_Encoding m) (im_TxType m).

Definition HostKeeper_OnChanOpenTry (ctx : Context) (order : Order) (connectionHops : list string)
    (portID channelID : string) (chanCap : option Capability) (counterparty : Counterparty)
    (counterpartyVersion : string) : M string :=
  require (bool_decide (order = ORDERED)) ErrInvalidChannelOrdering;;
  require (bool_decide (portID = HostPortID)) Ica_ErrInvalidHostPort;;
  metadata ← orErr Ica_ErrUnknownDataType (IcaMetadata_UnmarshalJSON counterpartyVersion);
  ValidateHostMetadata connectionHops metadata;;
  hop ← hop0 connectionHops;
  activeChannelID ← Host_GetActiveChannelID hop (cp_PortId counterparty);
  check_previous Host_GetAppVersion activeChannelID portID metadata;;
  Host_ClaimCapability chanCap (ChannelCapabilityPath portID channelID);;
  accAddress ← open_account ctx (im_HostConnectionId metadata) (cp_PortId counterparty);
  mret (IcaMetadata_MarshalJSON (set_Address (AccAddress_String accAddress) metadata)).

Definition HostKeeper_OnChanOpenConfirm (ctx : Context) (portID channelID : string) : M () :=
  channel ← GetChannel portID channelID;
  channel ← orErr ErrChannelNotFound channel;
  hop ← hop0 (ch_ConnectionHops channel);
  Host_SetActiveChannelID hop (cp_PortId (ch_Counterparty channel)) channelID.

Definition HostKeeper_OnChanCloseConfirm (ctx : Context) (portID channelID : string) : M () := mret tt.

(** *** relay.go *)

(** All signers of a message are the account. *)
Fixpoint authenticate_msgs (allowMsgs : list string) (interchainAccountAddr : string) (msgs : list SdkMsg) :
    Outcome () :=
  match msgs with
  | [] => Ok tt
  | msg :: l =>
      check (ContainsMsgType allowMsgs msg) ErrUnauthorized;;
      signers ← Msg_GetSigners msg;
      check (forallb (λ signer, bool_decide (interchainAccountAddr = AccAddress_String signer)) signers) ErrUnauthorized;;
      authenticate_msgs allowMsgs interchainAccountAddr l
  end.

Definition authenticateTx (ctx : Context) (msgs : list SdkMsg) (connectionID portID : string) : M () :=
  interchainAccountAddr ← Host_GetInterchainAccountAddress connectionID portID;
  interchainAccountAddr ← orErr Ica_ErrInterchainAccountNotFound interchainAccountAddr;
  params ← Host_GetParams;
  lift (authenticate_msgs (AllowMessages params) interchainAccountAddr msgs).

Definition executeMsg (ctx : Context) (msg : SdkMsg) : M MsgResponse :=
  handler ← orErr Ica_ErrInvalidRoute (Handler msg);
  responses ← handler ctx;
  msgResponse ← orPanic (head responses);
  orErr ErrLogic msgResponse.

(** The loop over the messages. *)
Fixpoint execute_msgs (ctx : Context) (msgs : list SdkMsg) : M (list MsgResponse) :=
  match msgs with
  | [] => mret []
  | msg :: l =>
      lift (Msg_ValidateBasic msg);;
      response ← executeMsg ctx msg;
      responses ← execute_msgs ctx l;
      mret (response :: responses)
  end.

Definition executeTx (ctx : Context) (sourcePort destPort destChannel : string) (msgs : list SdkMsg) : M bytes :=
  channel ← GetChannel destPort destChannel;
  channel ← orErr ErrChannelNotFound channel;
  hop ← hop0 (ch_ConnectionHops channel);
  authenticateTx ctx msgs hop sourcePort;;
  responses ← cached (execute_msgs ctx msgs);
  match responses with
  | inr e => fail e
  | inl responses => lift (TxMsgData_Marshal responses)
  end.

Definition HostKeeper_OnRecvPacket (ctx : Context) (packet : Packet) : M bytes :=
  data ← orErr Ica_ErrUnknownDataType (IcaPacketData_UnmarshalJSON (Data packet));
  match ip_Type data with
  | EXECUTE_TX =>
      msgs ← lift (DeserializeCosmosTx (ip_Data data));
      executeTx ctx (SourcePort packet) (DestinationPort packet) (DestinationChannel packet) msgs
  | _ => fail Ica_ErrUnknownDataType
  end.

(** *** msg_server.go, genesis.go *)

Definition Host_UpdateParams (msgAuthority : string) (params : HostParams) : M () :=
  require (bool_decide (authority = msgAuthority)) ErrUnauthorized;;
  Host_SetParams params.

Definition Host_InitGenesis (state : HostGenesis) : M () :=
  has ← Host_hasCapability (hg_Port state);
  (if has : bool then mret tt
   else
     capability ← Host_BindPort (hg_Port state);
     orPanics (Host_ClaimCapability (Some capability) (PortPath (hg_Port state))));;
  for_each (hg_ActiveChannels state) (λ ch,
    Host_SetActiveChannelID (ac_ConnectionId ch) (ac_PortId ch) (ac_ChannelId ch));;
  for_each (hg_InterchainAccounts state) (λ acc,
    Host_SetInterchainAccountAddress (ra_ConnectionId acc) (ra_PortId acc) (ra_AccountAddress acc));;
  orPanics (lift (HostParams_Validate (hg_Params state)));;
  Host_SetParams (hg_Params state).

Definition Host_ExportGenesis : M HostGenesis :=
  channels ← Host_GetAllActiveChannels;
  accounts ← Host_GetAllInterchainAccounts;
  params ← Host_GetParams;
  mret (mkHostGenesis channels accounts HostPortID params).

(** *** ibc_module.go *)

Definition host_enabled : M () :=
  params ← Host_GetParams;
  require (HostEnabled params) ErrHostSubModuleDisabled.

Definition Host_OnChanOpenTry (ctx : Context) (order : Order) (connectionHops : list string)
    (portID channelID : string) (chanCap : option Capability) (counterparty : Counterparty)
    (counterpartyVersion : string) : M string :=
  host_enabled;;
  HostKeeper_OnChanOpenTry ctx order connectionHops portID channelID chanCap counterparty counterpartyVersion.

Definition Host_OnChanOpenConfirm (ctx : Context) (portID channelID : string) : M () :=
  host_enabled;;
  HostKeeper_OnChanOpenConfirm ctx portID channelID.

Definition ica_ack (ack : Acknowledgement) : AppAck :=
  mkAppAck (Acknowledgement_Success ack) (IcaAck_GetBytes ack).

Definition Host_OnRecvPacket (ctx : Context) (packet : Packet) (relayer : Address) : M (option AppAck) :=
  params ← Host_GetParams;
  if negb (HostEnabled params) then mret (Some (ica_ack (NewErrorAcknowledgement ErrHostSubModuleDisabled)))
  else λ s,
    match HostKeeper_OnRecvPacket ctx packet s with
    | (Ok txResponse, s') => (Ok (Some (ica_ack (NewResultAcknowledgement txResponse))), s')
    | (Err err, s') => (Ok (Some (ica_ack (NewErrorAcknowledgement err))), s')
    | (Panic, s') => (Panic, s')
    end.

Definition host_module : IBCModule := {|
  OnChanOpenInit _ _ _ _ _ _ _ _ := fail Ica_ErrInvalidChannelFlow;
  OnChanOpenTry := Host_OnChanOpenTry;
  OnChanOpenAck _ _ _ _ _ := fail Ica_ErrInvalidChannelFlow;
  OnChanOpenConfirm := Host_OnChanOpenConfirm;
  OnChanCloseInit _ _ _ := fail ErrInvalidRequest;
  OnChanCloseConfirm := HostKeeper_OnChanCloseConfirm;
  OnRecvPacket := Host_OnRecvPacket;
  OnAcknowledgementPacket _ _ _ _ := fail Ica_ErrInvalidChannelFlow;
  OnTimeoutPacket _ _ _ := fail Ica_ErrInvalidChannelFlow
|}.

End host.
