(* ===== verification/AppQueries.v ===== *)
(** * The queries of the applications

    Models the grpc_query.go of modules/apps/transfer/keeper, modules/apps/29-fee/keeper and
    the two keepers of modules/apps/27-interchain-accounts.  Where a request of the fee
    module names a height, the code sets the height of the context and reads the same
    store: the height has no part in the answer. *)

From stdpp Require Import gmap strings list.
From Stdlib Require Import ZArith Lia Ascii.
From S2P Require Import Prelude GoStd Host Chain ModuleStore Height Capability Port Commitment LightClient Client ConnTypes ChanTypes Env Connection Channel ChanHandshake Packet MsgServer CoreMsgs TransferTypes FeeTypes Transfer Fee IcaTypes Ica Queries.

(** ** Transfer *)

Section transfer.
Context {E : IbcEnv} {T : TransferEnv} {PG : Pagination}.

(** The prefix is cut off, if it is there. *)
Definition Query_DenomTrace (req : option string) : M DenomTrace :=
  hash ← orErr InvalidArgument req;
  hash ← lift (with_status InvalidArgument (ParseHexHash (TrimPrefix hash "ibc/")));
  denomTrace ← GetDenomTrace hash;
  orErr NotFound denomTrace.

Definition denom_traces_cb (key : string) (value : bytes) (traces : list DenomTrace) : Outcome (list DenomTrace) :=
  result ← of_option errUnregistered (Unmarshal value);
  Ok (traces ++ [result]).

Definition Query_DenomTraces (req : option (option PageRequest)) : M (Paged DenomTrace) :=
  pagination ← orErr InvalidArgument req;
  entries ← gets (λ s, prefix_view DenomTraceKey (tr_store s));
  '(traces, pageRes) ← lift (Paginate entries pagination denom_traces_cb []);
  mret (mkPaged (Traces_Sort traces) (Some pageRes) None).

Definition Query_TransferParams : M TransferParams := Transfer_GetParams.

Definition Query_DenomHash (req : option string) : M string :=
  trace ← orErr InvalidArgument req;
  let denomTrace := ParseDenomTrace trace in
  lift (with_status InvalidArgument (DenomTrace_Validate denomTrace));;
  let denomHash := DenomTrace_Hash denomTrace in
  found ← HasDenomTrace denomHash;
  require found NotFound;;
  mret (HexBytes_String denomHash).

Definition Query_EscrowAddress (req : option (string * string)) : M string :=
  '(portId, channelId) ← orErr InvalidArgument req;
  mret (AccAddress_String (GetEscrowAddress portId channelId)).

Definition Query_TotalEscrowForDenom (req : option string) : M Coin :=
  denom ← orErr InvalidArgument req;
  lift (with_status InvalidArgument (ValidateDenom denom));;
  GetTotalEscrowForDenom denom.
End transfer.

(** ** Fees *)

Section fee.
Context {E : IbcEnv} {F : FeeEnv} {PG : Pagination}.

(** The callback over escrowed fees; [keyPrefix] is put back in front of the key. *)
Definition packet_fees_cb (keyPrefix key : string) (value : bytes) (l : list IdentifiedPacketFees) :
    Outcome (list IdentifiedPacketFees) :=
  packetID ← ParseKeyFeesInEscrow (keyPrefix +:+ key);
  packetFees ← MustUnmarshal value;
  Ok (l ++ [NewIdentifiedPacketFees packetID (pf_PacketFees packetFees)]).

Definition paginate_fees {A} (keyPrefix : string) (pagination : option PageRequest)
    (cb : string → string → bytes → list A → Outcome (list A)) : M (Paged A) :=
  entries ← gets (λ s, prefix_view keyPrefix (fee_store s));
  '(l, pageRes) ← lift (with_status NotFound (Paginate entries pagination (cb keyPrefix) []));
  mret (mkPaged l (Some pageRes) None).

Definition Query_IncentivizedPackets (req : option (option PageRequest * Z)) : M (Paged IdentifiedPacketFees) :=
  '(pagination, queryHeight) ← orErr InvalidArgument req;
  paginate_fees FeesInEscrowPrefix pagination packet_fees_cb.

Definition Query_IncentivizedPacket (req : option (PacketId * Z)) : M IdentifiedPacketFees :=
  '(packetId, queryHeight) ← orErr InvalidArgument req;
  feesInEscrow ← GetFeesInEscrow packetId;
  feesInEscrow ← orErr NotFound feesInEscrow;
  mret (NewIdentifiedPacketFees packetId (pf_PacketFees feesInEscrow)).

Definition Query_IncentivizedPacketsForChannel (req : option (string * string * option PageRequest * Z)) :
    M (Paged IdentifiedPacketFees) :=
  '(portId, channelId, pagination, queryHeight) ← orErr InvalidArgument req;
  paginate_fees (KeyFeesInEscrowChannelPrefix portId channelId) pagination packet_fees_cb.

(** The sum of one of the three fees over the fees of a packet. *)
Fixpoint add_fees (part : Fee → list Coin) (total : list Coin) (l : list PacketFee) : Outcome (list Coin) :=
  match l with
  | [] => Ok total
  | packetFee :: l => total ← Coins_Add total (part (pf_Fee packetFee)); add_fees part total l
  end.

Definition total_fees (part : Fee → list Coin) (req : option PacketId) : M (list Coin) :=
  packetId ← orErr InvalidArgument req;
  feesInEscrow ← GetFeesInEscrow packetId;
  feesInEscrow ← orErr NotFound feesInEscrow;
  lift (add_fees part [] (pf_PacketFees feesInEscrow)).

Definition Query_TotalRecvFees : option PacketId → M (list Coin) := total_fees RecvFee.
Definition Query_TotalAckFees : option PacketId → M (list Coin) := total_fees AckFee.
Definition Query_TotalTimeoutFees : option PacketId → M (list Coin) := total_fees TimeoutFee.

Definition Query_Payee (req : option (string * string)) : M string :=
  '(channelId, relayer) ← orErr InvalidArgument req;
  payeeAddr ← GetPayeeAddress relayer channelId;
  orErr NotFound payeeAddr.

Definition Query_CounterpartyPayee (req : option (string * string)) : M string :=
  '(channelId, relayer) ← orErr InvalidArgument req;
  counterpartyPayeeAddr ← GetCounterpartyPayeeAddress relayer channelId;
  orErr NotFound counterpartyPayeeAddr.

Definition fee_enabled_cb (keyPrefix key : string) (value : bytes) (l : list FeeEnabledChannel) :
    Outcome (list FeeEnabledChannel) :=
  '(portID, channelID) ← ParseKeyFeeEnabled (keyPrefix +:+ key);
  Ok (l ++ [mkFeeEnabledChannel portID channelID]).

Definition Query_FeeEnabledChannels (req : option (option PageRequest * Z)) : M (Paged FeeEnabledChannel) :=
  '(pagination, queryHeight) ← orErr InvalidArgument req;
  paginate_fees FeeEnabledKeyPrefix pagination fee_enabled_cb.

Definition Query_FeeEnabledChannel (req : option (string * string)) : M bool :=
  '(portId, channelId) ← orErr InvalidArgument req;
  IsFeeEnabled portId channelId.
End fee.

(** ** Interchain accounts *)

Section ica.
Context {E : IbcEnv} {I : IcaEnv}.

Definition Query_InterchainAccount (req : option (string * string)) : M string :=
  '(owner, connectionId) ← orErr InvalidArgument req;
  portID ← lift (with_status InvalidArgument (NewControllerPortID owner));
  addr ← Controller_GetInterchainAccountAddress connectionId portID;
  orErr NotFound addr.

Definition Query_ControllerParams : M ControllerParams := Controller_GetParams.
Definition Query_HostParams : M HostParams := Host_GetParams.
End ica.
