(* ===== verification/TransferProofs.v ===== *)
(** * What token transfers do to balances

    The operations of the transfer keeper as exact changes of three quantities:
    the balance of every account in every denomination, the supply of every
    denomination, and the recorded total in escrow.  Changes compose by addition,
    so that a refund is shown to be the inverse of the send it undoes. *)

From stdpp Require Import gmap strings list relations.
From Stdlib Require Import ZArith Lia Ascii.
From S2P Require Import Prelude GoStd Sha256 Host Chain ModuleStore Sums Height Capability Port Commitment LightClient Client ConnTypes ChanTypes Env Connection Channel ChanHandshake Packet MsgServer ChanProofs PacketProofs Frames HandshakeProofs Protocol Guarantees MsgProofs TransferTypes Transfer.

(** ** Frames *)

(** Everything but the stores of other modules is the same. *)
Definition same_core (s s' : Chain) : Prop :=
  ibc s' = ibc s ∧ capstore s' = capstore s ∧ memstore s' = memstore s ∧ capMap s' = capMap s ∧
  heap s' = heap s.

#[export] Instance same_core_refl : Reflexive same_core.
Proof. done. Qed.
#[export] Instance same_core_trans : Transitive same_core.
Proof. intros a b c (?&?&?&?&?) (?&?&?&?&?). unfold same_core. split_and!; congruence. Qed.

Lemma only_store_core k s s' : only_store k s s' → same_core s s'.
Proof. unfold only_store, same_core. tauto. Qed.

Lemma amount_of_one c d : amount_of d [c] = delta (bool_decide (Denom c = d)) (Amount c).
Proof. simpl. unfold delta. case_bool_decide; lia. Qed.

Section effects.
Context {E : IbcEnv} {T : TransferEnv}.

(** The recorded total in escrow, the trace stored under a hash. *)
Definition total_escrow (d : string) (s : Chain) : Z :=
  default 0 (non_empty (tr_store s !! TotalEscrowForDenomKey d) ≫= Unmarshal).
Definition trace_at (h : bytes) (s : Chain) : option DenomTrace :=
  non_empty (tr_store s !! prefixed DenomTraceKey h) ≫= Unmarshal.

(** ** Changes of balances, supplies and escrow totals *)

Record change := mkChange {
  d_balance : Address → string → Z; d_supply : string → Z; d_escrow : string → Z }.

Definition no_change : change := mkChange (λ _ _, 0) (λ _, 0) (λ _, 0).
Definition plus (x y : change) : change := mkChange
  (λ a d, d_balance x a d + d_balance y a d) (λ d, d_supply x d + d_supply y d)
  (λ d, d_escrow x d + d_escrow y d).
Definition opposite (x : change) : change := mkChange
  (λ a d, - d_balance x a d) (λ d, - d_supply x d) (λ d, - d_escrow x d).

(** Pointwise equality. *)
Definition same_change (x y : change) : Prop :=
  (∀ a d, d_balance x a d = d_balance y a d) ∧ (∀ d, d_supply x d = d_supply y d) ∧
  (∀ d, d_escrow x d = d_escrow y d).

Record effect (x : change) (s s' : Chain) : Prop := {
  eff_balance a d : GetBalance s' a d = GetBalance s a d + d_balance x a d;
  eff_supply d : GetSupply s' d = GetSupply s d + d_supply x d;
  eff_escrow d : total_escrow d s' = total_escrow d s + d_escrow x d
}.

#[export] Instance same_change_equiv : Equivalence same_change.
Proof.
  split.
  - by intros x.
  - intros x y (H1 & H2 & H3). by split_and!.
  - intros x y z (H1 & H2 & H3) (H4 & H5 & H6).
    split_and!; intros; rewrite ?H1, ?H2, ?H3; auto.
Qed.

#[export] Instance effect_proper : Proper (same_change ==> eq ==> eq ==> iff) effect.
Proof.
  assert (∀ x y s s', same_change x y → effect x s s' → effect y s s') as Himp.
  { intros x y s s' (H1 & H2 & H3) [E1 E2 E3]. split; intros; rewrite <- ?H1, <- ?H2, <- ?H3; auto. }
  intros x y Hxy s ? <- s' ? <-. split; apply Himp; [done|by symmetry].
Qed.

Lemma effect_refl s : effect no_change s s.
Proof. split; intros; simpl; lia. Qed.

Lemma effect_trans x y s s1 s2 : effect x s s1 → effect y s1 s2 → effect (plus x y) s s2.
Proof.
  intros [A1 A2 A3] [B1 B2 B3]. split; intros; simpl; [rewrite B1, A1|rewrite B2, A2|rewrite B3, A3]; lia.
Qed.

(** The changes the module makes. *)
Definition move (from to : Address) (c : Coin) : change := mkChange
  (λ a d, delta (bool_decide (a = to)) (amount_of d [c]) - delta (bool_decide (a = from)) (amount_of d [c]))
  (λ _, 0) (λ _, 0).
Definition create (to : Address) (c : Coin) : change := mkChange
  (λ a d, delta (bool_decide (a = to)) (amount_of d [c])) (λ d, amount_of d [c]) (λ _, 0).
Definition destroy (from : Address) (c : Coin) : change := opposite (create from c).
Definition record_escrow (c : Coin) : change := mkChange (λ _ _, 0) (λ _, 0) (λ d, amount_of d [c]).
(** Lock a coin at an escrow address, and release it to an account. *)
Definition lock (from esc : Address) (c : Coin) : change := plus (move from esc c) (record_escrow c).
Definition release (esc to : Address) (c : Coin) : change :=
  plus (move esc to c) (opposite (record_escrow c)).

Lemma release_lock a esc c : same_change (release esc a c) (opposite (lock a esc c)).
Proof. split_and!; intros; simpl; lia. Qed.

Lemma create_destroy a c : same_change (create a c) (opposite (destroy a c)).
Proof. split_and!; intros; simpl; lia. Qed.

End effects.

(** ** The store of the module *)

Section store.
Context {E : IbcEnv} {T : TransferEnv} {TL : TransferLaws}.

Lemma TotalEscrowForDenomKey_inj d d' : TotalEscrowForDenomKey d = TotalEscrowForDenomKey d' → d = d'.
Proof. unfold TotalEscrowForDenomKey. intros H%string_app_inj_l. by injection H. Qed.

Lemma tr_store_other k s s' : k ≠ tr_storeKey → only_store k s s' → tr_store s' = tr_store s.
Proof. intros Hk H. apply (only_store_mod _ _ _ _ H). congruence. Qed.

Lemma bank_only s s' : only_store bank_storeKey s s' → tr_store s' = tr_store s.
Proof. apply tr_store_other. intros H. by destruct tr_stores. Qed.

Lemma tr_store_set kv s : tr_store (set_tr_store kv s) = kv.
Proof. apply mod_store_set. Qed.

Lemma tr_set_ok k v u s s' :
  tr_set k v s = (Ok u, s') → s' = set_tr_store (<[k := v]> (tr_store s)) s.
Proof. by intros ?%modify_ok. Qed.
Lemma tr_delete_ok k u s s' : tr_delete k s = (Ok u, s') → s' = set_tr_store (delete k (tr_store s)) s.
Proof. by intros ?%modify_ok. Qed.

Lemma set_tr_store_core kv s : same_core s (set_tr_store kv s).
Proof. done. Qed.

(** Writing to it does not touch the bank. *)
Lemma set_tr_store_effect kv s x :
  (∀ a d, d_balance x a d = 0) → (∀ d, d_supply x d = 0) →
  (∀ d, total_escrow d (set_tr_store kv s) = total_escrow d s + d_escrow x d) →
  effect x s (set_tr_store kv s).
Proof.
  intros Hb Hs He. destruct (bank_local s (set_tr_store kv s)) as [H1 H2].
  { simpl. apply lookup_insert_ne, tr_stores. }
  split; intros; [rewrite H1, Hb|rewrite H2, Hs|apply He]; lia.
Qed.

Lemma bank_effect x s s' :
  only_store bank_storeKey s s' →
  (∀ a d, GetBalance s' a d = GetBalance s a d + d_balance x a d) →
  (∀ d, GetSupply s' d = GetSupply s d + d_supply x d) → (∀ d, d_escrow x d = 0) →
  effect x s s'.
Proof.
  intros Ho Hb Hs He. split; [done|done|]. intros d. unfold total_escrow. rewrite (bank_only s s'), He by done.
  lia.
Qed.

(** *** Bank operations on one coin *)

Lemma new_coins_amount c cs d : NewCoins [c] = Ok cs → amount_of d cs = amount_of d [c].
Proof. intros H. by apply new_coins_ok. Qed.

Lemma moved_effect from to c cs s s' :
  NewCoins [c] = Ok cs → only_store bank_storeKey s s' → moved from to cs s s' →
  effect (move from to c) s s'.
Proof.
  intros Hc Ho [Hb Hs]. apply bank_effect; [done| |intros; rewrite Hs; simpl; lia|done].
  intros a d. rewrite Hb, (new_coins_amount c) by done. cbn [d_balance move]. lia.
Qed.

Lemma minted_effect to c cs s s' :
  NewCoins [c] = Ok cs → only_store bank_storeKey s s' → minted to cs s s' → effect (create to c) s s'.
Proof.
  intros Hc Ho [Hb Hs]. apply bank_effect; [done| | |done].
  - intros a d. by rewrite Hb, (new_coins_amount c).
  - intros d. by rewrite Hs, (new_coins_amount c).
Qed.

Lemma burnt_effect from c cs s s' :
  NewCoins [c] = Ok cs → only_store bank_storeKey s s' → burnt from cs s s' → effect (destroy from c) s s'.
Proof.
  intros Hc Ho [Hb Hs]. apply bank_effect; [done| | |done].
  - intros a d. rewrite Hb, (new_coins_amount c) by done. cbn [d_balance destroy opposite create]. lia.
  - intros d. rewrite Hs, (new_coins_amount c) by done. cbn [d_supply destroy opposite create]. lia.
Qed.

Lemma frame_of {A} (m : M A) s o s' k : only_store k s (snd (m s)) → m s = (o, s') → only_store k s s'.
Proof. intros H Hm. by rewrite Hm in H. Qed.

(** *** Escrow totals *)

Lemma GetTotalEscrowForDenom_ok d s c s' :
  GetTotalEscrowForDenom d s = (Ok c, s') → s' = s ∧ c = mkCoin d (total_escrow d s).
Proof.
  unfold GetTotalEscrowForDenom, tr_get, mod_get, total_escrow, tr_store. intros H. minv.
  destruct (non_empty _) as [bz|]; simpl in *; minv.
  - unfold MustUnmarshal in *. destruct (Unmarshal bz); [|done]. simplify_eq/=.
    split; [done|]. by apply new_coin_ok.
  - split; [done|]. by apply new_coin_ok.
Qed.

Lemma total_escrow_set d d' n s :
  total_escrow d (set_tr_store (<[TotalEscrowForDenomKey d' := Marshal n]> (tr_store s)) s) =
  if bool_decide (d' = d) then n else total_escrow d s.
Proof.
  unfold total_escrow. rewrite tr_store_set. case_bool_decide as Hd.
  - subst. rewrite lookup_insert_eq. simpl. rewrite bool_decide_eq_false_2 by apply marshal_nonempty.
    simpl. by rewrite unmarshal_marshal.
  - rewrite lookup_insert_ne; [done|]. by intros H%TotalEscrowForDenomKey_inj.
Qed.

Lemma total_escrow_delete d d' s :
  total_escrow d (set_tr_store (delete (TotalEscrowForDenomKey d') (tr_store s)) s) =
  if bool_decide (d' = d) then 0 else total_escrow d s.
Proof.
  unfold total_escrow. rewrite tr_store_set. case_bool_decide as Hd; [subst; by rewrite lookup_delete_eq|].
  rewrite lookup_delete_ne; [done|]. by intros H%TotalEscrowForDenomKey_inj.
Qed.

(** What is written: the amount, and nothing else of the store. *)
Lemma SetTotalEscrowForDenom_ok c s s' :
  SetTotalEscrowForDenom c s = (Ok tt, s') →
  0 <= Amount c ∧ same_core s s' ∧
  effect (mkChange (λ _ _, 0) (λ _, 0)
    (λ d, delta (bool_decide (Denom c = d)) (Amount c - total_escrow (Denom c) s))) s s' ∧
  ∀ h, trace_at h s' = trace_at h s.
Proof.
  unfold SetTotalEscrowForDenom. destruct (Z.ltb_spec (Amount c) 0); intros H1; [by apply panic_ok in H1|].
  split; [done|].
  assert (∃ kv, s' = set_tr_store kv s ∧
    (∀ d, total_escrow d (set_tr_store kv s) =
       if bool_decide (Denom c = d) then Amount c else total_escrow d s) ∧
    ∀ h, trace_at h (set_tr_store kv s) = trace_at h s) as (kv & -> & Ht & Hh).
  { destruct (Z.eqb_spec (Amount c) 0) as [Hz|Hz];
      [apply tr_delete_ok in H1|apply tr_set_ok in H1]; eexists; split_and!; [exact H1| | |exact H1| |].
    - intros d. rewrite total_escrow_delete. by rewrite Hz.
    - intros h. unfold trace_at. by rewrite tr_store_set, lookup_delete_ne.
    - intros d. apply total_escrow_set.
    - intros h. unfold trace_at. by rewrite tr_store_set, lookup_insert_ne. }
  split_and!; [apply set_tr_store_core| |done].
  apply set_tr_store_effect; [done|done|]. intros d. rewrite Ht. simpl. unfold delta.
  case_bool_decide; subst; lia.
Qed.

End store.

(** ** The operations *)

(** A change of tokens that leaves the IBC state and the traces alone. *)
Section acts.
Context {E : IbcEnv} {T : TransferEnv}.

Record acts (x : change) (s s' : Chain) : Prop := {
  act_effect : effect x s s';
  act_core : same_core s s';
  act_traces h : trace_at h s' = trace_at h s
}.

#[export] Instance acts_proper : Proper (same_change ==> eq ==> eq ==> iff) acts.
Proof.
  intros x y Hxy s ? <- s' ? <-.
  split; intros [H1 H2 H3]; (split; [|done|done]); [by rewrite <- Hxy|by rewrite Hxy].
Qed.

Lemma acts_refl s : acts no_change s s.
Proof. split; [apply effect_refl|done|done]. Qed.

Lemma acts_trans x y s s1 s2 : acts x s s1 → acts y s1 s2 → acts (plus x y) s s2.
Proof.
  intros [A1 A2 A3] [B1 B2 B3]. split; [by eapply effect_trans|by etrans|].
  intros h. by rewrite B3, A3.
Qed.

End acts.

Section operations.
Context {E : IbcEnv} {T : TransferEnv} {TL : TransferLaws}.

Lemma bank_acts x s s' : only_store bank_storeKey s s' → effect x s s' → acts x s s'.
Proof.
  intros Ho He. split; [done|by eapply only_store_core|]. intros h. unfold trace_at. by rewrite (bank_only s s').
Qed.

Lemma SendCoins_acts ctx a b c cs s s' :
  NewCoins [c] = Ok cs → SendCoins ctx a b cs s = (Ok tt, s') → acts (move a b c) s s'.
Proof.
  intros Hc H. assert (only_store bank_storeKey s s') as Ho by (eapply frame_of, H; apply send_frame).
  apply bank_acts; [done|]. by eapply moved_effect, send_ok.
Qed.

Lemma to_module_acts ctx a m c cs s s' :
  NewCoins [c] = Ok cs → SendCoinsFromAccountToModule ctx a m cs s = (Ok tt, s') →
  acts (move a (GetModuleAddress m) c) s s'.
Proof.
  intros Hc H. assert (only_store bank_storeKey s s') as Ho by (eapply frame_of, H; apply to_module_frame).
  apply bank_acts; [done|]. by eapply moved_effect, to_module_ok.
Qed.

Lemma to_account_acts ctx a m c cs s s' :
  NewCoins [c] = Ok cs → SendCoinsFromModuleToAccount ctx m a cs s = (Ok tt, s') →
  acts (move (GetModuleAddress m) a c) s s'.
Proof.
  intros Hc H. assert (only_store bank_storeKey s s') as Ho by (eapply frame_of, H; apply to_account_frame).
  apply bank_acts; [done|]. by eapply moved_effect, to_account_ok.
Qed.

Lemma MintCoins_acts ctx m c cs s s' :
  NewCoins [c] = Ok cs → MintCoins ctx m cs s = (Ok tt, s') → acts (create (GetModuleAddress m) c) s s'.
Proof.
  intros Hc H. assert (only_store bank_storeKey s s') as Ho by (eapply frame_of, H; apply mint_frame).
  apply bank_acts; [done|]. by eapply minted_effect, mint_ok.
Qed.

Lemma BurnCoins_acts ctx m c cs s s' :
  NewCoins [c] = Ok cs → BurnCoins ctx m cs s = (Ok tt, s') → acts (destroy (GetModuleAddress m) c) s s'.
Proof.
  intros Hc H. assert (only_store bank_storeKey s s') as Ho by (eapply frame_of, H; apply burn_frame).
  apply bank_acts; [done|]. by eapply burnt_effect, burn_ok.
Qed.

Lemma orPanics_ok {A} (m : M A) s a s' : orPanics m s = (Ok a, s') → m s = (Ok a, s').
Proof. unfold orPanics. by destruct (m s) as [[?|?|] ?]. Qed.

(** Through the module account: sent to it and burnt, minted in it and sent on. *)
Lemma move_destroy a m c : same_change (plus (move a m c) (destroy m c)) (destroy a c).
Proof. split_and!; intros; simpl; lia. Qed.
Lemma create_move a m c : same_change (plus (create m c) (move m a c)) (create a c).
Proof. split_and!; intros; simpl; lia. Qed.

(** The write of the new escrow total, after the move. *)
Lemma adjust_total_acts c n s s' :
  SetTotalEscrowForDenom (mkCoin (Denom c) (total_escrow (Denom c) s + n)) s = (Ok tt, s') →
  acts (mkChange (λ _ _, 0) (λ _, 0) (λ d, delta (bool_decide (Denom c = d)) n)) s s'.
Proof.
  intros (_ & Hcore & He & Ht)%SetTotalEscrowForDenom_ok. split; [|done|done]. eapply effect_proper, He; [|done|done].
  split_and!; intros; simpl; [done|done|]. f_equal. lia.
Qed.

Lemma escrowToken_acts ctx a esc c s s' :
  escrowToken ctx a esc c s = (Ok tt, s') → acts (lock a esc c) s s'.
Proof.
  unfold escrowToken. intros (cs & ? & [Hc ->]%lift_ok & ([] & s1 & Hs & (t & ? & Ht &
    (n & ? & [Hn ->]%lift_ok & H)%bind_ok)%bind_ok)%bind_ok)%bind_ok.
  apply (SendCoins_acts _ _ _ c) in Hs as Hm; [|done].
  apply GetTotalEscrowForDenom_ok in Ht as [-> ->]. apply coin_add_ok in Hn as ->. simpl in H.
  apply adjust_total_acts in H.
  eapply acts_proper, acts_trans; [|done|done|exact Hm|exact H].
  split_and!; intros; simpl; [done|done|]. unfold delta. case_bool_decide; lia.
Qed.

Lemma unescrowToken_acts ctx esc a c s s' :
  unescrowToken ctx esc a c s = (Ok tt, s') → acts (release esc a c) s s'.
Proof.
  unfold unescrowToken. intros (cs & ? & [Hc ->]%lift_ok & ([] & s1 & Hs & (t & ? & Ht &
    (n & ? & [Hn ->]%lift_ok & H)%bind_ok)%bind_ok)%bind_ok)%bind_ok.
  apply (SendCoins_acts _ _ _ c) in Hs as Hm; [|done].
  apply GetTotalEscrowForDenom_ok in Ht as [-> ->]. apply coin_sub_ok in Hn as [-> _]. simpl in H.
  apply (adjust_total_acts c (- Amount c)) in H.
  eapply acts_proper, acts_trans; [|done|done|exact Hm|exact H].
  split_and!; intros; simpl; [done|done|]. unfold delta. case_bool_decide; lia.
Qed.

End operations.

(** ** Sending, receiving, refunding *)

(** A packet sent through the wrapper leaves the stores of other modules and the
    channels alone. *)
Class Ics4Laws `{IbcEnv} (ics4 : ICS4Wrapper) := {
  ics4_send_stores ctx cap p c th ts data s n s' :
    ics4_SendPacket ics4 ctx cap p c th ts data s = (Ok n, s') → stores s' = stores s;
  ics4_send_channels ctx cap p c th ts data s n s' p' c' :
    ics4_SendPacket ics4 ctx cap p c th ts data s = (Ok n, s') → channel_at p' c' s' = channel_at p' c' s
}.

#[export] Instance channel_ics4_laws `{IbcLaws} : Ics4Laws channel_ics4.
Proof.
  split; simpl; intros *; intros (ch & _ & ->)%SendPacket_ok; [done|].
  unfold channel_at, stored, send_effect. simpl. rewrite !lookup_insert_ne by key_ne. done.
Qed.

Lemma native_base u : Path (ParseDenomTrace u) = "" → BaseDenom (ParseDenomTrace u) = u.
Proof.
  intros Hp. destruct (full_denom_path_parse u) as [Hf|(Hb & Hf & _)];
    unfold GetFullDenomPath in Hf; rewrite bool_decide_eq_true_2 in Hf by done; [done|].
  rewrite Hb in Hf. destruct u; discriminate.
Qed.

Section relay.
Context {E : IbcEnv} {T : TransferEnv} {TL : TransferLaws}.
Context (ics4 : ICS4Wrapper).

(** The denomination on this chain of a token with path [u]. *)
Definition local_denom (u : string) : string := IBCDenom (ParseDenomTrace u).

Lemma unescrow_denom_local u : unescrow_denom u = local_denom u.
Proof.
  unfold unescrow_denom, local_denom, IBCDenom, IsNativeDenom. case_bool_decide as Hp; simpl; [|done].
  by rewrite native_base.
Qed.

(** The path of a denomination of this chain. *)
Definition path_of (d : string) (s : Chain) (full : string) : Prop :=
  if HasPrefix d "ibc/" then
    ∃ h dt, ParseHexHash (str_drop 4 d) = Ok h ∧ trace_at h s = Some dt ∧ full = GetFullDenomPath dt
  else full = d.

Lemma path_of_fun d s y z : path_of d s y → path_of d s z → y = z.
Proof.
  unfold path_of. destruct (HasPrefix d "ibc/"); [|congruence].
  intros (h & dt & Hh & Ht & ->) (h' & dt' & Hh' & Ht' & ->). congruence.
Qed.

Lemma GetDenomTrace_ok h s o s' : GetDenomTrace h s = (Ok o, s') → s' = s ∧ trace_at h s = o.
Proof.
  unfold GetDenomTrace, tr_get, mod_get, trace_at. intros (bz & ? & [-> ->]%gets_ok & H)%bind_ok.
  destruct (non_empty _) as [bz|]; simpl in *.
  - apply bind_ok in H as (dt & ? & [Hd ->]%lift_ok & [-> ->]%ret_ok). split; [done|].
    unfold MustUnmarshal in Hd. destruct (Unmarshal bz); congruence.
  - by apply ret_ok in H as [-> ->].
Qed.

Lemma DenomPathFromHash_ok d s full s' :
  DenomPathFromHash d s = (Ok full, s') →
  s' = s ∧ ∃ h dt, ParseHexHash (str_drop 4 d) = Ok h ∧ trace_at h s = Some dt ∧ full = GetFullDenomPath dt.
Proof.
  unfold DenomPathFromHash. change (String.length (DenomPrefix +:+ "/")) with 4%nat.
  destruct (ParseHexHash _) as [h|e|] eqn:Hh; intros H; [|by apply fail_ok in H|by apply panic_ok in H].
  apply bind_ok in H as (o & ? & [-> Ho]%GetDenomTrace_ok &
    (dt & ? & [-> ->]%orErr_ok & [-> ->]%ret_ok)%bind_ok).
  split; [done|]. by exists h, dt.
Qed.

Lemma send_path_ok d s full s' :
  (if HasPrefix d "ibc/" then DenomPathFromHash d else mret d) s = (Ok full, s') →
  s' = s ∧ path_of d s full.
Proof.
  unfold path_of. destruct (HasPrefix d "ibc/"); [apply DenomPathFromHash_ok|].
  intros [-> ->]%ret_ok. done.
Qed.

Definition send_change (p c full : string) (sender : Address) (tok : Coin) : change :=
  if SenderChainIsSource p c full then lock sender (GetEscrowAddress p c) tok else destroy sender tok.

(** The data of the packet sent. *)
Definition sent_data (full : string) (tok : Coin) (sender : Address) (receiver memo : string) :
    FungibleTokenPacketData :=
  NewFungibleTokenPacketData full (Int_String (Amount tok)) (AccAddress_String sender) receiver memo.

Lemma sendTransfer_ok ctx p c tok sender receiver th ts memo s n s' :
  sendTransfer ics4 ctx p c tok sender receiver th ts memo s = (Ok n, s') →
  ∃ ch cap full s1, channel_at p c s = Some ch ∧ path_of (Denom tok) s full ∧
    acts (send_change p c full sender tok) s s1 ∧
    ics4_SendPacket ics4 ctx (Some cap) p c th ts
      (PacketData_GetBytes (sent_data full tok sender receiver memo)) s1 = (Ok n, s').
Proof.
  unfold sendTransfer. intros (o & ? & [-> Hch]%ibc_get_proto_ok & (ch & ? & [-> ->]%orErr_ok &
    (o' & ? & H1 & (cap & ? & [-> ->]%orErr_ok & (full & ? & [-> Hp]%send_path_ok &
    ([] & s1 & Hmv & H)%bind_ok)%bind_ok)%bind_ok)%bind_ok)%bind_ok)%bind_ok.
  apply readonly_ok in H1 as ->; [|apply GetCapability_ro].
  exists ch, cap, full, s1. split_and!; [done|done| |done]. unfold send_change.
  destruct (SenderChainIsSource p c full); [by eapply escrowToken_acts|].
  apply bind_ok in Hmv as (cs & ? & [Hc ->]%lift_ok & ([] & s2 & Hs & (cs' & ? & [Hc' ->]%lift_ok &
    Hb%orPanics_ok)%bind_ok)%bind_ok).
  eapply acts_proper; [symmetry; apply (move_destroy _ (GetModuleAddress Transfer_ModuleName))|done|done|].
  eapply acts_trans; [exact (to_module_acts _ _ _ _ _ _ _ Hc Hs)|exact (BurnCoins_acts _ _ _ _ _ _ Hc' Hb)].
Qed.

Lemma stores_effect s s' : stores s' = stores s → effect no_change s s'.
Proof.
  intros Hs. destruct (bank_local s s') as [H1 H2]; [by rewrite Hs|].
  split; intros; simpl; [rewrite H1|rewrite H2|unfold total_escrow, tr_store, mod_store; rewrite Hs]; lia.
Qed.

Lemma plus_no_change x : same_change (plus x no_change) x.
Proof. split_and!; intros; simpl; lia. Qed.

Lemma sendTransfer_effect `{!Ics4Laws ics4} ctx p c tok sender receiver th ts memo s n s' :
  sendTransfer ics4 ctx p c tok sender receiver th ts memo s = (Ok n, s') →
  ∃ full, path_of (Denom tok) s full ∧ effect (send_change p c full sender tok) s s' ∧
    ∀ p' c', channel_at p' c' s' = channel_at p' c' s.
Proof.
  intros (ch & cap & full & s1 & _ & Hp & [He (Hi & _) _] & Hs)%sendTransfer_ok.
  exists full. split_and!; [done| |].
  - apply ics4_send_stores in Hs. rewrite <- plus_no_change.
    eapply effect_trans; [exact He|by apply stores_effect].
  - intros p' c'. rewrite (ics4_send_channels _ _ _ _ _ _ _ _ _ _ p' c' Hs). unfold channel_at, stored.
    by rewrite Hi.
Qed.

Definition refund_change (p c y : string) (sender : Address) (tok : Coin) : change :=
  if SenderChainIsSource p c y then release (GetEscrowAddress p c) sender tok else create sender tok.

Lemma refund_undoes_send p c y a tok :
  same_change (refund_change p c y a tok) (opposite (send_change p c y a tok)).
Proof.
  unfold refund_change, send_change. destruct (SenderChainIsSource p c y);
    [apply release_lock|apply create_destroy].
Qed.

(** Minting in the module account and sending on. *)
Lemma mint_and_send_acts ctx a c cs cs' s s1 s' :
  NewCoins [c] = Ok cs → NewCoins [c] = Ok cs' →
  MintCoins ctx Transfer_ModuleName cs s = (Ok tt, s1) →
  SendCoinsFromModuleToAccount ctx Transfer_ModuleName a cs' s1 = (Ok tt, s') →
  acts (create a c) s s'.
Proof.
  intros H1 H2 Hm Hs.
  eapply acts_proper; [symmetry; apply (create_move _ (GetModuleAddress Transfer_ModuleName))|done|done|].
  eapply acts_trans; [exact (MintCoins_acts _ _ _ _ _ _ H1 Hm)|exact (to_account_acts _ _ _ _ _ _ _ H2 Hs)].
Qed.

Lemma refundPacketToken_ok ctx pk data s s' :
  refundPacketToken ctx pk data s = (Ok tt, s') →
  ∃ n sender, NewIntFromString (ft_Amount data) = Some n ∧ 0 <= n ∧
    AccAddressFromBech32 (ft_Sender data) = Some sender ∧
    acts (refund_change (SourcePort pk) (SourceChannel pk) (ft_Denom data) sender
      (mkCoin (local_denom (ft_Denom data)) n)) s s'.
Proof.
  unfold refundPacketToken. intros (n & ? & [Hn ->]%orErr_ok & (tok & ? & [Ht ->]%lift_ok &
    (sender & ? & [Hs ->]%orErr_ok & H)%bind_ok)%bind_ok)%bind_ok.
  apply new_coin_ok in Ht as (-> & Hpos & _). exists n, sender. split_and!; [done|done|done|].
  unfold refund_change. destruct (SenderChainIsSource _ _ _); [by eapply unescrowToken_acts|].
  apply bind_ok in H as (cs & ? & [Hc ->]%lift_ok & ([] & s2 & Hm & (cs' & ? & [Hc' ->]%lift_ok &
    Hb%orPanics_ok)%bind_ok)%bind_ok).
  exact (mint_and_send_acts _ _ _ _ _ _ _ _ Hc Hc' Hm Hb).
Qed.

End relay.

Section recv.
Context {E : IbcEnv} {T : TransferEnv} {TL : TransferLaws}.

(** What a receiver gets for a packet with path [y]: a token back from escrow
    when the path names the channel it comes from, a voucher otherwise. *)
Definition recv_change (pk : Packet) (y : string) (receiver : Address) (n : Z) : change :=
  if ReceiverChainIsSource (SourcePort pk) (SourceChannel pk) y then
    let u := str_drop (String.length (GetDenomPrefix (SourcePort pk) (SourceChannel pk))) y in
    release (GetEscrowAddress (DestinationPort pk) (DestinationChannel pk)) receiver
      (mkCoin (local_denom u) n)
  else create receiver
         (mkCoin (local_denom (GetPrefixedDenom (DestinationPort pk) (DestinationChannel pk) y)) n).

Lemma total_escrow_trace h v d s :
  total_escrow d (set_tr_store (<[prefixed DenomTraceKey h := v]> (tr_store s)) s) = total_escrow d s.
Proof. unfold total_escrow. by rewrite tr_store_set, lookup_insert_ne. Qed.

Lemma SetDenomTrace_ok dt s s' :
  SetDenomTrace dt s = (Ok tt, s') →
  effect no_change s s' ∧ same_core s s' ∧
  ∀ h dt', trace_at h s' = Some dt' → trace_at h s = Some dt' ∨ (h = DenomTrace_Hash dt ∧ dt' = dt).
Proof.
  unfold SetDenomTrace. intros ->%tr_set_ok. split_and!.
  - apply set_tr_store_effect; [done|done|]. intros d. rewrite total_escrow_trace. simpl. lia.
  - apply set_tr_store_core.
  - intros h dt'. unfold trace_at. rewrite tr_store_set.
    destruct (decide (h = DenomTrace_Hash dt)) as [->|Hne].
    + rewrite lookup_insert_eq. simpl. case_bool_decide; [done|]. simpl. rewrite unmarshal_marshal.
      intros [= <-]. by right.
    + rewrite lookup_insert_ne; [by left|]. intros Heq%string_app_inj_l. congruence.
Qed.

Lemma PacketData_ValidateBasic_ok data :
  PacketData_ValidateBasic data = Ok tt →
  ∃ n, NewIntFromString (ft_Amount data) = Some n ∧ 0 < n ∧ ValidatePrefixedDenom (ft_Denom data) = Ok tt.
Proof.
  unfold PacketData_ValidateBasic. intros (n & Hn & ([] & Hp%check_ok & ([] & _ & ([] & _ & Hd)%obind_ok)%obind_ok)%obind_ok)%obind_ok.
  destruct (NewIntFromString _) as [m|]; [|done]. injection Hn as ->. apply Z.ltb_lt in Hp. by exists n.
Qed.

Lemma Transfer_OnRecvPacket_ok ctx pk data s s' :
  Transfer_OnRecvPacket ctx pk data s = (Ok tt, s') →
  ∃ n receiver, NewIntFromString (ft_Amount data) = Some n ∧ 0 < n ∧
    AccAddressFromBech32 (ft_Receiver data) = Some receiver ∧
    effect (recv_change pk (ft_Denom data) receiver n) s s' ∧ same_core s s' ∧
    ∀ h dt, trace_at h s' = Some dt → trace_at h s = Some dt ∨
      (h = DenomTrace_Hash dt ∧
       dt = ParseDenomTrace (GetPrefixedDenom (DestinationPort pk) (DestinationChannel pk) (ft_Denom data))).
Proof.
  unfold Transfer_OnRecvPacket.
  intros ([] & ? & [Hv ->]%lift_ok & (params & s0 & Hpar & ([] & ? & [_ ->]%require_ok &
    (receiver & ? & [Hr ->]%orErr_ok & (n & ? & [Hn ->]%orErr_ok & H)%bind_ok)%bind_ok)%bind_ok)%bind_ok)%bind_ok.
  assert (s0 = s) as ->.
  { eapply readonly_ok, Hpar. unfold Transfer_GetParams, tr_get. ro. }
  apply PacketData_ValidateBasic_ok in Hv as (n' & Hn' & Hpos & _). assert (n' = n) as -> by congruence.
  exists n, receiver. split; [done|]. split; [done|]. split; [done|]. unfold recv_change.
  destruct (ReceiverChainIsSource _ _ _).
  - apply bind_ok in H as (tok & ? & [Ht ->]%lift_ok & ([] & ? & [_ ->]%require_ok & H)%bind_ok).
    apply new_coin_ok in Ht as (-> & _). rewrite unescrow_denom_local in H.
    apply unescrowToken_acts in H as [He Hc Ht]. split_and!; [done|done|].
    intros h dt. rewrite Ht. by left.
  - rewrite <- !GetPrefixedDenom_prefix in H.
    apply bind_ok in H as (known & ? & [-> ->]%gets_ok & ([] & s1 & Hset & (tok & ? & [Ht ->]%lift_ok &
      (cs & ? & [Hc ->]%lift_ok & ([] & s2 & Hm & (cs' & ? & [Hc' ->]%lift_ok & Hs)%bind_ok)%bind_ok)%bind_ok)%bind_ok)%bind_ok).
    apply new_coin_ok in Ht as (-> & _). fold (local_denom (GetPrefixedDenom (DestinationPort pk) (DestinationChannel pk) (ft_Denom data))) in *.
    pose proof (mint_and_send_acts _ _ _ _ _ _ _ _ Hc Hc' Hm Hs) as [He Hco Htr].
    set (dt0 := ParseDenomTrace _) in *.
    assert (effect no_change s s1 ∧ same_core s s1 ∧ ∀ h dt, trace_at h s1 = Some dt →
      trace_at h s = Some dt ∨ (h = DenomTrace_Hash dt0 ∧ dt = dt0)) as (He1 & Hc1 & Ht1).
    { destruct (negb _); [by apply SetDenomTrace_ok|]. apply ret_ok in Hset as [_ ->].
      split_and!; [apply effect_refl|done|by left]. }
    split_and!.
    + eapply effect_proper; [|done|done|exact (effect_trans _ _ _ _ _ He1 He)].
      split_and!; intros; simpl; lia.
    + by etrans.
    + intros h dt. rewrite Htr. intros [?|[-> ->]]%Ht1; [by left|by right].
Qed.

End recv.
