(* ===== verification/TransferSafety.v ===== *)
(** * Vouchers are backed by escrow

    Two chains joined by a transfer channel.  On chain A a token is locked at the
    escrow address of the channel when it is sent; chain B mints vouchers for it.
    The transition system takes the operations of both keepers, in any order, on
    the packets in flight; what the channel guarantees of packets (received only
    when sent, once; refunded only when not received, once: Security.v and
    Guarantees.v) is that each packet in flight is consumed once.  In every
    reachable state the escrow holds at least the vouchers in circulation and the
    tokens in flight. *)

From stdpp Require Import gmap strings list relations.
From Stdlib Require Import ZArith Lia Ascii.
From S2P Require Import Prelude GoStd Sha256 Host Chain ModuleStore Sums Height Capability Port Commitment LightClient Client ConnTypes ChanTypes Env Connection Channel ChanHandshake Packet MsgServer ChanProofs PacketProofs TransferTypes Transfer TransferProofs.

(** ** Denominations identify paths *)

Section denominations.
Context {E : IbcEnv} {T : TransferEnv} {TL : TransferLaws}.

Lemma HexBytes_String_inj h h' : HexBytes_String h = HexBytes_String h' → h = h'.
Proof. intros H. apply (f_equal DecodeString) in H. rewrite !hex_string_decode in H. congruence. Qed.

Lemma ibc_prefix h : HasPrefix (String "i" (String "b" (String "c" (String "/" h)))) "ibc/" = true.
Proof. exact (prefix_app "ibc/" h). Qed.

(** The paths a set of tokens has: they have a base denomination, do not look like
    vouchers, and no two of them hash to the same digest. *)
Record paths_ok (known : string → Prop) : Prop := {
  path_base y : known y → BaseDenom (ParseDenomTrace y) ≠ "";
  path_native y : known y → HasPrefix y "ibc/" = false;
  path_hash y z : known y → known z → Sum256 y = Sum256 z → y = z
}.

Lemma local_denom_inj known y z :
  paths_ok known → known y → known z → local_denom y = local_denom z → y = z.
Proof.
  intros Hk Hy Hz. unfold local_denom, IBCDenom.
  pose proof (parse_full_denom_path y (path_base _ Hk y Hy)) as Hfy.
  pose proof (parse_full_denom_path z (path_base _ Hk z Hz)) as Hfz.
  do 2 case_bool_decide; simpl.
  - by rewrite !native_base.
  - rewrite native_base by done. intros ->. pose proof (path_native _ Hk _ Hy) as Hn.
    by rewrite ibc_prefix in Hn.
  - rewrite (native_base z) by done. intros <-. pose proof (path_native _ Hk _ Hz) as Hn.
    by rewrite ibc_prefix in Hn.
  - intros [= Heq]. apply HexBytes_String_inj in Heq. unfold DenomTrace_Hash in Heq.
    rewrite Hfy, Hfz in Heq. by apply (path_hash _ Hk).
Qed.

End denominations.

Lemma GetPrefixedDenom_inj p c y z : GetPrefixedDenom p c y = GetPrefixedDenom p c z → y = z.
Proof. rewrite !GetPrefixedDenom_prefix. apply string_app_inj_l. Qed.

(** ** Two chains *)

Section bridge.
Context {E : IbcEnv} {T : TransferEnv}.
(** The wrappers of the two chains, the two ends of the channel, the path of the
    token on A, the paths of the tokens that are sent. *)
Context (ics4A ics4B : ICS4Wrapper) (pA cA pB cB x : string) (known : string → Prop).

(** The path and the denomination of the vouchers, the escrow account. *)
Definition voucher_path : string := GetPrefixedDenom pB cB x.
Definition token_denom : string := local_denom x.
Definition voucher_denom : string := local_denom voucher_path.
Definition escrow_account : Address := GetEscrowAddress pA cA.

Record bridge := mkBridge {
  chain_a : Chain; chain_b : Chain;
  a_to_b : list FungibleTokenPacketData; b_to_a : list FungibleTokenPacketData }.

Definition packet_ab (pk : Packet) : Prop :=
  SourcePort pk = pA ∧ SourceChannel pk = cA ∧ DestinationPort pk = pB ∧ DestinationChannel pk = cB.
Definition packet_ba (pk : Packet) : Prop :=
  SourcePort pk = pB ∧ SourceChannel pk = cB ∧ DestinationPort pk = pA ∧ DestinationChannel pk = cA.

(** The path a token has where it arrives. *)
Definition arrival_path (pk : Packet) (y : string) : string :=
  if ReceiverChainIsSource (SourcePort pk) (SourceChannel pk) y
  then str_drop (String.length (GetDenomPrefix (SourcePort pk) (SourceChannel pk))) y
  else GetPrefixedDenom (DestinationPort pk) (DestinationChannel pk) y.

(** A token that can be sent: a positive amount that fits an [Int], in the
    denomination its path has on the chain. *)
Definition sendable (tok : Coin) (full : string) (s : Chain) : Prop :=
  0 < Amount tok < 2 ^ 256 ∧ path_of (Denom tok) s full ∧ Denom tok = local_denom full ∧ known full.

Inductive bridge_step : bridge → bridge → Prop :=
| step_send_a ctx tok full sender receiver th ts memo sa sb l r n sa' :
    sendable tok full sa → sender ≠ escrow_account →
    sendTransfer ics4A ctx pA cA tok sender receiver th ts memo sa = (Ok n, sa') →
    bridge_step (mkBridge sa sb l r) (mkBridge sa' sb (sent_data full tok sender receiver memo :: l) r)
| step_send_b ctx tok full sender receiver th ts memo sa sb l r n sb' :
    sendable tok full sb →
    sendTransfer ics4B ctx pB cB tok sender receiver th ts memo sb = (Ok n, sb') →
    bridge_step (mkBridge sa sb l r) (mkBridge sa sb' l (sent_data full tok sender receiver memo :: r))
| step_recv_b ctx pk data sa sb l1 l2 r sb' :
    packet_ab pk → known (arrival_path pk (ft_Denom data)) →
    Transfer_OnRecvPacket ctx pk data sb = (Ok tt, sb') →
    bridge_step (mkBridge sa sb (l1 ++ data :: l2) r) (mkBridge sa sb' (l1 ++ l2) r)
| step_recv_a ctx pk data sa sb l r1 r2 sa' :
    packet_ba pk → known (arrival_path pk (ft_Denom data)) →
    Transfer_OnRecvPacket ctx pk data sa = (Ok tt, sa') →
    bridge_step (mkBridge sa sb l (r1 ++ data :: r2)) (mkBridge sa' sb l (r1 ++ r2))
| step_refund_a ctx pk data sa sb l1 l2 r sa' :
    packet_ab pk → refundPacketToken ctx pk data sa = (Ok tt, sa') →
    bridge_step (mkBridge sa sb (l1 ++ data :: l2) r) (mkBridge sa' sb (l1 ++ l2) r)
| step_refund_b ctx pk data sa sb l r1 r2 sb' :
    packet_ba pk → refundPacketToken ctx pk data sb = (Ok tt, sb') →
    bridge_step (mkBridge sa sb l (r1 ++ data :: r2)) (mkBridge sa sb' l (r1 ++ r2))
(** Everything else: nobody holds the key of the escrow account, and nobody else
    mints the vouchers. *)
| step_other_a sa sb l r sa' :
    GetBalance sa escrow_account token_denom <= GetBalance sa' escrow_account token_denom →
    bridge_step (mkBridge sa sb l r) (mkBridge sa' sb l r)
| step_other_b sa sb l r sb' :
    GetSupply sb' voucher_denom <= GetSupply sb voucher_denom →
    bridge_step (mkBridge sa sb l r) (mkBridge sa sb' l r).

(** The tokens of a path in flight. *)
Definition packet_amount (data : FungibleTokenPacketData) : Z :=
  default 0 (NewIntFromString (ft_Amount data)).
Fixpoint in_flight (y : string) (l : list FungibleTokenPacketData) : Z :=
  match l with
  | [] => 0
  | data :: l' => delta (bool_decide (ft_Denom data = y)) (packet_amount data) + in_flight y l'
  end.

Lemma in_flight_app y l1 l2 : in_flight y (l1 ++ l2) = in_flight y l1 + in_flight y l2.
Proof. induction l1 as [|data l1 IH]; simpl; [done|]. rewrite IH. lia. Qed.

Lemma in_flight_middle y l1 data l2 :
  in_flight y (l1 ++ data :: l2) =
  delta (bool_decide (ft_Denom data = y)) (packet_amount data) + in_flight y (l1 ++ l2).
Proof. rewrite !in_flight_app. simpl. lia. Qed.

(** The invariant: what is owed is in escrow. *)
Record backed (w : bridge) : Prop := {
  back_owed : GetSupply (chain_b w) voucher_denom + in_flight x (a_to_b w) + in_flight voucher_path (b_to_a w)
              <= GetBalance (chain_a w) escrow_account token_denom;
  back_known_ab : Forall (λ data, known (ft_Denom data)) (a_to_b w);
  back_known_ba : Forall (λ data, known (ft_Denom data)) (b_to_a w)
}.

End bridge.

Section safety.
Context {E : IbcEnv} {T : TransferEnv} {TL : TransferLaws}.
Context (ics4A ics4B : ICS4Wrapper) {LA : Ics4Laws ics4A} {LB : Ics4Laws ics4B}.
Context (pA cA pB cB x : string) (known : string → Prop).
Hypothesis Hpaths : paths_ok known.
Hypothesis Hx : known x.
Hypothesis Hv : known (voucher_path pB cB x).
Hypothesis Hsource : SenderChainIsSource pA cA x = true.

Abbreviation esc := (escrow_account pA cA).
Abbreviation dA := (token_denom x).
Abbreviation dB := (voucher_denom pB cB x).
Abbreviation v := (voucher_path pB cB x).

Lemma dA_iff y : known y → bool_decide (local_denom y = dA) = bool_decide (y = x).
Proof using Hpaths Hx TL.
  intros Hy. apply bool_decide_ext. split; [|by intros ->]. by apply (local_denom_inj known).
Qed.

Lemma dB_iff y : known y → bool_decide (local_denom y = dB) = bool_decide (y = v).
Proof using Hpaths Hv TL.
  intros Hy. apply bool_decide_ext. split; [|by intros ->]. by apply (local_denom_inj known).
Qed.

Lemma source_not_prefixed p c y : SenderChainIsSource p c y = true → ∀ u, y ≠ GetPrefixedDenom p c u.
Proof.
  unfold SenderChainIsSource. intros H u ->. by rewrite receiver_is_source_prefixed in H.
Qed.

Lemma amount_local y n d :
  amount_of d [mkCoin (local_denom y) n] = delta (bool_decide (local_denom y = d)) n.
Proof. apply amount_of_one. Qed.

(** *** The escrow account of chain A *)

Lemma delta_bounds b n : 0 <= n → 0 <= delta b n <= n.
Proof. destruct b; simpl; lia. Qed.

Lemma send_a_change y sender tok :
  known y → Denom tok = local_denom y → sender ≠ esc →
  d_balance (send_change pA cA y sender tok) esc dA = delta (bool_decide (y = x)) (Amount tok).
Proof using Hpaths Hx Hsource TL.
  intros Hy Hd Hs. unfold send_change. destruct (SenderChainIsSource pA cA y) eqn:Hsrc;
    cbn [d_balance lock plus move record_escrow destroy opposite create];
    rewrite amount_of_one, Hd, dA_iff by done.
  - rewrite (bool_decide_eq_true_2 (esc = GetEscrowAddress pA cA)), (bool_decide_eq_false_2 (esc = sender)) by done.
    simpl. lia.
  - rewrite !bool_decide_eq_false_2; [done|intros ->; congruence|done].
Qed.

Lemma release_change a y n :
  known y → 0 <= n →
  - delta (bool_decide (y = x)) n <= d_balance (release esc a (mkCoin (local_denom y) n)) esc dA.
Proof using Hpaths Hx TL.
  intros Hy Hn. cbn [d_balance release plus move opposite record_escrow]. rewrite amount_local, dA_iff by done.
  pose proof (delta_bounds (bool_decide (y = x)) n Hn) as Hb.
  pose proof (delta_bounds (bool_decide (esc = a)) (delta (bool_decide (y = x)) n)).
  pose proof (delta_bounds (bool_decide (esc = esc)) (delta (bool_decide (y = x)) n)). lia.
Qed.

Lemma create_change a c d b : 0 <= Amount c → 0 <= d_balance (create a c) b d.
Proof.
  intros Hc. cbn [d_balance create]. rewrite amount_of_one. by do 2 apply delta_bounds.
Qed.

Lemma refund_a_change y a n :
  known y → 0 <= n →
  - delta (bool_decide (y = x)) n <= d_balance (refund_change pA cA y a (mkCoin (local_denom y) n)) esc dA.
Proof using Hpaths Hx TL.
  intros Hy Hn. unfold refund_change. destruct (SenderChainIsSource pA cA y); [by apply release_change|].
  pose proof (create_change a (mkCoin (local_denom y) n) dA esc Hn).
  pose proof (delta_bounds (bool_decide (y = x)) n Hn). lia.
Qed.

Lemma recv_a_change pk z a n :
  packet_ba pA cA pB cB pk → known (arrival_path pk z) → 0 <= n →
  - delta (bool_decide (z = v)) n <= d_balance (recv_change pk z a n) esc dA.
Proof using Hpaths Hx TL.
  intros (Hsp & Hsc & Hdp & Hdc) Hk Hn. pose proof (delta_bounds (bool_decide (z = v)) n Hn).
  unfold recv_change, arrival_path in *. destruct (ReceiverChainIsSource _ _ z) eqn:Hr.
  - apply receiver_is_source_inv in Hr as [u ->]. rewrite drop_prefixed in *. rewrite Hdp, Hdc, Hsp, Hsc in *.
    pose proof (release_change a u n Hk Hn) as Hrel.
    replace (bool_decide (GetPrefixedDenom pB cB u = v)) with (bool_decide (u = x)); [done|].
    apply bool_decide_ext. split; [by intros ->|apply GetPrefixedDenom_inj].
  - pose proof (create_change a (mkCoin (local_denom (GetPrefixedDenom (DestinationPort pk)
      (DestinationChannel pk) z)) n) dA esc Hn). lia.
Qed.

(** *** The supply of vouchers on chain B *)

Lemma send_b_change y sender tok :
  known y → Denom tok = local_denom y →
  d_supply (send_change pB cB y sender tok) dB = - delta (bool_decide (y = v)) (Amount tok).
Proof using Hpaths Hv TL.
  intros Hy Hd. unfold send_change. destruct (SenderChainIsSource pB cB y) eqn:Hsrc;
    cbn [d_supply lock plus move record_escrow destroy opposite create].
  - rewrite bool_decide_eq_false_2; [done|]. by apply source_not_prefixed.
  - by rewrite amount_of_one, Hd, dB_iff.
Qed.

Lemma refund_b_change y a n :
  known y → d_supply (refund_change pB cB y a (mkCoin (local_denom y) n)) dB = delta (bool_decide (y = v)) n.
Proof using Hpaths Hv TL.
  intros Hy. unfold refund_change. destruct (SenderChainIsSource pB cB y) eqn:Hsrc;
    cbn [d_supply release plus move record_escrow opposite create].
  - rewrite bool_decide_eq_false_2; [done|]. by apply source_not_prefixed.
  - by rewrite amount_local, dB_iff.
Qed.

Lemma recv_b_change pk y a n :
  packet_ab pA cA pB cB pk → known (arrival_path pk y) → 0 <= n →
  d_supply (recv_change pk y a n) dB <= delta (bool_decide (y = x)) n.
Proof using Hpaths Hv TL.
  intros (Hsp & Hsc & Hdp & Hdc) Hk Hn. pose proof (delta_bounds (bool_decide (y = x)) n Hn).
  unfold recv_change, arrival_path in *. destruct (ReceiverChainIsSource _ _ y); [simpl; lia|].
  cbn [d_supply create]. rewrite amount_local, dB_iff by done. rewrite Hdp, Hdc.
  replace (bool_decide (GetPrefixedDenom pB cB y = v)) with (bool_decide (y = x)); [lia|].
  apply bool_decide_ext. split; [by intros ->|apply GetPrefixedDenom_inj].
Qed.

(** *** Every step keeps the vouchers backed *)

Lemma sent_amount full tok sender receiver memo :
  0 < Amount tok < 2 ^ 256 → packet_amount (sent_data full tok sender receiver memo) = Amount tok.
Proof using TL. intros Ha. unfold packet_amount. simpl. by rewrite int_roundtrip by lia. Qed.

Lemma amount_is data n : NewIntFromString (ft_Amount data) = Some n → packet_amount data = n.
Proof. unfold packet_amount. by intros ->. Qed.

Lemma Forall_middle {A} (P : A → Prop) l1 a l2 : Forall P (l1 ++ a :: l2) → P a ∧ Forall P (l1 ++ l2).
Proof. rewrite !Forall_app, Forall_cons. tauto. Qed.

Lemma step_backed w w' :
  bridge_step ics4A ics4B pA cA pB cB x known w w' → backed pA cA pB cB x known w →
  backed pA cA pB cB x known w'.
Proof using All.
  intros [ctx tok full sender receiver th ts memo sa sb l r n sa' (Ha & Hp & Hd & Hk) Hne H
         |ctx tok full sender receiver th ts memo sa sb l r n sb' (Ha & Hp & Hd & Hk) H
         |ctx pk data sa sb l1 l2 r sb' Hpk Hk H|ctx pk data sa sb l r1 r2 sa' Hpk Hk H
         |ctx pk data sa sb l1 l2 r sa' Hpk H|ctx pk data sa sb l r1 r2 sb' Hpk H
         |sa sb l r sa' Hle|sa sb l r sb' Hle] [Ho Hab Hba]; simpl in *.
  - apply sendTransfer_effect in H as (full' & Hp' & He & _); [|done].
    assert (full' = full) as -> by by eapply path_of_fun.
    split; simpl; [|by constructor|done].
    rewrite (eff_balance _ _ _ He), (send_a_change full), sent_amount by done. lia.
  - apply sendTransfer_effect in H as (full' & Hp' & He & _); [|done].
    assert (full' = full) as -> by by eapply path_of_fun.
    split; simpl; [|done|by constructor].
    rewrite (eff_supply _ _ _ He), (send_b_change full), sent_amount by done. lia.
  - apply Transfer_OnRecvPacket_ok in H as (n & a & Hn & Hpos & _ & He & _).
    apply Forall_middle in Hab as [_ Hab]. split; simpl; [|done|done].
    rewrite in_flight_middle, (amount_is _ _ Hn) in Ho. rewrite (eff_supply _ _ _ He).
    pose proof (recv_b_change pk (ft_Denom data) a n Hpk Hk). lia.
  - apply Transfer_OnRecvPacket_ok in H as (n & a & Hn & Hpos & _ & He & _).
    apply Forall_middle in Hba as [_ Hba]. split; simpl; [|done|done].
    rewrite in_flight_middle, (amount_is _ _ Hn) in Ho. rewrite (eff_balance _ _ _ He).
    pose proof (recv_a_change pk (ft_Denom data) a n Hpk Hk). lia.
  - apply refundPacketToken_ok in H as (n & a & Hn & Hpos & _ & [He _ _]).
    apply Forall_middle in Hab as [Hk Hab]. split; simpl; [|done|done].
    destruct Hpk as (Hsp & Hsc & _). rewrite Hsp, Hsc in He.
    rewrite in_flight_middle, (amount_is _ _ Hn) in Ho. rewrite (eff_balance _ _ _ He).
    pose proof (refund_a_change (ft_Denom data) a n Hk Hpos). lia.
  - apply refundPacketToken_ok in H as (n & a & Hn & Hpos & _ & [He _ _]).
    apply Forall_middle in Hba as [Hk Hba]. split; simpl; [|done|done].
    destruct Hpk as (Hsp & Hsc & _). rewrite Hsp, Hsc in He.
    rewrite in_flight_middle, (amount_is _ _ Hn) in Ho. rewrite (eff_supply _ _ _ He).
    rewrite (refund_b_change (ft_Denom data) a n Hk). lia.
  - split; simpl; [lia|done|done].
  - split; simpl; [lia|done|done].
Qed.

Lemma steps_backed w w' :
  rtc (bridge_step ics4A ics4B pA cA pB cB x known) w w' →
  backed pA cA pB cB x known w → backed pA cA pB cB x known w'.
Proof using All. induction 1 as [|w1 w2 w3 H _ IH]; [done|]. intros Hb. by apply IH, (step_backed w1). Qed.

End safety.

Section theorem.
Context {E : IbcEnv} {T : TransferEnv} {TL : TransferLaws}.
Context (ics4A ics4B : ICS4Wrapper) {LA : Ics4Laws ics4A} {LB : Ics4Laws ics4B}.

(** [C10] Vouchers are backed: two chains joined by a transfer channel send tokens,
    receive them and refund them in any order, starting with no vouchers and no
    packets; then at any time the vouchers in circulation on chain B, together
    with the tokens on their way in either direction, do not exceed what the
    escrow account of chain A holds. *)
Theorem vouchers_backed pA cA pB cB x known sa sb w :
  paths_ok known → known x → known (voucher_path pB cB x) → SenderChainIsSource pA cA x = true →
  GetSupply sb (voucher_denom pB cB x) = 0 →
  rtc (bridge_step ics4A ics4B pA cA pB cB x known) (mkBridge sa sb [] []) w →
  GetSupply (chain_b w) (voucher_denom pB cB x) + in_flight x (a_to_b w) +
    in_flight (voucher_path pB cB x) (b_to_a w)
  <= GetBalance (chain_a w) (escrow_account pA cA) (token_denom x).
Proof using All.
  intros Hk Hx Hv Hs H0 Hr. apply (back_owed _ _ _ _ _ known).
  apply (steps_backed ics4A ics4B pA cA pB cB x known Hk Hx Hv Hs (mkBridge sa sb [] []) w Hr).
  split; simpl; [|done|done]. pose proof (balance_nonneg sa (escrow_account pA cA) (token_denom x)). lia.
Qed.

End theorem.
