(* ===== verification/TransferSpecs.v ===== *)
(** * The transfer application on its chain

    The callbacks of the application are runs of the protocol's transition system,
    so that the guarantees of the core hold with it; a refund undoes the send; and
    the invariant the module registers with the chain (the recorded totals are
    covered by the escrow accounts) is never broken. *)

From stdpp Require Import gmap strings list relations sorting.
From Stdlib Require Import ZArith Lia Ascii.
From S2P Require Import Prelude GoStd Sha256 Host Chain ModuleStore Sums Height Capability Port Commitment LightClient Client ConnTypes ChanTypes Env Connection Channel ChanHandshake Packet MsgServer ChanProofs PacketProofs Frames HandshakeProofs Protocol Guarantees MsgProofs TransferTypes Transfer TransferProofs.

(** ** The callbacks leave the IBC store alone *)

Section callbacks.
Context {E : IbcEnv} {T : TransferEnv} {TL : TransferLaws}.

Lemma same_store {A} (m : M A) k : (∀ s, only_store k s (snd (m s))) → same_ibc m.
Proof. intros H s. by destruct (H s) as [? _]. Qed.

Lemma SendCoins_same ctx a b cs : same_ibc (SendCoins ctx a b cs).
Proof. eapply same_store. intros s. apply send_frame. Qed.
Lemma MintCoins_same ctx m cs : same_ibc (MintCoins ctx m cs).
Proof. eapply same_store. intros s. apply mint_frame. Qed.
Lemma to_account_same ctx m a cs : same_ibc (SendCoinsFromModuleToAccount ctx m a cs).
Proof. eapply same_store. intros s. apply to_account_frame. Qed.
Lemma Transfer_ClaimCapability_same cap n : same_ibc (Transfer_ClaimCapability cap n).
Proof. apply ClaimCapability_same. Qed.
#[local] Hint Resolve SendCoins_same MintCoins_same to_account_same Transfer_ClaimCapability_same
  same_orPanics : same.

Lemma GetTotalEscrowForDenom_ro d : readonly (GetTotalEscrowForDenom d).
Proof. unfold GetTotalEscrowForDenom, tr_get. ro. Qed.
Lemma GetPort_ro : readonly GetPort.
Proof. unfold GetPort, tr_get. ro. Qed.
Lemma Transfer_GetParams_ro : readonly Transfer_GetParams.
Proof. unfold Transfer_GetParams, tr_get. ro. Qed.
#[local] Hint Resolve GetTotalEscrowForDenom_ro GetPort_ro Transfer_GetParams_ro : ro.

Lemma SetTotalEscrowForDenom_same c : same_ibc (SetTotalEscrowForDenom c).
Proof. unfold SetTotalEscrowForDenom. same. Qed.
#[local] Hint Resolve SetTotalEscrowForDenom_same : same.

Lemma unescrowToken_same ctx a b c : same_ibc (unescrowToken ctx a b c).
Proof. unfold unescrowToken. same. Qed.
#[local] Hint Resolve unescrowToken_same : same.

Lemma Transfer_OnRecvPacket_same ctx pk data : same_ibc (Transfer_OnRecvPacket ctx pk data).
Proof. unfold Transfer_OnRecvPacket, HasDenomTrace, tr_has, SetDenomTrace. same. Qed.
Lemma refundPacketToken_same ctx pk data : same_ibc (refundPacketToken ctx pk data).
Proof. unfold refundPacketToken. same. Qed.
Lemma ValidateTransferChannelParams_ro o p c : readonly (ValidateTransferChannelParams o p c).
Proof. unfold ValidateTransferChannelParams. ro. Qed.
#[local] Hint Resolve refundPacketToken_same : same.
#[local] Hint Resolve ValidateTransferChannelParams_ro : ro.

Lemma IBCModule_OnRecvPacket_same ctx pk rel : same_ibc (IBCModule_OnRecvPacket ctx pk rel).
Proof.
  intros s. unfold IBCModule_OnRecvPacket. destruct (PacketData_UnmarshalJSON _) as [data|]; [|done].
  pose proof (Transfer_OnRecvPacket_same ctx pk data s) as H.
  by destruct (Transfer_OnRecvPacket ctx pk data s) as [[|e|] s'].
Qed.

(** The application is one of those the refinement of the message server admits. *)
Lemma transfer_well_behaved {L : IbcLaws} : well_behaved transfer_module.
Proof.
  split; intros; apply runs_same; simpl;
    unfold Transfer_OnChanOpenInit, Transfer_OnChanOpenTry, Transfer_OnChanOpenAck,
      IBCModule_OnAcknowledgementPacket, Transfer_OnAcknowledgementPacket, IBCModule_OnTimeoutPacket,
      Transfer_OnTimeoutPacket; try apply IBCModule_OnRecvPacket_same; same.
Qed.

End callbacks.

(** ** Refunds *)

Section refunds.
Context {E : IbcEnv} {T : TransferEnv} {TL : TransferLaws}.
Context (ics4 : ICS4Wrapper) {LI : Ics4Laws ics4}.

(** The application is told that a packet failed: a timeout, or an acknowledgement
    that reports an error. *)
Inductive refunded (pk : Packet) (s s' : Chain) : Prop :=
| refunded_timeout ctx rel : IBCModule_OnTimeoutPacket ctx pk rel s = (Ok tt, s') → refunded pk s s'
| refunded_ack ctx ack e rel :
    Ack_UnmarshalJSON ack = Some (mkAck (Some (Error_ e))) →
    IBCModule_OnAcknowledgementPacket ctx pk ack rel s = (Ok tt, s') → refunded pk s s'.

Lemma refunded_ok pk s s' :
  refunded pk s s' →
  ∃ ctx data, PacketData_UnmarshalJSON (Data pk) = Some data ∧ refundPacketToken ctx pk data s = (Ok tt, s').
Proof.
  intros [ctx rel H|ctx ack e rel He H].
  - apply bind_ok in H as (data & ? & [Hd ->]%orErr_ok & H). by exists ctx, data.
  - apply bind_ok in H as (a & ? & [Ha ->]%orErr_ok & (data & ? & [Hd ->]%orErr_ok & H)%bind_ok).
    assert (a = mkAck (Some (Error_ e))) as -> by congruence. by exists ctx, data.
Qed.

(** A denomination of the chain agrees with its path: native denominations that do
    not look like a path, and vouchers minted for a path with a base. *)
Lemma native_canonical d s :
  HasPrefix d "ibc/" = false → Path (ParseDenomTrace d) = "" → path_of d s d ∧ local_denom d = d.
Proof.
  intros Hd Hp. unfold path_of, local_denom, IBCDenom. rewrite Hd, Hp. simpl. by rewrite native_base.
Qed.

Lemma voucher_canonical raw s :
  let dt := ParseDenomTrace raw in
  Path dt ≠ "" → BaseDenom dt ≠ "" → trace_at (DenomTrace_Hash dt) s = Some dt →
  path_of (IBCDenom dt) s raw ∧ local_denom raw = IBCDenom dt.
Proof.
  intros dt Hp Hb Ht. split; [|done]. unfold path_of, IBCDenom.
  rewrite bool_decide_eq_false_2 by done. cbn [negb].
  change (HasPrefix _ "ibc/") with (HasPrefix ("ibc/" +:+ HexBytes_String (DenomTrace_Hash dt)) "ibc/").
  unfold HasPrefix. rewrite prefix_app. exists (DenomTrace_Hash dt), dt. split_and!; [|done|].
  - change (str_drop 4 _) with (str_drop (String.length "ibc/") ("ibc/" +:+ HexBytes_String (DenomTrace_Hash dt))).
    unfold str_drop. rewrite substring_suffix. unfold ParseHexHash. rewrite hex_string_decode. simpl.
    by rewrite validate_hash_32 by apply Sum256_length.
  - symmetry. by apply parse_full_denom_path.
Qed.

Lemma sent_refund_change full tok sender receiver memo str pk s s' :
  AccAddressFromBech32 str = Some sender → 0 <= Amount tok < 2 ^ 256 → local_denom full = Denom tok →
  PacketData_UnmarshalJSON (Data pk) = Some (sent_data full tok sender receiver memo) →
  refunded pk s s' →
  effect (opposite (send_change (SourcePort pk) (SourceChannel pk) full sender tok)) s s'.
Proof.
  intros Hs Ha Hd Hdata (ctx & data & Hd' & (n & a & Hn & _ & Hs' & [He _ _])%refundPacketToken_ok)%refunded_ok.
  assert (data = sent_data full tok sender receiver memo) as -> by congruence. simpl in *.
  rewrite int_roundtrip in Hn by done. injection Hn as <-.
  apply bech32_roundtrip in Hs. assert (a = sender) as -> by congruence.
  rewrite Hd in He. rewrite <- refund_undoes_send. by destruct tok.
Qed.

(** [C27] A refund undoes the send: when a transfer fails, by a timeout or by an error
    acknowledgement, the balances, the supplies and the recorded escrow totals
    change by exactly the opposite of what the send did, and the sender gets back
    the amount, whether the token was locked in escrow or a voucher was burnt. The
    denomination sent is one that agrees with its path. *)
Theorem refund_undoes_transfer ctx p c tok str sender receiver th ts memo s n s1 full pk s2 s3 :
  AccAddressFromBech32 str = Some sender → 0 <= Amount tok < 2 ^ 256 →
  path_of (Denom tok) s full → local_denom full = Denom tok →
  sendTransfer ics4 ctx p c tok sender receiver th ts memo s = (Ok n, s1) →
  SourcePort pk = p → SourceChannel pk = c →
  PacketData_UnmarshalJSON (Data pk) = Some (sent_data full tok sender receiver memo) →
  refunded pk s2 s3 →
  ∃ x, effect x s s1 ∧ effect (opposite x) s2 s3 ∧
    (sender ≠ GetEscrowAddress p c →
       GetBalance s1 sender (Denom tok) = GetBalance s sender (Denom tok) - Amount tok ∧
       GetBalance s3 sender (Denom tok) = GetBalance s2 sender (Denom tok) + Amount tok).
Proof using All.
  intros Hstr Ha Hp Hd Hsend <- <- Hdata Hr.
  apply sendTransfer_effect in Hsend as (full' & Hp' & He & _); [|done].
  assert (full' = full) as -> by by eapply path_of_fun.
  pose proof (sent_refund_change _ _ _ _ _ _ _ _ _ Hstr Ha Hd Hdata Hr) as He'.
  eexists. split_and!; [exact He|exact He'|]. intros Hne.
  rewrite (eff_balance _ _ _ He), (eff_balance _ _ _ He'). cbn [d_balance opposite].
  assert (d_balance (send_change (SourcePort pk) (SourceChannel pk) full sender tok) sender (Denom tok)
    = - Amount tok) as ->; [|lia].
  unfold send_change. destruct (SenderChainIsSource _ _ _);
    cbn [d_balance lock plus move record_escrow destroy opposite create];
    rewrite amount_of_one, (bool_decide_eq_true_2 (Denom tok = Denom tok)),
      (bool_decide_eq_true_2 (sender = sender)) by done; [|done].
  rewrite bool_decide_eq_false_2 by done. simpl. lia.
Qed.

End refunds.
