(* ===== verification/TransferInvariant.v ===== *)
(** * The escrow invariant of the transfer application

    invariants.go registers a check with the chain: for every denomination the
    escrow accounts of the transfer channels hold at least the recorded total.
    The section below makes the application a transition system, with everything
    else that can happen to the balances and the channels, and shows that the check
    never reports a broken invariant, and that the recorded total is exact unless
    someone else pays into an escrow account. *)

From stdpp Require Import gmap strings list relations sorting.
From Stdlib Require Import ZArith Lia Ascii.
From S2P Require Import Prelude GoStd Sha256 Host Chain ModuleStore Sums Height Capability Port Commitment LightClient Client ConnTypes ChanTypes Env Connection Channel ChanHandshake Packet MsgServer ChanProofs PacketProofs Frames HandshakeProofs TransferTypes Transfer TransferProofs.

Section channels.
Context {E : IbcEnv} {L : IbcLaws}.

(** Every stored channel of the port is listed. *)
Lemma collect_channels entries acc s l s' :
  iterate entries (λ key value acc,
    channel ← lift (MustUnmarshal value);
    '(portID, channelID) ← lift (MustParseChannelPath key);
    mret (acc ++ [NewIdentifiedChannel portID channelID channel], false)) acc s = (Ok l, s') →
  s' = s ∧ acc ⊆ l ∧ ∀ k v p c, (k, v) ∈ entries → MustParseChannelPath k = Ok (p, c) →
    c ∈ (ich_ChannelId <$> l).
Proof.
  revert acc. induction entries as [|[k v] entries IH]; intros acc; simpl.
  - intros [-> ->]%ret_ok. split_and!; [done|done|]. by intros ? ? ? ? ?%not_elem_of_nil.
  - intros ([acc' stop] & s1 & (ch & ? & [_ ->]%lift_ok & ([p c] & ? & [Hp ->]%lift_ok &
      [[= -> ->] ->]%ret_ok)%bind_ok)%bind_ok & H)%bind_ok.
    apply IH in H as (-> & Hsub & Hin). split_and!; [done|set_solver|].
    intros k' v' p' c' [[= -> ->]|He]%elem_of_cons Hp'; [|by eapply Hin].
    rewrite Hp in Hp'. injection Hp' as -> ->. apply list_elem_of_fmap.
    exists (NewIdentifiedChannel p' c' ch). set_solver.
Qed.

Lemma GetAllChannelsWithPortPrefix_complete p c s l s' :
  is_blank p = false → no_slash p → no_slash c →
  GetAllChannelsWithPortPrefix p s = (Ok l, s') →
  s' = s ∧ (is_Some (channel_at p c s) → c ∈ (ich_ChannelId <$> l)).
Proof.
  intros Hb Hp Hc. unfold GetAllChannelsWithPortPrefix. rewrite Hb. unfold iterate_channels.
  intros (entries & ? & [-> ->]%gets_ok & H)%bind_ok.
  apply collect_channels in H as (-> & _ & Hin). split; [done|]. intros [ch Hch].
  unfold channel_at, stored in Hch. destruct (ibc s !! ChannelPath p c) as [v|] eqn:Hk; [|done].
  eapply Hin; [apply KVStorePrefixIterator_elem; split; [exact Hk|]|].
  - unfold HasPrefix, ChannelPath, channelPath, FilteredPortPrefix.
    match goal with |- String.prefix ?a ?b = true => assert (∃ t, b = a +:+ t) as [t ->] end;
      [|apply prefix_app].
    eexists. rewrite !string_app_assoc. reflexivity.
  - unfold MustParseChannelPath, ChannelPath. by rewrite ParseChannelPath_format.
Qed.

End channels.

(** ** The recorded totals *)

Section totals.
Context {E : IbcEnv} {T : TransferEnv} {TL : TransferLaws}.

(** What the store of the module holds under the keys of escrow totals, and the
    port the module is bound to. *)
Definition entry_ok (k : string) (v : bytes) : Prop :=
  ∃ d n, k = TotalEscrowForDenomKey d ∧ v = Marshal n ∧ 0 < n.
Record store_ok (portID : string) (kv : KVStore) : Prop := {
  so_entries k v : kv !! k = Some v → HasPrefix k KeyTotalEscrowPrefix = true → entry_ok k v;
  so_port : kv !! PortKey = Some portID
}.

Definition entry_amount (d : string) (e : string * bytes) : Z :=
  delta (bool_decide (e.1 = TotalEscrowForDenomKey d)) (default 0 (Unmarshal e.2)).

Lemma entry_key_denom d :
  TrimPrefix (TotalEscrowForDenomKey d) (KeyTotalEscrowPrefix +:+ "/") = d.
Proof.
  unfold TrimPrefix, TotalEscrowForDenomKey, HasPrefix, str_drop. rewrite <- string_app_assoc.
  rewrite prefix_app. apply substring_suffix.
Qed.

Lemma escrow_entry_ok k v o :
  entry_ok k v → escrow_entry (k, v) = Ok o →
  match o with
  | None => True
  | Some c => Coins_Validate [c] = Ok tt ∧ ∀ d, amount_of d [c] = entry_amount d (k, v)
  end.
Proof.
  intros (d & n & -> & -> & Hn). unfold escrow_entry, entry_amount. cbn [fst snd].
  rewrite entry_key_denom, unmarshal_marshal. cbn [default].
  destruct (is_blank d); [by intros [= <-]|].
  intros (c & (-> & _ & Hd)%new_coin_ok & [= <-])%obind_ok. split; [by apply coins_one_valid|].
  intros d'. rewrite amount_of_one. cbn [Denom Amount]. f_equal. apply bool_decide_ext.
  split; [by intros ->|apply TotalEscrowForDenomKey_inj].
Qed.

Lemma entry_amount_nonneg d k v : entry_ok k v → 0 <= entry_amount d (k, v).
Proof.
  intros (d' & n & -> & -> & Hn). unfold entry_amount. cbn [fst snd]. rewrite unmarshal_marshal.
  destruct (bool_decide _); simpl; lia.
Qed.

Lemma collect_escrow entries acc exp :
  (∀ k v, (k, v) ∈ entries → entry_ok k v) → Coins_Validate acc = Ok tt →
  iterate_values escrow_entry entries
    (λ denomEscrow escrows, cs ← Coins_Add escrows [denomEscrow]; Ok (cs, false)) acc = Ok exp →
  Coins_Validate exp = Ok tt ∧
  ∀ d, amount_of d exp <= amount_of d acc + sum_over (entry_amount d) entries.
Proof.
  revert acc. induction entries as [|[k v] entries IH]; intros acc Hin Hacc; simpl.
  - intros [= <-]. split; [done|]. intros. lia.
  - intros (o & Ho & H)%obind_ok.
    assert (entry_ok k v) as Hkv by (apply Hin; set_solver).
    pose proof (escrow_entry_ok k v o Hkv Ho) as Hc.
    assert (∀ k v, (k, v) ∈ entries → entry_ok k v) as Hin' by (intros; apply Hin; set_solver).
    destruct o as [c|].
    + destruct Hc as [Hcv Hca].
      apply obind_ok in H as ([cs stop] & (cs' & Hadd & [= <- <-])%obind_ok & H).
      apply coins_add_ok in Hadd as [Hv Ha]; [|done|done].
      apply IH in H as [Hv' Hle]; [|done|done]. split; [done|]. intros d.
      specialize (Hle d). rewrite Ha, Hca in Hle. lia.
    + apply IH in H as [Hv' Hle]; [|done|done]. split; [done|]. intros d.
      specialize (Hle d). pose proof (entry_amount_nonneg d k v Hkv). lia.
Qed.

(** The entry of a denomination is the recorded total. *)
Lemma sum_entries kv p d s :
  tr_store s = kv → (∀ k v, (k, v) ∈ KVStorePrefixIterator kv p → entry_ok k v) →
  0 <= total_escrow d s →
  sum_over (entry_amount d) (KVStorePrefixIterator kv p) <= total_escrow d s.
Proof.
  intros Hkv Hin Hpos. pose proof (KVStorePrefixIterator_NoDup kv p) as Hnd.
  destruct (kv !! TotalEscrowForDenomKey d) as [v|] eqn:Hv.
  - destruct (decide ((TotalEscrowForDenomKey d, v) ∈ KVStorePrefixIterator kv p)) as [He|He].
    + destruct (Hin _ _ He) as (d' & n & _ & -> & Hn).
      assert (total_escrow d s = n) as ->.
      { unfold total_escrow. rewrite Hkv, Hv. simpl. rewrite bool_decide_eq_false_2 by apply marshal_nonempty.
        simpl. by rewrite unmarshal_marshal. }
      rewrite (sum_over_ext _ (λ e, delta (bool_decide (id e = id (TotalEscrowForDenomKey d, Marshal n))) n)).
      * rewrite sum_over_one; [done| |done]. by rewrite list_fmap_id.
      * intros [k v] [Hk _]%KVStorePrefixIterator_elem. unfold entry_amount. cbn [fst snd id].
        case_bool_decide as H1.
        -- subst k. assert (v = Marshal n) as -> by congruence.
           by rewrite bool_decide_eq_true_2, unmarshal_marshal.
        -- rewrite bool_decide_eq_false_2; [done|]. by intros [= -> ->].
    + rewrite sum_over_zero; [done|]. intros [k v'] He'. unfold entry_amount. cbn [fst snd].
      rewrite bool_decide_eq_false_2; [done|]. intros ->. apply He.
      pose proof He' as [Hk _]%KVStorePrefixIterator_elem. congruence.
  - rewrite sum_over_zero; [done|]. intros [k v] [Hk _]%KVStorePrefixIterator_elem. unfold entry_amount.
    cbn [fst snd]. rewrite bool_decide_eq_false_2; [done|]. intros ->. congruence.
Qed.

Lemma total_escrow_nonneg d s p : store_ok p (tr_store s) → 0 <= total_escrow d s.
Proof.
  intros Hs. unfold total_escrow. destruct (tr_store s !! TotalEscrowForDenomKey d) as [v|] eqn:Hv; [|done].
  destruct (so_entries _ _ Hs _ _ Hv) as (d' & n & _ & -> & Hn); [exact (prefix_app KeyTotalEscrowPrefix _)|].
  simpl. rewrite bool_decide_eq_false_2 by apply marshal_nonempty. simpl. rewrite unmarshal_marshal. simpl. lia.
Qed.

Lemma GetAllTotalEscrowed_ok p s exp s' :
  store_ok p (tr_store s) → GetAllTotalEscrowed s = (Ok exp, s') →
  s' = s ∧ Coins_Validate exp = Ok tt ∧ ∀ d, amount_of d exp <= total_escrow d s.
Proof.
  intros Hs. unfold GetAllTotalEscrowed, IterateTokensInEscrow.
  intros (kv & ? & [-> ->]%gets_ok & [H ->]%lift_ok)%bind_ok. split; [done|].
  assert (∀ k v, (k, v) ∈ KVStorePrefixIterator (tr_store s) KeyTotalEscrowPrefix → entry_ok k v) as Hin.
  { intros k v [Hk Hp]%KVStorePrefixIterator_elem. by eapply so_entries. }
  apply collect_escrow in H as [Hv Hle]; [|done|apply coins_nil_valid]. split; [done|].
  intros d. specialize (Hle d). simpl in Hle.
  pose proof (sum_entries (tr_store s) KeyTotalEscrowPrefix d s eq_refl Hin (total_escrow_nonneg d s p Hs)). lia.
Qed.

(** ** The escrow accounts *)

Lemma actual_escrowed_ok p chans acc s act s' :
  Coins_Validate acc = Ok tt → actual_escrowed p chans acc s = (Ok act, s') →
  s' = s ∧ Coins_Validate act = Ok tt ∧
  ∀ d, amount_of d act = amount_of d acc +
         sum_over (λ c, GetBalance s (GetEscrowAddress p c) d) (ich_ChannelId <$> chans).
Proof.
  revert acc. induction chans as [|ch chans IH]; intros acc Hacc; cbn [actual_escrowed].
  - intros [-> ->]%ret_ok. split_and!; [done|done|]. intros. simpl. lia.
  - intros (bals & ? & [-> ->]%gets_ok & (tot & ? & [Hadd ->]%lift_ok & H)%bind_ok)%bind_ok.
    destruct (all_balances_ok s (GetEscrowAddress p (ich_ChannelId ch))) as [Hbv Hb].
    apply coins_add_ok in Hadd as [Hv Ha]; [|done|done].
    apply IH in H as (-> & Hv' & Hd); [|done]. split_and!; [done|done|].
    intros d. rewrite Hd, Ha, Hb, fmap_cons. cbn [sum_over foldr]. unfold sum_over. lia.
Qed.

End totals.

(** ** The operations keep the form of the store *)

Section keeps.
Context {E : IbcEnv} {T : TransferEnv} {TL : TransferLaws}.
Context (ics4 : ICS4Wrapper) {LI : Ics4Laws ics4} (p : string).

Definition keeps_store {A} (m : M A) : Prop :=
  ∀ s, store_ok p (tr_store s) → store_ok p (tr_store (snd (m s))).

Lemma keeps_bind {A B} (m : M A) (f : A → M B) :
  keeps_store m → (∀ a, keeps_store (f a)) → keeps_store (m ≫= f).
Proof.
  intros Hm Hf s Hs. unfold mbind, M_bind. specialize (Hm s Hs).
  destruct (m s) as [[a|e|] s1]; simpl in *; [by apply Hf|done|done].
Qed.

Lemma keeps_readonly {A} (m : M A) : readonly m → keeps_store m.
Proof. intros Hm s Hs. by rewrite Hm. Qed.

Lemma keeps_bank {A} (m : M A) : (∀ s, only_store bank_storeKey s (snd (m s))) → keeps_store m.
Proof. intros Hm s Hs. by rewrite (bank_only s _ (Hm s)). Qed.

Lemma keeps_orPanics {A} (m : M A) : keeps_store m → keeps_store (orPanics m).
Proof. intros Hm s Hs. specialize (Hm s Hs). unfold orPanics. by destruct (m s) as [[|e|] s1]. Qed.

Lemma store_ok_insert k v kv :
  store_ok p kv → k ≠ PortKey → (HasPrefix k KeyTotalEscrowPrefix = true → entry_ok k v) →
  store_ok p (<[k := v]> kv).
Proof.
  intros [Hk Hp] Hne He. split; [|by rewrite lookup_insert_ne].
  intros j w [[<- <-]|[_ Hj]]%lookup_insert_Some; [done|by apply Hk].
Qed.

Lemma store_ok_delete k kv : store_ok p kv → k ≠ PortKey → store_ok p (delete k kv).
Proof.
  intros [Hk Hp] Hne. split; [|by rewrite lookup_delete_ne]. intros j w [_ Hj]%lookup_delete_Some. by apply Hk.
Qed.

Lemma SetTotalEscrowForDenom_keeps c : keeps_store (SetTotalEscrowForDenom c).
Proof.
  intros s Hs. unfold SetTotalEscrowForDenom. destruct (Z.ltb_spec (Amount c) 0); [done|].
  destruct (Z.eqb_spec (Amount c) 0); unfold tr_delete, tr_set, mod_delete, mod_set, modify; cbn [snd]; fold (tr_store s); unfold tr_store; rewrite mod_store_set.
  - by apply store_ok_delete.
  - apply store_ok_insert; [done|done|]. intros _. exists (Denom c), (Amount c). split_and!; [done|done|lia].
Qed.

Lemma SetDenomTrace_keeps dt : keeps_store (SetDenomTrace dt).
Proof.
  intros s Hs. unfold SetDenomTrace, tr_set, mod_set, modify. cbn [snd]. unfold tr_store. rewrite mod_store_set.
  apply store_ok_insert; [done| |done]. unfold PortKey, DenomTraceKey, prefixed. discriminate.
Qed.

Ltac keeps :=
  intros; repeat first
    [ match goal with |- keeps_store (_ ≫= _) => apply keeps_bind; [|intros] end
    | solve [apply SetTotalEscrowForDenom_keeps | apply SetDenomTrace_keeps]
    | solve [apply keeps_bank; intros; first
        [apply send_frame|apply mint_frame|apply burn_frame|apply to_account_frame|apply to_module_frame]]
    | match goal with |- keeps_store (orPanics _) => apply keeps_orPanics end
    | solve [apply keeps_readonly; unfold tr_get, tr_has in *; ro]
    | case_match ].

Lemma escrowToken_keeps ctx a b c : keeps_store (escrowToken ctx a b c).
Proof. unfold escrowToken, GetTotalEscrowForDenom. keeps. Qed.
Lemma unescrowToken_keeps ctx a b c : keeps_store (unescrowToken ctx a b c).
Proof. unfold unescrowToken, GetTotalEscrowForDenom. keeps. Qed.
Lemma refundPacketToken_keeps ctx pk data : keeps_store (refundPacketToken ctx pk data).
Proof. unfold refundPacketToken. keeps. apply unescrowToken_keeps. Qed.
Lemma Transfer_OnRecvPacket_keeps ctx pk data : keeps_store (Transfer_OnRecvPacket ctx pk data).
Proof.
  unfold Transfer_OnRecvPacket, Transfer_GetParams, HasDenomTrace. keeps. apply unescrowToken_keeps.
Qed.

Lemma keeps_ok {A} (m : M A) s o s' :
  keeps_store m → m s = (o, s') → store_ok p (tr_store s) → store_ok p (tr_store s').
Proof. intros Hm H Hs. specialize (Hm s Hs). by rewrite H in Hm. Qed.

Lemma sendTransfer_keeps ctx port c tok a r th ts memo s n s' :
  sendTransfer ics4 ctx port c tok a r th ts memo s = (Ok n, s') →
  store_ok p (tr_store s) → store_ok p (tr_store s').
Proof using LI TL.
  unfold sendTransfer. intros (o & ? & [-> Hch]%ibc_get_proto_ok & (ch & ? & [-> ->]%orErr_ok &
    (o' & ? & H1 & (cap & ? & [-> ->]%orErr_ok & (full & ? & [-> _]%send_path_ok &
    ([] & s1 & Hmv & H)%bind_ok)%bind_ok)%bind_ok)%bind_ok)%bind_ok)%bind_ok Hs.
  apply readonly_ok in H1 as ->; [|apply GetCapability_ro].
  apply ics4_send_stores in H. unfold tr_store, mod_store. rewrite H. change (store_ok p (tr_store s1)).
  eapply keeps_ok, Hs; [|exact Hmv]. keeps; apply escrowToken_keeps.
Qed.

End keeps.

(** ** The transition system *)

Section invariant.
Context {E : IbcEnv} {L : IbcLaws} {T : TransferEnv} {TL : TransferLaws}.
Context (ics4 : ICS4Wrapper) {LI : Ics4Laws ics4}.
(** The port the application is bound to. *)
Context (p : string).
Hypothesis Hport : PortIdentifierValidator p = Ok tt.

Abbreviation esc := (GetEscrowAddress p).

(** A chain and the identifiers of its transfer channels. *)
Definition EscrowWorld : Type := Chain * list string.

(** Escrow addresses of different channels differ; a sender is not an escrow
    address, for which nobody holds a key. *)
Definition distinct_escrows (C : list string) : Prop := NoDup (esc <$> C).

(** Anyone may pay into an escrow account, and then it holds more than was recorded.
    [paid_in] says whether that happens: if it does not, no receiver or refunded
    sender is an escrow account, that of a new channel is empty, and the rest of the
    chain leaves them as they are. *)
Inductive escrow_step (paid_in : bool) : EscrowWorld → EscrowWorld → Prop :=
| es_send ctx c tok sender receiver th ts memo s n s' C :
    c ∈ C → 0 <= Amount tok → sender ∉ (esc <$> C) →
    sendTransfer ics4 ctx p c tok sender receiver th ts memo s = (Ok n, s') →
    escrow_step paid_in (s, C) (s', C)
| es_recv ctx pk data s s' C :
    DestinationPort pk = p → DestinationChannel pk ∈ C →
    (paid_in = false → ∀ a, AccAddressFromBech32 (ft_Receiver data) = Some a → a ∉ (esc <$> C)) →
    Transfer_OnRecvPacket ctx pk data s = (Ok tt, s') → escrow_step paid_in (s, C) (s', C)
| es_refund ctx pk data s s' C :
    SourcePort pk = p → SourceChannel pk ∈ C →
    (paid_in = false → ∀ a, AccAddressFromBech32 (ft_Sender data) = Some a → a ∉ (esc <$> C)) →
    refundPacketToken ctx pk data s = (Ok tt, s') → escrow_step paid_in (s, C) (s', C)
| es_open s c C :
    no_slash c → is_Some (channel_at p c s) → distinct_escrows (c :: C) →
    (paid_in = false → ∀ d, GetBalance s (esc c) d = 0) → escrow_step paid_in (s, C) (s, c :: C)
(** Everything else: the escrow accounts are not debited, the escrow totals and
    the port of the module are not written, channels are not removed. *)
| es_other s s' C :
    (∀ k, k = PortKey ∨ HasPrefix k KeyTotalEscrowPrefix = true → tr_store s' !! k = tr_store s !! k) →
    (∀ c d, c ∈ C → GetBalance s (esc c) d <= GetBalance s' (esc c) d) →
    (paid_in = false → ∀ c d, c ∈ C → GetBalance s' (esc c) d = GetBalance s (esc c) d) →
    (∀ c, c ∈ C → is_Some (channel_at p c s) → is_Some (channel_at p c s')) →
    escrow_step paid_in (s, C) (s', C).

Definition escrow_held (C : list string) (d : string) (s : Chain) : Z :=
  sum_over (λ c, GetBalance s (esc c) d) C.

Record escrow_inv (paid_in : bool) (w : EscrowWorld) : Prop := {
  ei_covered d : total_escrow d (fst w) <= escrow_held (snd w) d (fst w);
  ei_exact d : paid_in = false → total_escrow d (fst w) = escrow_held (snd w) d (fst w);
  ei_store : store_ok p (tr_store (fst w));
  ei_channels c : c ∈ snd w → no_slash c ∧ is_Some (channel_at p c (fst w));
  ei_distinct : distinct_escrows (snd w)
}.

(** *** Sums of changes *)

Definition held_change (C : list string) (x : change) (d : string) : Z :=
  sum_over (λ c, d_balance x (esc c) d) C.

Lemma held_effect C x d s s' : effect x s s' → escrow_held C d s' = escrow_held C d s + held_change C x d.
Proof.
  intros He. unfold escrow_held, held_change. rewrite <- sum_over_plus. apply sum_over_ext.
  intros c _. apply He.
Qed.

Lemma delta_at C c n : distinct_escrows C → c ∈ C → sum_over (λ c', delta (bool_decide (esc c' = esc c)) n) C = n.
Proof. intros Hd Hc. by apply sum_over_one. Qed.

Lemma delta_outside C a n : a ∉ (esc <$> C) → sum_over (λ c, delta (bool_decide (esc c = a)) n) C = 0.
Proof.
  intros Ha. apply sum_over_zero. intros c Hc. rewrite bool_decide_eq_false_2; [done|]. intros <-.
  apply Ha. by apply list_elem_of_fmap_2.
Qed.

Lemma sum_delta_nonneg C a n : 0 <= n → 0 <= sum_over (λ c, delta (bool_decide (esc c = a)) n) C.
Proof.
  intros Hn. transitivity (sum_over (λ _ : string, 0) C); [by rewrite sum_over_zero|].
  apply sum_over_le. intros c _. destruct (bool_decide _); simpl; lia.
Qed.

Lemma amount_nonneg c d : 0 <= Amount c → 0 <= amount_of d [c].
Proof. rewrite amount_of_one. destruct (bool_decide _); simpl; lia. Qed.

(** A coin locked adds its amount, one released takes at most its amount. *)
Lemma held_lock C c a tok d :
  distinct_escrows C → c ∈ C → a ∉ (esc <$> C) →
  held_change C (lock a (esc c) tok) d = d_escrow (lock a (esc c) tok) d.
Proof.
  intros Hd Hc Ha. unfold held_change. cbn [d_balance d_escrow lock plus move record_escrow].
  rewrite (sum_over_ext _ (λ c', delta (bool_decide (esc c' = esc c)) (amount_of d [tok]) +
    - delta (bool_decide (esc c' = a)) (amount_of d [tok]))) by (intros; lia).
  rewrite sum_over_plus, delta_at by done.
  rewrite (sum_over_zero (λ c', - delta _ _)); [lia|]. intros c' Hc'.
  rewrite bool_decide_eq_false_2; [done|]. intros <-. apply Ha. by apply list_elem_of_fmap_2.
Qed.

Lemma held_release C c a tok d :
  distinct_escrows C → c ∈ C → 0 <= Amount tok →
  d_escrow (release (esc c) a tok) d <= held_change C (release (esc c) a tok) d.
Proof.
  intros Hd Hc Hn. unfold held_change. cbn [d_balance d_escrow release plus move record_escrow opposite].
  set (n := amount_of d [tok]). pose proof (amount_nonneg tok d Hn) as Hn'. fold n in Hn'.
  rewrite (sum_over_ext _ (λ c', delta (bool_decide (esc c' = a)) n + (delta (bool_decide (esc c' = esc c)) (- n)))).
  - rewrite sum_over_plus, delta_at by done. pose proof (sum_delta_nonneg C a n Hn'). lia.
  - intros c' _. destruct (bool_decide (esc c' = esc c)), (bool_decide (esc c' = a)); simpl; lia.
Qed.

Lemma held_release_out C c a tok d :
  distinct_escrows C → c ∈ C → a ∉ (esc <$> C) →
  held_change C (release (esc c) a tok) d = d_escrow (release (esc c) a tok) d.
Proof.
  intros Hd Hc Ha. unfold held_change. cbn [d_balance d_escrow release plus move record_escrow opposite].
  set (n := amount_of d [tok]).
  rewrite (sum_over_ext _ (λ c', delta (bool_decide (esc c' = a)) n + (delta (bool_decide (esc c' = esc c)) (- n)))).
  - rewrite sum_over_plus, delta_at, delta_outside by done. lia.
  - intros c' _. destruct (bool_decide (esc c' = esc c)), (bool_decide (esc c' = a)); simpl; lia.
Qed.

Lemma held_create_out C a tok d : a ∉ (esc <$> C) → held_change C (create a tok) d = d_escrow (create a tok) d.
Proof. intros Ha. cbn [d_escrow create]. by apply delta_outside. Qed.

Lemma held_create C a tok d : 0 <= Amount tok → d_escrow (create a tok) d <= held_change C (create a tok) d.
Proof. intros Hn. cbn [d_escrow create]. apply sum_delta_nonneg. by apply amount_nonneg. Qed.

Lemma held_destroy C a tok d : a ∉ (esc <$> C) → held_change C (destroy a tok) d = d_escrow (destroy a tok) d.
Proof.
  intros Ha. unfold held_change. cbn [d_balance d_escrow destroy opposite create]. apply sum_over_zero.
  intros c Hc. rewrite bool_decide_eq_false_2; [done|]. intros <-. apply Ha. by apply list_elem_of_fmap_2.
Qed.

(** *** Every step keeps the invariant *)

Lemma core_channels s s' c : same_core s s' → channel_at p c s' = channel_at p c s.
Proof. intros (Hi & _). unfold channel_at, stored. by rewrite Hi. Qed.

Lemma effect_inv b s s' C x :
  escrow_inv b (s, C) → effect x s s' → (∀ d, d_escrow x d <= held_change C x d) →
  (b = false → ∀ d, held_change C x d = d_escrow x d) →
  store_ok p (tr_store s') → (∀ c, c ∈ C → is_Some (channel_at p c s) → is_Some (channel_at p c s')) →
  escrow_inv b (s', C).
Proof.
  intros [Hc Heq Hs Hch Hd] He Hx Hxeq Hs' Hch'. split; simpl in *; [| |done| |done].
  - intros d. rewrite (held_effect C x d s s') by done. rewrite (eff_escrow _ _ _ He).
    specialize (Hc d). specialize (Hx d). lia.
  - intros d Hb. rewrite (held_effect C x d s s') by done. rewrite (eff_escrow _ _ _ He), Hxeq by done.
    by rewrite Heq.
  - intros c Hin. destruct (Hch c Hin) as [? ?]. split; [done|by apply Hch'].
Qed.

Lemma open_inv b s c C :
  escrow_inv b (s, C) → no_slash c → is_Some (channel_at p c s) → distinct_escrows (c :: C) →
  (b = false → ∀ d, GetBalance s (esc c) d = 0) → escrow_inv b (s, c :: C).
Proof.
  intros [Ic Ieq Is Ich Id] Hn Hch Hd Hz. split; simpl in *; [| |done| |done].
  - intros d. specialize (Ic d). unfold escrow_held in *. simpl. pose proof (balance_nonneg s (esc c) d). lia.
  - intros d Hf. rewrite (Ieq d Hf). unfold escrow_held. simpl. rewrite Hz by done. lia.
  - intros c' [->|Hin]%elem_of_cons; [done|by apply Ich].
Qed.

Lemma other_inv b s s' C :
  escrow_inv b (s, C) →
  (∀ k, k = PortKey ∨ HasPrefix k KeyTotalEscrowPrefix = true → tr_store s' !! k = tr_store s !! k) →
  (∀ c d, c ∈ C → GetBalance s (esc c) d <= GetBalance s' (esc c) d) →
  (b = false → ∀ c d, c ∈ C → GetBalance s' (esc c) d = GetBalance s (esc c) d) →
  (∀ c, c ∈ C → is_Some (channel_at p c s) → is_Some (channel_at p c s')) → escrow_inv b (s', C).
Proof.
  intros [Ic Ieq Is Ich Id] Hk Hb Hbeq Hch. simpl in *.
  assert (∀ d, total_escrow d s' = total_escrow d s) as Ht.
  { intros d. unfold total_escrow. rewrite Hk; [done|right]. exact (prefix_app KeyTotalEscrowPrefix _). }
  split; simpl; [| | | |done].
  - intros d. rewrite Ht. etrans; [exact (Ic d)|]. apply sum_over_le. intros c Hc. by apply Hb.
  - intros d Hf. rewrite Ht, (Ieq d Hf). apply sum_over_ext. intros c Hc. symmetry. by apply Hbeq.
  - destruct Is as [He Hp']. split.
    + intros k v Hkv Hpre. rewrite Hk in Hkv by by right. by apply He.
    + by rewrite Hk by by left.
  - intros c Hc. destruct (Ich c Hc). split; [done|by apply Hch].
Qed.

Lemma escrow_step_inv b w w' : escrow_step b w w' → escrow_inv b w → escrow_inv b w'.
Proof using LI TL.
  intros [ctx c tok sender receiver th ts memo s n s' C Hc Ha Hs H|ctx pk data s s' C Hdp Hdc Hout H
         |ctx pk data s s' C Hsp Hsc Hout H|s c C Hn Hch Hd Hz|s s' C Hk Hb Hbeq Hch] HI;
    pose proof HI as [Ic Ieq Is Ich Id]; simpl in *.
  - pose proof H as (full & _ & He & Hch)%sendTransfer_effect; [|done].
    assert (∀ d, held_change C (send_change p c full sender tok) d = d_escrow (send_change p c full sender tok) d) as Heq.
    { intros d. unfold send_change. destruct (SenderChainIsSource p c full); [by rewrite held_lock|by rewrite held_destroy]. }
    eapply (effect_inv b s s' C); [done|exact He|intros d; by rewrite Heq|done|by eapply sendTransfer_keeps|by intros c' _; rewrite Hch].
  - pose proof H as (n & a & _ & Hpos & Haddr & He & Hco & _)%Transfer_OnRecvPacket_ok.
    eapply (effect_inv b s s' C); [done|exact He| | | |by intros c _; rewrite (core_channels s s')].
    + intros d. unfold recv_change. rewrite Hdp. destruct (ReceiverChainIsSource _ _ _);
        [apply held_release; simpl; [done|done|lia]|apply held_create; simpl; lia].
    + intros Hf d. unfold recv_change. rewrite Hdp. destruct (ReceiverChainIsSource _ _ _);
        [apply held_release_out|apply held_create_out]; eauto.
    + eapply keeps_ok; [|exact H|done]. apply Transfer_OnRecvPacket_keeps.
  - pose proof H as (n & a & _ & Hpos & Haddr & [He Hco _])%refundPacketToken_ok.
    eapply (effect_inv b s s' C); [done|exact He| | | |by intros c _; rewrite (core_channels s s')].
    + intros d. unfold refund_change. rewrite Hsp. destruct (SenderChainIsSource _ _ _);
        [by apply held_release|by apply held_create].
    + intros Hf d. unfold refund_change. rewrite Hsp. destruct (SenderChainIsSource _ _ _);
        [apply held_release_out|apply held_create_out]; eauto.
    + eapply keeps_ok; [|exact H|done]. apply refundPacketToken_keeps.
  - by apply open_inv.
  - by apply (other_inv b s).
Qed.

Lemma escrow_steps_inv b w w' : rtc (escrow_step b) w w' → escrow_inv b w → escrow_inv b w'.
Proof using LI TL. induction 1; [done|]. intros. by apply IHrtc, (escrow_step_inv b x). Qed.

Lemma validator_not_blank id lo hi : defaultIdentifierValidator id lo hi = Ok tt → is_blank id = false.
Proof. intros ([] & H%check_ok & _)%obind_ok. by apply negb_true_iff. Qed.

(** The check of the module, in a state where the invariant holds. *)
Lemma check_passes b s C s' :
  escrow_inv b (s, C) → TotalEscrowPerDenomInvariants s ≠ (Ok true, s').
Proof using Hport L TL.
  intros [Hc _ Hs Hch Hd] H. simpl in *.
  pose proof (validator_not_blank _ _ _ Hport) as Hblank.
  apply defaultIdentifierValidator_ok in Hport as (_ & Hslash & _).
  apply bind_ok in H as (exp & ? & (-> & Hev & He)%(GetAllTotalEscrowed_ok p) & H); [|done].
  apply bind_ok in H as (port & ? & (o & ? & [-> ->]%gets_ok & [-> ->]%ret_ok)%bind_ok & H).
  fold (tr_store s) in H. rewrite (so_port _ _ Hs) in H. simpl in H.
  apply bind_ok in H as (chans & s1 & Hl & (act & s2 & Ha & [Hb ->]%ret_ok)%bind_ok).
  assert (s1 = s ∧ ∀ c, c ∈ C → c ∈ (ich_ChannelId <$> chans)) as [-> Hin].
  { split.
    - by destruct (GetAllChannelsWithPortPrefix_complete p "" s chans s1 Hblank Hslash eq_refl Hl).
    - intros c Hc'. destruct (Hch c Hc') as [Hns Hsome].
      by apply (GetAllChannelsWithPortPrefix_complete p c s chans s1 Hblank Hslash Hns Hl). }
  apply actual_escrowed_ok in Ha as (-> & Hav & Hact); [|apply coins_nil_valid].
  symmetry in Hb. apply negb_true_iff in Hb. rewrite is_all_gte_ok in Hb; [done|done|done|].
  intros d. rewrite Hact. simpl. etrans; [apply He|]. etrans; [apply Hc|]. unfold escrow_held.
  apply sum_over_incl; [intros; apply balance_nonneg| |exact Hin].
  by eapply NoDup_fmap_1.
Qed.

End invariant.

Section check.
Context {E : IbcEnv} {L : IbcLaws} {T : TransferEnv} {TL : TransferLaws}.
Context (ics4 : ICS4Wrapper) {LI : Ics4Laws ics4}.

(** [C11] The escrow invariant holds: in every state the application reaches from one
    where no token is recorded as escrowed, with any interleaving of sends,
    receives, refunds, new channels and other activity that does not debit escrow
    accounts, the recorded total of every denomination is covered by the balances
    of the escrow accounts, and the check the module registers with the chain does
    not report a broken invariant.  If moreover nobody else pays into an escrow
    account, the recorded total is exactly what the escrow accounts hold. *)
Theorem escrow_invariant_holds paid_in p s w :
  PortIdentifierValidator p = Ok tt → store_ok p (tr_store s) → (∀ d, total_escrow d s = 0) →
  rtc (escrow_step ics4 p paid_in) (s, []) w →
  (∀ d, total_escrow d (fst w) <= escrow_held p (snd w) d (fst w)) ∧
  (paid_in = false → ∀ d, total_escrow d (fst w) = escrow_held p (snd w) d (fst w)) ∧
  ∀ s', TotalEscrowPerDenomInvariants (fst w) ≠ (Ok true, s').
Proof using All.
  intros Hp Hs H0 Hr. assert (escrow_inv p paid_in w) as HI.
  { apply (escrow_steps_inv ics4 p paid_in (s, []) w Hr). split; simpl.
    - intros d. by rewrite H0.
    - intros d _. by rewrite H0.
    - done.
    - by intros c ?%not_elem_of_nil.
    - constructor. }
  split_and!; [apply HI|intros Hf d; by apply HI|]. destruct w as [s1 C]. intros s'. by eapply check_passes.
Qed.

End check.
