(* ===== verification/Migrations.v ===== *)
(** * The store migrations of transfer

    Models src/modules/apps/transfer/keeper/migrations.go.  The migrations run once, in a
    binary upgrade: parameters move to the store of the module, denomination traces are
    parsed again, and the total escrow of every denomination is recorded for the first
    time.  The theorem shows that after the last one the records are what the escrow
    accounts hold and the registered invariant is not broken. *)

From stdpp Require Import gmap strings list.
From Stdlib Require Import ZArith Lia Ascii.
From S2P Require Import Prelude GoStd Sha256 Host Chain ModuleStore Sums Height Capability Port Commitment LightClient Client ConnTypes ChanTypes Env Connection Channel ChanHandshake Packet MsgServer ChanProofs PacketProofs Frames HandshakeProofs TransferTypes Transfer TransferProofs TransferInvariant.

Section migrations.
Context {E : IbcEnv} {T : TransferEnv}.
(** [legacySubspace.GetParamSet] of x/params; parameters that are not set panic. *)
Context (GetParamSet : Chain → Outcome TransferParams).

Definition MigrateParams : M () :=
  params ← reads GetParamSet;
  Transfer_SetParams params.

Definition equalTraces (dtA dtB : DenomTrace) : bool :=
  bool_decide (BaseDenom dtA = BaseDenom dtB) && bool_decide (Path dtA = Path dtB).

(** A trace that is invalid when it is parsed again, or names another token, panics. *)
Definition migrate_trace (dt : DenomTrace) (newTraces : list DenomTrace) : Outcome (list DenomTrace * bool) :=
  let newTrace := ParseDenomTrace (GetFullDenomPath dt) in
  match DenomTrace_Validate newTrace with
  | Ok _ =>
      if negb (bool_decide (IBCDenom dt = IBCDenom newTrace)) then Panic
      else if negb (equalTraces newTrace dt) then Ok (newTraces ++ [newTrace], false)
      else Ok (newTraces, false)
  | _ => Panic
  end.

Definition MigrateTraces : M () :=
  newTraces ← IterateDenomTraces migrate_trace [];
  for_each newTraces SetDenomTrace.

(** The sum over the channels is the one of the invariant. *)
Definition MigrateTotalEscrowForDenom : M () :=
  portID ← GetPort;
  transferChannels ← GetAllChannelsWithPortPrefix portID;
  totalEscrowed ← actual_escrowed portID transferChannels [];
  for_each totalEscrowed SetTotalEscrowForDenom.
End migrations.

Section correct.
Context {E : IbcEnv} {L : IbcLaws} {T : TransferEnv} {TL : TransferLaws}.

(** Valid coins have each denomination once. *)
Definition coins_unique : Prop :=
  ∀ cs, Coins_Validate cs = Ok tt → NoDup (Denom <$> cs).

Lemma amount_of_absent d cs : d ∉ (Denom <$> cs) → amount_of d cs = 0.
Proof.
  induction cs as [|c cs IH]; [done|]. rewrite fmap_cons, not_elem_of_cons. intros [Hd Hcs]. simpl.
  rewrite bool_decide_eq_false_2 by done. by rewrite IH.
Qed.

(** Recording coins of different denominations. *)
Lemma record_all p cs s s' :
  NoDup (Denom <$> cs) → store_ok p (tr_store s) → for_each cs SetTotalEscrowForDenom s = (Ok tt, s') →
  same_core s s' ∧ store_ok p (tr_store s') ∧ (∀ a d, GetBalance s' a d = GetBalance s a d) ∧
  ∀ d, total_escrow d s' = if bool_decide (d ∈ (Denom <$> cs)) then amount_of d cs else total_escrow d s.
Proof.
  revert s. induction cs as [|c cs IH]; intros s.
  { intros _ Hs H%ret_ok. destruct H as [_ ->]. split_and!; [done|done|done|]. intros d. by rewrite bool_decide_eq_false_2 by apply not_elem_of_nil. }
  rewrite fmap_cons. intros [Hc Hnd]%NoDup_cons Hs ([] & s1 & Hset & Hrest)%bind_ok.
  pose proof (SetTotalEscrowForDenom_keeps p c s Hs) as Hs1. rewrite Hset in Hs1. cbn [snd] in Hs1.
  apply SetTotalEscrowForDenom_ok in Hset as (_ & Hcore & [Hb _ He] & _). cbn [d_balance d_escrow] in *.
  apply IH in Hrest as (Hcore' & Hs' & Hb' & He'); [|done|done]. split_and!; [by etrans|done| |].
  { intros a d. rewrite Hb', Hb. lia. }
  intros d. rewrite He', He. unfold delta. cbn [amount_of].
  destruct (decide (Denom c = d)) as [<-|Hne].
  - rewrite (bool_decide_eq_false_2 (Denom c ∈ _)) by done. rewrite !bool_decide_eq_true_2 by (done || by left).
    rewrite amount_of_absent by done. lia.
  - rewrite (bool_decide_eq_false_2 (Denom c = d)) by done. destruct (decide (d ∈ (Denom <$> cs))) as [Hin|Hin].
    + rewrite !bool_decide_eq_true_2 by (done || by right). lia.
    + rewrite !bool_decide_eq_false_2; [lia| |done]. intros [?|?]%elem_of_cons; [by subst|done].
Qed.

(** What a channel listing reads is in the IBC store. *)
Lemma iterate_local es acc s s' l s1 :
  let body (key : string) (value : bytes) (acc : list IdentifiedChannel) : M (list IdentifiedChannel * bool) :=
    channel ← lift (MustUnmarshal value);
    '(portID, channelID) ← lift (MustParseChannelPath key);
    mret (acc ++ [NewIdentifiedChannel portID channelID channel], false) in
  iterate es body acc s = (Ok l, s1) → iterate es body acc s' = (Ok l, s').
Proof.
  intros body. revert acc. induction es as [|[k v] es IH]; intros acc; cbn [iterate].
  { intros [-> _]%ret_ok. done. }
  intros ([acc' stop] & s2 & (ch & ? & [Hch ->]%lift_ok & ([q c] & ? & [Hq ->]%lift_ok & [[= -> ->] ->]%ret_ok)%bind_ok)%bind_ok & Hit)%bind_ok.
  rewrite (bind_run _ _ s' (acc ++ [NewIdentifiedChannel q c ch], false) s'); [by apply IH|].
  unfold body. erewrite bind_run by (unfold lift; by rewrite Hch). erewrite bind_run by (unfold lift; by rewrite Hq). done.
Qed.

Lemma listing_local p s s' l s1 :
  same_core s s' → GetAllChannelsWithPortPrefix p s = (Ok l, s1) → is_blank p = false → no_slash p →
  s1 = s ∧ GetAllChannelsWithPortPrefix p s' = (Ok l, s').
Proof.
  intros (Hibc & _) Hl Hb Hp. destruct (GetAllChannelsWithPortPrefix_complete p "" s l s1 Hb Hp eq_refl Hl) as [-> _].
  split; [done|]. revert Hl. unfold GetAllChannelsWithPortPrefix, iterate_channels. rewrite Hb.
  intros (es & ? & [-> ->]%gets_ok & Hit)%bind_ok. erewrite bind_run by done. rewrite Hibc. by eapply iterate_local.
Qed.

(** The sum over channels depends on the balances alone. *)
Lemma sum_escrows_local p s s' d (l : list string) :
  (∀ a d, GetBalance s' a d = GetBalance s a d) →
  sum_over (λ c, GetBalance s' (GetEscrowAddress p c) d) l = sum_over (λ c, GetBalance s (GetEscrowAddress p c) d) l.
Proof. intros Hb. apply sum_over_ext. intros c _. apply Hb. Qed.

(** [C33] The migration that introduces the recorded escrow totals is right.  Run where no
    total was recorded, it records for every denomination exactly what the escrow
    accounts of the transfer channels hold together, moves no tokens and changes nothing
    of core IBC, and the check the module registers with the chain does not report a
    broken invariant afterwards. *)
Theorem escrow_migration_correct p s s' :
  coins_unique → PortIdentifierValidator p = Ok tt → store_ok p (tr_store s) → (∀ d, total_escrow d s = 0) →
  MigrateTotalEscrowForDenom s = (Ok tt, s') →
  same_core s s' ∧ (∀ a d, GetBalance s' a d = GetBalance s a d) ∧
  (∃ channels, GetAllChannelsWithPortPrefix p s = (Ok channels, s) ∧
     ∀ d, total_escrow d s' = sum_over (λ c, GetBalance s (GetEscrowAddress p c) d) (ich_ChannelId <$> channels)) ∧
  ∀ s'', TotalEscrowPerDenomInvariants s' ≠ (Ok true, s'').
Proof.
  intros Hu Hport Hs H0 Hm. pose proof (validator_not_blank _ _ _ Hport) as Hblank.
  apply defaultIdentifierValidator_ok in Hport as (_ & Hslash & _).
  apply bind_ok in Hm as (port & ? & (o & ? & [-> ->]%gets_ok & [-> ->]%ret_ok)%bind_ok & Hm).
  fold (tr_store s) in Hm. rewrite (so_port _ _ Hs) in Hm. change (default "" (Some p)) with p in Hm.
  apply bind_ok in Hm as (chans & s1 & Hl & (act & s2 & Ha & Hset)%bind_ok).
  destruct (listing_local p s s chans s1 ltac:(done) Hl Hblank Hslash) as [-> _].
  apply actual_escrowed_ok in Ha as (-> & Hav & Hact); [|apply coins_nil_valid].
  apply (record_all p) in Hset as (Hcore & Hs' & Hb & He); [|by apply Hu|done].
  assert (∀ d, total_escrow d s' = sum_over (λ c, GetBalance s (GetEscrowAddress p c) d) (ich_ChannelId <$> chans)) as Htot.
  { intros d. rewrite He. specialize (Hact d). cbn [amount_of] in Hact. rewrite Z.add_0_l in Hact. rewrite <- Hact.
    case_bool_decide as Hin; [done|]. by rewrite amount_of_absent, H0. }
  split_and!; [done|done|by exists chans|]. intros s'' Hinv.
  apply bind_ok in Hinv as (exp & ? & (-> & Hev & Hexp)%(GetAllTotalEscrowed_ok p) & Hinv); [|done].
  apply bind_ok in Hinv as (port & ? & (o & ? & [-> ->]%gets_ok & [-> ->]%ret_ok)%bind_ok & Hinv).
  fold (tr_store s') in Hinv. rewrite (so_port _ _ Hs') in Hinv. change (default "" (Some p)) with p in Hinv.
  apply bind_ok in Hinv as (chans' & s1 & Hl' & (act' & s2 & Ha' & [Hbad ->]%ret_ok)%bind_ok).
  destruct (listing_local p s s' chans s Hcore Hl Hblank Hslash) as [_ Hl'']. rewrite Hl'' in Hl'. injection Hl' as <- <-.
  apply actual_escrowed_ok in Ha' as (-> & Hav' & Hact'); [|apply coins_nil_valid].
  symmetry in Hbad. apply negb_true_iff in Hbad. rewrite is_all_gte_ok in Hbad; [done|done|done|].
  intros d. rewrite Hact', (sum_escrows_local p s s') by done. cbn [amount_of]. etrans; [apply Hexp|]. rewrite Htot. lia.
Qed.
End correct.
