(* ===== verification/IcaProofs.v ===== *)
(** * Interchain accounts: reading, frames and the execution of transactions

    Which operations of the two submodules only read, which leave the IBC store
    alone, and the ways a packet received by the host ends: it is dropped, with the
    stores as they were, or its messages are admitted and all of them executed. *)

From stdpp Require Import gmap strings list relations.
From Stdlib Require Import ZArith Lia Ascii.
From S2P Require Import Prelude GoStd Sha256 Host Chain ModuleStore Height Capability Port Commitment LightClient Client ConnTypes ChanTypes Env Connection Channel ChanHandshake Packet MsgServer CoreMsgs ChanProofs PacketProofs Frames HandshakeProofs Protocol Guarantees MsgProofs Security TransferTypes FeeTypes Transfer TransferSpecs IcaTypes Ica.

(** ** Reading, frames and runs *)

Section reading.
Context {E : IbcEnv} {I : IcaEnv}.

Lemma Channel_GetConnection_ro i : readonly (Channel_GetConnection i).
Proof. unfold Channel_GetConnection. ro. Qed.
#[local] Hint Resolve Channel_GetConnection_ro : ro.
Lemma validate_metadata_ro hops m ends : readonly (validate_metadata hops m ends).
Proof. unfold validate_metadata. ro. Qed.
Lemma GetConnectionID_ro p c : readonly (GetConnectionID p c).
Proof. unfold GetConnectionID. ro. Qed.
Lemma IsMiddlewareEnabled_ro p c : readonly (IsMiddlewareEnabled p c).
Proof. unfold IsMiddlewareEnabled. ro. Qed.
Lemma Controller_GetParams_ro : readonly Controller_GetParams.
Proof. unfold Controller_GetParams. ro. Qed.
Lemma Host_GetParams_ro : readonly Host_GetParams.
Proof. unfold Host_GetParams. ro. Qed.
Lemma ica_GetOpenActiveChannel_ro k c p : readonly (ica_GetOpenActiveChannel k c p).
Proof. unfold ica_GetOpenActiveChannel, ica_GetActiveChannelID. ro. Qed.
#[local] Hint Resolve validate_metadata_ro : ro.

Lemma check_previous_ro f o p m : (∀ p c, readonly (f p c)) → readonly (check_previous f o p m).
Proof. intros Hf. unfold check_previous. destruct o; ro. Qed.
#[local] Hint Resolve check_previous_ro : ro.

Lemma ControllerKeeper_OnChanOpenInit_ro ics4 ctx o hops p c cap cp v :
  (∀ p c, readonly (ics4_GetAppVersion ics4 p c)) →
  readonly (ControllerKeeper_OnChanOpenInit ics4 ctx o hops p c cap cp v).
Proof.
  intros Hv. unfold ControllerKeeper_OnChanOpenInit, ValidateControllerMetadata, Controller_GetActiveChannelID,
    ica_GetActiveChannelID, Controller_GetAppVersion. ro.
Qed.

End reading.

#[export] Hint Resolve Channel_GetConnection_ro validate_metadata_ro GetConnectionID_ro IsMiddlewareEnabled_ro
  Controller_GetParams_ro Host_GetParams_ro ica_GetOpenActiveChannel_ro check_previous_ro
  ControllerKeeper_OnChanOpenInit_ro : ro.

Section frames.
Context {E : IbcEnv} {I : IcaEnv} {IL : IcaLaws}.

Lemma ica_ClaimCapability_same m cap n : same_ibc (ica_ClaimCapability m cap n).
Proof. apply ClaimCapability_same. Qed.
Lemma acc_NewAccount_same ctx acc : same_ibc (acc_NewAccount ctx acc).
Proof. eapply same_store. intros s. apply new_account_frame. Qed.
Lemma acc_SetAccount_same ctx acc : same_ibc (acc_SetAccount ctx acc).
Proof. eapply same_store. intros s. apply set_account_frame. Qed.
#[local] Hint Resolve ica_ClaimCapability_same acc_NewAccount_same acc_SetAccount_same : same.

Lemma open_account_same ctx c p : same_ibc (open_account ctx c p).
Proof. unfold open_account, createInterchainAccount. same. Qed.
#[local] Hint Resolve open_account_same : same.

Lemma HostKeeper_OnChanOpenTry_same ics4 ctx o hops p c cap cp v :
  (∀ p c, readonly (ics4_GetAppVersion ics4 p c)) →
  same_ibc (HostKeeper_OnChanOpenTry ics4 ctx o hops p c cap cp v).
Proof.
  intros Hv. unfold HostKeeper_OnChanOpenTry, ValidateHostMetadata, Host_GetActiveChannelID, ica_GetActiveChannelID,
    Host_GetAppVersion, Host_ClaimCapability. same.
Qed.
Lemma ControllerKeeper_OnChanOpenAck_same ctx p c v : same_ibc (ControllerKeeper_OnChanOpenAck ctx p c v).
Proof.
  unfold ControllerKeeper_OnChanOpenAck, ValidateControllerMetadata, Controller_GetOpenActiveChannel. same.
Qed.

End frames.

#[export] Hint Resolve ica_ClaimCapability_same HostKeeper_OnChanOpenTry_same ControllerKeeper_OnChanOpenAck_same : same.

(** Claiming a capability leaves the stores of the applications alone. *)
Section claims.
Context {E : IbcEnv}.

Definition same_apps {A} (m : M A) : Prop := ∀ s, stores (snd (m s)) = stores s.

Lemma apps_readonly {A} (m : M A) : readonly m → same_apps m.
Proof. intros H s. by rewrite H. Qed.
Lemma apps_bind {A B} (m : M A) (f : A → M B) : same_apps m → (∀ a, same_apps (f a)) → same_apps (m ≫= f).
Proof.
  intros Hm Hf s. unfold mbind, M_bind. specialize (Hm s).
  destruct (m s) as [[a|e|] s1]; simpl in *; [by rewrite Hf|done|done].
Qed.

Lemma ica_ClaimCapability_apps m cap n : same_apps (ica_ClaimCapability m cap n).
Proof.
  unfold ica_ClaimCapability, ClaimCapability, addOwner, GetCapabilityName, getOwners.
  repeat first [apply apps_bind; [|intros]|solve [apply apps_readonly; ro]|solve [intros ?; reflexivity]|case_match].
Qed.

End claims.

Section runs.
Context {E : IbcEnv} {L : IbcLaws} {I : IcaEnv} {R : MessageRouter}.
(** The handlers of messages are runs of the transition system themselves. *)
Hypothesis handlers_run : ∀ msg h ctx, Handler msg = Some h → runs (h ctx).

(** A handler is known to be one of the router's only from the successful lookup. *)
Lemma runs_orErr {A B} e (o : option A) (f : A → M B) : (∀ a, o = Some a → runs (f a)) → runs (orErr e o ≫= f).
Proof. intros Hf s b s' P HI Hl (a & s1 & [Ha ->]%orErr_ok & H)%bind_ok. by apply (Hf a Ha s b s' P). Qed.

Lemma executeMsg_runs ctx msg : runs (executeMsg ctx msg).
Proof.
  unfold executeMsg. apply runs_orErr. intros h Hh. apply runs_bind; [by eapply handlers_run|].
  intros responses. apply runs_readonly. ro.
Qed.

Lemma execute_msgs_runs ctx msgs : runs (execute_msgs ctx msgs).
Proof.
  induction msgs as [|msg msgs IH]; simpl; [apply runs_readonly; ro|].
  apply runs_bind; [apply runs_readonly; ro|intros _].
  apply runs_bind; [apply executeMsg_runs|intros response].
  apply runs_bind; [exact IH|intros responses]. apply runs_readonly; ro.
Qed.

(** Sending a transaction through the channel keeper is a run. *)
Lemma Msg_SendTx_runs ctx msg : runs (Msg_SendTx channel_ics4 ctx msg).
Proof.
  unfold Msg_SendTx, sendTx, Controller_GetOpenActiveChannel.
  repeat match goal with |- runs (_ ≫= _) => apply runs_bind; [apply runs_readonly; ro|intros] end.
  intros s n s' P HI Hl H. simpl in H. split; [|by eapply lh_run, H; [apply SendPacket_lh|]].
  apply op_run; [done|]. by eapply op_send.
Qed.

End runs.

(** ** Executing a transaction *)

Section execution.
Context {E : IbcEnv} {I : IcaEnv} {R : MessageRouter}.

(** The messages of packet data that asks for a transaction. *)
Definition packet_msgs (bz : bytes) (msgs : list SdkMsg) : Prop :=
  ∃ data, IcaPacketData_UnmarshalJSON bz = Some data ∧ ip_Type data = EXECUTE_TX ∧
    DeserializeCosmosTx (ip_Data data) = Ok msgs.

(** The chain lets the account [address] perform [msg]. *)
Definition permitted (allow : list string) (address : string) (msg : SdkMsg) : Prop :=
  (allow = [AllowAllHostMsgs] ∨ MsgTypeURL msg ∈ allow) ∧
  ∃ signers, Msg_GetSigners msg = Ok signers ∧ Forall (λ a, AccAddress_String a = address) signers.

Lemma ContainsMsgType_spec allow msg :
  ContainsMsgType allow msg = true ↔ allow = [AllowAllHostMsgs] ∨ MsgTypeURL msg ∈ allow.
Proof.
  unfold ContainsMsgType. rewrite orb_true_iff, bool_decide_eq_true, existsb_exists.
  setoid_rewrite bool_decide_eq_true. setoid_rewrite <- list_elem_of_In. naive_solver.
Qed.

Lemma authenticate_msgs_ok allow address msgs :
  authenticate_msgs allow address msgs = Ok tt → Forall (permitted allow address) msgs.
Proof.
  induction msgs as [|msg msgs IH]; simpl; [done|]. intros H.
  apply obind_ok in H as ([] & H1%check_ok & H). apply obind_ok in H as (signers & H2 & H).
  apply obind_ok in H as ([] & H3%check_ok & H). constructor; [|by apply IH].
  split; [by apply ContainsMsgType_spec|]. exists signers. split; [done|].
  apply Forall_forall. intros a Ha. rewrite forallb_forall in H3. symmetry.
  by apply (bool_decide_eq_true_1 _ (H3 a (proj1 (list_elem_of_In _ _) Ha))).
Qed.

(** The packet [pk] carries the messages [msgs], which the host admits in the chain [s]:
    [address] is the account that is registered for the port of the sender and the
    connection of the channel, and the messages are all permitted to it. *)
Record admitted (pk : Packet) (s : Chain) (hop address : string) (msgs : list SdkMsg) : Prop := {
  ad_msgs : packet_msgs (Data pk) msgs;
  ad_hop : ∃ ch, channel_at (DestinationPort pk) (DestinationChannel pk) s = Some ch ∧
    head (ch_ConnectionHops ch) = Some hop;
  ad_account : mod_store host_storeKey s !! KeyOwnerAccount (SourcePort pk) hop = Some address;
  ad_permitted : ∃ params, Host_GetParams s = (Ok params, s) ∧ HostEnabled params = true ∧
    Forall (permitted (AllowMessages params) address) msgs
}.

Lemma rollback_same s : rollback s s = s.
Proof. by destruct s. Qed.

(** A failure that leaves the stores as they were. *)
Definition dropped {A} (o : Outcome A) (s s' : Chain) : Prop := is_ok o = false ∧ ∃ s2, s' = rollback s s2.

Lemma read_first {A B} (m : M A) (f : A → M B) s o s' :
  readonly m → (m ≫= f) s = (o, s') → (is_ok o = false ∧ s' = s) ∨ ∃ a, m s = (Ok a, s) ∧ f a s = (o, s').
Proof.
  unfold mbind, M_bind. intros Hm. specialize (Hm s).
  destruct (m s) as [[a|e|] s1]; simpl in *; subst; intros H1; [right; by exists a|left..]; by injection H1 as <- <-.
Qed.

Lemma reading_run {A B} (m : M A) (f : A → M B) s o s' :
  readonly m → (m ≫= f) s = (o, s') → dropped o s s' ∨ ∃ a, m s = (Ok a, s) ∧ f a s = (o, s').
Proof.
  intros Hm [[Ho ->]|H]%read_first; [left|by right|done]. split; [done|]. exists s. by rewrite rollback_same.
Qed.

Lemma authenticateTx_ok ctx msgs hop port s s' :
  authenticateTx ctx msgs hop port s = (Ok tt, s') →
  ∃ address params, mod_store host_storeKey s !! KeyOwnerAccount port hop = Some address ∧
    Host_GetParams s = (Ok params, s) ∧ Forall (permitted (AllowMessages params) address) msgs.
Proof.
  unfold authenticateTx, Host_GetInterchainAccountAddress, ica_GetInterchainAccountAddress, mod_get.
  intros (o & ? & [-> ->]%gets_ok & (address & ? & [Ha ->]%orErr_ok & (params & ? & Hp & [H ->]%lift_ok)%bind_ok)%bind_ok)%bind_ok.
  pose proof (readonly_ok _ _ _ _ (Host_GetParams_ro) Hp) as ->.
  exists address, params. eauto using authenticate_msgs_ok.
Qed.

Lemma authenticateTx_ro ctx msgs hop port : readonly (authenticateTx ctx msgs hop port).
Proof. unfold authenticateTx, Host_GetInterchainAccountAddress, ica_GetInterchainAccountAddress. pose proof Host_GetParams_ro. ro. Qed.

Lemma executeTx_cases ctx pk msgs s o s' params :
  packet_msgs (Data pk) msgs → Host_GetParams s = (Ok params, s) → HostEnabled params = true →
  executeTx ctx (SourcePort pk) (DestinationPort pk) (DestinationChannel pk) msgs s = (o, s') →
  dropped o s s' ∨
  ∃ hop address responses, admitted pk s hop address msgs ∧
    execute_msgs ctx msgs s = (Ok responses, s') ∧ o = TxMsgData_Marshal responses.
Proof.
  intros Hm Hp Hen H. unfold executeTx in H.
  apply reading_run in H as [|(och & Hch & H)]; [by left| |ro].
  apply reading_run in H as [|(ch & [-> _]%orErr_ok & H)]; [by left| |ro].
  apply reading_run in H as [|(hop & Hhop & H)]; [by left| |ro].
  apply reading_run in H as [|([] & Ha & H)]; [by left| |apply authenticateTx_ro].
  apply authenticateTx_ok in Ha as (address & params' & Ha & Hp' & Hf). assert (params' = params) as -> by congruence.
  assert (admitted pk s hop address msgs) as Had.
  { split; [done| |done|eauto]. exists ch. split; [|by unfold hop0 in Hhop; minv].
    by apply stored_ok in Hch as [_ <-]. }
  unfold mbind, M_bind, cached in H. destruct (execute_msgs ctx msgs s) as [[rs|e|] s1] eqn:Hr.
  - right. exists hop, address, rs. split; [done|]. unfold lift in H. by injection H as <- <-.
  - left. injection H as <- <-. split; [done|]. by exists s1.
  - left. injection H as <- <-. split; [done|]. by exists s1.
Qed.

Lemma HostKeeper_OnRecvPacket_cases ctx pk s o s' params :
  Host_GetParams s = (Ok params, s) → HostEnabled params = true →
  HostKeeper_OnRecvPacket ctx pk s = (o, s') →
  dropped o s s' ∨
  ∃ hop address msgs responses, admitted pk s hop address msgs ∧
    execute_msgs ctx msgs s = (Ok responses, s') ∧ o = TxMsgData_Marshal responses.
Proof.
  intros Hp Hen H. unfold HostKeeper_OnRecvPacket in H.
  apply reading_run in H as [|(data & [Hd _]%orErr_ok & H)]; [by left| |ro].
  destruct (ip_Type data) eqn:Ht.
  1, 3: left; injection H as <- <-; split; [done|]; exists s; by rewrite rollback_same.
  apply reading_run in H as [|(msgs & [Hm _]%lift_ok & H)]; [by left| |ro].
  eapply executeTx_cases in H as [|(hop & address & rs & H)]; [by left|eauto 10|by exists data|done..].
Qed.

(** What the callback answers. *)
Lemma Host_OnRecvPacket_cases ctx pk rel s ack s' :
  Host_OnRecvPacket ctx pk rel s = (Ok ack, s') →
  (∃ e s2, ack = Some (ica_ack (NewErrorAcknowledgement e)) ∧ s' = rollback s s2) ∨
  ∃ hop address msgs responses, admitted pk s hop address msgs ∧ execute_msgs ctx msgs s = (Ok responses, s') ∧
    ((∃ e, ack = Some (ica_ack (NewErrorAcknowledgement e)) ∧ TxMsgData_Marshal responses = Err e) ∨
     ∃ bz, ack = Some (ica_ack (NewResultAcknowledgement bz)) ∧ TxMsgData_Marshal responses = Ok bz).
Proof.
  intros (params & s1 & Hp & H)%bind_ok. pose proof (readonly_ok _ _ _ _ Host_GetParams_ro Hp) as ->.
  destruct (HostEnabled params) eqn:Hen; simpl in H.
  2:{ injection H as <- <-. left. exists ErrHostSubModuleDisabled, s. by rewrite rollback_same. }
  destruct (HostKeeper_OnRecvPacket ctx pk s) as [o s1] eqn:Hr.
  apply (HostKeeper_OnRecvPacket_cases _ _ _ _ _ _ Hp Hen) in Hr as [[Ho [s2 ->]]|(hop & address & msgs & rs & Had & Hx & ->)].
  - destruct o; [done| |done]. injection H as <- <-. left. eauto.
  - right. exists hop, address, msgs, rs. destruct (TxMsgData_Marshal rs); [| |done]; injection H as <- <-; eauto 10.
Qed.

End execution.
