(* ===== verification/IcaSpecs.v ===== *)
(** * What interchain accounts guarantee

    The two submodules are applications the protocol admits; the host executes a
    transaction only for the account of the port and connection it came from, and
    atomically; accounts are permanent and belong to one owner; an open active
    channel excludes another one; a transaction the host executes was sent. *)

From stdpp Require Import gmap strings list relations.
From Stdlib Require Import ZArith Lia Ascii.
From S2P Require Import Prelude GoStd Sha256 Host Chain ModuleStore Height Capability Port Commitment LightClient Client ConnTypes ChanTypes Env Connection Channel ChanHandshake Packet MsgServer CoreMsgs ChanProofs PacketProofs Frames HandshakeProofs Protocol Guarantees MsgProofs Security TransferTypes FeeTypes Transfer TransferSpecs IcaTypes Ica IcaProofs.

(** ** Refinement of the protocol *)

Section refinement.
Context {E : IbcEnv} {L : IbcLaws} {I : IcaEnv} {IL : IcaLaws} {R : MessageRouter}.
(** The wrapper below reads versions without writing. *)
Context (ics4 : ICS4Wrapper).
Hypothesis version_ro : ∀ p c, readonly (ics4_GetAppVersion ics4 p c).

Ltac runs :=
  repeat first
    [ match goal with |- runs (_ ≫= _) => apply runs_bind; [|intros] end
    | match goal with H : ∀ m, Some _ = Some m → well_behaved m |- _ => solve [apply (H _ eq_refl)] end
    | solve [apply runs_readonly; ro]
    | solve [apply runs_same; same]
    | case_match ].

(** The controller submodule, placed in front of an authentication module whose
    callbacks are runs of the transition system, or of none, has callbacks that are
    runs. *)
Lemma controller_well_behaved app :
  (∀ m, app = Some m → well_behaved m) → well_behaved (controller_middleware ics4 app).
Proof.
  intros Hwb. split; intros; simpl;
    unfold Controller_OnChanOpenInit, Controller_OnChanOpenAck, Controller_OnChanCloseConfirm, Controller_OnRecvPacket,
      Controller_OnAcknowledgementPacket, Controller_OnTimeoutPacket, ControllerKeeper_OnTimeoutPacket, controller_enabled,
      ControllerKeeper_OnChanCloseConfirm, to_app, Controller_ClaimCapability;
    destruct app as [m|]; runs.
Qed.

(** So has the host submodule, where the handlers of its messages are runs: the
    transactions of its accounts may themselves be messages of the protocol. *)
Lemma host_well_behaved :
  (∀ msg h ctx, Handler msg = Some h → runs (h ctx)) → well_behaved (host_module ics4).
Proof.
  intros Hh. split; intros; simpl;
    unfold Host_OnChanOpenTry, Host_OnChanOpenConfirm, HostKeeper_OnChanOpenConfirm, HostKeeper_OnChanCloseConfirm,
      host_enabled; try solve [runs].
  intros s a s' P HI Hl [(e & s2 & _ & ->)|(hop & address & msgs & rs & _ & Hx & _)]%Host_OnRecvPacket_cases.
  - split; [|by apply rollback_localhost]. apply op_run; [done|apply rollback_outside].
  - by apply (execute_msgs_runs Hh ctx msgs s rs s' P).
Qed.

(** [C16] Interchain accounts refine the protocol.  The controller, in front of any
    authentication module whose callbacks are runs of the transition system or of
    none, and the host, where the handlers of the messages it executes are such runs,
    are applications whose callbacks are runs: every guarantee on packets,
    acknowledgements and channels holds on chains that have them, whatever
    transactions the accounts perform. *)
Theorem ica_well_behaved app :
  (∀ m, app = Some m → well_behaved m) → (∀ msg h ctx, Handler msg = Some h → runs (h ctx)) →
  well_behaved (controller_middleware ics4 app) ∧ well_behaved (host_module ics4).
Proof. intros. split; [by apply controller_well_behaved|by apply host_well_behaved]. Qed.

End refinement.

(** ** What the host executes *)

Section execution.
Context {E : IbcEnv} {I : IcaEnv} {R : MessageRouter}.
Context (ics4 : ICS4Wrapper).

(** [C13] The host executes a transaction only for the account of its sender, and all
    of it or nothing.  When the message server runs the receive callback and it answers
    with a failure, the stores are as they were.  When it answers with success, the
    packet carried messages that are all of an allowed type, every signer of which is
    the account registered for the sender's port and the connection of the channel;
    they were executed in order, each on the chain the one before left, none of
    them failed, and the acknowledgement holds their responses. *)
Theorem host_executes_for_owner ctx pk rel s ack s' :
  run_OnRecvPacket (host_module ics4) ctx pk rel s = (Ok ack, s') →
  (∃ e s2, ack = Some (ica_ack (NewErrorAcknowledgement e)) ∧ s' = rollback s s2) ∨
  ∃ hop address msgs responses bz,
    admitted pk s hop address msgs ∧ execute_msgs ctx msgs s = (Ok responses, s') ∧
    TxMsgData_Marshal responses = Ok bz ∧ ack = Some (ica_ack (NewResultAcknowledgement bz)).
Proof.
  unfold run_OnRecvPacket. simpl. destruct (Host_OnRecvPacket ctx pk rel s) as [[a|e|] s1] eqn:Hr; [|done|done].
  intros [= -> <-]. apply Host_OnRecvPacket_cases in Hr as
    [(e & s2 & -> & ->)|(hop & address & msgs & rs & Had & Hx & [(e & -> & _)|(bz & -> & Hbz)])]; simpl.
  - left. eauto.
  - left. eauto.
  - right. eauto 10.
Qed.

End execution.

(** ** The accounts of the host *)

Section accounts.
Context {E : IbcEnv} {I : IcaEnv}.

(** The account registered for a connection and a port of the counterparty, and the
    owner of an interchain account. *)
Definition account_of (c p : string) (s : Chain) : option string :=
  mod_store host_storeKey s !! KeyOwnerAccount p c.
Definition owner_of (a : string) (s : Chain) : option string :=
  ia_AccountOwner <$> (acc_GetAccount s a ≫= as_interchain).

(** Every registered account is the printed address of an interchain account that its
    port owns; no two ports or connections have the same account. *)
Record registry_ok (s : Chain) : Prop := {
  reg_backed c p addr : no_slash p → account_of c p s = Some addr →
    ∃ a, a ≠ "" ∧ addr = AccAddress_String a ∧ owner_of a s = Some p;
  reg_distinct c p c' p' addr : no_slash p → no_slash p' →
    account_of c p s = Some addr → account_of c' p' s = Some addr → c = c' ∧ p = p'
}.

(** A change of the chain that concerns neither: the entries of accounts are the same
    and no interchain account disappears or changes owner. *)
Definition keeps_accounts (s s' : Chain) : Prop :=
  (∀ c p, account_of c p s' = account_of c p s) ∧ ∀ a p, owner_of a s = Some p → owner_of a s' = Some p.

Lemma registry_keeps s s' : keeps_accounts s s' → registry_ok s → registry_ok s'.
Proof.
  intros [Ha Ho] [Hb Hd]. split.
  - intros c p addr Hp. rewrite Ha. intros (a & ? & ? & ?)%Hb; [|done]. eauto.
  - intros c p c' p' addr. rewrite !Ha. apply Hd.
Qed.

Context {IL : IcaLaws}.

Lemma keeps_stores s s' :
  stores s' !! auth_storeKey = stores s !! auth_storeKey →
  (∀ c p, account_of c p s' = account_of c p s) → keeps_accounts s s'.
Proof. intros Hs Ha. split; [done|]. intros a p. unfold owner_of. by rewrite (accounts_local s s' a Hs). Qed.

(** What opening an account does. *)
Inductive opened (c p : string) (s s' : Chain) (a : string) : Prop :=
| op_existing : account_of c p s = Some (AccAddress_String a) → s' = s → opened c p s s' a
| op_created :
    account_of c p s = None → acc_GetAccount s a = None → a ≠ "" →
    (∀ b q, owner_of b s = Some q → owner_of b s' = Some q) → owner_of a s' = Some p →
    mod_store host_storeKey s' = <[KeyOwnerAccount p c := AccAddress_String a]> (mod_store host_storeKey s) →
    opened c p s s' a.

Lemma createInterchainAccount_ok ctx c p s a s' :
  account_of c p s = None → createInterchainAccount ctx c p s = (Ok a, s') → opened c p s s' a.
Proof.
  intros Hn H. unfold createInterchainAccount in H.
  apply bind_ok in H as (o & ? & [-> ->]%gets_ok & ([] & ? & [Hacc ->]%require_ok & H)%bind_ok).
  apply bind_ok in H as (acc & s1 & H1 & ([] & s2 & H2 & H)%bind_ok).
  assert (GenerateAddress ctx c p ≠ "") as Hne by apply derive_nonempty.
  set (a' := GenerateAddress ctx c p) in *. clearbody a'. unfold NewInterchainAccount in *.
  pose proof (new_account_frame ctx (of_interchain (mkInterchainAccount (NewBaseAccountWithAddress a') p)) s) as F1. rewrite H1 in F1. simpl in F1.
  pose proof (set_account_frame ctx acc s1) as F2. rewrite H2 in F2. simpl in F2.
  apply new_account_ok in H1 as (Had & Hown & H1). pose proof (λ b, set_account_ok _ _ _ _ b H2) as Hset.
  apply bind_ok in H as ([] & s3 & [= <-] & [-> ->]%ret_ok).
  simpl ia_BaseAccount. rewrite base_address, interchain_address in *. rewrite interchain_cast in Hown.
  assert (mod_store host_storeKey s2 = mod_store host_storeKey s) as Hm.
  { pose proof ica_auth_store. rewrite (only_store_mod host_storeKey auth_storeKey s1 s2), (only_store_mod host_storeKey auth_storeKey s s1); auto. }
  assert (∀ b, acc_GetAccount (set_mod_store host_storeKey (<[KeyOwnerAccount p c:=AccAddress_String a']> (mod_store host_storeKey s2)) s2) b
    = if bool_decide (b = a') then Some acc else acc_GetAccount s b) as Hget.
  { intros b. rewrite <- Had, <- H1, <- Hset. apply accounts_local, mod_store_set_ne, ica_auth_store. }
  assert (acc_GetAccount s a' = None) as Hfree by by destruct (acc_GetAccount s a').
  apply op_created; [done..| | |].
  - intros b q. unfold owner_of. rewrite Hget. case_bool_decide as Hb; [|done]. by rewrite Hb, Hfree.
  - unfold owner_of. by rewrite Hget, bool_decide_eq_true_2.
  - by rewrite mod_store_set, Hm.
Qed.

Lemma open_account_ok ctx c p s a s' :
  registry_ok s → no_slash p → open_account ctx c p s = (Ok a, s') → opened c p s s' a.
Proof.
  intros Hreg Hp (o & ? & [Ho ->]%gets_ok & H)%bind_ok. fold (account_of c p s) in Ho.
  destruct o as [addr|]; [|by apply createInterchainAccount_ok in H].
  destruct (reg_backed _ Hreg c p addr) as (a' & Hne & -> & _); [done..|].
  apply bind_ok in H as (b & ? & [Hb ->]%orPanic_ok & H). rewrite ica_bech32 in Hb by done. injection Hb as <-.
  apply bind_ok in H as (acc & ? & [_ ->]%gets_ok & ([] & ? & [_ ->]%require_ok & [<- <-]%ret_ok)%bind_ok).
  by apply op_existing.
Qed.

Lemma KeyOwnerAccount_inj p c p' c' :
  no_slash p → no_slash p' → KeyOwnerAccount p c = KeyOwnerAccount p' c' → c = c' ∧ p = p'.
Proof.
  intros Hp Hp' H. unfold KeyOwnerAccount in H. apply slash_inj in H as [_ H]; [|done..].
  apply slash_inj in H as [-> ->]; done.
Qed.

Lemma AccAddress_String_inj a b : a ≠ "" → b ≠ "" → AccAddress_String a = AccAddress_String b → a = b.
Proof. intros Ha Hb H. apply (f_equal AccAddressFromBech32) in H. rewrite !ica_bech32 in H by done. congruence. Qed.

(** A created account is not one of those registered before. *)
Lemma created_fresh c p s a addr :
  registry_ok s → no_slash p → a ≠ "" → acc_GetAccount s a = None → account_of c p s = Some addr →
  addr ≠ AccAddress_String a.
Proof.
  intros Hreg Hp Hne Hfree (b & Hb & -> & Hown)%(reg_backed _ Hreg); [|done]. intros Heq%AccAddress_String_inj; [|done..].
  subst b. unfold owner_of in Hown. by rewrite Hfree in Hown.
Qed.

Lemma opened_account_of c p s s' a c' p' :
  opened c p s s' a → no_slash p → no_slash p' →
  account_of c' p' s' = if bool_decide (c' = c ∧ p' = p) then Some (AccAddress_String a) else account_of c' p' s.
Proof.
  intros [Ha ->|_ _ _ _ _ Hm] Hp Hp'; case_bool_decide as Hcp.
  - by destruct Hcp as [-> ->].
  - done.
  - destruct Hcp as [-> ->]. unfold account_of. rewrite Hm. apply lookup_insert_eq.
  - unfold account_of. rewrite Hm. apply lookup_insert_ne. intros [-> ->]%KeyOwnerAccount_inj; naive_solver.
Qed.

Lemma opened_registry c p s s' a :
  opened c p s s' a → registry_ok s → no_slash p → registry_ok s'.
Proof.
  intros Ho Hreg Hp. pose proof (λ c' p', opened_account_of c p s s' a c' p' Ho Hp) as Hof.
  destruct Ho as [_ ->|Hn Hfree Hne Hkeep Hown _]; [done|]. split.
  - intros c' p' addr Hp'. rewrite Hof by done. case_bool_decide as Hcp.
    + destruct Hcp as [-> ->]. intros [= <-]. eauto.
    + intros (b & ? & ? & ?)%(reg_backed _ Hreg); [|done]. eauto.
  - intros c1 p1 c2 p2 addr Hp1 Hp2. rewrite !Hof by done.
    case_bool_decide as H1; case_bool_decide as H2; [naive_solver|..].
    + intros [= <-] H. by destruct (created_fresh c2 p2 s a (AccAddress_String a)).
    + intros H [= <-]. by destruct (created_fresh c1 p1 s a (AccAddress_String a)).
    + by apply (reg_distinct _ Hreg).
Qed.

Lemma opened_keeps c p s s' a c' p' addr :
  opened c p s s' a → no_slash p → no_slash p' → account_of c' p' s = Some addr → account_of c' p' s' = Some addr.
Proof.
  intros Ho Hp Hp' H. rewrite (opened_account_of c p s s' a) by done. case_bool_decide as Hcp; [|done].
  destruct Hcp as [-> ->]. destruct Ho as [Ha _|Hn]; congruence.
Qed.

End accounts.

(** ** Opening and reopening accounts *)

Section opening.
Context {E : IbcEnv} {I : IcaEnv} {IL : IcaLaws}.
Context (ics4 : ICS4Wrapper) (authority : string).
Hypothesis version_ro : ∀ p c, readonly (ics4_GetAppVersion ics4 p c).
#[local] Hint Resolve version_ro : ro.

Lemma validate_metadata_ok hops m ends s s' :
  validate_metadata hops m ends s = (Ok tt, s') →
  s' = s ∧ ∃ hop conn, head hops = Some hop ∧ connection_at hop s = Some conn ∧
    (im_ControllerConnectionId m, im_HostConnectionId m) = ends hop (cpc_ConnectionId (conn_Counterparty conn)).
Proof.
  intros H. split; [by apply readonly_ok in H; [|apply validate_metadata_ro]|]. unfold validate_metadata in H.
  apply bind_ok in H as ([] & ? & [_ ->]%require_ok & ([] & ? & [_ ->]%require_ok & H)%bind_ok).
  apply bind_ok in H as (hop & s1 & Hhop & (conn & s2 & Hconn & H)%bind_ok).
  assert (s1 = s ∧ head hops = Some hop) as [-> Hh] by (unfold hop0 in Hhop; by minv).
  exists hop, conn. split; [done|].
  assert (s2 = s ∧ connection_at hop s = Some conn) as [-> Hc].
  { unfold Channel_GetConnection in Hconn. apply bind_ok in Hconn as (oc & s3 & Hk & [-> ->]%orErr_ok).
    by apply stored_ok in Hk as [-> Hk]. }
  split; [done|]. destruct (ends _ _) as [x y]. apply bind_ok in H as ([] & ? & [Hv ->]%lift_ok & _).
  unfold validateConnectionParams in Hv. apply obind_ok in Hv as ([] & Hx%check_ok & Hy%check_ok).
  apply bool_decide_eq_true in Hx, Hy. congruence.
Qed.

(** The keeper's part: the account that is opened is the one of the connection the
    channel is opened over, and the version tells its address. *)
Lemma host_try_ok ctx o hops p c cap cp v s v' s' :
  registry_ok s → no_slash (cp_PortId cp) →
  Host_OnChanOpenTry ics4 ctx o hops p c cap cp v s = (Ok v', s') →
  ∃ metadata hop a s1, IcaMetadata_UnmarshalJSON v = Some metadata ∧ head hops = Some hop ∧
    im_HostConnectionId metadata = hop ∧ stores s1 = stores s ∧ opened hop (cp_PortId cp) s1 s' a ∧
    v' = IcaMetadata_MarshalJSON (set_Address (AccAddress_String a) metadata).
Proof.
  intros Hreg Hp H. unfold Host_OnChanOpenTry in H. apply bind_ok in H as ([] & s0 & He & H).
  assert (s0 = s) as -> by (apply readonly_ok in He; [done|unfold host_enabled; ro]). clear He.
  unfold HostKeeper_OnChanOpenTry in H.
  apply bind_ok in H as ([] & ? & [_ ->]%require_ok & ([] & ? & [_ ->]%require_ok & (m & ? & [Hm ->]%orErr_ok & H)%bind_ok)%bind_ok).
  apply bind_ok in H as ([] & ? & Hv & H). apply validate_metadata_ok in Hv as [-> (hop & conn & Hhop & _ & [= _ Hhost])].
  apply bind_ok in H as (hop' & s0 & Hhop' & H).
  assert (s0 = s ∧ hop' = hop) as [-> ->] by (unfold hop0 in Hhop'; minv; naive_solver).
  apply bind_ok in H as (ac & ? & [-> ->]%gets_ok & ([] & s0 & Hprev & H)%bind_ok).
  assert (s0 = s) as -> by (eapply readonly_ok; [|exact Hprev]; apply check_previous_ro; done).
  apply bind_ok in H as ([] & s1 & Hcl & (a & s2 & Ha & [-> ->]%ret_ok)%bind_ok).
  pose proof (ica_ClaimCapability_apps Host_SubModuleName cap (ChannelCapabilityPath p c) s) as Hst.
  change (ica_ClaimCapability Host_SubModuleName cap (ChannelCapabilityPath p c) s = (Ok tt, s1)) in Hcl. rewrite Hcl in Hst. simpl in Hst.
  exists m, hop, a, s1. split_and!; [done..| |done]. rewrite <- Hhost.
  apply open_account_ok in Ha; [done| |done]. eapply registry_keeps, Hreg. apply keeps_stores; [by rewrite Hst|].
  intros c' p'. unfold account_of, mod_store. by rewrite Hst.
Qed.

(** Opening a channel to the host opens the account of the sender's port and of the
    connection, and the version answered tells its address: the address registered
    before, when there was one, whatever the block and the channel, and otherwise an
    address at which there was no account, and where there is now one that the port
    owns. *)
Theorem reopening_keeps_account ctx o hops p c cap cp v s v' s' :
  registry_ok s → no_slash (cp_PortId cp) →
  Host_OnChanOpenTry ics4 ctx o hops p c cap cp v s = (Ok v', s') →
  ∃ metadata hop addr, IcaMetadata_UnmarshalJSON v' = Some metadata ∧ head hops = Some hop ∧
    im_HostConnectionId metadata = hop ∧ im_Address metadata = addr ∧
    account_of hop (cp_PortId cp) s' = Some addr ∧
    (∀ addr0, account_of hop (cp_PortId cp) s = Some addr0 → addr0 = addr) ∧
    (account_of hop (cp_PortId cp) s = None → ∃ a, addr = AccAddress_String a ∧ acc_GetAccount s a = None ∧
       owner_of a s' = Some (cp_PortId cp)).
Proof.
  intros Hreg Hp (m & hop & a & s1 & _ & Hh & Hhost & Hst & Ho & ->)%host_try_ok; [|done..].
  exists (set_Address (AccAddress_String a) m), hop, (AccAddress_String a).
  assert (∀ c' p', account_of c' p' s1 = account_of c' p' s) as Hof by (intros; unfold account_of, mod_store; by rewrite Hst).
  split_and!; [apply ica_metadata_roundtrip|done..| | |].
  - rewrite (opened_account_of hop (cp_PortId cp) s1 s' a) by done. by rewrite bool_decide_eq_true_2.
  - intros addr0 H0. rewrite <- Hof in H0. destruct Ho; congruence.
  - intros H0. rewrite <- Hof in H0. destruct Ho as [|? Hf]; [congruence|]. exists a. split_and!; [done| |done].
    rewrite <- Hf. symmetry. apply accounts_local. by rewrite Hst.
Qed.

(** *** The registry over time *)

(** What happens on a host: the channel callbacks, changes of the parameters, and
    anything else that leaves the accounts alone. *)
Inductive host_step : Chain → Chain → Prop :=
| hs_try ctx o hops p c cap cp v v' s s' :
    no_slash (cp_PortId cp) → Host_OnChanOpenTry ics4 ctx o hops p c cap cp v s = (Ok v', s') → host_step s s'
| hs_confirm ctx p c s s' : Host_OnChanOpenConfirm ctx p c s = (Ok tt, s') → host_step s s'
| hs_params msgAuthority params s s' :
    Host_UpdateParams authority msgAuthority params s = (Ok tt, s') → host_step s s'
| hs_other s s' : keeps_accounts s s' → host_step s s'.

(** Writing another key of the host's store. *)
Lemma keeps_host_set k v s :
  (∀ c p, KeyOwnerAccount p c ≠ k) →
  keeps_accounts s (set_mod_store host_storeKey (<[k := v]> (mod_store host_storeKey s)) s).
Proof.
  intros Hk. apply keeps_stores; [apply mod_store_set_ne, ica_auth_store|].
  intros c p. unfold account_of. rewrite mod_store_set. by apply lookup_insert_ne.
Qed.

Lemma host_step_registry s s' :
  host_step s s' → registry_ok s →
  registry_ok s' ∧ ∀ c p addr, no_slash p → account_of c p s = Some addr → account_of c p s' = Some addr.
Proof.
  intros Hs Hreg. assert (Hk : keeps_accounts s s' → registry_ok s' ∧
    ∀ c p addr, no_slash p → account_of c p s = Some addr → account_of c p s' = Some addr).
  { intros Hk. split; [by eapply registry_keeps|]. intros c p addr _. by rewrite (proj1 Hk). }
  destruct Hs as [ctx o hops p c cap cp v v' s s' Hp H|ctx p c s s' H|auth params s s' H|s s' H]; [|apply Hk..].
  - apply host_try_ok in H as (m & hop & a & s1 & _ & _ & _ & Hst & Ho & _); [|done..].
    assert (∀ c' p', account_of c' p' s1 = account_of c' p' s) as Hof by (intros; unfold account_of, mod_store; by rewrite Hst).
    assert (registry_ok s1) as Hreg1 by (eapply registry_keeps, Hreg; apply keeps_stores; [by rewrite Hst|done]).
    split; [by eapply opened_registry|]. intros c' p' addr Hp' H0. eapply opened_keeps; [done..|]. by rewrite Hof.
  - unfold Host_OnChanOpenConfirm in H. apply bind_ok in H as ([] & s0 & He & H).
    assert (s0 = s) as -> by (apply readonly_ok in He; [done|unfold host_enabled; ro]).
    unfold HostKeeper_OnChanOpenConfirm in H. apply bind_ok in H as (och & s0 & Hch & (ch & ? & [_ ->]%orErr_ok & (hop & s1 & Hhop & [= <-])%bind_ok)%bind_ok).
    apply readonly_ok in Hch as ->; [|ro]. apply readonly_ok in Hhop as ->; [|ro].
    apply keeps_host_set. intros c' p'. by unfold KeyOwnerAccount, KeyActiveChannel.
  - apply bind_ok in H as ([] & ? & [_ ->]%require_ok & [= <-]).
    apply keeps_host_set. intros c' p'. by unfold KeyOwnerAccount, Host_ParamsKey.
  - done.
Qed.

(** [C15] Accounts are permanent and belong to one owner.  Over every run of the host from
    a chain whose registry is in order, an account registered for a connection and a
    port stays registered for them with the same address; the account is an interchain
    account that the port owns; and two different connections or ports never have the
    same account. *)
Theorem accounts_permanent s s' c p addr :
  registry_ok s → rtc host_step s s' → no_slash p → account_of c p s = Some addr →
  account_of c p s' = Some addr ∧ (∃ a, addr = AccAddress_String a ∧ owner_of a s' = Some p) ∧
  ∀ c' p', no_slash p' → account_of c' p' s' = Some addr → c' = c ∧ p' = p.
Proof.
  intros Hreg Hrun Hp Hs. assert (registry_ok s' ∧ account_of c p s' = Some addr) as [Hreg' Hs'].
  { revert Hreg Hs. induction Hrun as [s|s s1 s2 Hstep _ IH]; [done|]. intros Hreg Hs.
    apply host_step_registry in Hstep as [Hreg1 Hk]; [|done]. eauto. }
  split_and!; [done| |].
  - destruct (reg_backed _ Hreg' c p addr) as (a & _ & ? & ?); [done..|]. eauto.
  - intros c' p' Hp' H'. by apply (reg_distinct _ Hreg' _ _ _ _ addr).
Qed.

(** A received packet is a run of the host, where the handlers of messages are. *)
Lemma execute_msgs_host {R : MessageRouter} ctx msgs s rs s' :
  (∀ msg h ctx s r s', Handler msg = Some h → h ctx s = (Ok r, s') → rtc host_step s s') →
  execute_msgs ctx msgs s = (Ok rs, s') → rtc host_step s s'.
Proof.
  intros Hh. revert s rs. induction msgs as [|msg msgs IH]; intros s rs; simpl; [by intros [-> ->]%ret_ok|].
  intros ([] & ? & [_ ->]%lift_ok & (r & s1 & Hx & (rs' & s2 & Hr & [-> ->]%ret_ok)%bind_ok)%bind_ok)%bind_ok.
  apply IH in Hr. unfold executeMsg in Hx.
  apply bind_ok in Hx as (h & ? & [Hl ->]%orErr_ok & (o & s3 & Hrun & H)%bind_ok).
  apply readonly_ok in H as ->; [|ro]. etrans; [by eapply Hh|done].
Qed.

Lemma received_host_run {R : MessageRouter} ctx pk rel s ack s' :
  (∀ msg h ctx s r s', Handler msg = Some h → h ctx s = (Ok r, s') → rtc host_step s s') →
  run_OnRecvPacket (host_module ics4) ctx pk rel s = (Ok ack, s') → rtc host_step s s'.
Proof.
  intros Hh. unfold run_OnRecvPacket. simpl. destruct (Host_OnRecvPacket ctx pk rel s) as [[a|e|] s1] eqn:Hr; [|done|done].
  assert (∀ s2, rtc host_step s (rollback s s2)) as Hb by (intros s2; apply rtc_once, hs_other, keeps_stores; done).
  intros [= -> <-]. case_match; [|done].
  apply Host_OnRecvPacket_cases in Hr as [(e & s2 & _ & ->)|(hop & address & msgs & rs & _ & Hx & _)]; [done|].
  by eapply execute_msgs_host.
Qed.

End opening.

(** ** The controller *)

Section controller.
Context {E : IbcEnv} {I : IcaEnv} {IL : IcaLaws} {R : MessageRouter}.
Context (ics4 : ICS4Wrapper).

(** The port has an open active channel over the connection. *)
Definition active_open (c p id : string) (s : Chain) : Prop :=
  mod_store controller_storeKey s !! KeyActiveChannel p c = Some id ∧
  ∃ ch, channel_at p id s = Some ch ∧ ch_State ch = OPEN.

Lemma GetChannel_stored p id ch s : channel_at p id s = Some ch → GetChannel p id s = (Ok (Some ch), s).
Proof. apply stored_some. Qed.

Lemma GetOpenActiveChannel_open c p id s :
  active_open c p id s → Controller_GetOpenActiveChannel c p s = (Ok (Some id), s).
Proof.
  intros [Ha (ch & Hch & Ho)]. unfold Controller_GetOpenActiveChannel, ica_GetOpenActiveChannel, ica_GetActiveChannelID, mod_get.
  erewrite bind_run by reflexivity. rewrite Ha. erewrite bind_run by by apply GetChannel_stored.
  cbv beta iota. rewrite bool_decide_eq_true_2; done.
Qed.

Lemma GetOpenActiveChannel_ok c p o s s' :
  Controller_GetOpenActiveChannel c p s = (Ok o, s') → s' = s ∧ ∀ id, o = Some id → active_open c p id s.
Proof.
  intros H. split; [by apply readonly_ok in H; [|apply ica_GetOpenActiveChannel_ro]|].
  apply bind_ok in H as (o1 & ? & [Ho ->]%gets_ok & H). destruct o1 as [id|]; [|apply ret_ok in H as [-> _]; done].
  apply bind_ok in H as (och & s1 & Hch & [-> _]%ret_ok). apply stored_ok in Hch as [-> <-].
  intros id'. destruct (stored _ _) as [ch|] eqn:Hs; [|done]. case_bool_decide; [|done]. intros [= ->].
  split; [done|]. by exists ch.
Qed.

Lemma GetOpenActiveChannel_none c p o s s' :
  Controller_GetOpenActiveChannel c p s = (Ok o, s') → o = None → ∀ id, ¬ active_open c p id s.
Proof. intros H -> id Ha%GetOpenActiveChannel_open. congruence. Qed.

(** Completing the handshake records the channel and the account. *)
Lemma controller_ack_ok ctx p id v s s' :
  ControllerKeeper_OnChanOpenAck ctx p id v s = (Ok tt, s') →
  ∃ m ch hop conn, IcaMetadata_UnmarshalJSON v = Some m ∧ channel_at p id s = Some ch ∧
    head (ch_ConnectionHops ch) = Some hop ∧ connection_at hop s = Some conn ∧
    im_ControllerConnectionId m = hop ∧ im_HostConnectionId m = cpc_ConnectionId (conn_Counterparty conn) ∧
    (∀ id', ¬ active_open hop p id' s) ∧
    mod_store controller_storeKey s' =
      <[KeyOwnerAccount p hop := im_Address m]> (<[KeyActiveChannel p hop := id]> (mod_store controller_storeKey s)).
Proof.
  intros H. unfold ControllerKeeper_OnChanOpenAck in H. repeat (apply bind_ok in H as ([] & ? & [_ ->]%require_ok & H)).
  apply bind_ok in H as (m & ? & [Hm ->]%orErr_ok & (o & s0 & Ho & ([] & ? & [Hn ->]%require_ok & H)%bind_ok)%bind_ok).
  apply bool_decide_eq_true in Hn. pose proof (GetOpenActiveChannel_none _ _ _ _ _ Ho Hn) as Hex.
  apply GetOpenActiveChannel_ok in Ho as [-> _].
  apply bind_ok in H as (och & s0 & Hch & (ch & ? & [-> ->]%orErr_ok & H)%bind_ok). apply stored_ok in Hch as [-> Hch].
  apply bind_ok in H as ([] & ? & [-> (hop & conn & Hhop & Hconn & [= Hc Hh])]%validate_metadata_ok & H).
  apply bind_ok in H as ([] & ? & [_ ->]%require_ok & ([] & ? & [= <-] & [= <-])%bind_ok).
  exists m, ch, hop, conn. split_and!; [done..|by rewrite <- Hc|]. by rewrite <- Hc, !mod_store_set.
Qed.

(** [C18] An open active channel excludes another one.  While the active channel of an
    owner's port over a connection is open, registering the account again fails and
    changes nothing, no handshake of another channel of the port over this connection
    starts, and none that was started earlier is completed: the channel transactions
    go over is the only one there is. *)
Theorem active_channel_exclusive app c p id s :
  active_open c p id s →
  (∀ ctx v, registerInterchainAccount ctx c p v s = (Err Ica_ErrActiveChannelAlreadySet, s)) ∧
  (∀ ctx o rest id' cap cp v v' s',
     Controller_OnChanOpenInit ics4 app ctx o (c :: rest) p id' cap cp v s ≠ (Ok v', s')) ∧
  (∀ ctx id' i v ch rest s', channel_at p id' s = Some ch → ch_ConnectionHops ch = c :: rest →
     Controller_OnChanOpenAck app ctx p id' i v s ≠ (Ok tt, s')).
Proof.
  intros Ha. pose proof (GetOpenActiveChannel_open c p id s Ha) as Hopen. split_and!.
  - intros ctx v. unfold registerInterchainAccount. by erewrite bind_run by exact Hopen.
  - intros ctx o rest id' cap cp v v' s' H. unfold Controller_OnChanOpenInit in H.
    apply bind_ok in H as ([] & s0 & He & (v1 & s1 & H & _)%bind_ok).
    assert (s0 = s) as -> by (apply readonly_ok in He; [done|unfold controller_enabled; ro]).
    unfold ControllerKeeper_OnChanOpenInit in H. repeat (apply bind_ok in H as ([] & ? & [_ ->]%require_ok & H)).
    apply bind_ok in H as (m & s0 & Hm & H). assert (s0 = s) as -> by (eapply readonly_ok; [|exact Hm]; ro).
    apply bind_ok in H as ([] & ? & [-> _]%validate_metadata_ok & (hop & s0 & Hhop & H)%bind_ok).
    assert (s0 = s ∧ hop = c) as [-> ->] by (unfold hop0 in Hhop; simpl in Hhop; minv; naive_solver).
    destruct Ha as [Ha (ch & Hch & Hst)]. apply bind_ok in H as (ac & ? & [-> ->]%gets_ok & ([] & s0 & H & _)%bind_ok).
    rewrite Ha in H. unfold check_previous in H. erewrite bind_run in H by by apply GetChannel_stored.
    erewrite bind_run in H by reflexivity. apply bind_ok in H as ([] & ? & [Hn _]%require_ok & _).
    by rewrite bool_decide_eq_true_2 in Hn.
  - intros ctx id' i v ch rest s' Hch Hhops H. unfold Controller_OnChanOpenAck in H.
    apply bind_ok in H as ([] & s0 & He & ([] & s1 & H & _)%bind_ok).
    assert (s0 = s) as -> by (apply readonly_ok in He; [done|unfold controller_enabled; ro]).
    apply controller_ack_ok in H as (m & ch' & hop & conn & _ & Hch' & Hhop & _ & _ & _ & Hno & _).
    rewrite Hch in Hch'. injection Hch' as <-. rewrite Hhops in Hhop. injection Hhop as <-. by apply (Hno id).
Qed.

(** [C17] The two chains agree on the account.  When a host answers the opening of a
    channel from port [p] with the version [v], and a controller completes the handshake
    of its channel [id] of port [p] with [v], then the address the controller records
    for the port and its connection is the one the host has registered for the port
    and the other end of that connection, [id] is the active channel, and the two
    connections are each other's counterparty as the version says. *)
Theorem account_agreement ctx o hops hp hc cap cp v0 sh v sh' ctx' id sc sc' :
  (∀ p c, readonly (ics4_GetAppVersion ics4 p c)) → registry_ok sh → no_slash (cp_PortId cp) →
  Host_OnChanOpenTry ics4 ctx o hops hp hc cap cp v0 sh = (Ok v, sh') →
  ControllerKeeper_OnChanOpenAck ctx' (cp_PortId cp) id v sc = (Ok tt, sc') →
  ∃ ch hop conn addr, channel_at (cp_PortId cp) id sc = Some ch ∧ head (ch_ConnectionHops ch) = Some hop ∧
    connection_at hop sc = Some conn ∧ head hops = Some (cpc_ConnectionId (conn_Counterparty conn)) ∧
    account_of (cpc_ConnectionId (conn_Counterparty conn)) (cp_PortId cp) sh' = Some addr ∧
    mod_store controller_storeKey sc' !! KeyOwnerAccount (cp_PortId cp) hop = Some addr ∧
    mod_store controller_storeKey sc' !! KeyActiveChannel (cp_PortId cp) hop = Some id.
Proof.
  intros Hro Hreg Hp Ht Ha.
  apply host_try_ok in Ht as (m & hophost & a & s1 & _ & Hhops & Hhost & Hst & Ho & ->); [|done..].
  apply controller_ack_ok in Ha as (m' & ch & hop & conn & Hm & Hch & Hhop & Hconn & _ & Hh & _ & Hs).
  rewrite ica_metadata_roundtrip in Hm. injection Hm as <-. simpl in Hh. subst hophost. rewrite Hh in *.
  exists ch, hop, conn, (AccAddress_String a). rewrite Hs. split_and!; [done..| | |].
  - rewrite (opened_account_of _ _ s1 sh' a) by done. by rewrite bool_decide_eq_true_2.
  - apply lookup_insert_eq.
  - rewrite lookup_insert_ne by done. apply lookup_insert_eq.
Qed.

(** [C19] Sending a transaction.  A successful MsgSendTx sends exactly one packet, over the
    open active channel of the port named after the owner, with the capability of that
    channel, the encoded data that passed validation, and a timeout strictly after the
    time of the block; the sum of the block time and the relative timeout did not
    wrap around 2^64.  Without an open active channel it fails and changes nothing. *)
Theorem send_tx_spec ctx msg s :
  let p := ControllerPortPrefix +:+ mst_Owner msg in let c := mst_ConnectionId msg in
  is_u64 (ctx_time ctx) → is_u64 (mst_RelativeTimeout msg) →
  (∀ n s', Msg_SendTx ics4 ctx msg s = (Ok n, s') →
     let ts := ctx_time ctx + mst_RelativeTimeout msg in
     ts < 2 ^ 64 ∧ ctx_time ctx < ts ∧ is_blank (mst_Owner msg) = false ∧
     IcaPacketData_ValidateBasic (mst_PacketData msg) = Ok tt ∧
     ∃ id cap, active_open c p id s ∧
       GetCapability Controller_SubModuleName (ChannelCapabilityPath p id) s = (Ok (Some cap), s) ∧
       ics4_SendPacket ics4 ctx (Some cap) p id ZeroHeight ts (IcaPacketData_GetBytes (mst_PacketData msg)) s = (Ok n, s')) ∧
  ((∀ id, ¬ active_open c p id s) → ∀ o s', Msg_SendTx ics4 ctx msg s = (o, s') → is_ok o = false ∧ s' = s).
Proof.
  intros p c Ht Hr. split.
  - intros n s' (port & ? & [Hport ->]%lift_ok & H)%bind_ok.
    unfold NewControllerPortID in Hport. apply obind_ok in Hport as ([] & Hb%check_ok & [= <-]). fold p in H.
    apply bind_ok in H as (o & s0 & Ho & (id & ? & [-> ->]%orErr_ok & H)%bind_ok).
    apply GetOpenActiveChannel_ok in Ho as [-> Ho].
    apply bind_ok in H as (oc & s0 & Hc & (cap & ? & [-> ->]%orErr_ok & H)%bind_ok).
    pose proof (readonly_ok _ _ _ _ (GetCapability_ro _ _) Hc) as ->.
    apply bind_ok in H as ([] & ? & [Hts ->]%require_ok & ([] & ? & [Hvb ->]%lift_ok & H)%bind_ok).
    apply negb_true_iff, Z.leb_gt in Hts. apply negb_true_iff in Hb.
    assert (u64 (ctx_time ctx + mst_RelativeTimeout msg) = ctx_time ctx + mst_RelativeTimeout msg) as Heq.
    { unfold u64, is_u64 in *. change (2 ^ 64) with 18446744073709551616 in *. Z.to_euclidean_division_equations. lia. }
    pose proof (u64_range (ctx_time ctx + mst_RelativeTimeout msg)) as [_ Hmax].
    rewrite Heq in *. split_and!; [done..|]. exists id, cap. auto.
  - intros Hno o s'. unfold Msg_SendTx, NewControllerPortID. destruct (is_blank (mst_Owner msg)) eqn:Hb.
    { by intros [= <- <-]. }
    erewrite bind_run by reflexivity. fold p c. unfold sendTx.
    intros [[Ho Hs]|(o1 & Ho1 & H)]%read_first; [done| |apply ica_GetOpenActiveChannel_ro].
    apply GetOpenActiveChannel_ok in Ho1 as [_ Ho1]. destruct o1 as [id|]; [by destruct (Hno id); auto|].
    by injection H as <- <-.
Qed.

End controller.

(** ** From one chain to the other *)

Section composition.
Context {E : IbcEnv} {L : IbcLaws} {I : IcaEnv} {R : MessageRouter}.
Context (ics4 : ICS4Wrapper).

(** [C14] A transaction the host executes was sent.  When a host receives a packet over a
    connection whose client is sound and answers it with success, then the messages it
    executed, for the account of the packet's source port, are those of data that
    the counterparty sent from this very port with SendPacket, or two inputs of the hash
    collide: no relayer makes an account act. *)
Theorem executed_was_sent remote ctx cap pk proof h s s1 ch conn s0 w rel ack s' :
  localhost_ok s → Packet_ValidateBasic pk = Ok tt → is_u64 (Sequence pk) →
  RecvPacket ctx cap pk proof h s = (Ok tt, s1) →
  channel_at (DestinationPort pk) (DestinationChannel pk) s = Some ch → connection_of ch conn s →
  attests (conn_ClientId conn) s remote → no_channels s0 → rtc step (s0, ∅) w →
  counterparty_state remote conn h w →
  run_OnRecvPacket (host_module ics4) ctx pk rel s1 = (Ok (Some ack), s') → app_Success ack = true →
  ∃ hop address msgs responses, admitted pk s1 hop address msgs ∧ execute_msgs ctx msgs s1 = (Ok responses, s') ∧
    ∃ w1 w2 ctx' cap' th ts data ch', rtc step (s0, ∅) w1 ∧ rtc step w2 w ∧
      SendPacket ctx' cap' (SourcePort pk) (SourceChannel pk) th ts data w1.1 = (Ok (Sequence pk), w2.1) ∧
      let sent := packet_of ch' (SourcePort pk) (SourceChannel pk) th ts data (Sequence pk) in
      (timeouts_u64 sent → timeouts_u64 pk →
       packet_msgs data msgs ∨ collides data (Data pk) ∨ collides (commit_preimage sent) (commit_preimage pk)).
Proof.
  intros Hl Hvb Hn Hrecv Hch Hconn Ha H0 Hrun Hw Hcb Hack.
  unfold run_OnRecvPacket in Hcb. simpl in Hcb.
  destruct (Host_OnRecvPacket ctx pk rel s1) as [[a|e|] s2] eqn:Hr; [|done|done]. injection Hcb as -> <-. rewrite Hack in *.
  apply Host_OnRecvPacket_cases in Hr as
    [(e & s3 & [= ->] & _)|(hop & address & msgs & rs & Had & Hx & [(e & [= ->] & _)|_])]; [done|done|].
  destruct (receive_provenance remote ctx cap pk proof h s s1 ch conn s0 w)
    as (w1 & w2 & ctx' & cap' & th & ts & data & ch' & Hr1 & Hr2 & _ & Hsend & _ & Hb); [done..|].
  exists hop, address, msgs, rs. split_and!; [done..|]. exists w1, w2, ctx', cap', th, ts, data, ch'.
  split_and!; [done..|]. intros sent Ht Ht'. destruct (Hb Ht Ht') as [Hf|[Hc|Hc]]; [left|by right; left|by right; right].
  assert (data = Data pk) as -> by (by injection Hf). exact (ad_msgs _ _ _ _ _ Had).
Qed.

End composition.
