(* ===== verification/Codec.v ===== *)
(** * Encodings for the concrete chains

    Big-endian integers and a codec for every stored type, with the laws the
    theorems assume of them. *)

From stdpp Require Import gmap strings list countable.
From Stdlib Require Import ZArith Lia Ascii.
From S2P Require Import Prelude GoStd Sha256 Host Chain Height Capability Port Commitment LightClient Client Localhost ConnTypes ChanTypes.

(** ** Integers *)

Definition loop_be : BigEndian := {|
  Uint64ToBigEndian := be_put64; BigEndianToUint64 := be_get64 |}.

Lemma be_word_range l acc :
  Forall (λ b, 0 <= b < 256) l → 0 <= acc → 0 <= be_word l acc < (acc + 1) * 256 ^ Z.of_nat (length l).
Proof.
  intros Hl. revert acc. induction Hl as [|b l Hb Hl IH]; intros acc Hacc; cbn [be_word length].
  - simpl. lia.
  - specialize (IH (256 * acc + b)). rewrite Nat2Z.inj_succ, Z.pow_succ_r by lia. nia.
Qed.

Lemma bytes_of_string_range s : Forall (λ b, 0 <= b < 256) (bytes_of_string s).
Proof.
  induction s as [|c s IH]; simpl; constructor; [apply char_code_range|exact IH].
Qed.

Lemma be_get64_range s : is_u64 (be_get64 s).
Proof.
  unfold is_u64, be_get64. destruct s as [|c s]; [lia|].
  set (l := firstn 8 (bytes_of_string (String c s))).
  assert (Forall (λ b, 0 <= b < 256) l) as Hl.
  { unfold l. apply Forall_take. apply bytes_of_string_range. }
  pose proof (be_word_range l 0 Hl) as Hr.
  assert (256 ^ Z.of_nat (length l) <= 256 ^ 8).
  { apply Z.pow_le_mono_r; [lia|]. unfold l. rewrite length_take. lia. }
  lia.
Qed.

Lemma loop_be_laws : @BigEndianLaws loop_be.
Proof.
  split; [exact be_get64_put64|exact (λ n _, be_put64_length n)|exact be_get64_range].
Qed.

(** ** A codec *)

(** The bits of a positive number as characters, ended by a mark. *)
Fixpoint string_of_pos (p : positive) : string :=
  match p with
  | xH => "."
  | xO p => String "0" (string_of_pos p)
  | xI p => String "1" (string_of_pos p)
  end.

Fixpoint pos_of_string (s : string) : option positive :=
  match s with
  | String "."%char EmptyString => Some xH
  | String "0"%char s => xO <$> pos_of_string s
  | String "1"%char s => xI <$> pos_of_string s
  | _ => None
  end.

Lemma pos_of_string_of_pos p : pos_of_string (string_of_pos p) = Some p.
Proof. induction p as [p IH|p IH|]; cbn; [by rewrite IH|by rewrite IH|done]. Qed.

Definition countable_proto A `{Countable A} : Proto A := {|
  Marshal a := string_of_pos (encode a);
  Unmarshal s := pos_of_string s ≫= decode |}.

Lemma countable_proto_laws A `{Countable A} : @ProtoLaws A (countable_proto A).
Proof. split. intros a. simpl. rewrite pos_of_string_of_pos. simpl. apply decode_encode. Qed.

Lemma countable_proto_nonempty A `{Countable A} : @ProtoNonEmpty A (countable_proto A).
Proof. split. intros a. simpl. by destruct (encode a). Qed.

#[export] Instance Height_countable : Countable Height.
Proof.
  refine (inj_countable' (λ h, (RevisionNumber h, RevisionHeight h)) (λ '(a, b), mkHeight a b) _).
  by intros [].
Defined.
#[export] Instance Localhost_countable : Countable LocalhostClientState.
Proof. refine (inj_countable' LatestHeight mkLocalhost _). by intros []. Defined.
#[export] Instance MerkleRoot_countable : Countable MerkleRoot.
Proof. refine (inj_countable' Hash mkMerkleRoot _). by intros []. Defined.
#[export] Instance MerklePrefix_countable : Countable MerklePrefix.
Proof. refine (inj_countable' KeyPrefix mkMerklePrefix _). by intros []. Defined.
#[export] Instance TmConsensusState_countable : Countable TmConsensusState.
Proof.
  refine (inj_countable' (λ c, (tm_Timestamp c, tm_Root c, tm_NextValidatorsHash c))
    (λ '(a, b, c), mkTmConsensusState a b c) _). by intros [].
Defined.
#[export] Instance Owner_countable : Countable Owner.
Proof. refine (inj_countable' (λ o, (Module_ o, Name o)) (λ '(a, b), mkOwner a b) _). by intros []. Defined.
#[export] Instance Owners_eq_dec : EqDecision CapabilityOwners.
Proof. solve_decision. Defined.
#[export] Instance Owners_countable : Countable CapabilityOwners.
Proof. refine (inj_countable' Owners mkOwners _). by intros []. Defined.
#[export] Instance ClientParams_eq_dec : EqDecision ClientParams.
Proof. solve_decision. Defined.
#[export] Instance ClientParams_countable : Countable ClientParams.
Proof. refine (inj_countable' AllowedClients mkClientParams _). by intros []. Defined.
#[export] Instance ConnParams_eq_dec : EqDecision ConnParams.
Proof. solve_decision. Defined.
#[export] Instance ConnParams_countable : Countable ConnParams.
Proof. refine (inj_countable' MaxExpectedTimePerBlock mkConnParams _). by intros []. Defined.
#[export] Instance ClientPaths_eq_dec : EqDecision ClientPaths.
Proof. solve_decision. Defined.
#[export] Instance ClientPaths_countable : Countable ClientPaths.
Proof. refine (inj_countable' Paths mkClientPaths _). by intros []. Defined.
#[export] Instance Version_countable : Countable Version.
Proof. refine (inj_countable' (λ v, (Identifier v, Features v)) (λ '(a, b), mkVersion a b) _). by intros []. Defined.

(** Enumerations by number. *)
Definition conn_state_nat (s : ConnState) : nat :=
  match s with CONN_UNINITIALIZED => 0 | CONN_INIT => 1 | CONN_TRYOPEN => 2 | CONN_OPEN => 3 end.
Definition nat_conn_state (n : nat) : ConnState :=
  match n with 0 => CONN_UNINITIALIZED | 1 => CONN_INIT | 2 => CONN_TRYOPEN | _ => CONN_OPEN end%nat.
#[export] Instance ConnState_countable : Countable ConnState.
Proof. refine (inj_countable' conn_state_nat nat_conn_state _). by intros []. Defined.
Definition state_nat (s : State) : nat :=
  match s with UNINITIALIZED => 0 | INIT => 1 | TRYOPEN => 2 | OPEN => 3 | CLOSED => 4 end.
Definition nat_state (n : nat) : State :=
  match n with 0 => UNINITIALIZED | 1 => INIT | 2 => TRYOPEN | 3 => OPEN | _ => CLOSED end%nat.
#[export] Instance State_countable : Countable State.
Proof. refine (inj_countable' state_nat nat_state _). by intros []. Defined.
Definition order_nat (o : Order) : nat := match o with NONE => 0 | UNORDERED => 1 | ORDERED => 2 end.
Definition nat_order (n : nat) : Order := match n with 0 => NONE | 1 => UNORDERED | _ => ORDERED end%nat.
#[export] Instance Order_countable : Countable Order.
Proof. refine (inj_countable' order_nat nat_order _). by intros []. Defined.

#[export] Instance ConnCounterparty_countable : Countable ConnCounterparty.
Proof.
  refine (inj_countable' (λ c, (cpc_ClientId c, cpc_ConnectionId c, cpc_Prefix c))
    (λ '(a, b, c), mkConnCounterparty a b c) _). by intros [].
Defined.
#[export] Instance ConnectionEnd_countable : Countable ConnectionEnd.
Proof.
  refine (inj_countable' (λ c, ((conn_ClientId c, conn_Versions c),
      (conn_State c, conn_Counterparty c, conn_DelayPeriod c)))
    (λ '((a, b), (c, d, e)), mkConnectionEnd a b c d e) _). by intros [].
Defined.
#[export] Instance Counterparty_countable : Countable Counterparty.
Proof. refine (inj_countable' (λ c, (cp_PortId c, cp_ChannelId c)) (λ '(a, b), mkCounterparty a b) _). by intros []. Defined.
#[export] Instance Channel_countable : Countable Channel.
Proof.
  refine (inj_countable' (λ c, ((ch_State c, ch_Ordering c),
      (ch_Counterparty c, ch_ConnectionHops c, ch_Version c)))
    (λ '((a, b), (c, d, e)), mkChannel a b c d e) _). by intros [].
Defined.

(** ** Fields of text

    Strings one after the other, each ended by a bar; bars and backslashes in them are
    escaped.  Records of strings encode more briefly so. *)

Definition bar : ascii := "|"%char.
Definition backslash : ascii := ascii_of_nat 92.

Fixpoint put_field (s rest : string) : string :=
  match s with
  | EmptyString => String bar rest
  | String c s' =>
      if bool_decide (c = bar) || bool_decide (c = backslash) then String backslash (String c (put_field s' rest))
      else String c (put_field s' rest)
  end.

Definition cons_field (c : ascii) (r : string * string) : string * string := (String c r.1, r.2).

Fixpoint get_field (s : string) : option (string * string) :=
  match s with
  | EmptyString => None
  | String c s' =>
      if bool_decide (c = bar) then Some ("", s')
      else if bool_decide (c = backslash)
           then match s' with EmptyString => None | String c' s'' => cons_field c' <$> get_field s'' end
           else cons_field c <$> get_field s'
  end.

Lemma get_put_field s rest : get_field (put_field s rest) = Some (s, rest).
Proof.
  induction s as [|c s IH]; [done|]. cbn [put_field]. destruct (_ || _) eqn:Hc.
  - cbn [get_field]. rewrite bool_decide_eq_false_2, bool_decide_eq_true_2 by done. by rewrite IH.
  - apply orb_false_iff in Hc as [H1 H2]. cbn [get_field]. rewrite H1, H2. by rewrite IH.
Qed.

Definition put_fields (l : list string) : string := foldr put_field "" l.

(** A string has no more fields than characters. *)
Fixpoint get_fields (fuel : nat) (s : string) : option (list string) :=
  match s, fuel with
  | EmptyString, _ => Some []
  | _, O => None
  | _, S fuel => '(x, rest) ← get_field s; (x ::.) <$> get_fields fuel rest
  end.
Definition read_fields (s : string) : option (list string) := get_fields (String.length s) s.

Lemma put_field_length s rest : (String.length rest < String.length (put_field s rest))%nat.
Proof. induction s as [|c s IH]; simpl; [lia|]. destruct (_ || _); simpl; lia. Qed.

Lemma read_put_fields l : read_fields (put_fields l) = Some l.
Proof.
  unfold read_fields. generalize (le_n (String.length (put_fields l))).
  generalize (String.length (put_fields l)) at 2 3. induction l as [|x l IH]; intros n Hn; [by destruct n|].
  cbn [put_fields foldr] in *. fold (put_fields l) in *. pose proof (put_field_length x (put_fields l)).
  destruct n as [|n]; [lia|]. cbn [get_fields].
  destruct (put_field x (put_fields l)) as [|c r] eqn:Hp; [simpl in *; lia|]. rewrite <- Hp, get_put_field.
  cbn [mbind option_bind]. rewrite IH; [done|]. simpl in *. lia.
Qed.
