(* ===== verification/Loopback.v ===== *)
(** * A concrete chain

    An instance of everything the keepers are built on: the encodings of Codec.v
    and the 09-localhost client.  It satisfies the
    laws the theorems assume, and on it every definition of the development
    runs: a chain that opens a channel to itself over the localhost connection
    and sends, receives, acknowledges and times out packets. *)

From stdpp Require Import gmap strings list countable relations.
From Stdlib Require Import ZArith Lia Ascii.
From S2P Require Import Prelude GoStd Sha256 Host Chain Height Capability Port Commitment LightClient Client Localhost ConnTypes ChanTypes Env Connection Channel ChanHandshake Packet MsgServer ChanProofs PacketProofs Frames HandshakeProofs Protocol Guarantees MsgProofs Security Codec.

(** ** The environment *)

Definition loop_ics23 : Ics23 := {|
  ProofSpec := bool; ProofSpec_eq_dec := _; IavlSpec := true; TendermintSpec := false |}.

#[export] Instance loop_env : IbcEnv := {|
  env_be := loop_be;
  env_ics23 := loop_ics23;
  env_lc := @localhost_client (countable_proto LocalhostClientState) loop_ics23;
  env_staking := {| GetHistoricalInfo _ _ _ := None; UnbondingTime _ _ := 0 |};
  env_upgrade := {| GetUpgradePlan _ _ := None; GetUpgradedClient _ _ _ := None;
    SetUpgradedConsensusState _ _ _ := mret tt; ScheduleUpgrade _ _ := mret tt;
    SetUpgradedClient _ _ _ := mret tt |};
  env_paths := {| upgrade_StoreKey := "upgrade"; KeyUpgradedIBCState := "upgradedIBCState" |};
  env_trust := {| ValidateTrustLevel _ := true |};
  env_owners := countable_proto CapabilityOwners;
  env_cs := countable_proto LocalhostClientState;
  env_cons := countable_proto TmConsensusState;
  env_cparams := countable_proto ClientParams;
  env_conn := countable_proto ConnectionEnd;
  env_connpaths := countable_proto ClientPaths;
  env_connparams := countable_proto ConnParams;
  env_chan := countable_proto Channel;
  env_storeKey := "ibc";
  env_uint64_of_float _ := 0
|}.

#[export] Instance loop_laws : IbcLaws.
Proof.
  split; try apply countable_proto_laws; try apply countable_proto_nonempty.
  - apply loop_be_laws.
  - apply localhost_laws.
  - done.
Qed.

(** ** A chain with one application *)

Definition ctx0 : Context := mkContext "loop-1" 10 1000 "" "" "".

(** The application "mock": it claims the capability of its channels and answers
    every packet; data "bad" fails, data "async" is answered later. *)
Definition claim (portID channelID : string) (cap : option Capability) : M () :=
  ClaimCapability "mock" cap (ChannelCapabilityPath portID channelID).

(** The application's own store counts the packets it has seen. *)
Definition app_write (k v : string) : M () := modify (λ s,
  mkChain (ibc s) (capstore s) (memstore s) (capMap s) (heap s)
    (<["mock" := <[k := v]> (default ∅ (stores s !! "mock"))]> (stores s))).

Definition mock_module : IBCModule := {|
  OnChanOpenInit _ _ _ portID channelID cap _ version := claim portID channelID cap;; mret version;
  OnChanOpenTry _ _ _ portID channelID cap _ version := claim portID channelID cap;; mret version;
  OnChanOpenAck _ _ _ _ _ := mret tt;
  OnChanOpenConfirm _ _ _ := mret tt;
  OnChanCloseInit _ _ _ := mret tt;
  OnChanCloseConfirm _ _ _ := mret tt;
  OnRecvPacket _ packet _ :=
    app_write "seen" (Data packet);;
    mret (if bool_decide (Data packet = "async") then None
          else Some (mkAppAck (negb (bool_decide (Data packet = "bad"))) "ack"));
  OnAcknowledgementPacket _ _ _ _ := mret tt;
  OnTimeoutPacket _ _ _ := mret tt
|}.

Definition mock_router : Router IBCModule := mkRouter {[ "mock" := mock_module ]} true.
Definition bech32 (s : string) : option Address := Some s.

Definition genesis : M () :=
  InitializeIndex 1;;
  InitMemStore;;
  Client_InitGenesis ctx0 (mkClientGenesis [] [] [] DefaultClientParams 0);;
  Conn_InitGenesis (mkConnGenesis [] [] 0 DefaultConnParams);;
  Chan_InitGenesis (mkChanGenesis [] [] [] [] [] [] [] 0);;
  cap ← BindPort "mock";
  ClaimCapability "mock" (Some cap) (PortPath "mock").

Definition empty_chain : Chain := mkChain ∅ ∅ ∅ ∅ 0 ∅.
Definition final {A} (r : Outcome A * Chain) : Chain := snd r.

(** A channel to itself: "channel-0" and "channel-1" on port "mock". *)
Definition hops : list string := [LocalhostConnectionID].
Definition zero : Height := ZeroHeight.

Definition msg_open_init (order : Order) : MsgChannelOpenInit :=
  {| moi_PortId := "mock"; moi_Signer := "r";
     moi_Channel := mkChannel INIT order (mkCounterparty "mock" "") hops "v1" |}.
Definition msg_open_try (order : Order) : MsgChannelOpenTry :=
  {| mot_PortId := "mock"; mot_PreviousChannelId := ""; mot_Channel := mkChannel TRYOPEN order (mkCounterparty "mock" "channel-0") hops "";
     mot_CounterpartyVersion := "v1"; mot_ProofInit := SentinelProof; mot_ProofHeight := zero;
     mot_Signer := "r" |}.
Definition msg_open_ack : MsgChannelOpenAck :=
  {| moa_PortId := "mock"; moa_ChannelId := "channel-0"; moa_CounterpartyChannelId := "channel-1";
     moa_CounterpartyVersion := "v1"; moa_ProofTry := SentinelProof; moa_ProofHeight := zero;
     moa_Signer := "r" |}.
Definition msg_open_confirm : MsgChannelOpenConfirm :=
  {| moc_PortId := "mock"; moc_ChannelId := "channel-1"; moc_ProofAck := SentinelProof;
     moc_ProofHeight := zero; moc_Signer := "r" |}.

Definition chain_genesis : Chain := final (genesis empty_chain).
Definition chain_init (o : Order) : Chain := final (Msg_ChannelOpenInit mock_router ctx0 (msg_open_init o) chain_genesis).
Definition chain_try (o : Order) : Chain := final (Msg_ChannelOpenTry mock_router ctx0 (msg_open_try o) (chain_init o)).
Definition chain_ack (o : Order) : Chain := final (Msg_ChannelOpenAck mock_router ctx0 msg_open_ack (chain_try o)).
Definition chain_open (o : Order) : Chain := final (Msg_ChannelOpenConfirm mock_router ctx0 msg_open_confirm (chain_ack o)).

Definition chan_cap (channelID : string) (s : Chain) : option Capability :=
  match GetCapability "mock" (ChannelCapabilityPath "mock" channelID) s with
  | (Ok c, _) => c
  | _ => None
  end.

Definition send (s : Chain) (data : bytes) : Outcome Z * Chain :=
  SendPacket ctx0 (chan_cap "channel-0" s) "mock" "channel-0" (mkHeight 1 100) 0 data s.

Definition packet1 (data : bytes) : Packet :=
  NewPacket data 1 "mock" "channel-0" "mock" "channel-1" (mkHeight 1 100) 0.

(** ** Its reachable states *)

Lemma run_final {A} (r : Outcome A * Chain) a : fst r = Ok a → r = (Ok a, final r).
Proof. destruct r as [o s]. by intros [= ->]. Qed.

Lemma loop_localhost s : localhost_ok s.
Proof. done. Qed.

Lemma claim_same p c cap : same_ibc (claim p c cap).
Proof. exact (ClaimCapability_same "mock" cap (ChannelCapabilityPath p c)). Qed.

Lemma mock_well_behaved : well_behaved mock_module.
Proof.
  split; intros; apply runs_same.
  - apply same_bind; [apply claim_same|by intros v' s].
  - apply same_bind; [apply claim_same|by intros v' s].
  - by intros s.
  - by intros s.
  - by intros s.
  - by intros s.
  - by intros s.
  - by intros s.
  - by intros s.
Qed.

Lemma mock_routed m cbs : GetRoute mock_router m = Some cbs → well_behaved cbs.
Proof.
  unfold GetRoute. case_match; [done|]. simpl. intros [_ <-]%lookup_singleton_Some. apply mock_well_behaved.
Qed.

Lemma no_channels_check s :
  forallb (λ kv, negb (chan_key kv.1) || bool_decide (kv.1 = KeyNextChannelSequence))
    (map_to_list (ibc s)) = true → no_channels s.
Proof.
  intros Hall k Hk Hne. destruct (ibc s !! k) as [v|] eqn:Hv; [|done].
  apply elem_of_map_to_list, list_elem_of_In in Hv. rewrite forallb_forall in Hall.
  specialize (Hall _ Hv). simpl in Hall. rewrite Hk, bool_decide_eq_false_2 in Hall; done.
Qed.

Lemma genesis_no_channels : no_channels chain_genesis.
Proof. apply no_channels_check. by vm_compute. Qed.

Lemma genesis_reachable : reachable (chain_genesis, ∅).
Proof. exists chain_genesis. split; [apply genesis_no_channels|done]. Qed.

(** Reached from genesis. *)
Definition from_genesis (s : Chain) : Prop := rtc step (chain_genesis, ∅) (s, ∅).

Lemma from_genesis_reachable s : from_genesis s → reachable (s, ∅).
Proof. intros H. exists chain_genesis. split; [apply genesis_no_channels|exact H]. Qed.

Lemma delivered_loop s s' :
  from_genesis s → delivered mock_router bech32 ctx0 s s' → from_genesis s'.
Proof.
  intros Hr Hd. unfold from_genesis. etrans; [exact Hr|].
  pose proof (reachable_inv _ (from_genesis_reachable s Hr)) as HI.
  by destruct (delivered_runs _ _ mock_routed _ _ _ ∅ HI (loop_localhost s) Hd).
Qed.

(** The two orderings. *)
Definition is_ordering (o : Order) : bool := bool_decide (o ≠ NONE).

Ltac by_running o := destruct o; [done|vm_compute; reflexivity|vm_compute; reflexivity].

Lemma init_run o : is_ordering o = true →
  Msg_ChannelOpenInit mock_router ctx0 (msg_open_init o) chain_genesis = (Ok ("channel-0", "v1"), chain_init o).
Proof. intros Ho. apply run_final. by_running o. Qed.
Lemma try_run o : is_ordering o = true →
  Msg_ChannelOpenTry mock_router ctx0 (msg_open_try o) (chain_init o) = (Ok ("channel-1", "v1"), chain_try o).
Proof. intros Ho. apply run_final. by_running o. Qed.
Lemma ack_run o : is_ordering o = true →
  Msg_ChannelOpenAck mock_router ctx0 msg_open_ack (chain_try o) = (Ok tt, chain_ack o).
Proof. intros Ho. apply run_final. by_running o. Qed.
Lemma confirm_run o : is_ordering o = true →
  Msg_ChannelOpenConfirm mock_router ctx0 msg_open_confirm (chain_ack o) = (Ok tt, chain_open o).
Proof. intros Ho. apply run_final. by_running o. Qed.

Lemma genesis_next : next_channel chain_genesis = Some 0.
Proof. by vm_compute. Qed.
Lemma init_next o : is_ordering o = true → next_channel (chain_init o) = Some 1.
Proof. intros Ho. by_running o. Qed.

Lemma open_from_genesis o : is_ordering o = true → from_genesis (chain_open o).
Proof.
  intros Ho.
  eapply delivered_loop; [|eapply delivered_open_confirm; by apply confirm_run].
  eapply delivered_loop; [|eapply delivered_open_ack; by apply ack_run].
  eapply delivered_loop; [|eapply delivered_open_try; [by rewrite init_next|by apply try_run]].
  eapply delivered_loop; [|eapply delivered_open_init; [by rewrite genesis_next|by apply init_run]].
  apply rtc_refl.
Qed.

Lemma open_reachable o : is_ordering o = true → reachable (chain_open o, ∅).
Proof. intros Ho. by apply from_genesis_reachable, open_from_genesis. Qed.

(** ** Packets on it *)

Definition cap0 (o : Order) : option Capability := chan_cap "channel-0" (chain_open o).
Definition cap1 (o : Order) : option Capability := chan_cap "channel-1" (chain_open o).
Definition hello : Packet := packet1 "hello".
Definition late : Height := mkHeight 1 100.
Definition ack1 : AppAck := mkAppAck true "ack".

Definition send_hello (o : Order) (s : Chain) : Outcome Z * Chain :=
  SendPacket ctx0 (cap0 o) "mock" "channel-0" late 0 "hello" s.
Definition chain_sent (o : Order) : Chain := final (send_hello o (chain_open o)).
Definition chain_sent2 (o : Order) : Chain := final (send_hello o (chain_sent o)).
Definition recv_hello (o : Order) (s : Chain) : Outcome () * Chain :=
  RecvPacket ctx0 (cap1 o) hello SentinelProof zero s.
Definition chain_recv (o : Order) : Chain := final (recv_hello o (chain_sent o)).
Definition chain_wack (o : Order) : Chain :=
  final (WriteAcknowledgement (cap1 o) hello (Some ack1) (chain_recv o)).
Definition chain_acked (o : Order) : Chain :=
  final (AcknowledgePacket ctx0 (cap0 o) hello "ack" SentinelProof zero (chain_wack o)).
Definition chain_timed (o : Order) : Chain := final (TimeoutExecuted (cap0 o) hello (chain_sent o)).

Section runs.
Context (o : Order) (Ho : is_ordering o = true).

Lemma send_run : send_hello o (chain_open o) = (Ok 1, chain_sent o).
Proof. apply run_final. by_running o. Qed.
Lemma send2_run : send_hello o (chain_sent o) = (Ok 2, chain_sent2 o).
Proof. apply run_final. by_running o. Qed.
Lemma recv_run : recv_hello o (chain_sent o) = (Ok tt, chain_recv o).
Proof. apply run_final. by_running o. Qed.
Lemma wack_run : WriteAcknowledgement (cap1 o) hello (Some ack1) (chain_recv o) = (Ok tt, chain_wack o).
Proof. apply run_final. by_running o. Qed.
Lemma acked_run :
  AcknowledgePacket ctx0 (cap0 o) hello "ack" SentinelProof zero (chain_wack o) = (Ok tt, chain_acked o).
Proof. apply run_final. by_running o. Qed.
Lemma timeout_executed_run : TimeoutExecuted (cap0 o) hello (chain_sent o) = (Ok tt, chain_timed o).
Proof. apply run_final. by_running o. Qed.

Lemma timeout_run :
  TimeoutPacket ctx0 hello SentinelProof late 1 (chain_sent o) =
  (Ok tt, final (TimeoutPacket ctx0 hello SentinelProof late 1 (chain_sent o))).
Proof. apply run_final. by_running o. Qed.

Lemma op_from_genesis s s' : from_genesis s → op_step s s' → from_genesis s'.
Proof. intros Hr Hop. unfold from_genesis. etrans; [exact Hr|]. by apply op_run; [apply loop_localhost|]. Qed.

Lemma sent_from_genesis : from_genesis (chain_sent o).
Proof. eapply op_from_genesis; [by apply open_from_genesis|]. eapply op_send, send_run. Qed.
Lemma hello_valid : Packet_ValidateBasic hello = Ok tt.
Proof. by vm_compute. Qed.
Lemma recv_from_genesis : from_genesis (chain_recv o).
Proof. eapply op_from_genesis; [apply sent_from_genesis|]. eapply op_recv, recv_run. apply hello_valid. Qed.
Lemma wack_from_genesis : from_genesis (chain_wack o).
Proof. eapply op_from_genesis; [apply recv_from_genesis|]. eapply op_write_ack, wack_run. Qed.

Lemma open_channel_at : channel_at "mock" "channel-0" (chain_open o) =
  Some (mkChannel OPEN o (mkCounterparty "mock" "channel-1") hops "v1").
Proof. by_running o. Qed.

End runs.

(** The localhost client is sound for the chain itself. *)
Definition itself (s : Chain) (pre : bytes) (h : Height) : KVStore := ibc s.

Lemma localhost_attests s : attests LocalhostClientID s (itself s).
Proof.
  split.
  - intros ctx cs h dt db proof pre key v kv' _ _ H. change (verification_store LocalhostClientID) with "" in H.
    destruct (proj1 (localhost_membership_iff ctx "" cs h dt db proof (NewMerklePath [pre; key]) v (ibc s)))
      as (_ & pre' & key' & [= <- <-] & Hk); [|exact Hk].
    exact (f_equal fst H).
  - intros ctx cs h dt db proof pre key kv' _ _ H. change (verification_store LocalhostClientID) with "" in H.
    destruct (proj1 (localhost_non_membership_iff ctx "" cs h dt db proof (NewMerklePath [pre; key]) (ibc s)))
      as (_ & pre' & key' & [= <- <-] & Hk); [|exact Hk].
    exact (f_equal fst H).
Qed.
