(* ===== verification/TransferLoop.v ===== *)
(** * A concrete bank and transfer application

    An instance of what the transfer application is built on: a ledger kept in the
    store of the bank, decimal integers, upper-case hashes, and codecs.  It
    satisfies the laws; on it the loopback chain sends tokens to itself. *)

From stdpp Require Import gmap strings list countable relations.
From Stdlib Require Import ZArith Lia Ascii.
From S2P Require Import Prelude GoStd Sha256 Host Chain ModuleStore Sums Height Capability Port Commitment LightClient Client Localhost ConnTypes ChanTypes Env Connection Channel ChanHandshake Packet MsgServer ChanProofs PacketProofs Frames HandshakeProofs Protocol Guarantees MsgProofs TransferTypes Transfer TransferProofs TransferSafety TransferSpecs TransferInvariant Codec Loopback.

(** ** Integers and hashes *)

Definition dec_string (n : Z) : string := FormatUint n.
Definition dec_parse (s : string) : option Z :=
  match DecimalString.NilZero.uint_of_string s with
  | Some d => let n := Z.of_N (N.of_uint d) in if n <? 2 ^ 256 then Some n else None
  | None => None
  end.

Lemma dec_roundtrip n : 0 <= n < 2 ^ 256 → dec_parse (dec_string n) = Some n.
Proof.
  intros [Hlo Hhi]. unfold dec_parse, dec_string, FormatUint.
  rewrite DecimalString.NilZero.usu.
  - rewrite DecimalN.Unsigned.of_to, Z2N.id by done.
    destruct (n <? 2 ^ 256) eqn:E; [done|]. apply Z.ltb_ge in E. lia.
  - intros Hnil. pose proof (DecimalN.Unsigned.of_to (Z.to_N n)) as Hof. rewrite Hnil in Hof.
    simpl in Hof. rewrite <- Hof in Hnil. done.
Qed.

(** Upper-case hexadecimal. *)
Definition upper_digit (n : Z) : ascii := byte_of (if n <? 10 then 48 + n else 55 + n).
Fixpoint upper_hex (s : string) : string :=
  match s with
  | EmptyString => EmptyString
  | String c s' =>
      String (upper_digit (char_code c / 16)) (String (upper_digit (char_code c mod 16)) (upper_hex s'))
  end.

Lemma upper_digit_value n : 0 <= n < 16 → hex_value (upper_digit n) = Some n.
Proof.
  intros Hn. assert (n ∈ seqZ 0 16) as Hin by (apply elem_of_seqZ; lia).
  vm_compute in Hin.
  repeat (apply elem_of_cons in Hin as [->|Hin]; [reflexivity|]). by apply elem_of_nil in Hin.
Qed.

Lemma byte_of_char c : byte_of (16 * (char_code c / 16) + char_code c mod 16) = c.
Proof.
  rewrite <- Z.div_mod by lia. unfold byte_of, char_code. pose proof (char_code_range c) as Hc.
  unfold char_code in Hc. rewrite Z.mod_small by lia. rewrite N2Z.id. apply ascii_N_embedding.
Qed.

Lemma upper_hex_decode h : DecodeString (upper_hex h) = Some h.
Proof.
  induction h as [|c h IH]; [done|]. pose proof (char_code_range c) as Hc. simpl.
  rewrite !upper_digit_value, IH.
  - by rewrite byte_of_char.
  - apply Z.mod_pos_bound. lia.
  - split; [apply Z.div_pos; lia|apply Z.div_lt_upper_bound; lia].
Qed.

(** ** Coins *)

Definition positive_coin (c : Coin) : bool := 0 <? Amount c.

(** Positive amounts of distinct denominations. *)
Definition valid_coins (cs : list Coin) : bool :=
  forallb positive_coin cs && bool_decide (NoDup (Denom <$> cs)).

Fixpoint add_coin (c : Coin) (cs : list Coin) : list Coin :=
  match cs with
  | [] => [c]
  | c' :: cs' =>
      if bool_decide (Denom c' = Denom c) then mkCoin (Denom c) (Amount c' + Amount c) :: cs'
      else c' :: add_coin c cs'
  end.
Definition add_coins (a b : list Coin) : list Coin := foldr add_coin a b.

Lemma amount_add_coin d c cs : amount_of d (add_coin c cs) = amount_of d [c] + amount_of d cs.
Proof.
  induction cs as [|c' cs IH]; simpl; [lia|]. case_bool_decide as H; simpl.
  - rewrite H. case_bool_decide; lia.
  - rewrite IH. simpl. lia.
Qed.

Lemma amount_add_coins d a b : amount_of d (add_coins a b) = amount_of d a + amount_of d b.
Proof. induction b as [|c b IH]; simpl; [lia|]. rewrite amount_add_coin, IH. simpl. lia. Qed.

Lemma denoms_add_coin d c cs :
  d ∈ (Denom <$> add_coin c cs) → d = Denom c ∨ d ∈ (Denom <$> cs).
Proof. induction cs as [|c' cs IH]; simpl; [set_solver|]. case_bool_decide; simpl; set_solver. Qed.

Lemma valid_coins_ok cs : valid_coins cs = true ↔ Forall (λ c, 0 < Amount c) cs ∧ NoDup (Denom <$> cs).
Proof.
  unfold valid_coins. rewrite andb_true_iff, bool_decide_eq_true, forallb_forall, Forall_forall.
  setoid_rewrite <- list_elem_of_In. unfold positive_coin. setoid_rewrite Z.ltb_lt. done.
Qed.

Lemma valid_add_coin c cs : 0 < Amount c → valid_coins cs = true → valid_coins (add_coin c cs) = true.
Proof.
  intros Hc. rewrite !valid_coins_ok. induction cs as [|c' cs IH]; simpl.
  - intros _. split; [by constructor|apply NoDup_singleton].
  - intros [[Hc' Hp]%Forall_cons [Hin Hn]%NoDup_cons]. case_bool_decide as Hd; simpl.
    + split; [constructor; [simpl; lia|done]|]. constructor; [by rewrite <- Hd|done].
    + destruct IH as [IH1 IH2]; [done|]. split; [by constructor|]. constructor; [|done].
      intros [Hx|Hx]%denoms_add_coin; [by apply Hd|by apply Hin].
Qed.

Lemma valid_add_coins a b : valid_coins a = true → valid_coins b = true → valid_coins (add_coins a b) = true.
Proof.
  intros Ha [Hp _]%valid_coins_ok. induction Hp as [|c b Hc Hp IH]; simpl; [done|]. by apply valid_add_coin.
Qed.

Lemma valid_coins_amount cs c :
  valid_coins cs = true → c ∈ cs → 0 < Amount c ∧ amount_of (Denom c) cs = Amount c.
Proof.
  intros [Hp Hn]%valid_coins_ok Hc. split.
  - by eapply Forall_forall in Hp.
  - clear Hp. induction cs as [|c' cs IH]; [by apply not_elem_of_nil in Hc|]. simpl in Hn.
    apply NoDup_cons in Hn as [Hin Hn]. apply elem_of_cons in Hc as [->|Hc]; simpl.
    + rewrite bool_decide_eq_true_2 by done. enough (amount_of (Denom c') cs = 0) by lia.
      clear IH Hn. induction cs as [|b cs IH]; [done|]. simpl in *.
      rewrite bool_decide_eq_false_2 by set_solver. rewrite IH; set_solver.
    + rewrite bool_decide_eq_false_2; [by rewrite IH|]. intros Hd. apply Hin. rewrite Hd.
      by apply list_elem_of_fmap_2.
Qed.

Definition loop_sdk : SdkTypes := {|
  NewIntFromString := dec_parse;
  Int_String := dec_string;
  ValidateDenom _ := Ok tt;
  HexBytes_String := upper_hex;
  ValidateHash h := bool_decide (String.length h = 32%nat);
  NewCoin d a := if a <? 0 then Panic else Ok (mkCoin d a);
  Coin_IsValid c := 0 <=? Amount c;
  Coin_Add a b := if bool_decide (Denom a = Denom b) then Ok (mkCoin (Denom a) (Amount a + Amount b)) else Panic;
  Coin_Sub a b := if bool_decide (Denom a = Denom b) && (Amount b <=? Amount a)
                  then Ok (mkCoin (Denom a) (Amount a - Amount b)) else Panic;
  NewCoins cs := if forallb (λ c, 0 <=? Amount c) cs && bool_decide (NoDup (Denom <$> cs))
                 then Ok (List.filter positive_coin cs) else Panic;
  Coins_Add a b := Ok (add_coins a b);
  Coins_Validate cs := check (valid_coins cs) errUnregistered;
  IsAllGTE a b := forallb (λ c, amount_of (Denom c) b <=? amount_of (Denom c) a) b
|}.

Lemma loop_sdk_laws : @SdkTypesLaws loop_sdk.
Proof.
  split; simpl.
  - exact dec_roundtrip.
  - exact upper_hex_decode.
  - intros h Hh. by apply bool_decide_eq_true_2.
  - intros d a c. destruct (Z.ltb_spec a 0); [done|]. by intros [= <-].
  - intros a b c. case_bool_decide; [|done]. by intros [= <-].
  - intros a b c. destruct (bool_decide _), (Z.leb_spec (Amount b) (Amount a)); [|done..]. by intros [= <-].
  - intros c cs. rewrite !andb_true_r. destruct (Z.leb_spec 0 (Amount c)); [|done]. intros [= <-] d.
    unfold positive_coin. destruct (Z.ltb_spec 0 (Amount c)); simpl; [done|]. case_bool_decide; lia.
  - done.
  - intros c _ Hc. rewrite (proj2 (valid_coins_ok [c])); [done|]. split; [by constructor|apply NoDup_singleton].
  - intros a b cs Ha%check_ok Hb%check_ok [= <-]. split; [|intros; apply amount_add_coins].
    by rewrite valid_add_coins.
  - intros a b _ _ H. apply forallb_forall. intros c _. apply Z.leb_le, H.
Qed.

(** ** The ledger *)

Record Ledger := mkLedger { balances : gmap (string * string) N; supplies : gmap string N }.
#[export] Instance Ledger_eq_dec : EqDecision Ledger.
Proof. solve_decision. Defined.
#[export] Instance Ledger_countable : Countable Ledger.
Proof.
  refine (inj_countable' (λ l, (map_to_list (balances l), map_to_list (supplies l)))
    (λ '(a, b), mkLedger (list_to_map a) (list_to_map b)) _).
  intros [a b]. by rewrite !list_to_map_to_list.
Defined.

#[local] Instance ledger_proto : Proto Ledger := countable_proto Ledger.
#[local] Instance ledger_laws : ProtoLaws Ledger := countable_proto_laws Ledger.

Definition read_ledger (kv : KVStore) : option Ledger :=
  match kv !! "ledger" with Some bz => Unmarshal bz | None => None end.
Definition ledger (s : Chain) : Ledger :=
  default (mkLedger ∅ ∅) (match stores s !! "bank" with Some kv => read_ledger kv | None => None end).
Definition set_ledger (l : Ledger) (s : Chain) : Chain :=
  mkChain (ibc s) (capstore s) (memstore s) (capMap s) (heap s)
    (<["bank" := {[ "ledger" := Marshal l ]}]> (stores s)).

Lemma ledger_set l s : ledger (set_ledger l s) = l.
Proof.
  unfold ledger, set_ledger, read_ledger. cbn [stores]. rewrite lookup_insert_eq, lookup_singleton_eq.
  by rewrite unmarshal_marshal.
Qed.

Definition balance (l : Ledger) (a d : string) : Z := Z.of_N (default 0%N (balances l !! (a, d))).
Definition supply (l : Ledger) (d : string) : Z := Z.of_N (default 0%N (supplies l !! d)).
Definition put_balance (a d : string) (n : Z) (l : Ledger) : Ledger :=
  mkLedger (<[(a, d) := Z.to_N n]> (balances l)) (supplies l).
Definition put_supply (d : string) (n : Z) (l : Ledger) : Ledger :=
  mkLedger (balances l) (<[d := Z.to_N n]> (supplies l)).

Lemma balance_put a d n l a' d' :
  0 <= n → balance (put_balance a d n l) a' d' = if bool_decide (a' = a ∧ d' = d) then n else balance l a' d'.
Proof.
  intros Hn. unfold balance, put_balance. simpl. case_bool_decide as H.
  - destruct H as [-> ->]. rewrite lookup_insert_eq. simpl. lia.
  - rewrite lookup_insert_ne; [done|]. intros [= -> ->]. by apply H.
Qed.

Lemma supply_put d n l d' : 0 <= n → supply (put_supply d n l) d' = if bool_decide (d' = d) then n else supply l d'.
Proof.
  intros Hn. unfold supply, put_supply. simpl. case_bool_decide as H.
  - subst. rewrite lookup_insert_eq. simpl. lia.
  - by rewrite lookup_insert_ne.
Qed.

Definition ErrInsufficient : error := mkError "sdk" 5.
Definition ErrBlocked : error := mkError "sdk" 4.

(** Take from an account, give to one; issue and retire. *)
Definition take (a : string) (c : Coin) (l : Ledger) : option Ledger :=
  if (0 <=? Amount c) && (Amount c <=? balance l a (Denom c))
  then Some (put_balance a (Denom c) (balance l a (Denom c) - Amount c) l) else None.
Definition give (a : string) (c : Coin) (l : Ledger) : option Ledger :=
  if 0 <=? Amount c then Some (put_balance a (Denom c) (balance l a (Denom c) + Amount c) l) else None.
Definition issue (c : Coin) (l : Ledger) : option Ledger :=
  if 0 <=? Amount c then Some (put_supply (Denom c) (supply l (Denom c) + Amount c) l) else None.
Definition retire (c : Coin) (l : Ledger) : option Ledger :=
  if (0 <=? Amount c) && (Amount c <=? supply l (Denom c))
  then Some (put_supply (Denom c) (supply l (Denom c) - Amount c) l) else None.

Fixpoint each_coin (f : Coin → Ledger → option Ledger) (cs : list Coin) (l : Ledger) : option Ledger :=
  match cs with
  | [] => Some l
  | c :: cs' => f c l ≫= each_coin f cs'
  end.
Definition on_ledger (f : Coin → Ledger → option Ledger) (cs : list Coin) : M () := λ s,
  match each_coin f cs (ledger s) with
  | Some l => (Ok tt, set_ledger l s)
  | None => (Err ErrInsufficient, s)
  end.

Definition module_address (m : string) : Address := "module/" +:+ m.

Definition account_coins (l : Ledger) (a : string) : list Coin :=
  omap (λ e : string * string * N, if bool_decide (e.1.1 = a) && negb (e.2 =? 0)%N
                                   then Some (mkCoin e.1.2 (Z.of_N e.2)) else None)
    (map_to_list (balances l)).

Definition loop_bank : BankKeeper := {|
  bank_storeKey := "bank";
  GetModuleAddress := module_address;
  GetBalance s := balance (ledger s);
  GetSupply s := supply (ledger s);
  GetAllBalances s := account_coins (ledger s);
  BlockedAddr a := HasPrefix a "module/";
  IsSendEnabledCoin _ _ := true;
  SendCoins _ a b := on_ledger (λ c l, take a c l ≫= give b c);
  MintCoins _ m := on_ledger (λ c l, issue c l ≫= give (module_address m) c);
  BurnCoins _ m := on_ledger (λ c l, take (module_address m) c l ≫= retire c);
  SendCoinsFromModuleToAccount _ m b cs :=
    require (negb (HasPrefix b "module/")) ErrBlocked;;
    on_ledger (λ c l, take (module_address m) c l ≫= give b c) cs;
  SendCoinsFromAccountToModule _ a m := on_ledger (λ c l, take a c l ≫= give (module_address m) c)
|}.

(** *** Its laws *)

Definition shifted (x : Address → string → Z) (y : string → Z) (l l' : Ledger) : Prop :=
  (∀ a d, balance l' a d = balance l a d + x a d) ∧ (∀ d, supply l' d = supply l d + y d).

Lemma shifted_trans x y x' y' l l1 l2 :
  shifted x y l l1 → shifted x' y' l1 l2 → shifted (λ a d, x a d + x' a d) (λ d, y d + y' d) l l2.
Proof. intros [H1 H2] [H3 H4]. split; intros; [rewrite H3, H1|rewrite H4, H2]; lia. Qed.

Lemma at_key (a' a d' d : string) n : (if bool_decide (a' = a ∧ d' = d) then n else 0) =
  delta (bool_decide (a' = a)) (if bool_decide (d = d') then n else 0).
Proof. repeat case_bool_decide; simpl; naive_solver. Qed.

Lemma take_ok a c l l' :
  take a c l = Some l' →
  shifted (λ a' d, - delta (bool_decide (a' = a)) (amount_of d [c])) (λ _, 0) l l'.
Proof.
  unfold take. destruct (Z.leb_spec 0 (Amount c)), (Z.leb_spec (Amount c) (balance l a (Denom c))); [|done..].
  intros [= <-]. split; [|intros; unfold supply; simpl; lia]. intros a' d. rewrite balance_put by lia. simpl.
  rewrite Z.add_0_r, <- at_key. case_bool_decide as Hk; [destruct Hk as [-> ->]|]; lia.
Qed.

Lemma give_ok a c l l' :
  give a c l = Some l' →
  shifted (λ a' d, delta (bool_decide (a' = a)) (amount_of d [c])) (λ _, 0) l l'.
Proof.
  unfold give. destruct (Z.leb_spec 0 (Amount c)); [|done].
  assert (0 <= balance l a (Denom c)) by (unfold balance; lia).
  intros [= <-]. split; [|intros; unfold supply; simpl; lia]. intros a' d. rewrite balance_put by lia. simpl.
  rewrite Z.add_0_r, <- at_key. case_bool_decide as Hk; [destruct Hk as [-> ->]|]; lia.
Qed.

Lemma issue_ok c l l' : issue c l = Some l' → shifted (λ _ _, 0) (λ d, amount_of d [c]) l l'.
Proof.
  unfold issue. destruct (Z.leb_spec 0 (Amount c)); [|done].
  assert (0 <= supply l (Denom c)) by (unfold supply; lia).
  intros [= <-]. split; [intros; unfold balance; simpl; lia|]. intros d. rewrite supply_put by lia. simpl.
  repeat case_bool_decide; subst; simpl; try lia; congruence.
Qed.

Lemma retire_ok c l l' : retire c l = Some l' → shifted (λ _ _, 0) (λ d, - amount_of d [c]) l l'.
Proof.
  unfold retire. destruct (Z.leb_spec 0 (Amount c)), (Z.leb_spec (Amount c) (supply l (Denom c))); [|done..].
  intros [= <-]. split; [intros; unfold balance; simpl; lia|]. intros d. rewrite supply_put by lia. simpl.
  repeat case_bool_decide; subst; simpl; try lia; congruence.
Qed.

(** An operation on the ledger shifts it by what it does to each coin. *)
Lemma on_ledger_ok f x y cs s s' :
  (∀ c l l', f c l = Some l' → shifted (λ a d, x a (amount_of d [c])) (λ d, y (amount_of d [c])) l l') →
  (∀ a m n, x a (m + n) = x a m + x a n) → (∀ m n, y (m + n) = y m + y n) →
  on_ledger f cs s = (Ok tt, s') →
  shifted (λ a d, x a (amount_of d cs)) (λ d, y (amount_of d cs)) (ledger s) (ledger s').
Proof.
  intros Hf Hx Hy. unfold on_ledger. destruct (each_coin f cs (ledger s)) as [l|] eqn:Hl; [|done].
  intros [= <-]. rewrite ledger_set. revert Hl. generalize (ledger s). induction cs as [|c cs IH]; simpl; intros l0.
  - intros [= <-]. pose proof (Hy 0 0) as Hy0. split; [intros a d; pose proof (Hx a 0 0) as Hx0|intros d]; cbn [amount_of] in *; rewrite ?Z.add_0_l in *; lia.
  - intros (l1 & H1%Hf & H2%IH)%bind_Some. destruct (shifted_trans _ _ _ _ _ _ _ H1 H2) as [S1 S2].
    split; intros; [rewrite S1, <- Hx|rewrite S2, <- Hy]; simpl; by rewrite Z.add_0_r.
Qed.

Lemma on_ledger_frame f cs s : only_store "bank" s (snd (on_ledger f cs s)).
Proof.
  unfold on_ledger. destruct (each_coin f cs (ledger s)); [|done].
  split_and!; try done. intros j Hj. simpl. by rewrite lookup_insert_ne.
Qed.

Lemma transfer_ok a b cs s s' :
  on_ledger (λ c l, take a c l ≫= give b c) cs s = (Ok tt, s') →
  @moved loop_bank a b cs s s'.
Proof.
  intros H. apply (on_ledger_ok _ (λ a' n, - delta (bool_decide (a' = a)) n + delta (bool_decide (a' = b)) n)
    (λ _, 0)) in H as [H1 H2].
  - split; simpl; intros; [rewrite H1|rewrite H2]; lia.
  - intros c l l' (l1 & Ht%take_ok & Hg%give_ok)%bind_Some. exact (shifted_trans _ _ _ _ _ _ _ Ht Hg).
  - intros a' m n. repeat case_bool_decide; simpl; lia.
  - done.
Qed.

Lemma sum_balances (m : gmap (string * string) N) a d :
  sum_over (λ e : string * string * N, delta (bool_decide (e.1 = (a, d))) (Z.of_N e.2)) (map_to_list m) =
  Z.of_N (default 0%N (m !! (a, d))).
Proof.
  destruct (m !! (a, d)) as [n|] eqn:Hn.
  - rewrite (sum_over_ext _ (λ e, delta (bool_decide (e.1 = (a, d))) (Z.of_N n))).
    + apply (sum_over_one fst (map_to_list m) ((a, d), n)); [apply NoDup_fst_map_to_list|].
      by apply elem_of_map_to_list.
    + intros [k v] Hk%elem_of_map_to_list. simpl. case_bool_decide as Hkd; [|done]. subst. simpl. congruence.
  - apply sum_over_zero. intros [k v] Hk%elem_of_map_to_list. simpl. rewrite bool_decide_eq_false_2; [done|].
    intros ->. congruence.
Qed.

Lemma account_coins_ok l a :
  forallb positive_coin (account_coins l a) = true ∧ NoDup (Denom <$> account_coins l a) ∧
  ∀ d, amount_of d (account_coins l a) = balance l a d.
Proof.
  unfold account_coins, balance. split_and!.
  - apply forallb_forall. intros c Hc%list_elem_of_In.
    apply list_elem_of_omap in Hc as ([[a' d] n] & _ & Hc). simpl in Hc.
    destruct (bool_decide _), (N.eqb_spec n 0); simplify_eq/=. unfold positive_coin. simpl. apply Z.ltb_lt. lia.
  - pose proof (NoDup_fst_map_to_list (balances l)) as Hn.
    induction (map_to_list (balances l)) as [|[[a' d] n] es IH]; [constructor|].
    rewrite fmap_cons in Hn. apply NoDup_cons in Hn as [He Hn]. specialize (IH Hn). simpl.
    case_bool_decide as Ha; [|done]. destruct (negb _); [|done]. simpl. subst a'.
    apply NoDup_cons. split; [|done]. intros (c & -> & ([[a' d'] n'] & Hin & Hc)%list_elem_of_omap)%list_elem_of_fmap.
    simpl in Hc. case_bool_decide as Ha; [|done]. destruct (negb _); [|done]. simplify_eq/=.
    apply He. apply list_elem_of_fmap. by exists ((a, d'), n').
  - intros d. rewrite <- sum_balances. induction (map_to_list (balances l)) as [|[[a' d'] n] es IH]; [done|].
    cbn [omap list_omap sum_over foldr fst snd]. fold (sum_over (λ e : string * string * N, delta (bool_decide (e.1 = (a, d))) (Z.of_N e.2)) es).
    rewrite <- IH. destruct (decide (a' = a)) as [->|Ha].
    + rewrite bool_decide_eq_true_2 by done. destruct (N.eqb_spec n 0) as [->|Hn]; simpl.
      * destruct (bool_decide _); simpl; done.
      * f_equal. repeat case_bool_decide; simpl; naive_solver.
    + rewrite (bool_decide_eq_false_2 (a' = a)) by done. simpl.
      rewrite bool_decide_eq_false_2 by (by intros [= -> ->]). simpl. done.
Qed.

Lemma loop_bank_laws : @BankLaws loop_bank loop_sdk.
Proof.
  split; simpl.
  - intros s s' Hs. unfold ledger. by rewrite Hs.
  - intros. apply on_ledger_frame.
  - intros. apply on_ledger_frame.
  - intros. apply on_ledger_frame.
  - intros ctx m a cs s. destruct (HasPrefix a "module/"); [done|]. apply on_ledger_frame.
  - intros. apply on_ledger_frame.
  - intros ctx a b cs s s'. apply transfer_ok.
  - intros ctx m cs s s' H. apply (on_ledger_ok _ (λ a n, delta (bool_decide (a = module_address m)) n) (λ n, n)) in H as [H1 H2].
    + split; simpl; intros; [by rewrite H1|by rewrite H2].
    + intros c l l' (l1 & Ht%issue_ok & Hg%give_ok)%bind_Some.
      destruct (shifted_trans _ _ _ _ _ _ _ Ht Hg) as [S1 S2]. split; intros; [rewrite S1|rewrite S2]; lia.
    + intros a p q. case_bool_decide; simpl; lia.
    + done.
  - intros ctx m cs s s' H. apply (on_ledger_ok _ (λ a n, - delta (bool_decide (a = module_address m)) n) (λ n, - n)) in H as [H1 H2].
    + split; simpl; intros; [rewrite H1|rewrite H2]; lia.
    + intros c l l' (l1 & Ht%take_ok & Hg%retire_ok)%bind_Some.
      destruct (shifted_trans _ _ _ _ _ _ _ Ht Hg) as [S1 S2]. split; intros; [rewrite S1|rewrite S2]; lia.
    + intros a p q. case_bool_decide; simpl; lia.
    + intros p q. lia.
  - intros ctx m a cs s s' ([] & ? & [_ ->]%require_ok & H)%bind_ok. by apply transfer_ok.
  - intros ctx a m cs s s'. apply transfer_ok.
  - intros s a d. unfold balance. lia.
  - intros s a. destruct (account_coins_ok (ledger s) a) as (H1 & H2 & H3). unfold valid_coins.
    by rewrite H1, bool_decide_eq_true_2.
Qed.

(** ** The application *)

#[export] Instance DenomTrace_countable : Countable DenomTrace.
Proof. refine (inj_countable' (λ t, (Path t, BaseDenom t)) (λ '(a, b), mkDenomTrace a b) _). by intros []. Defined.
#[export] Instance TransferParams_eq_dec : EqDecision TransferParams.
Proof. solve_decision. Defined.
#[export] Instance TransferParams_countable : Countable TransferParams.
Proof. refine (inj_countable' (λ t, (SendEnabled t, ReceiveEnabled t)) (λ '(a, b), mkTransferParams a b) _). by intros []. Defined.
#[export] Instance PacketData_eq_dec : EqDecision FungibleTokenPacketData.
Proof. solve_decision. Defined.
#[export] Instance PacketData_countable : Countable FungibleTokenPacketData.
Proof.
  refine (inj_countable' (λ t, ((ft_Denom t, ft_Amount t), (ft_Sender t, ft_Receiver t, ft_Memo t)))
    (λ '((a, b), (c, d, e)), mkPacketData a b c d e) _). by intros [].
Defined.
#[export] Instance Response_eq_dec : EqDecision Response.
Proof. solve_decision. Defined.
#[export] Instance Acknowledgement_eq_dec : EqDecision Acknowledgement.
Proof. solve_decision. Defined.
Definition response_sum (r : Response) : string + string := match r with Result_ x => inl x | Error_ x => inr x end.
Definition sum_response (x : string + string) : Response := match x with inl x => Result_ x | inr x => Error_ x end.
#[export] Instance Response_countable : Countable Response.
Proof. refine (inj_countable' response_sum sum_response _). by intros []. Defined.
#[export] Instance Acknowledgement_countable : Countable Acknowledgement.
Proof. refine (inj_countable' ack_Response mkAck _). by intros []. Defined.

#[export] Instance loop_accounts : AccountTypes := {|
  AccAddressFromBech32 str := if is_blank str then None else Some str;
  AccAddress_String a := a
|}.

#[export] Instance loop_transfer : TransferEnv := {|
  tr_sdk := loop_sdk;
  tr_bank := loop_bank;
  tr_accounts := loop_accounts;
  tr_storeKey := "transfer";
  tr_params := countable_proto TransferParams;
  tr_trace := countable_proto DenomTrace;
  tr_int := countable_proto Z;
  PacketData_GetBytes := Marshal (Proto := countable_proto FungibleTokenPacketData);
  PacketData_UnmarshalJSON := Unmarshal (Proto := countable_proto FungibleTokenPacketData);
  Ack_GetBytes := Marshal (Proto := countable_proto Acknowledgement);
  Ack_UnmarshalJSON := Unmarshal (Proto := countable_proto Acknowledgement)
|}.

#[export] Instance loop_transfer_laws : TransferLaws.
Proof.
  split.
  - apply loop_sdk_laws.
  - apply loop_bank_laws.
  - done.
  - apply countable_proto_laws.
  - apply countable_proto_laws.
  - intros dt _. apply (marshal_nonempty (ProtoNonEmpty := countable_proto_nonempty DenomTrace)).
  - apply countable_proto_laws.
  - apply countable_proto_nonempty.
  - intros str a. simpl. destruct (is_blank str) eqn:Hb; [done|]. intros [= <-]. by rewrite Hb.
Qed.

(** ** A chain with it *)

Definition transfer_router : Router IBCModule := mkRouter {[ "transfer" := transfer_module ]} true.

Definition transfer_genesis : M () :=
  InitializeIndex 1;;
  InitMemStore;;
  Client_InitGenesis ctx0 (mkClientGenesis [] [] [] DefaultClientParams 0);;
  Conn_InitGenesis (mkConnGenesis [] [] 0 DefaultConnParams);;
  Chan_InitGenesis (mkChanGenesis [] [] [] [] [] [] [] 0);;
  Transfer_InitGenesis DefaultGenesisState.

Definition t_open_init : MsgChannelOpenInit :=
  {| moi_PortId := "transfer"; moi_Signer := "r";
     moi_Channel := mkChannel INIT UNORDERED (mkCounterparty "transfer" "") hops "ics20-1" |}.
Definition t_open_try : MsgChannelOpenTry :=
  {| mot_PortId := "transfer"; mot_PreviousChannelId := "";
     mot_Channel := mkChannel TRYOPEN UNORDERED (mkCounterparty "transfer" "channel-0") hops "";
     mot_CounterpartyVersion := "ics20-1"; mot_ProofInit := SentinelProof; mot_ProofHeight := zero;
     mot_Signer := "r" |}.
Definition t_open_ack : MsgChannelOpenAck :=
  {| moa_PortId := "transfer"; moa_ChannelId := "channel-0"; moa_CounterpartyChannelId := "channel-1";
     moa_CounterpartyVersion := "ics20-1"; moa_ProofTry := SentinelProof; moa_ProofHeight := zero;
     moa_Signer := "r" |}.
Definition t_open_confirm : MsgChannelOpenConfirm :=
  {| moc_PortId := "transfer"; moc_ChannelId := "channel-1"; moc_ProofAck := SentinelProof;
     moc_ProofHeight := zero; moc_Signer := "r" |}.

(** Alice has a hundred atoms. *)
Definition t_genesis : Chain := Eval vm_compute in final (transfer_genesis empty_chain).
Definition t_open : Chain := Eval vm_compute in
  final ((Msg_ChannelOpenInit transfer_router ctx0 t_open_init;;
          Msg_ChannelOpenTry transfer_router ctx0 t_open_try;;
          Msg_ChannelOpenAck transfer_router ctx0 t_open_ack;;
          Msg_ChannelOpenConfirm transfer_router ctx0 t_open_confirm) t_genesis).
Definition t_funded : Chain := Eval vm_compute in
  set_ledger (put_supply "uatom" 100 (put_balance "alice" "uatom" 100 (ledger t_open))) t_open.
Definition t_msg : MsgTransfer :=
  mkMsgTransfer "transfer" "channel-0" (mkCoin "uatom" 30) "alice" "bob" late 0 "".

Example transfer_runs :
  MsgTransfer_ValidateBasic AccAddressFromBech32 t_msg = Ok tt ∧
  fst (Transfer channel_ics4 ctx0 t_msg t_funded) = Ok 1.
Proof. by vm_compute. Qed.
