(* ===== verification/IcaLoop.v ===== *)
(** * Interchain accounts on a concrete chain

    What the submodules are built on, instantiated: accounts kept in a store of their
    own, addresses in hexadecimal, messages that leave a note or open a channel.  The
    loopback chain is controller and host at once: Alice's port opens a channel to the
    host over the localhost connection and sends a transaction to it. *)

From stdpp Require Import gmap strings list countable relations.
From Stdlib Require Import ZArith Lia Ascii.
From S2P Require Import Prelude GoStd Sha256 Host Chain ModuleStore Height Capability Port Commitment LightClient Client Localhost ConnTypes ChanTypes Env Connection Channel ChanHandshake Packet MsgServer CoreMsgs ChanProofs PacketProofs Frames HandshakeProofs Protocol Guarantees MsgProofs Security TransferTypes FeeTypes Transfer TransferSpecs IcaTypes Ica IcaProofs IcaSpecs Codec Loopback TransferLoop.

(** ** The environment *)

Definition metadata_fields (m : IcaMetadata) : list string :=
  [im_Version m; im_ControllerConnectionId m; im_HostConnectionId m; im_Address m; im_Encoding m; im_TxType m].
Definition read_metadata (bz : bytes) : option IcaMetadata :=
  match read_fields bz with
  | Some [a; b; c; d; e; f] => Some (mkIcaMetadata a b c d e f)
  | _ => None
  end.
Lemma read_metadata_fields m : read_metadata (put_fields (metadata_fields m)) = Some m.
Proof. unfold read_metadata. rewrite read_put_fields. by destruct m. Qed.

Definition packet_fields (d : IcaPacketData) : list string :=
  [match ip_Type d with UNSPECIFIED => "0" | EXECUTE_TX => "1" | UnknownType _ => "2" end; ip_Data d; ip_Memo d].
Definition read_packet (bz : bytes) : option IcaPacketData :=
  match read_fields bz with
  | Some ["0"; b; c] => Some (mkIcaPacketData UNSPECIFIED b c)
  | Some ["1"; b; c] => Some (mkIcaPacketData EXECUTE_TX b c)
  | Some ["2"; b; c] => Some (mkIcaPacketData (UnknownType 2) b c)
  | _ => None
  end.

(** A transaction: the signers and the texts. *)
Fixpoint pairs (l : list string) : option (list (string * string)) :=
  match l with
  | [] => Some []
  | a :: b :: l => ((a, b) ::.) <$> pairs l
  | _ => None
  end.

#[export] Instance ControllerParams_eq_dec : EqDecision ControllerParams.
Proof. solve_decision. Defined.
#[export] Instance ControllerParams_countable : Countable ControllerParams.
Proof. refine (inj_countable' ControllerEnabled mkControllerParams _). by intros []. Defined.
#[export] Instance HostParams_eq_dec : EqDecision HostParams.
Proof. solve_decision. Defined.
#[export] Instance HostParams_countable : Countable HostParams.
Proof. refine (inj_countable' (λ p, (HostEnabled p, AllowMessages p)) (λ '(a, b), mkHostParams a b) _). by intros []. Defined.

(** Addresses are printed as they are. *)
Definition loop_addresses : AccountTypes := {|
  AccAddressFromBech32 str := if bool_decide (str = "") then None else Some str;
  AccAddress_String a := a
|}.

(** A base account is an address and a number; an account may have an owner. *)
Definition loop_auth : AuthTypes := {|
  BaseAccount := string * Z;
  ba_Address a := a.1;
  NewBaseAccountWithAddress a := (a, 0);
  BaseAccount_Validate _ := Ok tt;
  address_Module m k := m +:+ "/" +:+ k;
  address_Derive _ k := "A" +:+ upper_hex k;
  NewModuleAddress m := "module/" +:+ m
|}.

Definition loop_ica_codec : IcaCodec := {|
  IcaMetadata_MarshalJSON := λ m, put_fields (metadata_fields m);
  IcaMetadata_UnmarshalJSON := read_metadata;
  IcaPacketData_GetBytes := λ d, put_fields (packet_fields d);
  IcaPacketData_UnmarshalJSON := read_packet;
  IcaAck_GetBytes a := match ack_Response a with Some (Result_ bz) => bz | _ => "error" end
|}.

(** The messages of the chain: a signer leaves a note, or a channel is opened. *)
Inductive LoopMsg := Note (signer text : string) | Open (msg : MsgChannelOpenInit).

Definition loop_msgs : SdkMessages := {|
  SdkMsg := LoopMsg;
  AnyMsg := string * string;
  MsgResponse := string;
  MsgTypeURL m := match m with Note _ _ => "/note" | Open _ => "/open" end;
  Msg_ValidateBasic m := match m with Note _ t => check (negb (is_blank t)) ErrInvalidRequest | Open _ => Ok tt end;
  Msg_GetSigners m := match m with Note a _ => Ok [a] | Open m => Ok [moi_Signer m] end;
  cdc_is_proto := true;
  NewAnyWithValue m := match m with Note a t => Ok (a, t) | Open _ => Err ErrInvalidType end;
  CosmosTx_Marshal l := Ok (put_fields (l ≫= λ a, [a.1; a.2]));
  CosmosTx_Unmarshal bz := read_fields bz ≫= pairs;
  UnpackAny a := Some (Note a.1 a.2);
  TxMsgData_Marshal l := Ok (put_fields l);
  open_init_msg := Open;
  open_init_response := Some
|}.

(** Accounts by address: the owner of an interchain account, and the number. *)
Record LoopAccount := mkLoopAccount { la_Address : string; la_Owner : option string; la_Number : Z }.
#[export] Instance LoopAccount_eq_dec : EqDecision LoopAccount.
Proof. solve_decision. Defined.
#[export] Instance LoopAccount_countable : Countable LoopAccount.
Proof. refine (inj_countable' (λ a, (la_Address a, la_Owner a, la_Number a)) (λ '(a, b, c), mkLoopAccount a b c) _). by intros []. Defined.
#[local] Instance account_proto : Proto LoopAccount := countable_proto LoopAccount.
#[local] Instance account_laws : ProtoLaws LoopAccount := countable_proto_laws LoopAccount.

#[export] Instance loop_ica : IcaEnv := {|
  ica_accounts := loop_addresses;
  ica_auth := loop_auth;
  ica_codec := loop_ica_codec;
  ica_msgs := loop_msgs;
  controller_storeKey := "icacontroller";
  host_storeKey := "icahost";
  ica_cparams := countable_proto ControllerParams;
  ica_hparams := countable_proto HostParams;
  auth_storeKey := "acc";
  AccountI := LoopAccount;
  acc_GetAddress := la_Address;
  of_interchain ia := mkLoopAccount (ia_BaseAccount ia).1 (Some (ia_AccountOwner ia)) (ia_BaseAccount ia).2;
  as_interchain a := (λ o, mkInterchainAccount (H := loop_auth) (la_Address a, la_Number a) o) <$> la_Owner a;
  acc_GetAccount s a := mod_store "acc" s !! a ≫= Unmarshal;
  acc_NewAccount _ a := gets (λ s, mkLoopAccount (la_Address a) (la_Owner a) (Z.of_nat (size (mod_store "acc" s))));
  acc_SetAccount _ a := mod_set "acc" (la_Address a) (Marshal a)
|}.

#[export] Instance loop_ica_laws : IcaLaws.
Proof.
  split; simpl.
  - done.
  - done.
  - apply countable_proto_laws.
  - apply countable_proto_laws.
  - exact read_metadata_fields.
  - done.
  - intros a Ha. by rewrite bool_decide_eq_false_2.
  - done.
  - done.
  - by intros [[a n] o].
  - intros s s' a Hs. unfold mod_store. by rewrite Hs.
  - intros ctx a s. apply only_store_refl.
  - intros ctx a s. apply only_store_set.
  - intros ctx a s a' s' [= <- <-]. simpl. split_and!; [done| |done]. by destruct (la_Owner a).
  - intros ctx a s s' b [= <-]. rewrite mod_store_set. case_bool_decide as Hb.
    + subst b. rewrite lookup_insert_eq. apply (unmarshal_marshal (ProtoLaws := account_laws)).
    + by rewrite lookup_insert_ne.
Qed.

(** ** The chain *)

Definition ica_ics4 : ICS4Wrapper := channel_ics4.
Definition controller_module : IBCModule := controller_middleware ica_ics4 None.

(** A note is written to a store of its own. *)
Definition leave_note (signer text : string) (ctx : Context) : M (list (option string)) :=
  mod_set "notes" signer text;; mret [Some ("noted " +:+ text)].

#[export] Instance loop_handlers : MessageRouter := {|
  Handler m := match m with Note a t => Some (leave_note a t) | Open _ => None end |}.

Definition ica_router : Router IBCModule :=
  mkRouter (<["icacontroller" := controller_module]> {[ "icahost" := host_module ica_ics4 ]}) true.

(** The router of a chain on which owners register: it opens channels as well. *)
Definition opening_handlers : MessageRouter := {|
  Handler m := match m with
    | Note a t => Some (leave_note a t)
    | Open m => Some (λ ctx, '(channelID, version) ← Msg_ChannelOpenInit ica_router ctx m; mret [Some channelID])
    end |}.

Definition port : string := "icacontroller-alice".
Definition account : string := "A" +:+ upper_hex (LocalhostConnectionID +:+ port).

(** Genesis of the two submodules, and the port of Alice bound by the controller. *)
Definition i_start : Chain :=
  final ((Controller_InitGenesis DefaultControllerGenesis;; Host_InitGenesis DefaultHostGenesis) chain_genesis).
Definition i_register : Outcome (string * string) * Chain :=
  Msg_RegisterInterchainAccount (R := opening_handlers) ctx0
    (mkMsgRegisterInterchainAccount "alice" LocalhostConnectionID "") i_start.

(** What registering does before it opens the channel, which is a message of its own. *)
Definition i_bound : Chain :=
  final ((SetMiddlewareDisabled port LocalhostConnectionID;;
          capability ← Controller_BindPort port;
          Controller_ClaimCapability (Some capability) (PortPath port)) i_start).
Definition i_msg_init : MsgChannelOpenInit :=
  NewMsgChannelOpenInit port "" ORDERED hops HostPortID "module/interchainaccounts".
Definition i_init : Chain :=  final (Msg_ChannelOpenInit ica_router ctx0 i_msg_init i_bound).

Definition i_version0 : string := IcaMetadata_MarshalJSON (NewDefaultMetadata LocalhostConnectionID LocalhostConnectionID).
Definition i_version : string :=
  IcaMetadata_MarshalJSON (set_Address account (NewDefaultMetadata LocalhostConnectionID LocalhostConnectionID)).
Definition i_msg_try : MsgChannelOpenTry :=
  {| mot_PortId := HostPortID; mot_PreviousChannelId := "";
     mot_Channel := mkChannel TRYOPEN ORDERED (mkCounterparty port "channel-0") hops "";
     mot_CounterpartyVersion := i_version0; mot_ProofInit := SentinelProof; mot_ProofHeight := zero; mot_Signer := "r" |}.
Definition i_try : Chain :=  final (Msg_ChannelOpenTry ica_router ctx0 i_msg_try i_init).
Definition i_msg_ack : MsgChannelOpenAck :=
  {| moa_PortId := port; moa_ChannelId := "channel-0"; moa_CounterpartyChannelId := "channel-1";
     moa_CounterpartyVersion := i_version; moa_ProofTry := SentinelProof; moa_ProofHeight := zero; moa_Signer := "r" |}.
Definition i_ack : Chain :=  final (Msg_ChannelOpenAck ica_router ctx0 i_msg_ack i_try).
Definition i_msg_confirm : MsgChannelOpenConfirm :=
  {| moc_PortId := HostPortID; moc_ChannelId := "channel-1"; moc_ProofAck := SentinelProof;
     moc_ProofHeight := zero; moc_Signer := "r" |}.
Definition i_open : Chain :=  final (Msg_ChannelOpenConfirm ica_router ctx0 i_msg_confirm i_ack).

(** Registering is those two things. *)
Example register_run :
  fst i_register = Ok ("channel-0", port) ∧ ibc (final i_register) = ibc i_init ∧ stores (final i_register) = stores i_init.
Proof. split_and!; [vm_compute; reflexivity|apply (bool_decide_eq_true_1 _); vm_compute; reflexivity..]. Qed.
Lemma i_init_run : Msg_ChannelOpenInit ica_router ctx0 i_msg_init i_bound = (Ok ("channel-0", i_version0), i_init).
Proof. unfold i_init. apply run_final. vm_compute. reflexivity. Qed.
Lemma i_try_run : Msg_ChannelOpenTry ica_router ctx0 i_msg_try i_init = (Ok ("channel-1", i_version), i_try).
Proof. unfold i_try. apply run_final. vm_compute. reflexivity. Qed.
Lemma i_ack_run : Msg_ChannelOpenAck ica_router ctx0 i_msg_ack i_try = (Ok tt, i_ack).
Proof. unfold i_ack. apply run_final. vm_compute. reflexivity. Qed.
Lemma i_confirm_run : Msg_ChannelOpenConfirm ica_router ctx0 i_msg_confirm i_ack = (Ok tt, i_open).
Proof. unfold i_open. apply run_final. vm_compute. reflexivity. Qed.

(** ** A transaction *)

Definition tx_of (msgs : list LoopMsg) : IcaPacketData :=
  mkIcaPacketData EXECUTE_TX (match SerializeCosmosTx (H := loop_msgs) msgs with Ok bz => bz | _ => "" end) "".
Definition i_notes : list LoopMsg := [Note account "hello"; Note account "world"].
Definition i_send (msgs : list LoopMsg) : MsgSendTx := mkMsgSendTx "alice" LocalhostConnectionID (tx_of msgs) 500.
Definition i_sent : Chain :=  final (Msg_SendTx ica_ics4 ctx0 (i_send i_notes) i_open).
Definition i_packet (msgs : list LoopMsg) : Packet :=
  NewPacket (IcaPacketData_GetBytes (tx_of msgs)) 1 port "channel-0" HostPortID "channel-1" zero 1500.
Definition host_cap : option Capability :=
  match GetCapability Host_SubModuleName (ChannelCapabilityPath HostPortID "channel-1") i_open with
  | (Ok c, _) => c
  | _ => None
  end.
Definition i_recv : Chain :=  final (RecvPacket ctx0 host_cap (i_packet i_notes) SentinelProof zero i_sent).
Definition i_answer : AppAck :=
  ica_ack (NewResultAcknowledgement (put_fields ["noted hello"; "noted world"])).
Definition i_done : Chain :=
  final (run_OnRecvPacket (host_module ica_ics4) ctx0 (i_packet i_notes) "r" i_recv).

Lemma i_send_run : Msg_SendTx ica_ics4 ctx0 (i_send i_notes) i_open = (Ok 1, i_sent).
Proof. unfold i_sent. apply run_final. vm_compute. reflexivity. Qed.
Lemma i_recv_run : RecvPacket ctx0 host_cap (i_packet i_notes) SentinelProof zero i_sent = (Ok tt, i_recv).
Proof. unfold i_recv. apply run_final. vm_compute. reflexivity. Qed.
Lemma i_done_run :
  run_OnRecvPacket (host_module ica_ics4) ctx0 (i_packet i_notes) "r" i_recv = (Ok (Some i_answer), i_done).
Proof. unfold i_done. apply run_final. vm_compute. reflexivity. Qed.
Example note_left : mod_store "notes" i_done !! account = Some "world".
Proof. vm_compute. reflexivity. Qed.

(** A transaction that acts for somebody else is refused, with its first message. *)
Example other_signer_refused :
  let r := run_OnRecvPacket (host_module ica_ics4) ctx0 (i_packet [Note account "hello"; Note "bob" "hi"]) "r" i_recv in
  fst r = Ok (Some (ica_ack (NewErrorAcknowledgement ErrUnauthorized))) ∧ mod_store "notes" (final r) = ∅.
Proof. vm_compute. split; reflexivity. Qed.
