(* ===== verification/Witnesses.v ===== *)
(** * The theorems on a concrete chain

    Every theorem with hypotheses, applied to the loopback chain: the hypotheses
    hold there by computation. *)

From stdpp Require Import gmap strings list relations.
From Stdlib Require Import ZArith Lia Ascii.
From S2P Require Import Prelude GoStd Sha256 Host Chain Height Capability CapabilityProofs CapabilityGenesis Port Commitment LightClient Client Localhost ConnTypes ChanTypes Env Connection Channel ChanHandshake Packet MsgServer CoreMsgs ChanProofs PacketProofs Frames HandshakeProofs ClientProofs ConnProofs Protocol Guarantees CoreGenesis Specs Queries QueryProofs MsgProofs TxProofs Security Codec Loopback.

Ltac running := vm_compute; reflexivity.
Ltac u64 := split; vm_compute; congruence.

Definition loop_conn : ConnectionEnd :=
  NewConnectionEnd CONN_OPEN LocalhostClientID
    (NewConnCounterparty LocalhostClientID LocalhostConnectionID
       (NewMerklePrefix (KeyPrefix GetCommitmentPrefix))) GetCompatibleVersions 0.
Definition end0 (o : Order) : Channel := mkChannel OPEN o (mkCounterparty "mock" "channel-1") hops "v1".
Definition end1 (o : Order) : Channel := mkChannel OPEN o (mkCounterparty "mock" "channel-0") hops "v1".

(** ** Runs *)

Lemma commitments_have_channels_witness :
  is_Some (commitment_at "mock" "channel-0" 1 (chain_sent ORDERED)) ∧
  is_Some (ibc (chain_sent ORDERED) !! ChannelPath "mock" "channel-0").
Proof.
  assert (is_Some (commitment_at "mock" "channel-0" 1 (chain_sent ORDERED))) as H.
  { eexists. running. }
  split; [exact H|].
  apply (commitments_have_channels (chain_sent ORDERED, ∅) "mock" "channel-0" 1);
    [by apply from_genesis_reachable, sent_from_genesis|reflexivity|reflexivity|u64|exact H].
Defined.

Lemma send_sequences_increase_witness :
  reachable (chain_open ORDERED, ∅) ∧ 1 < 2.
Proof.
  split; [by apply open_reachable|].
  apply (send_sequences_increase (chain_open ORDERED, ∅) ctx0 (cap0 ORDERED) "mock" "channel-0" late 0
    "hello" 1 (chain_sent ORDERED) (chain_sent ORDERED, ∅) ctx0 (cap0 ORDERED) late 0 "hello" 2
    (chain_sent2 ORDERED));
    [by apply open_reachable|exact (send_run ORDERED eq_refl)|apply rtc_refl|exact (send2_run ORDERED eq_refl)].
Defined.

Lemma receive_at_most_once_witness :
  recv_hello UNORDERED (chain_sent UNORDERED) = (Ok tt, chain_recv UNORDERED) ∧
  RecvPacket ctx0 (cap1 UNORDERED) hello SentinelProof zero (chain_recv UNORDERED)
    ≠ (Ok tt, chain_recv UNORDERED).
Proof.
  split; [exact (recv_run UNORDERED eq_refl)|].
  apply (receive_at_most_once (chain_sent UNORDERED, ∅) ctx0 (cap1 UNORDERED) hello SentinelProof zero
    (chain_recv UNORDERED) (end1 UNORDERED) (chain_recv UNORDERED, ∅));
    [by apply from_genesis_reachable, sent_from_genesis|apply loop_localhost|apply hello_valid|u64|running|discriminate
    |exact (recv_run UNORDERED eq_refl)|apply rtc_refl|apply loop_localhost|reflexivity..].
Defined.

Lemma settled_at_most_once_witness :
  ¬ settled hello (chain_acked ORDERED, ∅) (chain_acked ORDERED, ∅).
Proof.
  apply (settled_at_most_once (chain_wack ORDERED, ∅) hello (chain_acked ORDERED, ∅)
    (chain_acked ORDERED, ∅));
    [by apply from_genesis_reachable, wack_from_genesis|apply loop_localhost|apply hello_valid|u64
    |eapply settled_ack; exact (acked_run ORDERED eq_refl)|apply rtc_refl|apply loop_localhost
    |reflexivity..].
Defined.

Lemma acknowledgement_written_once_witness :
  ack_at "mock" "channel-1" 1 (chain_wack ORDERED) = Some (CommitAcknowledgement "ack") ∧
  is_ok (fst (WriteAcknowledgement (cap1 ORDERED) hello (Some (mkAppAck true "other"))
    (chain_wack ORDERED))) = false.
Proof.
  destruct (acknowledgement_written_once (chain_recv ORDERED, ∅) (cap1 ORDERED) hello ack1
    (chain_wack ORDERED) (chain_wack ORDERED, ∅)) as [H1 H2];
    [exact (wack_run ORDERED eq_refl)|apply rtc_refl|].
  split; [exact H1|apply H2].
Defined.

Lemma channel_lifecycle_witness :
  ∃ ch', channel_at "mock" "channel-0" (chain_timed ORDERED) = Some ch' ∧
    ch_Counterparty ch' = mkCounterparty "mock" "channel-1".
Proof.
  destruct (channel_lifecycle (chain_sent ORDERED, ∅) (chain_timed ORDERED, ∅) "mock" "channel-0" (end0 ORDERED))
    as (ch' & Hch & _ & _ & _ & Hset & _);
    [by apply from_genesis_reachable, sent_from_genesis| |reflexivity|reflexivity|running|].
  - apply op_run; [apply loop_localhost|]. eapply op_timeout_executed, (timeout_executed_run ORDERED eq_refl).
  - exists ch'. split; [exact Hch|]. apply Hset. discriminate.
Defined.

(** ** Specifications *)

Lemma loop_conn_of o : is_ordering o = true → connection_of (end0 o) loop_conn (chain_sent o).
Proof. intros Ho. exists LocalhostConnectionID. split; [reflexivity|]. destruct o; [done|running|running]. Qed.

Lemma recv_packet_spec_witness :
  RecvPacket ctx0 (cap1 UNORDERED) hello SentinelProof zero (chain_recv UNORDERED)
    = (Err ErrNoOpMsg, chain_recv UNORDERED).
Proof.
  destruct (recv_packet_spec ctx0 (cap1 UNORDERED) hello SentinelProof zero (chain_recv UNORDERED)
    (loop_localhost _)) as [_ H].
  apply (H (end1 UNORDERED) loop_conn (chain_recv UNORDERED)).
  - split; try running.
    + exists LocalhostConnectionID. split; [reflexivity|running].
    + exists (mkHeight 1 10). split; [running|right; running].
    + left. reflexivity.
  - running.
  - vm_compute. discriminate.
Defined.

Lemma send_packet_spec_witness :
  ∃ ch, can_send ctx0 (cap0 ORDERED) "mock" "channel-0" late 0 "hello" (chain_open ORDERED) ch 1.
Proof.
  destruct (send_packet_spec ctx0 (cap0 ORDERED) "mock" "channel-0" late 0 "hello" (chain_open ORDERED)) as [H _].
  destruct (proj1 (H 1 (chain_sent ORDERED)) (send_run ORDERED eq_refl)) as (ch & Hc & _).
  exists ch. exact Hc.
Defined.

Lemma write_acknowledgement_spec_witness :
  ack_at "mock" "channel-1" 1 (chain_recv ORDERED) = None.
Proof.
  destruct (write_acknowledgement_spec (cap1 ORDERED) hello (Some ack1) (chain_recv ORDERED)) as [H _].
  destruct (proj1 (H (chain_wack ORDERED)) (wack_run ORDERED eq_refl)) as (ch & a & _ & _ & _ & Hn & _).
  exact Hn.
Defined.

Lemma acknowledge_packet_spec_witness :
  commitment_at "mock" "channel-0" 1 (chain_acked ORDERED) = None.
Proof.
  destruct (acknowledge_packet_spec ctx0 (cap0 ORDERED) hello "ack" SentinelProof zero (chain_wack ORDERED)
    (chain_acked ORDERED) (loop_localhost _) (acked_run ORDERED eq_refl)) as (ch & conn & s1 & _ & _ & _ & _ & _ & H & _).
  exact H.
Defined.

Lemma timeout_both_run o : is_ordering o = true →
  (TimeoutPacket ctx0 hello SentinelProof late 1;; TimeoutExecuted (cap0 o) hello) (chain_sent o) =
  (Ok tt, final ((TimeoutPacket ctx0 hello SentinelProof late 1;; TimeoutExecuted (cap0 o) hello) (chain_sent o))).
Proof. intros Ho. apply run_final. destruct o; [done|running|running]. Qed.

Lemma timeout_packet_spec_witness :
  ∃ ch conn t, sent_packet hello (chain_sent ORDERED) ch conn ∧ timed_out hello late t.
Proof.
  destruct (timeout_packet_spec ctx0 (cap0 ORDERED) hello SentinelProof late 1 (chain_sent ORDERED) _
    (loop_localhost _) (timeout_both_run ORDERED eq_refl)) as (ch & conn & t & Hs & _ & _ & Ht & _).
  exists ch, conn, t. split; [exact Hs|exact Ht].
Defined.

Definition port_cap (s : Chain) : option Capability :=
  match GetCapability "mock" (PortPath "mock") s with (Ok c, _) => c | _ => None end.
Definition open_again : Outcome (string * Capability) * Chain :=
  ChanOpenInit ctx0 ORDERED hops "mock" (port_cap (chain_open ORDERED)) (mkCounterparty "mock" "") "v1"
    (chain_open ORDERED).
Definition new_cap : Capability := match fst open_again with Ok (_, k) => k | _ => mkCapability 0 0 end.

Lemma open_again_run : open_again = (Ok ("channel-2", new_cap), final open_again).
Proof. apply run_final. running. Qed.

Lemma write_again_run :
  WriteOpenInitChannel "mock" "channel-2" ORDERED hops (mkCounterparty "mock" "") "v1" (final open_again) =
  (Ok tt, final (WriteOpenInitChannel "mock" "channel-2" ORDERED hops (mkCounterparty "mock" "") "v1" (final open_again))).
Proof. apply run_final. running. Qed.

Lemma opening_is_fresh_witness :
  open_again = (Ok ("channel-2", new_cap), final open_again) ∧
  ibc (chain_open ORDERED) !! ChannelPath "mock" "channel-2" = None.
Proof.
  split; [exact open_again_run|].
  pose proof (opening_is_fresh (chain_open ORDERED, ∅) ctx0 ORDERED hops "mock" (port_cap (chain_open ORDERED))
    (mkCounterparty "mock" "") "v1" "" zero "channel-2" new_cap (final open_again) (final open_again) _
    (open_reachable ORDERED eq_refl) (loop_localhost _) (or_introl (conj open_again_run write_again_run))) as H.
  destruct H as (_ & H & _). destruct (H "mock" eq_refl) as [H1 _]. exact H1.
Defined.

Lemma handshake_transitions_witness :
  ∃ ch, channel_at "mock" "channel-0" (chain_open ORDERED) = Some ch ∧ ch_State ch ≠ CLOSED.
Proof.
  destruct (handshake_transitions ctx0 "mock" "channel-0" (cap0 ORDERED) "" "" "" zero (chain_open ORDERED)
    (final (ChanCloseInit ctx0 "mock" "channel-0" (cap0 ORDERED) (chain_open ORDERED))) (loop_localhost _))
    as (_ & _ & H).
  destruct H as (ch & conn & H1 & H2 & _); [left; apply run_final; running|]. exists ch. split; assumption.
Defined.

Lemma clients_and_connections_leave_channels_witness :
  keeps_channels (chain_open ORDERED)
    (snd (ConnOpenInit ctx0 LocalhostClientID (mkConnCounterparty "" "" (mkMerklePrefix "ibc")) None 0
      (chain_open ORDERED))).
Proof.
  destruct (clients_and_connections_leave_channels (chain_open ORDERED) (loop_localhost _))
    as (_ & _ & _ & _ & _ & H & _).
  exact (H ctx0 LocalhostClientID (mkConnCounterparty "" "" (mkMerklePrefix "ibc")) None 0).
Defined.

(** A chain whose counter is about to wrap. *)
Definition chain_full : Chain := final (SetNextSequenceSend "mock" "channel-0" MaxUint64 (chain_open ORDERED)).

Lemma no_commitments_check s :
  forallb (λ kv, negb (HasPrefix kv.1 "commitments/")) (map_to_list (ibc s)) = true →
  ∀ p c n, commitment_at p c n s = None.
Proof.
  intros Hall p c n. unfold commitment_at. destruct (ibc s !! _) as [v|] eqn:Hv; [|done].
  apply elem_of_map_to_list, list_elem_of_In in Hv. rewrite forallb_forall in Hall.
  by specialize (Hall _ Hv).
Qed.

(** Moving the counter of a channel without commitments keeps the invariant. *)
Lemma counter_inv p c v s P :
  no_slash p → no_slash c → (∀ p c n, commitment_at p c n s = None) → is_Some (ibc s !! ChannelPath p c) →
  Inv (s, P) → Inv (set_ibc (<[NextSequenceSendPath p c := v]> (ibc s)) s, P).
Proof.
  intros Hp Hc Hno Hch [Hdom _ Hchan Hpend]. simpl in *.
  assert (∀ k, k ≠ NextSequenceSendPath p c → <[NextSequenceSendPath p c := v]> (ibc s) !! k = ibc s !! k)
    as Hsame by (intros k Hk; by apply lookup_insert_ne).
  split; simpl.
  - intros q d Hq Hd. rewrite Hsame by key_ne. intros Habs. destruct (Hdom q d Hq Hd Habs) as (H1 & H2 & _).
    split_and!; [|by rewrite Hsame by key_ne|].
    + rewrite Hsame; [done|]. intros Heq.
      destruct (channel_paths_inj q d p c) as [-> ->]; [done|done|tauto|].
      rewrite Habs in Hch. by destruct Hch.
    + intros n _. unfold commitment_at. simpl. rewrite Hsame by key_ne. apply Hno.
  - intros q d n _ _ _. unfold commitment_at. simpl. rewrite Hsame by key_ne.
    specialize (Hno q d n). unfold commitment_at in Hno. rewrite Hno. by intros [].
  - intros q d Hq Hd. unfold next_channel, counter_at. simpl. rewrite !Hsame by key_ne. by apply Hchan.
  - intros q d Hin. destruct (Hpend q d Hin) as (? & ? & ?). split_and!; [done|done|].
    by rewrite Hsame by key_ne.
Qed.

Lemma full_inv : Inv (chain_full, ∅).
Proof.
  apply (counter_inv "mock" "channel-0"); [reflexivity|reflexivity| | |].
  - apply no_commitments_check. running.
  - eexists. running.
  - exact (reachable_inv _ (open_reachable ORDERED eq_refl)).
Qed.

Lemma sequences_run_out_witness :
  next_send "mock" "channel-0" (final (send_hello ORDERED chain_full)) = Some 0.
Proof.
  apply (sequences_run_out (chain_full, ∅) "mock" "channel-0" (final (send_hello ORDERED chain_full), ∅)
    ctx0 (cap0 ORDERED) late 0 "hello" (final (send_hello ORDERED chain_full)) full_inv);
    [apply run_final; running|apply rtc_refl].
Defined.

(** ** The message server *)

Definition msg_recv (data : bytes) : MsgRecvPacket :=
  {| mrp_Packet := packet1 data; mrp_ProofCommitment := SentinelProof; mrp_ProofHeight := zero;
     mrp_Signer := "r" |}.

#[local] Notation handle_recv data s := (Msg_RecvPacket mock_router bech32 ctx0 (msg_recv data) s).

Lemma handle_recv_run :
  handle_recv "hello" (chain_sent ORDERED) = (Ok SUCCESS, final (handle_recv "hello" (chain_sent ORDERED))).
Proof. apply run_final. running. Qed.

#[local] Instance loop_checks : ClientChecks := {|
  ClientState_Validate := Localhost_Validate;
  ConsensusState_ClientType _ := "07-tendermint";
  ConsensusState_ValidateBasic _ := Ok tt;
  ClientMessage_ValidateBasic _ := Ok tt
|}.

#[local] Notation deliver_recv s := (deliver bech32 mock_router "gov" ctx0 (RecvPacketMsg (msg_recv "hello")) s).

Lemma deliver_recv_run : deliver_recv (chain_sent ORDERED) = (Ok tt, final (deliver_recv (chain_sent ORDERED))).
Proof. apply run_final. running. Qed.

Lemma transactions_refine_protocol_witness :
  ValidateBasic bech32 (RecvPacketMsg (msg_recv "hello")) = Ok tt ∧
  reachable (final (deliver_recv (chain_sent ORDERED)), ∅).
Proof.
  split; [reflexivity|].
  destruct (transactions_refine_protocol mock_router "gov" bech32 ctx0 (RecvPacketMsg (msg_recv "hello"))
    (chain_sent ORDERED)) as (H & _).
  - exact mock_routed.
  - by apply from_genesis_reachable, sent_from_genesis.
  - apply loop_localhost.
  - intros Hopen. exact (False_ind _ (Bool.diff_false_true Hopen)).
  - exact (proj1 (proj2 (H _ deliver_recv_run))).
Defined.

Lemma noop_run :
  handle_recv "hello" (chain_recv ORDERED) = (Ok NOOP, final (handle_recv "hello" (chain_recv ORDERED))).
Proof. apply run_final. running. Qed.

Lemma noop_changes_nothing_witness :
  handle_recv "hello" (chain_recv ORDERED) = (Ok NOOP, final (handle_recv "hello" (chain_recv ORDERED))) ∧
  same_stores (chain_recv ORDERED) (final (handle_recv "hello" (chain_recv ORDERED))).
Proof.
  split; [exact noop_run|].
  apply (noop_changes_nothing mock_router bech32 ctx0). left. exists (msg_recv "hello"). exact noop_run.
Defined.

(** A packet the application answers with an error. *)
Definition send_bad : Outcome Z * Chain :=
  SendPacket ctx0 (cap0 ORDERED) "mock" "channel-0" late 0 "bad" (chain_open ORDERED).
Definition bad_cap : Capability := default (mkCapability 0 0) (cap1 ORDERED).
Definition bad_recv : Outcome () * Chain :=
  RecvPacket ctx0 (Some bad_cap) (packet1 "bad") SentinelProof zero (final send_bad).
Definition bad_callback : Outcome (option AppAck) * Chain :=
  OnRecvPacket mock_module ctx0 (packet1 "bad") "r" (final bad_recv).

Lemma mock_route : GetRoute mock_router "mock" = Some mock_module.
Proof. unfold GetRoute, HasRoute, mock_router. simpl. by rewrite lookup_singleton_eq. Qed.

Lemma bad_lookup_run :
  fst (LookupModuleByChannel "mock" "channel-1" (final send_bad)) = Ok ("mock", bad_cap).
Proof. running. Qed.

Lemma bad_route_run :
  route_channel mock_router "mock" "channel-1" (final send_bad) = (Ok (mock_module, bad_cap), final send_bad).
Proof.
  unfold route_channel. erewrite (bind_run _ _ _ ("mock", bad_cap) (final send_bad)).
  - rewrite mock_route. reflexivity.
  - pose proof (LookupModuleByChannel_ro "mock" "channel-1" (final send_bad)) as Hs.
    rewrite (surjective_pairing (LookupModuleByChannel _ _ _)), Hs, bad_lookup_run. reflexivity.
Qed.
Lemma bad_recv_run : bad_recv = (Ok tt, final bad_recv).
Proof. apply run_final. running. Qed.
Lemma bad_callback_run : bad_callback = (Ok (Some (mkAppAck false "ack")), final bad_callback).
Proof. reflexivity. Qed.
Lemma bad_handle_run :
  handle_recv "bad" (final send_bad) = (Ok SUCCESS, final (handle_recv "bad" (final send_bad))).
Proof. apply run_final. running. Qed.

Lemma failed_receive_keeps_only_ack_witness :
  same_stores (ack_effect (packet1 "bad") "ack" (final bad_recv)) (final (handle_recv "bad" (final send_bad))).
Proof.
  destruct (failed_receive_keeps_only_ack mock_router bech32 ctx0 (msg_recv "bad") (final send_bad)
    mock_module bad_cap (final bad_recv) "r" (mkAppAck false "ack") (final bad_callback) SUCCESS
    (final (handle_recv "bad" (final send_bad))) eq_refl bad_route_run bad_recv_run bad_callback_run
    eq_refl bad_handle_run) as [_ H].
  exact H.
Defined.

(** ** Two ends of a channel *)

Lemma packet_commitment_binding_witness :
  commit_fields hello = commit_fields (packet1 "hello") ∨
  collides (Data hello) (Data (packet1 "hello")) ∨
  collides (commit_preimage (H:=loop_be) hello) (commit_preimage (H:=loop_be) (packet1 "hello")).
Proof.
  apply (packet_commitment_binding (H:=loop_be) (H0:=loop_be_laws) hello (packet1 "hello"));
    [repeat split; vm_compute; congruence..|reflexivity].
Defined.

Lemma end1_conn o : is_ordering o = true → connection_of (end1 o) loop_conn (chain_sent o).
Proof. intros Ho. exists LocalhostConnectionID. split; [reflexivity|]. destruct o; [done|running|running]. Qed.

Lemma received_was_sent_witness :
  ∃ (w1 w2 : World) ctx cap th ts data, rtc step (chain_genesis, ∅) w1 ∧
    SendPacket ctx cap "mock" "channel-0" th ts data w1.1 = (Ok 1, w2.1).
Proof.
  destruct (received_was_sent (itself (chain_sent ORDERED)) ctx0 (cap1 ORDERED) hello SentinelProof zero (chain_sent ORDERED)
    (chain_recv ORDERED) (end1 ORDERED) loop_conn chain_genesis (chain_sent ORDERED, ∅))
    as (w1 & w2 & ctx & cap & th & ts & data & ch & H1 & _ & _ & H2 & _);
    [apply loop_localhost|apply hello_valid|u64|exact (recv_run ORDERED eq_refl)|running
    |by apply end1_conn|apply localhost_attests|exact genesis_no_channels
    |exact (sent_from_genesis ORDERED eq_refl)|reflexivity|].
  exists w1, w2, ctx, cap, th, ts, data. split; [exact H1|exact H2].
Defined.

Lemma end0_conn o : is_ordering o = true → connection_of (end0 o) loop_conn (chain_wack o).
Proof. intros Ho. exists LocalhostConnectionID. split; [reflexivity|]. destruct o; [done|running|running]. Qed.

Lemma acknowledged_was_written_witness :
  ∃ (w1 w2 : World) cap pk a, rtc step (chain_genesis, ∅) w1 ∧
    WriteAcknowledgement cap pk (Some a) w1.1 = (Ok tt, w2.1) ∧
    (app_Acknowledgement a = "ack" ∨ collides (app_Acknowledgement a) "ack").
Proof.
  destruct (acknowledged_was_written (itself (chain_wack ORDERED)) ctx0 (cap0 ORDERED) hello "ack" SentinelProof zero
    (chain_wack ORDERED) (chain_acked ORDERED) (end0 ORDERED) loop_conn chain_genesis (chain_wack ORDERED, ∅))
    as (w1 & w2 & cap & pk & a & H1 & _ & H2 & _ & H3);
    [apply loop_localhost|reflexivity|exact (acked_run ORDERED eq_refl)|running|by apply end0_conn
    |apply localhost_attests|exact genesis_no_channels|exact (wack_from_genesis ORDERED eq_refl)|reflexivity|].
  exists w1, w2, cap, pk, a. split; [exact H1|split; [exact H2|exact H3]].
Defined.

Lemma timed_out_never_received_witness :
  RecvPacket (mkContext "loop-1" 100 1000 "" "" "") (cap1 UNORDERED) hello SentinelProof zero
    (chain_sent UNORDERED) ≠ (Ok tt, chain_recv UNORDERED).
Proof.
  destruct (timed_out_never_received (itself (chain_sent UNORDERED)) ctx0 hello SentinelProof late 1 (chain_sent UNORDERED)
    (final (TimeoutPacket ctx0 hello SentinelProof late 1 (chain_sent UNORDERED))) (end0 UNORDERED) loop_conn
    1000 (chain_sent UNORDERED, ∅) (end1 UNORDERED)) as [_ H];
    [apply loop_localhost|apply hello_valid|u64|u64|discriminate|exact (timeout_run UNORDERED eq_refl)|running
    |by apply loop_conn_of|running|apply localhost_attests|reflexivity|running|reflexivity|].
  apply (H (mkContext "loop-1" 100 1000 "" "" "") (cap1 UNORDERED) SentinelProof zero (chain_sent UNORDERED) _
    (mkHeight 1 100)); [apply loop_localhost|running|running|vm_compute; congruence].
Defined.

(** ** Capabilities *)

Definition chain_index : Chain := final (InitializeIndex 1 empty_chain).
Definition new_run : Outcome Capability * Chain := NewCapability "ibc" "ports/mock" chain_index.
Definition cap_new : Capability := mkCapability 0 1.

Lemma new_run_ok : new_run = (Ok cap_new, final new_run).
Proof. apply run_final. running. Qed.

Lemma new_capability_spec_witness :
  AuthenticateCapability "ibc" (Some cap_new) "ports/mock" (final new_run) = (Ok true, final new_run) ∧
  AuthenticateCapability "mock" (Some cap_new) "ports/mock" (final new_run) = (Ok false, final new_run).
Proof.
  destruct (new_capability_spec "ibc" "ports/mock" chain_index cap_new (final new_run)) as (H1 & H2 & _).
  - intros m cap _ _ _. reflexivity.
  - u64.
  - reflexivity.
  - exact new_run_ok.
  - split; [exact H1|]. apply H2; [reflexivity|]. intros [H _]. discriminate H.
Defined.

Definition claim_run : Outcome () * Chain := ClaimCapability "mock" (Some cap_new) "ports/mock" (final new_run).

Lemma claim_run_ok : claim_run = (Ok tt, final claim_run).
Proof. apply run_final. running. Qed.

Lemma claim_release_spec_witness :
  AuthenticateCapability "mock" (Some cap_new) "ports/mock" (final claim_run) = (Ok true, final claim_run).
Proof.
  destruct (claim_release_spec "mock" cap_new "ports/mock" (final new_run) (final claim_run)) as [H _].
  - reflexivity.
  - u64.
  - apply H. exact claim_run_ok.
Defined.

(** ** Clients and connections *)

Definition any_party : ConnCounterparty := mkConnCounterparty "07-tendermint-0" "" (mkMerklePrefix "ibc").
Definition conn_init : Outcome string * Chain :=
  ConnOpenInit ctx0 LocalhostClientID any_party None 0 chain_genesis.

Lemma conn_init_run : conn_init = (Ok "connection-0", final conn_init).
Proof. apply run_final. running. Qed.

Lemma connection_handshake_witness :
  ∃ cs, active_client ctx0 LocalhostClientID cs chain_genesis ∧
    connection_opened "connection-0"
      (NewConnectionEnd CONN_INIT LocalhostClientID any_party GetCompatibleVersions 0)
      chain_genesis (final conn_init).
Proof.
  destruct (connection_handshake (E:=loop_env) ctx0 LocalhostClientID any_party 0 None (mkLocalhost zero) [] "" "" "" "" zero
    zero "connection-0" chain_genesis (final conn_init) (loop_localhost _)) as (H & _).
  apply H. exact conn_init_run.
Defined.

Lemma client_operations_isolated_witness :
  ClientUpdateProposal ctx0 LocalhostClientID LocalhostClientID chain_genesis =
  (Err ErrInvalidUpdateClientProposal, chain_genesis).
Proof.
  destruct (client_operations_isolated (E:=loop_env) ctx0 LocalhostClientID (mkLocalhost (mkHeight 1 10)) Active chain_genesis)
    as (_ & H & _); [reflexivity|running|running|]. apply H. reflexivity.
Defined.

(** ** Checking transactions *)

Lemma redundant_transactions_rejected_witness :
  fst (AnteHandle mock_router bech32 ctx0 true false [TxRecvPacket (msg_recv "hello")] (mret tt)
    (chain_recv ORDERED)) = Err ErrRedundantTx.
Proof.
  destruct (redundant_transactions_rejected mock_router bech32 ctx0 [TxRecvPacket (msg_recv "hello")]
    (chain_recv ORDERED) [NOOP] (final (handle_recv "hello" (chain_recv ORDERED))) (mret tt)) as (H & _).
  - eapply relayed_packet; [reflexivity| |apply relayed_nil].
    rewrite (bind_run _ _ _ _ _ noop_run). reflexivity.
  - rewrite H; [reflexivity|]. split; [discriminate|repeat constructor].
Defined.

(** ** Creating a client

    A chain whose clients are of type "07-tendermint": their state is a height,
    they accept every proof and are always active. *)

Definition test_ics23 : Ics23 := loop_ics23.
Definition test_proto : Proto LocalhostClientState := countable_proto LocalhostClientState.
Definition accepts {A} (a : A) : SM A := λ kv, (Ok a, kv).

Definition test_client : @LightClient test_ics23 := {|
  ClientState := LocalhostClientState; ConsensusState := TmConsensusState; ClientMessage := Empty_set;
  ClientType _ := Tendermint; GetLatestHeight := LatestHeight; Status _ _ _ _ := Ok Active;
  ExportMetadata _ _ _ := []; ZeroCustomFields cs := Ok cs; GetTimestampAtHeight _ _ _ _ _ := Ok 0;
  Initialize _ st cs _ := λ kv,
    (Ok tt, <[prefixed st ClientStateKey := @Marshal _ test_proto cs]> kv);
  VerifyMembership _ _ _ _ _ _ _ _ _ := accepts tt; VerifyNonMembership _ _ _ _ _ _ _ _ := accepts tt;
  VerifyClientMessage _ _ _ _ := accepts tt; CheckForMisbehaviour _ _ _ _ := accepts false;
  UpdateStateOnMisbehaviour _ _ _ _ := accepts tt; UpdateState _ _ _ _ := accepts [];
  CheckSubstituteAndUpdateState _ _ _ _ _ := accepts tt; VerifyUpgradeAndUpdateState _ _ _ _ _ _ _ := accepts tt;
  mk_localhost := mkLocalhost; mk_tm_consensus := id; as_tendermint _ := None |}.

Definition test_env : IbcEnv := {|
  env_be := loop_be; env_ics23 := test_ics23; env_lc := test_client;
  env_staking := env_staking (IbcEnv:=loop_env); env_upgrade := env_upgrade (IbcEnv:=loop_env);
  env_paths := env_paths (IbcEnv:=loop_env); env_trust := {| ValidateTrustLevel _ := true |};
  env_owners := countable_proto CapabilityOwners; env_cs := test_proto;
  env_cons := countable_proto TmConsensusState; env_cparams := countable_proto ClientParams;
  env_conn := countable_proto ConnectionEnd; env_connpaths := countable_proto ClientPaths;
  env_connparams := countable_proto ConnParams; env_chan := countable_proto Channel;
  env_storeKey := "ibc"; env_uint64_of_float _ := 0 |}.

Lemma test_laws : @IbcLaws test_env.
Proof.
  split; try apply countable_proto_laws; try apply countable_proto_nonempty.
  - apply loop_be_laws.
  - split; intros; try done. apply frame_outside_insert, prefixed_has_prefix.
  - done.
Qed.

Definition test_genesis : Chain := final (
  (SetClientParams (Proto2:=@env_cparams test_env) DefaultClientParams;;
   SetNextClientSequence (H:=@env_be test_env) 7) empty_chain).
Definition create_run : Outcome string * Chain :=
  CreateClient (H:=@env_be test_env) (LC:=@env_lc test_env) (Proto2:=@env_cparams test_env) ctx0
    (mkLocalhost zero) None test_genesis.

Lemma create_run_ok : create_run = (Ok "07-tendermint-7", final create_run).
Proof. apply run_final. running. Qed.

Lemma create_client_spec_witness :
  create_run = (Ok "07-tendermint-7", final create_run) ∧ Tendermint ≠ Localhost.
Proof.
  split; [exact create_run_ok|].
  destruct (create_client_spec (E:=test_env) (L:=test_laws) ctx0 (mkLocalhost zero) None test_genesis
    "07-tendermint-7" (final create_run) create_run_ok) as (H & _).
  exact H.
Defined.

(** ** Genesis *)

Definition g_channel (i : string) : IdentifiedChannel := mkIdentifiedChannel "mock" i (end0 ORDERED).
Definition g_state : ChanGenesisState := mkChanGenesisState [g_channel "channel-3"] [] [] [] [] [] [] 4.
Definition g_chain : Chain := final (Chan_InitGenesis (chan_genesis g_state) chain_genesis).
Definition g_next : Chain := final (GenerateChannelIdentifier g_chain).

Lemma g_init_run : Chan_InitGenesis (chan_genesis g_state) chain_genesis = (Ok tt, g_chain).
Proof. unfold g_chain. apply run_final. vm_compute. reflexivity. Qed.
Lemma g_next_run : GenerateChannelIdentifier g_chain = (Ok "channel-4", g_next).
Proof. unfold g_next. apply run_final. vm_compute. reflexivity. Qed.

Lemma validated_genesis_fresh_witness :
  is_Some (channel_at "mock" "channel-3" g_next) ∧ ibc g_next !! ChannelPath "mock" "channel-4" = None.
Proof.
  split; [eexists; running|].
  apply (validated_genesis_fresh g_state chain_genesis g_chain "channel-4" g_next "mock");
    [running|u64|discriminate|exact genesis_no_channels|exact g_init_run|exact g_next_run|reflexivity].
Defined.

(** With the next sequence zero, the identifier of channel zero is generated again. *)
Definition g_zero : ChanGenesisState := mkChanGenesisState [g_channel "channel-0"] [] [] [] [] [] [] 0.

Lemma genesis_zero_not_fresh :
  Chan_Validate g_zero = Ok tt ∧
  let s := final (Chan_InitGenesis (chan_genesis g_zero) chain_genesis) in
  fst (GenerateChannelIdentifier s) = Ok "channel-0" ∧ is_Some (channel_at "mock" "channel-0" s).
Proof. split; [running|]. split; [running|]. eexists. running. Qed.

Lemma open_owners_decode : owners_decode 4 (chain_open ORDERED).
Proof.
  intros i bz Hi Hbz. assert (i = 1 ∨ i = 2 ∨ i = 3) as [->|[->| ->]] by lia; revert Hbz; vm_compute; intros [= <-]; by eexists.
Qed.

Lemma capability_genesis_roundtrip_witness :
  is_Some (owners_at 3 (chain_open ORDERED)) ∧
  ∃ gs s1, Cap_ExportGenesis (chain_open ORDERED) = (Ok gs, chain_open ORDERED) ∧
    Cap_InitGenesis gs (mkChain ∅ ∅ ∅ ∅ 0 ∅) = (Ok tt, s1) ∧ owners_at 3 s1 = owners_at 3 (chain_open ORDERED).
Proof.
  split; [eexists; running|].
  destruct (capability_genesis_roundtrip (chain_open ORDERED) (mkChain ∅ ∅ ∅ ∅ 0 ∅) 4) as (gs & s1 & H1 & H2 & _ & H3);
    [running|u64|discriminate|exact open_owners_decode|reflexivity|].
  exists gs, s1. split; [exact H1|]. split; [exact H2|]. apply H3. lia.
Defined.

(** ** Queries

    Pages by offset and limit, and the queries after a packet was received, after it was
    acknowledged, and with the two channels open. *)

Record OffsetRequest := mkOffsetRequest { Offset : nat; Limit : nat }.

Definition page_of (req : option OffsetRequest) (entries : list (string * bytes)) : list (string * bytes) :=
  let req := default (mkOffsetRequest 0 100) req in take (Limit req) (drop (Offset req) entries).

Fixpoint filtered {X} (offset limit hits : nat) (entries : list (string * bytes))
    (cb : string → bytes → bool → X → Outcome (X * bool)) (acc : X) : Outcome (X * nat) :=
  match entries with
  | [] => Ok (acc, hits)
  | (k, v) :: entries =>
      '(acc, hit) ← cb k v ((offset <=? hits)%nat && (hits <? offset + limit)%nat) acc;
      filtered offset limit (if hit : bool then S hits else hits) entries cb acc
  end.

#[export] Instance loop_pages : Pagination := {|
  PageRequest := OffsetRequest;
  PageResponse := nat;
  Paginate X entries req cb acc := x ← visit (page_of req entries) cb acc; Ok (x, length entries);
  FilteredPaginate X entries req cb acc :=
    let req := default (mkOffsetRequest 0 100) req in filtered (Offset req) (Limit req) 0 entries cb acc
|}.

#[export] Instance loop_pages_laws : PaginationLaws.
Proof.
  split.
  - intros X entries req cb acc x r (y & Hy & [= -> _])%obind_ok. exists (page_of req entries). split; [|done].
    apply sublist_submseteq. unfold page_of. etrans; [apply sublist_take|apply sublist_drop].
  - intros X entries cb acc x Hlen Hv. exists (length entries). simpl. unfold page_of. simpl.
    rewrite drop_0, take_ge by done. by rewrite Hv.
Qed.

Definition height10 : Height := mkHeight 1 10.

Lemma unreceived_run :
  Query_UnreceivedPackets ctx0 (Some ("mock", "channel-1", [1; 2])) (chain_recv UNORDERED) =
    (Ok ([2], height10), final (Query_UnreceivedPackets ctx0 (Some ("mock", "channel-1", [1; 2])) (chain_recv UNORDERED))).
Proof. apply run_final. vm_compute. reflexivity. Qed.

Lemma unreceived_packets_exact_witness :
  1 ∉ [2] ∧ ∀ s3, RecvPacket ctx0 (cap1 UNORDERED) hello SentinelProof zero (chain_recv UNORDERED) ≠ (Ok tt, s3).
Proof.
  destruct (unreceived_packets_exact (chain_recv UNORDERED, ∅) ctx0 "mock" "channel-1" [1; 2] [2] height10
    (final (Query_UnreceivedPackets ctx0 (Some ("mock", "channel-1", [1; 2])) (chain_recv UNORDERED))))
    as (_ & _ & ch & _ & H);
    [by apply from_genesis_reachable, recv_from_genesis|exact unreceived_run|].
  destruct (H hello) as (_ & H2 & H3); [reflexivity|reflexivity|apply list_elem_of_here|discriminate|].
  assert (1 ∉ [2]) as H1.
  { apply (H3 (chain_sent UNORDERED, ∅) ctx0 (cap1 UNORDERED) SentinelProof zero (chain_recv UNORDERED));
      [by apply from_genesis_reachable, sent_from_genesis|apply loop_localhost|apply hello_valid|split; vm_compute; congruence
      |exact (recv_run UNORDERED eq_refl)|apply rtc_refl|vm_compute; congruence]. }
  split; [exact H1|]. intros s3. apply (H2 H1 (chain_recv UNORDERED, ∅)); [apply rtc_refl|apply loop_localhost].
Defined.

Lemma unreceived_acks_run :
  Query_UnreceivedAcks ctx0 (Some ("mock", "channel-0", [1])) (chain_acked ORDERED) =
    (Ok ([], height10), final (Query_UnreceivedAcks ctx0 (Some ("mock", "channel-0", [1])) (chain_acked ORDERED))).
Proof. apply run_final. vm_compute. reflexivity. Qed.

Lemma acked_from_genesis : from_genesis (chain_acked ORDERED).
Proof.
  eapply op_from_genesis; [by apply (wack_from_genesis ORDERED)|]. eapply op_ack. exact (acked_run ORDERED eq_refl).
Qed.

Lemma unreceived_acks_exact_witness : ∀ w3, ¬ settled hello (chain_acked ORDERED, ∅) w3.
Proof.
  destruct (unreceived_acks_exact (chain_acked ORDERED, ∅) ctx0 "mock" "channel-0" [1] [] height10
    (final (Query_UnreceivedAcks ctx0 (Some ("mock", "channel-0", [1])) (chain_acked ORDERED))))
    as (_ & _ & H);
    [exact (from_genesis_reachable _ acked_from_genesis)|apply loop_localhost|exact unreceived_acks_run|].
  destruct (H hello) as [H1 _]; [reflexivity|reflexivity|apply list_elem_of_here|].
  apply H1. apply not_elem_of_nil.
Defined.

Lemma no_stray_check s :
  forallb (λ kv, negb (HasPrefix kv.1 KeyChannelEndPrefix) || HasPrefix kv.1 "channelEnds/") (map_to_list (ibc s)) = true →
  no_stray s.
Proof.
  intros Hall k Hk [v Hv]. apply elem_of_map_to_list, list_elem_of_In in Hv. rewrite forallb_forall in Hall.
  specialize (Hall _ Hv). simpl in Hall. by rewrite Hk in Hall.
Qed.

Lemma open_no_stray : no_stray (chain_open ORDERED).
Proof. apply no_stray_check. vm_compute. reflexivity. Qed.

Lemma channel_listing_exact_witness :
  ∃ l, GetAllChannels (chain_open ORDERED) = (Ok l, chain_open ORDERED) ∧ NoDup l ∧
    mkIdentifiedChannel "mock" "channel-1" (mkChannel OPEN ORDERED (mkCounterparty "mock" "channel-0") [LocalhostConnectionID] "v1") ∈ l.
Proof.
  destruct (channel_listing_exact (chain_open ORDERED, ∅) ctx0 height10) as (_ & l & H1 & H2 & H3 & _);
    [exact (open_reachable ORDERED eq_refl)|exact open_no_stray|vm_compute; reflexivity|].
  exists l. split_and!; [exact H1|exact H2|]. apply H3. split_and!; [reflexivity|reflexivity|vm_compute; reflexivity].
Defined.
