(* ===== verification/TransferWitnesses.v ===== *)
(** * The theorems on token transfers, on a concrete chain

    Alice sends thirty of her hundred atoms over the channel; the other chain mints
    vouchers, or the transfer times out and she is refunded. *)

From stdpp Require Import gmap strings list relations.
From Stdlib Require Import ZArith Lia Ascii.
From S2P Require Import Prelude GoStd Sha256 Host Chain ModuleStore Sums Height Capability Port Commitment LightClient Client Localhost ConnTypes ChanTypes Env Connection Channel ChanHandshake Packet MsgServer ChanProofs PacketProofs Frames HandshakeProofs Protocol Guarantees MsgProofs TransferTypes Transfer TransferProofs TransferSafety TransferSpecs TransferInvariant Migrations Codec Loopback TransferLoop.

Ltac running := vm_compute; reflexivity.

Definition atoms : Coin := mkCoin "uatom" 30.
Definition t_data : FungibleTokenPacketData := mkPacketData "uatom" "30" "alice" "bob" "".
Definition t_packet : Packet :=
  NewPacket (PacketData_GetBytes t_data) 1 "transfer" "channel-0" "transfer" "channel-1" late 0.

Definition t_send (s : Chain) : Outcome Z * Chain :=
  sendTransfer channel_ics4 ctx0 "transfer" "channel-0" atoms "alice" "bob" late 0 "" s.
Definition t_sent : Chain := final (t_send t_funded).
Definition t_received : Chain := final (Transfer_OnRecvPacket ctx0 t_packet t_data t_open).
Definition t_refunded : Chain := final (IBCModule_OnTimeoutPacket ctx0 t_packet "relayer" t_sent).

Lemma t_send_run : t_send t_funded = (Ok 1, t_sent).
Proof. apply run_final. running. Qed.
Lemma t_recv_run : Transfer_OnRecvPacket ctx0 t_packet t_data t_open = (Ok tt, t_received).
Proof. apply run_final. running. Qed.
Lemma t_refund_run : IBCModule_OnTimeoutPacket ctx0 t_packet "relayer" t_sent = (Ok tt, t_refunded).
Proof. apply run_final. running. Qed.

(** ** Vouchers *)

Definition t_known (y : string) : Prop := y = "uatom" ∨ y = "transfer/channel-1/uatom".

Lemma t_hashes : bool_decide (Sum256 "uatom" = Sum256 "transfer/channel-1/uatom") = false.
Proof. running. Qed.

Lemma t_paths_ok : paths_ok t_known.
Proof.
  split.
  - intros y [->| ->]; vm_compute; discriminate.
  - intros y [->| ->]; reflexivity.
  - pose proof (bool_decide_eq_false_1 _ t_hashes) as Hne.
    intros y z [->| ->] [->| ->] H; [reflexivity|by destruct Hne|by destruct Hne|reflexivity].
Qed.

Lemma t_sendable : sendable t_known atoms "uatom" t_funded.
Proof. split_and!; [done|done|done|running|by left]. Qed.

Definition t_bridge : bridge := mkBridge t_sent t_received [] [].

Lemma t_bridge_run :
  rtc (bridge_step channel_ics4 channel_ics4 "transfer" "channel-0" "transfer" "channel-1" "uatom" t_known)
    (mkBridge t_funded t_open [] []) t_bridge.
Proof.
  eapply rtc_l.
  - eapply (step_send_a _ _ _ _ _ _ _ _ ctx0 atoms "uatom" "alice" "bob" late 0 "" t_funded t_open [] [] 1 t_sent);
      [exact t_sendable| |exact t_send_run].
    apply (bool_decide_eq_false_1 ("alice" = _)). running.
  - apply rtc_once.
    apply (step_recv_b _ _ _ _ _ _ _ _ ctx0 t_packet t_data t_sent t_open [] [] [] t_received);
      [split_and!; reflexivity|right; reflexivity|exact t_recv_run].
Qed.

Lemma vouchers_backed_witness :
  GetSupply t_received (voucher_denom "transfer" "channel-1" "uatom") = 30 ∧
  GetSupply (chain_b t_bridge) (voucher_denom "transfer" "channel-1" "uatom") +
    in_flight "uatom" (a_to_b t_bridge) +
    in_flight (voucher_path "transfer" "channel-1" "uatom") (b_to_a t_bridge)
  <= GetBalance (chain_a t_bridge) (escrow_account "transfer" "channel-0") (token_denom "uatom").
Proof.
  split; [running|].
  apply (vouchers_backed channel_ics4 channel_ics4 "transfer" "channel-0" "transfer" "channel-1" "uatom"
    t_known t_funded t_open t_bridge);
    [exact t_paths_ok|left; reflexivity|right; reflexivity|running|running|exact t_bridge_run].
Defined.

(** ** Refunds *)

Lemma refund_undoes_transfer_witness :
  GetBalance t_sent "alice" (Denom atoms) = 70 ∧ GetBalance t_refunded "alice" (Denom atoms) = 100.
Proof.
  destruct (refund_undoes_transfer channel_ics4 ctx0 "transfer" "channel-0" atoms "alice" "alice" "bob" late 0
    "" t_funded 1 t_sent "uatom" t_packet t_sent t_refunded) as (x & _ & _ & H);
    [running|split; vm_compute; congruence|running|running|exact t_send_run|reflexivity|reflexivity|running
    |eapply refunded_timeout, t_refund_run|].
  destruct H as [H1 H2]; [apply (bool_decide_eq_false_1 ("alice" = _)); running|].
  split; [|rewrite H2]; rewrite H1; running.
Defined.

(** ** Escrow *)

Lemma t_no_totals k v : tr_store t_funded !! k = Some v → HasPrefix k KeyTotalEscrowPrefix = false.
Proof.
  assert (forallb (λ e : string * bytes, negb (HasPrefix e.1 KeyTotalEscrowPrefix)) (map_to_list (tr_store t_funded)) = true)
    as Hall by running.
  rewrite forallb_forall in Hall. intros Hk. apply elem_of_map_to_list, list_elem_of_In in Hk.
  apply Hall in Hk. by apply negb_true_iff.
Qed.

Lemma t_escrow_empty d : GetBalance t_funded (GetEscrowAddress "transfer" "channel-0") d = 0.
Proof.
  destruct (all_balances_ok t_funded (GetEscrowAddress "transfer" "channel-0")) as [_ Hb]. rewrite <- Hb.
  assert (GetAllBalances t_funded (GetEscrowAddress "transfer" "channel-0") = []) as -> by running. reflexivity.
Qed.

Lemma escrow_invariant_holds_witness :
  total_escrow "uatom" t_sent = 30 ∧
  total_escrow "uatom" t_sent = escrow_held "transfer" ["channel-0"] "uatom" t_sent.
Proof.
  split; [running|].
  apply (escrow_invariant_holds channel_ics4 false "transfer" t_funded (t_sent, ["channel-0"])); [| | | |reflexivity].
  - running.
  - split; [|running]. intros k v Hk%t_no_totals. congruence.
  - intros d. unfold total_escrow.
    destruct (tr_store t_funded !! TotalEscrowForDenomKey d) as [v|] eqn:Hv; [|reflexivity]. exfalso.
    apply t_no_totals in Hv. unfold HasPrefix, TotalEscrowForDenomKey in Hv. by rewrite prefix_app in Hv.
  - eapply rtc_l; [apply (es_open channel_ics4 "transfer" false t_funded "channel-0" [])|apply rtc_once].
    + reflexivity.
    + eexists. running.
    + apply NoDup_singleton.
    + intros _. exact t_escrow_empty.
    + apply (es_send channel_ics4 "transfer" false ctx0 "channel-0" atoms "alice" "bob" late 0 "" t_funded 1 t_sent
        ["channel-0"]); [by left|done| |exact t_send_run].
      apply (bool_decide_eq_false_1 ("alice" ∈ _)). running.
Defined.

(** ** The migration *)

(** The escrow account holds thirty atoms and nothing is recorded. *)
Definition t_unrecorded : Chain := set_tr_store (tr_store t_funded) t_sent.
Definition t_migrated : Chain := final (MigrateTotalEscrowForDenom t_unrecorded).

Lemma t_migrate_run : MigrateTotalEscrowForDenom t_unrecorded = (Ok tt, t_migrated).
Proof. unfold t_migrated. apply run_final. vm_compute. reflexivity. Qed.

Lemma t_unique : coins_unique.
Proof.
  intros cs Hcs. change (check (valid_coins cs) errUnregistered = Ok tt) in Hcs.
  apply check_ok in Hcs. by apply valid_coins_ok in Hcs as [_ ?].
Qed.

Lemma escrow_migration_correct_witness :
  total_escrow "uatom" t_unrecorded = 0 ∧ total_escrow "uatom" t_migrated = 30 ∧
  ∀ s'', TotalEscrowPerDenomInvariants t_migrated ≠ (Ok true, s'').
Proof.
  split; [running|]. split; [running|].
  apply (escrow_migration_correct "transfer" t_unrecorded t_migrated).
  - exact t_unique.
  - running.
  - unfold t_unrecorded. rewrite tr_store_set. split; [|running]. intros k v Hk%t_no_totals. congruence.
  - intros d. unfold total_escrow, t_unrecorded. rewrite tr_store_set.
    destruct (tr_store t_funded !! TotalEscrowForDenomKey d) as [v|] eqn:Hv; [|reflexivity]. exfalso.
    apply t_no_totals in Hv. unfold HasPrefix, TotalEscrowForDenomKey in Hv. by rewrite prefix_app in Hv.
  - exact t_migrate_run.
Defined.
