(* ===== verification/FeeWitnesses.v ===== *)
(** * The theorems on relayer fees, on a concrete chain

    The bank of TransferLoop.v with the fee middleware in front of a small
    application, on the loopback chain: Alice pays for the relay of the next packet
    on channel-0, which is then acknowledged, times out, or whose channel closes. *)

From stdpp Require Import gmap strings list countable relations.
From Stdlib Require Import ZArith Lia Ascii.
From S2P Require Import Prelude GoStd Host Chain ModuleStore Sums Height Capability Port Commitment LightClient Client Localhost ConnTypes ChanTypes Env Connection Channel ChanHandshake Packet MsgServer ChanProofs PacketProofs Frames HandshakeProofs Protocol Guarantees MsgProofs TransferTypes FeeTypes Transfer Fee FeeProofs FeeInvariant FeeSpecs Codec Loopback TransferLoop.

(** ** The environment *)

#[export] Instance Coin_countable : Countable Coin.
Proof. refine (inj_countable' (λ c, (Denom c, Amount c)) (λ '(a, b), mkCoin a b) _). by intros []. Defined.
#[export] Instance Fee_eq_dec : EqDecision Fee.
Proof. solve_decision. Defined.
#[export] Instance Fee_countable : Countable Fee.
Proof. refine (inj_countable' (λ f, (RecvFee f, AckFee f, TimeoutFee f)) (λ '(a, b, c), mkFee a b c) _). by intros []. Defined.
#[export] Instance PacketFee_eq_dec : EqDecision PacketFee.
Proof. solve_decision. Defined.
#[export] Instance PacketFee_countable : Countable PacketFee.
Proof.
  refine (inj_countable' (λ f, (pf_Fee f, RefundAddress f, Relayers f)) (λ '(a, b, c), mkPacketFee a b c) _).
  by intros [].
Defined.
#[export] Instance PacketFees_eq_dec : EqDecision PacketFees.
Proof. solve_decision. Defined.
#[export] Instance PacketFees_countable : Countable PacketFees.
Proof. refine (inj_countable' pf_PacketFees mkPacketFees _). by intros []. Defined.
#[export] Instance Metadata_eq_dec : EqDecision Metadata.
Proof. solve_decision. Defined.
#[export] Instance Metadata_countable : Countable Metadata.
Proof. refine (inj_countable' (λ m, (FeeVersion m, AppVersion m)) (λ '(a, b), mkMetadata a b) _). by intros []. Defined.
#[export] Instance Incentivized_eq_dec : EqDecision IncentivizedAcknowledgement.
Proof. solve_decision. Defined.
#[export] Instance Incentivized_countable : Countable IncentivizedAcknowledgement.
Proof.
  refine (inj_countable' (λ m, (AppAcknowledgement m, ForwardRelayerAddr m, UnderlyingAppSuccess m))
    (λ '(a, b, c), mkIncentivizedAcknowledgement a b c) _). by intros [].
Defined.

#[export] Instance loop_fee : FeeEnv := {|
  fee_sdk := loop_sdk;
  fee_bank := loop_bank;
  fee_accounts := loop_accounts;
  fee_coins := {| Coins_IsValid := valid_coins; Coins_IsZero := forallb (λ c, Amount c =? 0) |};
  fee_storeKey := "feeibc";
  fee_fees := countable_proto PacketFees;
  HasBalance s a c := Amount c <=? balance (ledger s) a (Denom c);
  IsSendEnabledCoins _ _ := Ok tt;
  Account := ();
  GetAccount _ _ := Some tt;
  Metadata_MarshalJSON m := Ok (Marshal (Proto := countable_proto Metadata) m);
  Metadata_UnmarshalJSON := Unmarshal (Proto := countable_proto Metadata);
  Incentivized_MarshalJSON := Marshal (Proto := countable_proto IncentivizedAcknowledgement);
  Incentivized_UnmarshalJSON := Unmarshal (Proto := countable_proto IncentivizedAcknowledgement)
|}.

(** The bank pays what its ledger covers. *)
Lemma ledger_covers a b cs l :
  Forall (λ c, 0 < Amount c) cs → NoDup (Denom <$> cs) → (∀ c, c ∈ cs → Amount c <= balance l a (Denom c)) →
  is_Some (each_coin (λ c l, take a c l ≫= give b c) cs l).
Proof.
  intros Hp. revert l. induction Hp as [|c cs Hc Hp IH]; intros l Hn Hb; [by eexists|].
  rewrite fmap_cons in Hn. apply NoDup_cons in Hn as [Hin Hn].
  assert (Amount c <= balance l a (Denom c)) as Hcov by (apply Hb; set_solver). cbn [each_coin].
  destruct (take a c l) as [l1|] eqn:Ht.
  2:{ unfold take in Ht. rewrite (proj2 (Z.leb_le 0 _)), (proj2 (Z.leb_le _ _)) in Ht by lia. done. }
  cbn [mbind option_bind]. destruct (give b c l1) as [l2|] eqn:Hg.
  2:{ unfold give in Hg. rewrite (proj2 (Z.leb_le 0 _)) in Hg by lia. done. }
  cbn. apply IH; [done|]. intros c' Hc'. destruct (take_ok _ _ _ _ Ht) as [T _], (give_ok _ _ _ _ Hg) as [G _].
  rewrite G, T. assert (amount_of (Denom c') [c] = 0) as ->.
  { simpl. rewrite bool_decide_eq_false_2; [done|]. intros Hd. apply Hin. rewrite Hd. by apply list_elem_of_fmap_2. }
  assert (Amount c' <= balance l a (Denom c')) by (apply Hb; set_solver).
  repeat case_bool_decide; simpl; lia.
Qed.

#[export] Instance loop_fee_laws : FeeLaws.
Proof.
  split; simpl.
  - apply loop_sdk_laws.
  - apply loop_bank_laws.
  - done.
  - apply countable_proto_laws.
  - intros l _. apply (marshal_nonempty (ProtoNonEmpty := countable_proto_nonempty PacketFees)).
  - intros cs c H%check_ok. by apply valid_coins_amount.
  - intros cs H. by rewrite H.
  - intros s a c. apply Z.leb_le.
  - intros ctx m a cs s Ha. rewrite Ha. by eexists.
  - intros ctx m a cs s Ha Hv%check_ok Hc. rewrite Ha. cbn [negb].
    rewrite (bind_run _ _ _ _ _ (require_run true ErrBlocked s eq_refl)). unfold on_ledger.
    pose proof Hv as [Hp Hn]%valid_coins_ok.
    destruct (ledger_covers (module_address m) a cs (ledger s) Hp Hn) as [l ->]; [|by eexists].
    intros c Hin. destruct (valid_coins_amount cs c Hv Hin) as [_ <-]. apply Hc.
  - done.
  - intros m bz [= <-]. apply (unmarshal_marshal (ProtoLaws := countable_proto_laws Metadata)).
  - intros a. apply (unmarshal_marshal (ProtoLaws := countable_proto_laws IncentivizedAcknowledgement)).
Qed.

(** ** A chain with it *)

(** An application that writes nothing and answers every packet. *)
Definition quiet_module : IBCModule := {|
  OnChanOpenInit _ _ _ _ _ _ _ version := mret version;
  OnChanOpenTry _ _ _ _ _ _ _ version := mret version;
  OnChanOpenAck _ _ _ _ _ := mret tt;
  OnChanOpenConfirm _ _ _ := mret tt;
  OnChanCloseInit _ _ _ := mret tt;
  OnChanCloseConfirm _ _ _ := mret tt;
  OnRecvPacket _ _ _ := mret (Some (mkAppAck true "done"));
  OnAcknowledgementPacket _ _ _ _ := mret tt;
  OnTimeoutPacket _ _ _ := mret tt
|}.

Lemma quiet_keeps : keeps_fees quiet_module.
Proof. split; intros; by apply keeps_fees_readonly. Qed.

Lemma write_ack_keeps ctx cap pk ack : keeps (ics4_WriteAcknowledgement channel_ics4 ctx cap pk ack).
Proof.
  intros s u s' HI H. eapply fee_inv_stores; [|exact HI]. simpl in H. destruct u.
  by apply WriteAcknowledgement_ok in H as (? & ? & _ & _ & _ & _ & _ & _ & ->).
Qed.

Definition f_start : Chain := Eval vm_compute in
  set_ledger (put_balance "alice" "uatom" 100 (mkLedger ∅ ∅)) (chain_open UNORDERED).

Definition f_open (s : Chain) : Outcome string * Chain :=
  Fee_OnChanOpenInit quiet_module ctx0 UNORDERED hops "mock" "channel-0" (Some (mkCapability 0 0))
    (mkCounterparty "mock" "") "" s.
Definition f_opened : Chain := Eval vm_compute in final (f_open f_start).

Definition atom (n : Z) : list Coin := [mkCoin "uatom" n].
Definition f_fee : Fee := mkFee (atom 10) (atom 5) (atom 20).
Definition f_msg : MsgPayPacketFee := mkMsgPayPacketFee f_fee "mock" "channel-0" "alice" [].
Definition f_pid : PacketId := NewPacketID "mock" "channel-0" 1.
Definition f_record : PacketFee := mkPacketFee f_fee "alice" [].
Definition f_paid : Chain := Eval vm_compute in final (PayPacketFee ctx0 f_msg f_opened).

Lemma f_open_run : f_open f_start = (Ok (Marshal (Proto := countable_proto Metadata) (mkMetadata "ics29-1" "")), f_opened).
Proof. vm_compute. reflexivity. Qed.
Lemma f_pay_run : PayPacketFee ctx0 f_msg f_opened = (Ok tt, f_paid).
Proof. vm_compute. reflexivity. Qed.

Lemma f_reachable : fee_reachable quiet_module channel_ics4 f_paid.
Proof.
  exists f_start. split; [reflexivity|]. eapply rtc_l; [|apply rtc_once].
  - eapply step_called, called_open_init. exact f_open_run.
  - eapply (step_pay _ _ _ _ ctx0 f_msg); [reflexivity|exact f_pay_run].
Qed.

(** ** The theorems on it *)

(** Thirty-five atoms are recorded, and held. *)
Lemma fees_always_covered_witness :
  (∃ ids, GetAllIdentifiedPacketFees f_paid = (Ok ids, f_paid) ∧ IsLocked f_paid = (Ok false, f_paid) ∧
    ∀ d, sum_over (λ i, fees_amount d (ipf_PacketFees i)) ids <= GetBalance f_paid GetFeeModuleAddress d) ∧
  GetAllIdentifiedPacketFees f_paid = (Ok [mkIdentifiedPacketFees f_pid [f_record]], f_paid) ∧
  GetBalance f_paid GetFeeModuleAddress "uatom" = 35.
Proof.
  split; [exact (fees_always_covered quiet_module channel_ics4 f_paid quiet_keeps write_ack_keeps f_reachable)|].
  split; vm_compute; reflexivity.
Defined.

Definition f_packet : Packet := NewPacket "data" 1 "mock" "channel-0" "mock" "channel-1" (mkHeight 1 100) 0.
Definition f_ack : IncentivizedAcknowledgement := mkIncentivizedAcknowledgement "done" "carol" true.

(** Bob delivers the acknowledgement of a packet Carol relayed. *)
Lemma relayers_are_paid_witness :
  (∀ bz ack, Incentivized_UnmarshalJSON bz = Some ack →
     ∃ s1, pays_out ([f_record] ≫= ack_payments (default "" (AccAddressFromBech32 (ForwardRelayerAddr ack))) "bob")
             [f_pid] f_paid s1 ∧
       Fee_OnAcknowledgementPacket quiet_module ctx0 f_packet bz "bob" f_paid =
         OnAcknowledgementPacket quiet_module ctx0 f_packet (AppAcknowledgement ack) "bob" s1) ∧
  (∃ s1, pays_out ([f_record] ≫= timeout_payments "bob") [f_pid] f_paid s1 ∧
    Fee_OnTimeoutPacket quiet_module ctx0 f_packet "bob" f_paid =
      OnTimeoutPacket quiet_module ctx0 f_packet "bob" s1) ∧
  Incentivized_UnmarshalJSON (Incentivized_MarshalJSON f_ack) = Some f_ack ∧
  let s' := final (Fee_OnAcknowledgementPacket quiet_module ctx0 f_packet (Incentivized_MarshalJSON f_ack) "bob" f_paid) in
  (GetBalance s' "alice" "uatom", GetBalance s' "bob" "uatom", GetBalance s' "carol" "uatom") = (85, 5, 10).
Proof.
  pose proof (relayers_are_paid quiet_module channel_ics4 ctx0 f_packet "bob" "bob" [f_record] f_paid
    quiet_keeps write_ack_keeps f_reachable) as H.
  destruct H as [H1 H2]; [vm_compute; reflexivity..|]. split; [exact H1|]. split; [exact H2|].
  split; vm_compute; reflexivity.
Defined.

(** Channel-0 closes, and Alice has her hundred atoms again. *)
Lemma closing_refunds_fees_witness :
  (∃ ids s', RefundFeesOnChannelClosure ctx0 "mock" "channel-0" f_paid = (Ok tt, s') ∧
    GetIdentifiedPacketFeesForChannel "mock" "channel-0" f_paid = (Ok ids, f_paid) ∧
    pays_out (ids ≫= λ i, ipf_PacketFees i ≫= refund_payments) (ipf_PacketId <$> ids) f_paid s' ∧
    ∀ t n, no_slash ("channel-0" +:+ t) → is_u64 n →
      fee_store s' !! KeyFeesInEscrow (NewPacketID "mock" ("channel-0" +:+ t) n) = None) ∧
  GetBalance (final (RefundFeesOnChannelClosure ctx0 "mock" "channel-0" f_paid)) "alice" "uatom" = 100.
Proof.
  split; [|vm_compute; reflexivity].
  exact (closing_refunds_fees quiet_module channel_ics4 ctx0 "mock" "channel-0" f_paid quiet_keeps write_ack_keeps
    f_reachable eq_refl).
Defined.

Lemma middleware_transparent_witness :
  ∃ wrapped inc,
    Fee_OnRecvPacket quiet_module ctx0 (NewPacket "x" 1 "mock" "channel-9" "mock" "channel-0" zero 1) "bob" f_paid =
      (Ok (Some wrapped), f_paid) ∧
    app_Success wrapped = true ∧
    Incentivized_UnmarshalJSON (app_Acknowledgement wrapped) = Some inc ∧ AppAcknowledgement inc = "done".
Proof.
  exact (proj2 (middleware_transparent quiet_module channel_ics4 ctx0 "mock" "channel-0" f_paid)
    (NewPacket "x" 1 "mock" "channel-9" "mock" "channel-0" zero 1) "bob" (mkAppAck true "done") f_paid
    eq_refl eq_refl).
Defined.

Lemma fee_middleware_well_behaved_witness : well_behaved (fee_middleware mock_module).
Proof. exact (fee_middleware_well_behaved mock_module mock_well_behaved). Defined.

(** Closing channel-1 refunds the fees of a packet on channel-10, which is open. *)
Definition f_other : Chain := Eval vm_compute in
  set_mod_store "feeibc" {[ KeyFeesInEscrow (NewPacketID "mock" "channel-10" 1) := Marshal (mkPacketFees [f_record]) ]}
    f_paid.
Example closing_refunds_other_channel :
  let s' := final (RefundFeesOnChannelClosure ctx0 "mock" "channel-1" f_other) in
  GetFeesInEscrow (NewPacketID "mock" "channel-10" 1) f_other = (Ok (Some (mkPacketFees [f_record])), f_other) ∧
  GetFeesInEscrow (NewPacketID "mock" "channel-10" 1) s' = (Ok None, s') ∧
  GetBalance s' "alice" "uatom" = 100.
Proof. vm_compute. done. Qed.
