(* ===== verification/ClientLoop.v ===== *)
(** * A concrete chain with light clients

    An instance of everything the light clients are built on, with its laws: headers
    of a toy consensus that are always well signed, commitment proofs against a table
    of known trees, and keys whose signature is the key before the message.  A chain
    that follows another one with Tendermint clients, sees one of them frozen and
    recovered, and hears from a solo machine. *)

From stdpp Require Import gmap strings list countable.
From Stdlib Require Import ZArith Lia Ascii.
From S2P Require Import Prelude GoStd Sha256 Host Chain Height Capability Port Commitment LightClient Merkle Client Localhost ClientTypes TmStore Tendermint TmStoreProofs Solomachine Clients TmProofs ConnTypes ChanTypes Env ClientChain Connection Channel ChanHandshake Packet ChanProofs PacketProofs Frames ClientProofs Security TmSpecs SmSpecs Codec.

(** ** What the clients are built on *)

(** The trees behind the roots "app" and "ibc-root". *)
Definition ibc_tree : KVStore :=
  {[ PacketCommitmentPath "transfer" "channel-7" 1 := "commitment"; "k" := "v" ]}.
Definition known_trees : gmap string KVStore := {[ "app" := {[ "ibc" := "ibc-root" ]}; "ibc-root" := ibc_tree ]}.

#[export] Instance toy_ics23 : Ics23 := {|
  ProofSpec := bool; ProofSpec_eq_dec := _; IavlSpec := true; TendermintSpec := false |}.

(** A proof names the root of a tree and whether it shows a key or its absence. *)
#[export] Instance toy_proofs : Ics23Proofs := {|
  CommitmentProof := bool * bytes;
  proof_kind p := if p.1 then ExistProof else NonexistProof;
  Calculate p := Some p.2;
  ics23_VerifyMembership _ root p key value :=
    bool_decide (root = p.2) && bool_decide (known_trees !! root ≫= (λ t, t !! key) = Some value);
  ics23_VerifyNonMembership _ root p key :=
    bool_decide (root = p.2) && bool_decide (is_Some (known_trees !! root)) &&
    bool_decide (known_trees !! root ≫= (λ t, t !! key) = None) |}.

Record ToyHeader := mkToyHeader {
  toy_chain : string; toy_height : Z; toy_time : Z; toy_app : bytes; toy_vals : bytes; toy_next : bytes }.

#[export] Instance toy_comet_types : CometTypes := {|
  ProtoHeader := ToyHeader; ph_ChainID := toy_chain; ph_Height := toy_height; ph_Time := toy_time;
  ph_AppHash := toy_app; ph_ValidatorsHash := toy_vals; ph_NextValidatorsHash := toy_next;
  ProtoBlockID := string; ProtoCommit := Z; pc_BlockID _ := "block"; ProtoValidatorSet := string;
  TmValidatorSet := string; TmCommit := Z; Commit_Height c := c; TmBlockID := string;
  BlockID_Hash b := b; TmSignedHeader := string |}.

(** A header is taken when it is newer than the trusted one and the validators are
    those the trusted header announces. *)
#[export] Instance toy_comet : CometBFT := {|
  ValidatorSetFromProto o := o; ValidatorSet_Hash v := v; CommitFromProto o := o; BlockIDFromProto b := Some b;
  SignedHeaderFromProto o := o ≫= (λ h, toy_chain <$> sh_Header h); SignedHeader_ValidateBasic _ _ := true;
  VerifyCommitLight _ _ _ _ _ := true; VerifyCommitLightTrusting _ _ _ _ := true;
  light_Verify trusted vals hd vals' period now drift level :=
    bool_decide (th_ChainID trusted = hd) && (now <? th_Time trusted + period) &&
    bool_decide (th_NextValidatorsHash trusted = vals);
  ValidateHash _ := true; MaxChainIDLen := 50 |}.

#[export] Instance toy_keys : SoloKeys := {|
  PubKey := string; PubKey_eq_dec := _; PubKey_Bytes k := k; MultiSignatureData := unit |}.

#[export] Instance toy_crypto : SoloCrypto := {|
  is_multisig _ := false; PubKey_VerifySignature key msg sig := bool_decide (sig = key +:+ msg);
  PubKey_VerifyMultisignature _ _ _ := false; SignatureDescriptorData := string;
  Unmarshal_SignatureDescriptorData bz := Some bz; SignatureDataFromProto s := Ok (SingleSignatureData s) |}.

(** ** Encodings *)

#[export] Instance Fraction_eq_dec : EqDecision Fraction.
Proof. solve_decision. Defined.
#[export] Instance Fraction_countable : Countable Fraction.
Proof. refine (inj_countable' (λ f, (Numerator f, Denominator f)) (λ '(a, b), mkFraction a b) _). by intros []. Defined.
#[export] Instance TmClientState_countable : Countable TmClientState.
Proof.
  refine (inj_countable' (λ c, ((tm_ChainId c, tm_TrustLevel c, tm_TrustingPeriod c, tm_UnbondingPeriod c),
      (tm_MaxClockDrift c, tm_FrozenHeight c, tm_LatestHeight c, tm_ProofSpecs c),
      (tm_UpgradePath c, tm_AllowUpdateAfterExpiry c, tm_AllowUpdateAfterMisbehaviour c)))
    (λ '((a1, a2, a3, a4), (b1, b2, b3, b4), (c1, c2, c3)), mkTmClientState a1 a2 a3 a4 b1 b2 b3 b4 c1 c2 c3) _).
  by intros [].
Defined.
#[export] Instance AnyPubKey_countable : Countable AnyPubKey.
Proof. refine (inj_countable' (λ k, (any_Value k, any_Cached k)) (λ '(a, b), mkAnyPubKey a b) _). by intros []. Defined.
#[export] Instance SmConsensusState_countable : Countable SmConsensusState.
Proof.
  refine (inj_countable' (λ c, (sm_PublicKey c, sm_Diversifier c, sm_Timestamp c))
    (λ '(a, b, c), mkSmConsensusState a b c) _). by intros [].
Defined.
#[export] Instance SmClientState_eq_dec : EqDecision SmClientState.
Proof. solve_decision. Defined.
#[export] Instance SmClientState_countable : Countable SmClientState.
Proof.
  refine (inj_countable' (λ c, (sm_Sequence c, sm_IsFrozen c, sm_ConsensusState c))
    (λ '(a, b, c), mkSmClientState a b c) _). by intros [].
Defined.
#[export] Instance AnyClientState_eq_dec : EqDecision AnyClientState.
Proof. solve_decision. Defined.
#[export] Instance AnyClientState_countable : Countable AnyClientState.
Proof.
  refine (inj_countable'
    (λ c, match c with AnyTendermint a => inl a | AnySolomachine b => inr (inl b) | AnyLocalhost l => inr (inr l) end)
    (λ s, match s with inl a => AnyTendermint a | inr (inl b) => AnySolomachine b | inr (inr l) => AnyLocalhost l end) _).
  by intros [].
Defined.
#[export] Instance AnyConsensusState_eq_dec : EqDecision AnyConsensusState.
Proof. solve_decision. Defined.
#[export] Instance AnyConsensusState_countable : Countable AnyConsensusState.
Proof.
  refine (inj_countable'
    (λ c, match c with AnyTmConsensus a => inl a | AnySmConsensus b => inr b end)
    (λ s, match s with inl a => AnyTmConsensus a | inr b => AnySmConsensus b end) _).
  by intros [].
Defined.
#[export] Instance MerkleProof_eq_dec : EqDecision MerkleProof.
Proof. solve_decision. Defined.
#[export] Instance MerkleProof_countable : Countable MerkleProof.
Proof. refine (inj_countable' Proofs mkMerkleProof _). by intros []. Defined.
#[export] Instance SigData_eq_dec : EqDecision TimestampedSignatureData.
Proof. solve_decision. Defined.
#[export] Instance SigData_countable : Countable TimestampedSignatureData.
Proof.
  refine (inj_countable' (λ c, (tsd_SignatureData c, tsd_Timestamp c)) (λ '(a, b), mkTimestampedSignatureData a b) _).
  by intros [].
Defined.
#[export] Instance SignBytes_eq_dec : EqDecision SignBytes.
Proof. solve_decision. Defined.
#[export] Instance SignBytes_countable : Countable SignBytes.
Proof.
  refine (inj_countable' (λ c, (sb_Sequence c, sb_Timestamp c, sb_Diversifier c, sb_Path c, sb_Data c))
    (λ '(a, b, c, d, e), mkSignBytes a b c d e) _). by intros [].
Defined.
#[export] Instance HeaderData_eq_dec : EqDecision HeaderData.
Proof. solve_decision. Defined.
#[export] Instance HeaderData_countable : Countable HeaderData.
Proof.
  refine (inj_countable' (λ c, (hd_NewPubKey c, hd_NewDiversifier c)) (λ '(a, b), mkHeaderData a b) _). by intros [].
Defined.
#[export] Instance MerklePath_eq_dec : EqDecision MerklePath.
Proof. solve_decision. Defined.
#[export] Instance MerklePath_countable : Countable MerklePath.
Proof. refine (inj_countable' KeyPath NewMerklePath _). by intros []. Defined.

#[export] Instance toy_clients : ClientEnv := {|
  ce_be := loop_be; ce_ics23 := toy_ics23; ce_proofs := toy_proofs;
  ce_trust := {| ValidateTrustLevel _ := true |};
  ce_upgrade := {| KeyUpgradedClient := "upgradedClient"; KeyUpgradedConsState := "upgradedConsState" |};
  ce_comet_types := toy_comet_types; ce_comet := toy_comet; ce_keys := toy_keys; ce_crypto := toy_crypto;
  ce_cs := countable_proto AnyClientState; ce_cons := countable_proto AnyConsensusState;
  ce_proof := countable_proto MerkleProof; ce_sigdata := countable_proto TimestampedSignatureData;
  ce_signbytes := countable_proto SignBytes; ce_headerdata := countable_proto HeaderData;
  ce_path := countable_proto MerklePath |}.

#[export] Instance toy_client_laws : ClientEnvLaws.
Proof. split; [apply loop_be_laws|apply countable_proto_laws|apply countable_proto_nonempty|apply countable_proto_laws|apply countable_proto_nonempty]. Qed.

#[export] Instance toy_host : HostEnv := {|
  he_staking := {| GetHistoricalInfo _ _ _ := None; UnbondingTime _ _ := 0 |};
  he_upgrade := {| GetUpgradePlan _ _ := None; GetUpgradedClient _ _ _ := None;
    SetUpgradedConsensusState _ _ _ := mret tt; ScheduleUpgrade _ _ := mret tt; SetUpgradedClient _ _ _ := mret tt |};
  he_paths := {| upgrade_StoreKey := "upgrade"; KeyUpgradedIBCState := "upgradedIBCState" |};
  he_owners := countable_proto CapabilityOwners; he_cparams := countable_proto ClientParams;
  he_conn := countable_proto ConnectionEnd; he_connpaths := countable_proto ClientPaths;
  he_connparams := countable_proto ConnParams; he_chan := countable_proto Channel;
  he_storeKey := "ibc"; he_uint64_of_float _ := 0 |}.

#[export] Instance toy_host_laws : HostLaws.
Proof. split; try apply countable_proto_laws; try apply countable_proto_nonempty. done. Qed.

(** ** A chain and its clients *)

Definition at_time (h t : Z) : Context := mkContext "here-1" h t "" "" "".
Definition start : Chain :=
  ((Client_InitGenesis (at_time 1 900) (mkClientGenesis [] [] [] (mkClientParams [Tendermint; Solomachine; Localhost]) 0);;
   Conn_InitGenesis (mkConnGenesis [] [] 0 (mkConnParams 30))) (mkChain ∅ ∅ ∅ ∅ 0 ∅)).2.

Definition there (height : Z) : TmClientState :=
  mkTmClientState "there-1" (mkFraction 1 3) 100000 200000 10 ZeroHeight (mkHeight 1 height)
    [Some true; Some false] ["upgrade"; "upgradedIBCState"] false false.
Definition seen_at (t : Z) : TmConsensusState := mkTmConsensusState t (mkMerkleRoot "app") "vals".
Definition header (height t : Z) : TmHeader :=
  mkTmHeader (Some (mkProtoSignedHeader (Some (mkToyHeader "there-1" height t "app" "vals" "vals")) (Some height)))
    (Some "vals") (mkHeight 1 5) (Some "vals").

Definition created : Chain := (CreateClient (at_time 10 1000) (AnyTendermint (there 5)) (Some (AnyTmConsensus (seen_at 950))) start).2.
(** Height 6 is learnt, and then height 7 comes with an earlier time. *)
Definition client0 : string := "07-tendermint-0".
Definition updated : Chain := (UpdateClient (at_time 11 1100) client0 (Some (AnyTmHeader (header 6 1050))) created).2.
Definition frozen : Chain := (UpdateClient (at_time 12 1200) client0 (Some (AnyTmHeader (header 7 1040))) updated).2.
(** A second client of the same chain is the substitute. *)
Definition client1 : string := "07-tendermint-1".
Definition with_substitute : Chain :=
  (CreateClient (at_time 13 1300) (AnyTendermint (there 9)) (Some (AnyTmConsensus (seen_at 1250))) frozen).2.
Definition replaced : Chain := (ClientUpdateProposal (at_time 14 1400) client0 client1 with_substitute).2.

(** A solo machine with its key, and two signatures: one for a value, one for a new key. *)
Definition solo : string := "06-solomachine-2".
Definition key_of_solo (k : string) : option AnyPubKey := Some (mkAnyPubKey k (Some k)).
Definition solo_start : SmClientState := mkSmClientState 1 false (Some (mkSmConsensusState (key_of_solo "K") "div" 100)).
Definition solo_created : Chain :=
  (CreateClient (at_time 15 1500) (AnySolomachine solo_start)
     (Some (AnySmConsensus (mkSmConsensusState (key_of_solo "K") "div" 100))) replaced).2.
Definition solo_path : MerklePath := NewMerklePath ["ibc"; "k"].
Definition solo_bytes : SignBytes := mkSignBytes 1 110 "div" (MerklePath_String solo_path) "v".
Definition solo_proof : bytes := Marshal (mkTimestampedSignatureData ("K" +:+ Marshal solo_bytes) 110).
Definition solo_proved : Chain :=
  (on_ibc (VerifyMembership (at_time 15 1500) (ClientStore solo) (AnySolomachine solo_start) ZeroHeight 0 0
     solo_proof solo_path "v") solo_created).2.
Definition solo_next : SmClientState := mkSmClientState 2 false (Some (mkSmConsensusState (key_of_solo "K") "div" 110)).
Definition solo_header_bytes : SignBytes :=
  mkSignBytes 2 120 "div" SentinelHeaderPath (@Marshal _ ce_headerdata (mkHeaderData (key_of_solo "L") "div")).
Definition solo_header : SmHeader := mkSmHeader 120 ("K" +:+ Marshal solo_header_bytes) (key_of_solo "L") "div".
Definition solo_rotated : Chain := (UpdateClient (at_time 16 1600) solo (Some (AnySmHeader solo_header)) solo_proved).2.

(** A connection over the first client, with a delay of 50ns and so of two blocks, and
    a proof of a packet commitment. *)
Definition slow_conn : ConnectionEnd :=
  mkConnectionEnd client0 GetCompatibleVersions CONN_OPEN
    (mkConnCounterparty "07-tendermint-3" "connection-3" (NewMerklePrefix "ibc")) 50.
Definition commitment_proof : bytes := @Marshal _ ce_proof (mkMerkleProof [(true, "ibc-root"); (true, "app")]).
