(* ===== verification/TmWitnesses.v ===== *)
(** * The theorems on light clients, on a concrete chain

    The runs of ClientLoop.v evaluated, and each theorem of TmSpecs.v and SmSpecs.v
    applied to them. *)

From stdpp Require Import gmap strings list.
From Stdlib Require Import ZArith Lia Ascii.
From S2P Require Import Prelude GoStd Sha256 Host Chain Height Capability Port Commitment LightClient Merkle Client Localhost ClientTypes TmStore Tendermint TmStoreProofs Solomachine Clients TmProofs ConnTypes ChanTypes Env ClientChain Connection Channel ChanHandshake Packet ChanProofs PacketProofs Frames ClientProofs Security TmSpecs SmSpecs Codec ClientLoop.

Lemma run_state {A S} (r : Outcome A * S) a : r.1 = Ok a → r = (Ok a, r.2).
Proof. destruct r. by intros [= ->]. Qed.

#[local] Opaque created updated frozen with_substitute replaced solo_created solo_proved solo_rotated.
Ltac fits := repeat split; vm_compute; congruence.
Ltac evaluated := apply run_state; vm_compute; reflexivity.

Lemma created_run :
  CreateClient (at_time 10 1000) (AnyTendermint (there 5)) (Some (AnyTmConsensus (seen_at 950))) start = (Ok client0, created).
Proof. evaluated. Qed.
Lemma updated_run :
  UpdateClient (at_time 11 1100) client0 (Some (AnyTmHeader (header 6 1050))) created = (Ok tt, updated).
Proof. evaluated. Qed.
Lemma frozen_run :
  UpdateClient (at_time 12 1200) client0 (Some (AnyTmHeader (header 7 1040))) updated = (Ok tt, frozen).
Proof. evaluated. Qed.
Lemma substitute_created :
  CreateClient (at_time 13 1300) (AnyTendermint (there 9)) (Some (AnyTmConsensus (seen_at 1250))) frozen =
  (Ok client1, with_substitute).
Proof. evaluated. Qed.
Lemma replaced_run : ClientUpdateProposal (at_time 14 1400) client0 client1 with_substitute = (Ok tt, replaced).
Proof. evaluated. Qed.
Lemma solo_created_run :
  CreateClient (at_time 15 1500) (AnySolomachine solo_start)
    (Some (AnySmConsensus (mkSmConsensusState (key_of_solo "K") "div" 100))) replaced = (Ok solo, solo_created).
Proof. evaluated. Qed.
Lemma solo_proved_run :
  on_ibc (VerifyMembership (at_time 15 1500) (ClientStore solo) (AnySolomachine solo_start) ZeroHeight 0 0
     solo_proof solo_path "v") solo_created = (Ok tt, solo_proved).
Proof. evaluated. Qed.
Lemma solo_rotated_run :
  UpdateClient (at_time 16 1600) solo (Some (AnySmHeader solo_header)) solo_proved = (Ok tt, solo_rotated).
Proof. evaluated. Qed.

(** ** The life of the clients *)

Lemma no_keys_below kv st :
  bool_decide (map_Forall (λ k _, HasPrefix k st = false) kv) = true → ∀ x, (kv : KVStore) !! prefixed st x = None.
Proof.
  intros H%bool_decide_eq_true x. destruct (kv !! prefixed st x) as [v|] eqn:Hk; [|done].
  specialize (H _ _ Hk). simpl in H. unfold HasPrefix, prefixed in H. by rewrite prefix_app in H.
Qed.

Lemma history0_created : tm_history client0 created.
Proof.
  apply (hist_create (CE:=toy_clients) (HE:=toy_host) client0 (at_time 10 1000) (there 5) (seen_at 950) start); [|fits|exact created_run].
  apply no_keys_below. vm_compute. reflexivity.
Qed.
Lemma history0_updated : tm_history client0 updated.
Proof. exact (hist_update client0 (at_time 11 1100) _ created updated history0_created updated_run). Qed.
Lemma history1_created : tm_history client1 with_substitute.
Proof.
  apply (hist_create (CE:=toy_clients) (HE:=toy_host) client1 (at_time 13 1300) (there 9) (seen_at 1250) frozen); [|fits|exact substitute_created].
  apply no_keys_below. vm_compute. reflexivity. Qed.

Definition kept_below (st : Store) (kv kv' : KVStore) : bool :=
  bool_decide (map_Forall (λ k v, HasPrefix k st = false ∨ kv' !! k = Some v) kv).

Lemma same_keys_below kv kv' st :
  kept_below st kv kv' && kept_below st kv' kv = true → ∀ x, (kv' : KVStore) !! prefixed st x = kv !! prefixed st x.
Proof.
  intros [H1%bool_decide_eq_true H2%bool_decide_eq_true]%andb_true_iff x.
  assert (HasPrefix (prefixed st x) st = true) as Hp by apply prefix_app.
  destruct (kv !! prefixed st x) as [v|] eqn:E1.
  - destruct (H1 _ _ E1) as [H|H]; [congruence|done].
  - destruct (kv' !! prefixed st x) as [v|] eqn:E2; [|done]. destruct (H2 _ _ E2) as [H|H]; congruence.
Qed.

(** The first client after it was frozen, and replaced by the second. *)
Lemma life0_replaced : tm_life client0 replaced.
Proof.
  apply (life_recover (CE:=toy_clients) (HE:=toy_host) client0 (at_time 14 1400) client1 (there 9) with_substitute);
    [|vm_compute; reflexivity|fits|exact replaced_run].
  apply (life_other (CE:=toy_clients) (HE:=toy_host) client0 frozen).
  - apply (life_update (CE:=toy_clients) (HE:=toy_host) client0 (at_time 12 1200) (Some (AnyTmHeader (header 7 1040))) updated);
      [exact (life_history client0 updated history0_updated)|exact frozen_run].
  - apply same_keys_below. vm_compute. reflexivity.
Qed.




(** ** Proofs *)

Lemma slow_verified :
  VerifyPacketCommitment (at_time 13 1150) slow_conn (mkHeight 1 6) commitment_proof "transfer" "channel-7" 1 "commitment" updated =
  (Ok tt, updated).
Proof.
  set (r := VerifyPacketCommitment _ _ _ _ _ _ _ _ _). assert (r.1 = Ok tt) as H1 by (vm_compute; reflexivity).
  assert (r.2 = updated) as <-; [|by apply run_state]. vm_compute. reflexivity.
Qed.

Lemma delay_period_enforced_witness :
  ∃ pt, GetProcessedTime (ibc updated) (ClientStore client0) (mkHeight 1 6) = Some pt ∧ (is_u64 (pt + 50) → pt + 50 <= 1150).
Proof.
  destruct (delay_period_enforced (CE:=toy_clients) (HE:=toy_host) (at_time 13 1150) slow_conn (mkHeight 1 6) updated updated (there 6))
    as (_ & _ & _ & Ht & _);
    [discriminate|vm_compute; reflexivity|eapply pv_commitment; exact slow_verified|].
  apply Ht. discriminate.
Defined.

Lemma toy_commits spec root t : known_trees !! root = Some t → commits spec root t.
Proof.
  intros Hr. split; simpl; rewrite Hr.
  - intros proof key value [_ H%bool_decide_eq_true]%andb_true_iff. exact H.
  - intros proof key [_ H%bool_decide_eq_true]%andb_true_iff. exact H.
Qed.

Definition there_stores (h : Height) (name : string) : KVStore := if bool_decide (name = "ibc") then ibc_tree else ∅.

Definition root_known (v : bytes) : bool :=
  match @Unmarshal _ ce_cons v with Some (AnyTmConsensus c) => bool_decide (Hash (tm_Root c) = "app") | _ => true end.

Lemma consensus_root i s h c :
  map_Forall (λ k v, negb (HasPrefix k (ClientStore i +:+ "consensusStates/")) || root_known v = true) (ibc s) → consensus_at i s h = Some c → Hash (tm_Root c) = "app".
Proof.
  intros Hk. unfold consensus_at, cons_at, getTmConsensusState. destruct (ibc s !! _) as [bz|] eqn:Hbz; [|done].
  specialize (Hk _ _ Hbz). simpl in Hk. apply orb_true_iff in Hk as [Hk|Hk].
  { change (negb (String.prefix (ClientStore i +:+ "consensusStates/")
      (ClientStore i +:+ ("consensusStates/" +:+ Height_String h))) = true) in Hk.
    by rewrite <- string_app_assoc, prefix_app in Hk. }
  unfold root_known in Hk. simpl in Hk. simpl. destruct (bool_decide (bz = _)); [done|]. simpl.
  destruct (pos_of_string bz ≫= decode) as [[]|]; try done. intros [= ->]. by apply bool_decide_eq_true in Hk.
Qed.

Lemma updated_roots :
  map_Forall (λ k v, negb (HasPrefix k (ClientStore client0 +:+ "consensusStates/")) || root_known v = true) (ibc updated).
Proof. apply (bool_decide_unpack _). vm_compute. exact I. Qed.

Lemma there_root h : multistore_root true false "app" (there_stores h).
Proof.
  exists {[ "ibc" := "ibc-root" ]}. split; [by apply toy_commits|].
  intros name r [<- <-]%lookup_singleton_Some. by apply toy_commits.
Qed.

Lemma tendermint_attests_witness :
  ibc_tree !! PacketCommitmentPath "transfer" "channel-7" 1 = Some "commitment".
Proof.
  pose proof (tendermint_attests (CE:=toy_clients) (HE:=toy_host) client0 updated (there 6) true false there_stores) as Ha.
  specialize (Ha ltac:(discriminate) ltac:(vm_compute; reflexivity) eq_refl).
  assert (attests client0 updated (λ pre h, default ∅ (there_stores h <$> PathUnescape pre))) as Hatt.
  { apply Ha. intros h c Hc. rewrite (consensus_root _ _ _ _ updated_roots Hc). apply there_root. }
  apply (attested_member _ (at_time 13 1150) slow_conn (packet_delay slow_conn) (PacketCommitmentPath "transfer" "channel-7" 1)
    (mkHeight 1 6) commitment_proof "commitment" updated updated) in Hatt; [exact Hatt|reflexivity|ro|exact slow_verified].
Defined.

(** ** The solo machine *)

Lemma solomachine_no_replay_witness : NoDup [solo_bytes; solo_header_bytes].
Proof.
  apply (solomachine_no_replay (CE:=toy_clients) (HE:=toy_host) solo solo_created [solo_bytes; solo_header_bytes] solo_rotated solo_start);
    [vm_compute; reflexivity| |done|fits].
  eapply (run_accept (CE:=toy_clients) (HE:=toy_host) _ _ solo_start _ solo_proved); [vm_compute; reflexivity| |].
  - eapply (accepts_member (CE:=toy_clients) (HE:=toy_host) _ _ solo_start (at_time 15 1500) ZeroHeight 0 0 solo_proof solo_path "v"
      (mkTimestampedSignatureData ("K" +:+ Marshal solo_bytes) 110)
      (mkSmConsensusState (key_of_solo "K") "div" 100)); [done|vm_compute; reflexivity|exact solo_proved_run].
  - eapply (run_accept (CE:=toy_clients) (HE:=toy_host) _ _ solo_next _ solo_rotated); [vm_compute; reflexivity| |constructor].
    apply (accepts_header (CE:=toy_clients) (HE:=toy_host) solo solo_proved solo_next (at_time 16 1600) solo_header (mkSmConsensusState (key_of_solo "K") "div" 110)); [done|exact solo_rotated_run].
Defined.
