(* ===== verification/IcaWitnesses.v ===== *)
(** * The theorems on interchain accounts, on a concrete chain

    The hypotheses hold on the chain of IcaLoop.v: it is reached from genesis, its
    registry is in order, Alice's channel is open, and the transaction her port sends
    is executed. *)

From stdpp Require Import gmap strings list countable relations.
From Stdlib Require Import ZArith Lia Ascii.
From S2P Require Import Prelude GoStd Sha256 Host Chain ModuleStore Height Capability Port Commitment LightClient Client Localhost ConnTypes ChanTypes Env Connection Channel ChanHandshake Packet MsgServer CoreMsgs ChanProofs PacketProofs Frames HandshakeProofs Protocol Guarantees MsgProofs Security TransferTypes FeeTypes Transfer TransferSpecs IcaTypes Ica IcaProofs IcaSpecs Codec Loopback Witnesses TransferLoop IcaLoop.

(** ** Reached from genesis *)

Lemma ica_version_ro p c : readonly (ics4_GetAppVersion ica_ics4 p c).
Proof. cbn [ica_ics4 channel_ics4 ics4_GetAppVersion]. unfold GetAppVersion. ro. Qed.

Lemma notes_run msg h ctx : Handler msg = Some h → runs (h ctx).
Proof. destruct msg as [a t|m]; [|done]. intros [= <-]. apply runs_same. by intros s. Qed.

Lemma ica_routed m cbs : GetRoute ica_router m = Some cbs → well_behaved cbs.
Proof.
  unfold GetRoute. case_match; [done|]. simpl.
  intros [[_ <-]|[_ [_ <-]%lookup_singleton_Some]]%lookup_insert_Some.
  - apply (controller_well_behaved ica_ics4 ica_version_ro None). intros cbs [=].
  - exact (host_well_behaved ica_ics4 ica_version_ro notes_run).
Qed.

Lemma delivered_ica s s' :
  from_genesis s → delivered ica_router bech32 ctx0 s s' → from_genesis s'.
Proof.
  intros Hr Hd. unfold from_genesis. etrans; [exact Hr|].
  pose proof (reachable_inv _ (from_genesis_reachable s Hr)) as HI.
  by destruct (delivered_runs _ _ ica_routed _ _ _ ∅ HI (loop_localhost s) Hd).
Qed.

Lemma i_bound_from_genesis : from_genesis i_bound.
Proof.
  eapply op_from_genesis; [apply rtc_refl|]. apply op_outside. apply (bool_decide_eq_true_1 _). vm_compute. reflexivity.
Qed.

Lemma i_next (s : Chain) n : bool_decide (next_channel s = Some n) = true → n < 10 → next_channel s ≠ Some MaxUint64.
Proof. intros ->%bool_decide_eq_true_1 Hn [= ->]. done. Qed.

Lemma i_open_from_genesis : from_genesis i_open.
Proof.
  eapply delivered_ica; [|eapply delivered_open_confirm, i_confirm_run].
  eapply delivered_ica; [|eapply delivered_open_ack, i_ack_run].
  eapply delivered_ica; [|eapply delivered_open_try, i_try_run; apply (i_next i_init 1); [vm_compute; reflexivity|lia]].
  eapply delivered_ica; [|eapply delivered_open_init, i_init_run; apply (i_next i_bound 0); [vm_compute; reflexivity|lia]].
  apply i_bound_from_genesis.
Qed.

Lemma i_sent_from_genesis : from_genesis i_sent.
Proof.
  pose proof i_open_from_genesis as Hr. pose proof (reachable_inv _ (from_genesis_reachable _ Hr)) as HI.
  unfold from_genesis. etrans; [exact Hr|].
  exact (proj1 (Msg_SendTx_runs ctx0 (i_send i_notes) i_open 1 i_sent ∅ HI (loop_localhost _) i_send_run)).
Qed.

(** ** The theorems on it *)

Lemma ica_well_behaved_witness :
  well_behaved (controller_middleware ica_ics4 (Some mock_module)) ∧ well_behaved (host_module ica_ics4).
Proof.
  exact (ica_well_behaved ica_ics4 ica_version_ro (Some mock_module)
    (λ m (H : Some mock_module = Some m), eq_ind mock_module well_behaved mock_well_behaved m (f_equal (default m) H))
    notes_run).
Defined.

(** *** Executing *)

Lemma host_executes_for_owner_witness :
  (∃ hop msgs responses, admitted (i_packet i_notes) i_recv hop account msgs ∧
    execute_msgs ctx0 msgs i_recv = (Ok responses, i_done)) ∧
  mod_store "notes" i_done !! account = Some "world".
Proof.
  split; [|vm_compute; reflexivity].
  destruct (host_executes_for_owner ica_ics4 ctx0 (i_packet i_notes) "r" i_recv (Some i_answer) i_done i_done_run)
    as [(e & s2 & [= H _] & _)|(hop & address & msgs & responses & bz & Had & Hx & _ & _)].
  exists hop, msgs, responses. assert (address = account) as ->; [|split; [exact Had|exact Hx]].
  destruct (ad_hop _ _ _ _ _ Had) as (ch & Hch & Hhop).
  assert (channel_at HostPortID "channel-1" i_recv = Some (mkChannel OPEN ORDERED (mkCounterparty port "channel-0") hops i_version))
    as Hc by (vm_compute; reflexivity).
  assert (hop = LocalhostConnectionID) as -> by (change (channel_at HostPortID "channel-1" i_recv = Some ch) in Hch; rewrite Hc in Hch; injection Hch as <-; by injection Hhop).
  pose proof (ad_account _ _ _ _ _ Had) as Ha.
  assert (mod_store host_storeKey i_recv !! KeyOwnerAccount port LocalhostConnectionID = Some account) as Hb by (vm_compute; reflexivity).
  change (mod_store host_storeKey i_recv !! KeyOwnerAccount port LocalhostConnectionID = Some address) in Ha.
  rewrite Hb in Ha. by injection Ha.
Defined.

Lemma executed_was_sent_witness :
  ∃ hop address msgs responses, admitted (i_packet i_notes) i_recv hop address msgs ∧
    execute_msgs ctx0 msgs i_recv = (Ok responses, i_done).
Proof.
  destruct (executed_was_sent ica_ics4 (itself i_sent) ctx0 host_cap (i_packet i_notes) SentinelProof zero i_sent i_recv
    (mkChannel OPEN ORDERED (mkCounterparty port "channel-0") hops i_version) loop_conn chain_genesis (i_sent, ∅)
    "r" i_answer i_done) as (hop & address & msgs & responses & H1 & H2 & _).
  - apply loop_localhost.
  - vm_compute. reflexivity.
  - split; vm_compute; congruence.
  - exact i_recv_run.
  - vm_compute. reflexivity.
  - exists LocalhostConnectionID. split; [reflexivity|vm_compute; reflexivity].
  - apply localhost_attests.
  - apply genesis_no_channels.
  - exact i_sent_from_genesis.
  - reflexivity.
  - exact i_done_run.
  - reflexivity.
  - exists hop, address, msgs, responses. split; [exact H1|exact H2].
Defined.

(** *** Sending *)

Lemma i_active : active_open LocalhostConnectionID port "channel-0" i_open.
Proof. split; [vm_compute; reflexivity|]. eexists. split; vm_compute; reflexivity. Qed.

Lemma send_tx_spec_witness :
  ∃ id cap, active_open LocalhostConnectionID port id i_open ∧
    ics4_SendPacket ica_ics4 ctx0 (Some cap) port id ZeroHeight 1500 (IcaPacketData_GetBytes (tx_of i_notes)) i_open
      = (Ok 1, i_sent).
Proof.
  destruct (send_tx_spec ica_ics4 ctx0 (i_send i_notes) i_open) as [H _]; [split; vm_compute; congruence..|].
  destruct (H 1 i_sent i_send_run) as (_ & _ & _ & _ & id & cap & Ha & _ & Hs).
  exists id, cap. split; [exact Ha|exact Hs].
Defined.

Lemma active_channel_exclusive_witness :
  active_open LocalhostConnectionID port "channel-0" i_open ∧
  registerInterchainAccount ctx0 LocalhostConnectionID port "" i_open = (Err Ica_ErrActiveChannelAlreadySet, i_open).
Proof.
  split; [exact i_active|].
  exact (proj1 (active_channel_exclusive ica_ics4 None LocalhostConnectionID port "channel-0" i_open i_active) ctx0 "").
Defined.

(** *** Accounts *)

(** The account of Alice's port is the only entry of the registry, and backed. *)
Definition one_account (s : Chain) : bool :=
  forallb (λ e : string * string, negb (HasPrefix e.1 "owner/") ||
      bool_decide (e = (KeyOwnerAccount port LocalhostConnectionID, account)))
    (map_to_list (mod_store host_storeKey s)) &&
  bool_decide (owner_of account s = Some port).

Lemma owner_prefix p c : HasPrefix (KeyOwnerAccount p c) "owner/" = true.
Proof. exact (prefixed_has_prefix "owner/" (p +:+ "/" +:+ c)). Qed.

Lemma one_account_only s c p addr :
  one_account s = true → no_slash p → account_of c p s = Some addr →
  c = LocalhostConnectionID ∧ p = port ∧ addr = account.
Proof.
  intros [Hall _]%andb_true_iff Hp Ha. unfold account_of in Ha. rewrite forallb_forall in Hall.
  apply elem_of_map_to_list, list_elem_of_In, Hall in Ha. cbn [fst] in Ha. rewrite owner_prefix in Ha.
  apply bool_decide_eq_true in Ha. pose proof (f_equal fst Ha) as Hk. pose proof (f_equal snd Ha) as Hv. cbn [fst snd] in *.
  apply KeyOwnerAccount_inj in Hk as [-> ->]; done.
Qed.

Lemma one_account_ok s : one_account s = true → registry_ok s.
Proof.
  intros H. split.
  - intros c p addr Hp (-> & -> & ->)%one_account_only; [|done..].
    exists account. apply andb_true_iff in H as [_ H%bool_decide_eq_true]. done.
  - intros c p c' p' addr Hp Hp' (-> & -> & _)%one_account_only (-> & -> & _)%one_account_only; done.
Qed.

Lemma no_account_ok s :
  forallb (λ e : string * string, negb (HasPrefix e.1 "owner/")) (map_to_list (mod_store host_storeKey s)) = true →
  registry_ok s.
Proof.
  intros Hall. assert (∀ c p addr, account_of c p s ≠ Some addr) as Hno.
  { intros c p addr Ha. unfold account_of in Ha. rewrite forallb_forall in Hall.
    apply elem_of_map_to_list, list_elem_of_In, Hall in Ha. cbn [fst] in Ha. by rewrite owner_prefix in Ha. }
  split; [by intros c p addr _ ?%Hno|by intros c p c' p' addr _ _ ?%Hno].
Qed.

Lemma i_init_registry : registry_ok i_init.
Proof. apply no_account_ok. vm_compute. reflexivity. Qed.

(** The account stays while the channel is opened. *)
Lemma i_host_confirm : Host_OnChanOpenConfirm ctx0 HostPortID "channel-1" i_ack = (Ok tt, final (Host_OnChanOpenConfirm ctx0 HostPortID "channel-1" i_ack)).
Proof. apply run_final. vm_compute. reflexivity. Qed.

Lemma accounts_permanent_witness :
  account_of LocalhostConnectionID port i_ack = Some account ∧
  account_of LocalhostConnectionID port (final (Host_OnChanOpenConfirm ctx0 HostPortID "channel-1" i_ack)) = Some account.
Proof.
  assert (account_of LocalhostConnectionID port i_ack = Some account) as H by (vm_compute; reflexivity).
  split; [exact H|].
  apply (accounts_permanent ica_ics4 "gov" ica_version_ro i_ack _ LocalhostConnectionID port account).
  - apply one_account_ok. vm_compute. reflexivity.
  - apply rtc_once. exact (hs_confirm ica_ics4 "gov" ctx0 HostPortID "channel-1" _ _ i_host_confirm).
  - reflexivity.
  - exact H.
Defined.

(** The transaction was not relayed in time: the ordered channel closes at both ends,
    and Alice opens another one. *)
Definition controller_cap : option Capability :=
  match GetCapability Controller_SubModuleName (ChannelCapabilityPath port "channel-0") i_open with
  | (Ok c, _) => c
  | _ => None
  end.
Definition i_timed : Chain := final (TimeoutExecuted controller_cap (i_packet i_notes) i_sent).
Definition i_msg_close : MsgChannelCloseConfirm :=
  {| mcc_PortId := HostPortID; mcc_ChannelId := "channel-1"; mcc_ProofInit := SentinelProof; mcc_ProofHeight := zero;
     mcc_Signer := "r" |}.
Definition i_closed : Chain := final (Msg_ChannelCloseConfirm ica_router ctx0 i_msg_close i_timed).
Definition ctx1 : Context := mkContext "loop-1" 11 2000 "" "app" "data".
Definition i_again (s : Chain) : Outcome string * Chain :=
  Host_OnChanOpenTry ica_ics4 ctx1 ORDERED hops HostPortID "channel-3" (Some (mkCapability 0 0))
    (mkCounterparty port "channel-2") i_version0 s.
Lemma i_again_run : i_again i_closed = (Ok i_version, final (i_again i_closed)).
Proof. apply run_final. vm_compute. reflexivity. Qed.

Lemma reopening_keeps_account_witness :
  account_of LocalhostConnectionID port i_closed = Some account ∧
  ∃ metadata, IcaMetadata_UnmarshalJSON i_version = Some metadata ∧ im_Address metadata = account ∧
    account_of LocalhostConnectionID port (final (i_again i_closed)) = Some account.
Proof.
  assert (account_of LocalhostConnectionID port i_closed = Some account) as H by (vm_compute; reflexivity).
  split; [exact H|].
  destruct (reopening_keeps_account ica_ics4 ica_version_ro ctx1 ORDERED hops HostPortID "channel-3" (Some (mkCapability 0 0))
    (mkCounterparty port "channel-2") i_version0 i_closed i_version (final (i_again i_closed)))
    as (m & hop & addr & Hm & [= <-] & _ & Ha & Hs & Hold & _).
  - apply one_account_ok. vm_compute. reflexivity.
  - reflexivity.
  - exact i_again_run.
  - pose proof (Hold account H) as Heq. rewrite <- Heq in Ha, Hs. exists m. split; [exact Hm|]. split; [exact Ha|exact Hs].
Defined.

(** The two ends of the channel, each with the account. *)
Definition i_host_try : Outcome string * Chain :=
  Host_OnChanOpenTry ica_ics4 ctx0 ORDERED hops HostPortID "channel-1" (Some (mkCapability 0 0))
    (mkCounterparty port "channel-0") i_version0 i_init.
Definition i_controller_ack : Outcome () * Chain := ControllerKeeper_OnChanOpenAck ctx0 port "channel-0" i_version i_try.
Lemma i_host_try_run :
  Host_OnChanOpenTry ica_ics4 ctx0 ORDERED hops HostPortID "channel-1" (Some (mkCapability 0 0))
    (mkCounterparty port "channel-0") i_version0 i_init = (Ok i_version, final i_host_try).
Proof. unfold i_host_try. apply run_final. vm_compute. reflexivity. Qed.
Lemma i_controller_ack_run :
  ControllerKeeper_OnChanOpenAck ctx0 port "channel-0" i_version i_try = (Ok tt, final i_controller_ack).
Proof. unfold i_controller_ack. apply run_final. vm_compute. reflexivity. Qed.

Lemma account_agreement_witness :
  ∃ hop hop' addr, account_of hop' port (final i_host_try) = Some addr ∧
    mod_store controller_storeKey (final i_controller_ack) !! KeyOwnerAccount port hop = Some addr.
Proof.
  destruct (account_agreement ica_ics4 ctx0 ORDERED hops HostPortID "channel-1" (Some (mkCapability 0 0))
    (mkCounterparty port "channel-0") i_version0 i_init i_version (final i_host_try) ctx0 "channel-0" i_try
    (final i_controller_ack) ica_version_ro i_init_registry eq_refl i_host_try_run i_controller_ack_run)
    as (ch & hop & conn & addr & _ & _ & _ & _ & Hh & Hc & _).
  exists hop, (cpc_ConnectionId (conn_Counterparty conn)), addr. split; [exact Hh|exact Hc].
Defined.
