(* ===== verification/AuthzWitnesses.v ===== *)
(** * Authorizations on concrete coins

    The coins of TransferLoop.v with the operations authorizations use; a grant of two
    channels, spent in three transfers. *)

From stdpp Require Import gmap strings list.
From Stdlib Require Import ZArith Lia Ascii.
From S2P Require Import Prelude GoStd Host Chain Height ConnTypes ChanTypes LightClient TransferTypes FeeTypes TransferAuthz TransferLoop.

Definition sub_amount (c x : Coin) : Coin :=
  mkCoin (Denom x) (if bool_decide (Denom x = Denom c) then Amount x - Amount c else Amount x).

#[local] Instance authz_sdk : SdkTypes := loop_sdk.
#[export] Instance loop_checks : CoinsChecks := {|
  Coins_IsValid := valid_coins; Coins_IsZero := forallb (λ c, Amount c =? 0) |}.
#[export] Instance loop_limits : CoinsLimits := {|
  Coins_AmountOf cs d := Ok (amount_of d cs);
  Coins_SafeSub cs c :=
    if Amount c <? 0 then Panic
    else Ok (List.filter positive_coin (sub_amount c <$> cs), amount_of (Denom c) cs <? Amount c)
|}.

Lemma amount_filter_positive d cs :
  Forall (λ c, 0 <= Amount c) cs → amount_of d (List.filter positive_coin cs) = amount_of d cs.
Proof.
  induction 1 as [|c cs Hc _ IH]; [done|]. simpl. unfold positive_coin at 1. destruct (Z.ltb_spec 0 (Amount c)); simpl; [by rewrite IH|].
  case_bool_decide; lia.
Qed.

Lemma amount_absent d cs : d ∉ (Denom <$> cs) → amount_of d cs = 0.
Proof.
  induction cs as [|c cs IH]; [done|]. rewrite fmap_cons, not_elem_of_cons. intros [Hd Hcs]. simpl.
  rewrite bool_decide_eq_false_2 by done. by rewrite IH.
Qed.

Lemma valid_amount_nonneg d cs : Forall (λ c, 0 < Amount c) cs → 0 <= amount_of d cs.
Proof. induction 1 as [|c cs Hc _ IH]; simpl; [lia|]. case_bool_decide; lia. Qed.

Lemma sub_other c (cs : list Coin) : Denom c ∉ (Denom <$> cs) → sub_amount c <$> cs = cs.
Proof.
  induction cs as [|x cs IH]; [done|]. rewrite fmap_cons, not_elem_of_cons. intros [Hx Hcs]. rewrite fmap_cons, IH by done.
  unfold sub_amount. rewrite bool_decide_eq_false_2 by congruence. by destruct x.
Qed.

Lemma sub_amounts c (cs : list Coin) :
  Forall (λ c, 0 < Amount c) cs → NoDup (Denom <$> cs) → 0 <= Amount c <= amount_of (Denom c) cs →
  Forall (λ c, 0 <= Amount c) (sub_amount c <$> cs) ∧
  ∀ d, amount_of d (sub_amount c <$> cs) = amount_of d cs - amount_of d [c].
Proof.
  intros Hp. induction Hp as [|x cs Hx Hp IH]; intros Hn [Hlo Hc].
  - split; [constructor|]. intros d. simpl in *. case_bool_decide; lia.
  - rewrite fmap_cons in *. apply NoDup_cons in Hn as [Hin Hn]. cbn [amount_of] in Hc. case_bool_decide as Hd.
    + rewrite Hd in Hin. rewrite sub_other by done. rewrite (amount_absent (Denom c)) in Hc by done.
      unfold sub_amount. rewrite bool_decide_eq_true_2 by done. split.
      * constructor; [simpl; lia|]. eapply Forall_impl; [exact Hp|]. simpl. lia.
      * intros d. simpl. rewrite Hd. case_bool_decide; lia.
    + destruct IH as [IH1 IH2]; [done|lia|]. unfold sub_amount at 1 3. rewrite bool_decide_eq_false_2 by done. split.
      * constructor; [simpl; lia|done].
      * intros d. cbn [amount_of Denom Amount]. rewrite IH2. cbn [amount_of]. lia.
Qed.

Lemma sub_denoms c (cs : list Coin) : Denom <$> (sub_amount c <$> cs) = Denom <$> cs.
Proof. rewrite <- list_fmap_compose. by apply list_fmap_ext. Qed.

Lemma filter_positive_valid (cs : list Coin) : NoDup (Denom <$> cs) → valid_coins (List.filter positive_coin cs) = true.
Proof.
  intros Hn. apply valid_coins_ok. split.
  - apply Forall_forall. intros x Hx. apply list_elem_of_In, filter_In in Hx as [_ Hx]. by apply Z.ltb_lt.
  - induction cs as [|x cs IH]; [constructor|]. rewrite fmap_cons in Hn. apply NoDup_cons in Hn as [Hin Hn]. simpl.
    destruct (positive_coin x); [|by apply IH]. rewrite fmap_cons. apply NoDup_cons. split; [|by apply IH].
    intros (y & Hy & Hy')%list_elem_of_fmap. apply Hin. apply list_elem_of_In, filter_In in Hy' as [Hy' _]. rewrite Hy.
    by apply list_elem_of_fmap_2, list_elem_of_In.
Qed.

#[export] Instance loop_limits_laws : CoinsLimitsLaws.
Proof.
  split; simpl.
  - by intros cs d n _ [= <-].
  - intros cs c r neg Hv%check_ok. destruct (Z.ltb_spec (Amount c) 0) as [|Hc]; [done|]. intros [= <- <-] Hneg%Z.ltb_ge.
    pose proof Hv as [Hp Hn]%valid_coins_ok. destruct (sub_amounts c cs Hp Hn) as [Hpos Ham]; [done|].
    split_and!; [done| |].
    + by rewrite filter_positive_valid by (by rewrite sub_denoms).
    + intros d. by rewrite amount_filter_positive by done.
  - intros cs _ Hz d. rewrite forallb_forall in Hz. induction cs as [|x cs IH]; [done|]. cbn [amount_of].
    pose proof (Hz x (or_introl eq_refl)) as Hx%Z.eqb_eq. rewrite IH by (intros y Hy; apply Hz; by right). case_bool_decide; lia.
  - intros cs d [Hp _]%check_ok%valid_coins_ok. by apply valid_amount_nonneg.
Qed.

(** ** A grant *)

Definition g_atoms (n : Z) : list Coin := [mkCoin "uatom" n].
Definition g_grant : TransferAuthorization :=
  NewTransferAuthorization
    [mkAllocation "transfer" "channel-0" (Some (g_atoms 100)) ["bob"; "carol"];
     mkAllocation "transfer" "channel-1" (Some [mkCoin "stake" UnboundedSpendLimit]) []].
Definition g_msg (channel : string) (token : Coin) (receiver : string) : MsgTransfer :=
  mkMsgTransfer "transfer" channel token "alice" receiver ZeroHeight 1 "".
Definition g_left : TransferAuthorization :=
  mkTransferAuthorization [mkAllocation "transfer" "channel-1" (Some [mkCoin "stake" UnboundedSpendLimit]) []].
Definition g_spent : list MsgTransfer :=
  [g_msg "channel-0" (mkCoin "uatom" 30) "bob"; g_msg "channel-1" (mkCoin "stake" 5000) "dave";
   g_msg "channel-0" (mkCoin "uatom" 70) "carol"].

Lemma g_run : spends g_grant g_spent (Some g_left).
Proof. repeat (eapply spends_more; [vm_compute; reflexivity|reflexivity|]). apply spends_none. Qed.

Example g_overspend : Accept g_grant (Some (g_msg "channel-0" (mkCoin "uatom" 101) "bob")) = Err ErrInsufficientFunds.
Proof. reflexivity. Qed.

Lemma grant_never_overspent_witness :
  TransferAuthorization_ValidateBasic g_grant = Ok tt ∧
  transferred "transfer" "channel-0" "uatom" g_spent + limit_left "transfer" "channel-0" "uatom" (Some g_left) = 100.
Proof.
  assert (TransferAuthorization_ValidateBasic g_grant = Ok tt) as Hv by (vm_compute; reflexivity).
  split; [exact Hv|].
  exact (proj1 (proj1 (grant_never_overspent g_grant g_spent (Some g_left) Hv g_run) "transfer" "channel-0" "uatom" eq_refl)).
Defined.
